(** * Voxel world simulation core: a shallow embedding

    The simulation core of the scene component (terrain field, chunk
    streaming, bird and villager state machines, player controller, particle
    pool) is embedded as Rocq functions, and the properties of its
    specification are stated and proved over them.

    Conventions.
    - A JavaScript [number] is an exact rational ([Q]); a number that the
      code only uses as an integer (chunk coordinates, counters, indices) is
      a [Z] or a [nat].  Rounding, NaN and the infinities of binary
      floating point are outside the model.
    - [Math.sin], [Math.cos], [Math.sqrt] and [Math.PI] belong
      to the host, not to the repository: they are the fields of the class
      [JSMath] and every definition is parametric in them.
    - [Math.random()] is a stream of draws [Math_random : nat -> Q] of the
      host with a cursor in the program state; the code's draws are taken
      from it in program order.
    - A [THREE.Vector3] is a record of three numbers; a matrix baked by
      [updateMatrix()] is the position and Euler rotation it was composed
      from (the scale of the shared dummy object is never changed). *)

From Stdlib Require Import ZArith QArith Qround Qabs Qminmax List Bool Lia Lqa.
From Stdlib Require Import String Ascii DecimalString Decimal DecimalZ DecimalPos.
Import ListNotations.

Local Open Scope Q_scope.

(** ** Numbers *)

Module Num.

Definition ltb (a b : Q) : bool := if Qlt_le_dec a b then true else false.
Definition leb (a b : Q) : bool := Qle_bool a b.
Definition gtb (a b : Q) : bool := ltb b a.
Definition geb (a b : Q) : bool := leb b a.

(** [Math.floor] on a number, as an integer. *)
Definition floor (a : Q) : Z := Qfloor a.

(** [a || b] on numbers: [b] when [a] is zero. *)
Definition orElse (a b : Q) : Q := if Qeq_bool a 0 then b else a.

End Num.

Infix "<?" := Num.ltb (at level 70, no associativity) : Q_scope.
Infix "<=?" := Num.leb (at level 70, no associativity) : Q_scope.
Infix ">?" := Num.gtb (at level 70, no associativity) : Q_scope.
Infix ">=?" := Num.geb (at level 70, no associativity) : Q_scope.

(** ** The host's math library *)

Class JSMath : Type := {
  Math_sin : Q -> Q;
  Math_cos : Q -> Q;
  Math_sqrt : Q -> Q;
  Math_PI : Q;
  Math_random : nat -> Q
}.

(** ** Math.random *)

(** The random source as the program sees it: the number of draws made
    so far.  The draws themselves, [Math_random 0], [Math_random 1], ...,
    belong to the host. *)
Definition RNG : Type := nat.

Section Random.
Context {M : JSMath}.

(** One call of [Math.random()]: the next draw, and the source advanced
    by one. *)
Definition random (g : RNG) : Q * RNG := (Math_random g, S g).

(** The [k]-th draw a piece of code makes when it starts at [g]. *)
Definition draw (g : RNG) (k : nat) : Q := Math_random (g + k).

(** The source [g] after [k] draws. *)
Definition skip (g : RNG) (k : nat) : RNG := (g + k)%nat.

(** The host's contract for [Math.random()]: a number in [0, 1). *)
Definition unitDraws : Prop :=
  forall n, 0 <= Math_random n /\ Math_random n < 1.

End Random.

(** ** THREE.Vector3 *)

Record Vector3 : Type := vec3 { vx : Q; vy : Q; vz : Q }.

Module V3.
Section WithMath.
Context {M : JSMath}.

Definition zero : Vector3 := vec3 0 0 0.
Definition add (a b : Vector3) : Vector3 :=
  vec3 (vx a + vx b) (vy a + vy b) (vz a + vz b).
Definition sub (a b : Vector3) : Vector3 :=
  vec3 (vx a - vx b) (vy a - vy b) (vz a - vz b).
Definition multiplyScalar (a : Vector3) (s : Q) : Vector3 :=
  vec3 (vx a * s) (vy a * s) (vz a * s).
Definition divideScalar (a : Vector3) (s : Q) : Vector3 :=
  multiplyScalar a (1 / s).
Definition lengthSq (a : Vector3) : Q :=
  vx a * vx a + vy a * vy a + vz a * vz a.
Definition length (a : Vector3) : Q := Math_sqrt (lengthSq a).
Definition normalize (a : Vector3) : Vector3 :=
  divideScalar a (Num.orElse (length a) 1).
Definition distanceToSquared (a b : Vector3) : Q := lengthSq (sub a b).
Definition distanceTo (a b : Vector3) : Q := Math_sqrt (distanceToSquared a b).
(** [a.lerp(b, alpha)]: [a += (b - a) * alpha], componentwise. *)
Definition lerp (a b : Vector3) (alpha : Q) : Vector3 :=
  vec3 (vx a + (vx b - vx a) * alpha)
       (vy a + (vy b - vy a) * alpha)
       (vz a + (vz b - vz a) * alpha).

End WithMath.
End V3.

(** ** constants.ts *)

Definition CHUNK_SIZE : Z := 32.
Definition RENDER_DISTANCE_IN_CHUNKS : Z := 5.
Definition TREE_DENSITY : Q := 1 # 10.
Definition BUSH_DENSITY : Q := 8 # 100.
Definition DIRT_PATCH_DENSITY : Q := 15 # 100.
Definition FLOWER_DENSITY : Q := 15 # 100.
Definition MUSHROOM_DENSITY : Q := 8 # 100.
Definition GRASS_DENSITY : Q := 3 # 10.
Definition BIRD_TREE_CHANCE : Q := 4 # 10.
Definition NEST_CHANCE : Q := 3 # 10.
Definition VILLAGE_DENSITY : Q := 4 # 100.

Definition PLAYER_SPEED : Q := 9.
Definition PLAYER_RUN_MULTIPLIER : Q := 2.
Definition PLAYER_ROTATION_SPEED : Q := 3.
Definition GRAVITY : Q := 30.
Definition JUMP_FORCE : Q := 10.

Definition BIRD_MAX_SPEED : Q := 4.
Definition VILLAGER_INTERACTION_RADIUS : Q := 8.

(** ** utils.ts *)

Section Utils.
Context {M : JSMath}.

(** [pseudoRandom]: the post-increment [seed++] passes the old value of
    [seed] to [Math.sin]; the incremented value is never read. *)
Definition pseudoRandom (seed : Q) : Q :=
  let x := Math_sin seed * 10000 in
  x - inject_Z (Num.floor x).

Definition getHeight (x z : Q) : Q :=
  let scale := 80 in
  let roughness := 6 # 10 in
  let amplitude := 15 in
  let height := Math_sin (x / scale) * Math_cos (z / scale) * amplitude in
  height + (Math_sin (x / (scale * (1 # 2))) * Math_cos (z / (scale * (1 # 2))))
           * amplitude * roughness.

End Utils.


(** ** Counted loops over numbers *)

(** [for (let v = start; cond(v); v += 1)]: the values of [v] for which the
    body runs.  [fuel] bounds the number of iterations; [loopFuel] below is
    always enough for the loops of this program. *)
Fixpoint forFrom (fuel : nat) (cond : Q -> bool) (v : Q) : list Q :=
  match fuel with
  | O => []
  | S k => if cond v then v :: forFrom k cond (v + 1) else []
  end.

(** Iterations needed to walk from [lo] past [hi] in unit steps. *)
Definition loopFuel (lo hi : Q) : nat := S (Z.to_nat (Qceiling (hi - lo))).

(** [for (v = lo; v < hi; v += 1)] *)
Definition forLt (lo hi : Q) : list Q :=
  forFrom (loopFuel lo hi) (fun v => v <? hi) lo.

(** [for (v = lo; v <= hi; v += 1)] *)
Definition forLe (lo hi : Q) : list Q :=
  forFrom (loopFuel lo hi) (fun v => v <=? hi) lo.

(** [xs[i]] for an integral number [i]: [None] stands for [undefined]. *)
Definition at_ {A : Type} (xs : list A) (i : Z) : option A :=
  if (i <? 0)%Z then None else List.nth_error xs (Z.to_nat i).

(** [xs.flatMap(f)]: nested loops that push in order. *)
Definition flatMap {A B : Type} (f : A -> list B) (xs : list A) : list B :=
  List.concat (List.map f xs).

(** ** world.ts *)

Record Twig : Type := { twigPosition : Vector3; twigRotation : Vector3 }.

Record Nest : Type := { nestPosition : Vector3; twigs : list Twig }.

Record Tree : Type := {
  treePosition : Vector3;          (* tree.position, chunk-local *)
  height : Q;                      (* userData.height *)
  trunkWidth : Q;
  leafPositions : list Vector3;    (* the instanced leaves, in order *)
  nest : option Nest               (* userData.nest *)
}.

Record Bush : Type := {
  bushPosition : Vector3;
  bushLeaves : list Vector3
}.

Record House : Type := {
  houseWidth : Q;
  houseDepth : Q;
  walls : list Vector3;
  roof : list Vector3;
  interiorPoint : Vector3
}.

Inductive FarmBlock : Type :=
| Water (x z : Q)
| Farmland (x z : Q) (cropHeight : Q).

Record FarmPlot : Type := {
  farmWidth : Q;
  farmDepth : Q;
  posts : list Vector3;
  blocks : list FarmBlock;
  workPoints : list Vector3
}.

Section WorldTs.
Context {M : JSMath}.

(** The twigs of [createNest], first to last; six draws each, in the order
    the constructor evaluates them. *)
Fixpoint nestTwigs (n : nat) (g : RNG) : list Twig * RNG :=
  match n with
  | O => ([], g)
  | S k =>
    let radius := 8 # 10 in
    let height := 1 # 2 in
    let '(r1, g1) := random g in
    let angle := r1 * Math_PI * 2 in
    let '(r2, g2) := random g1 in
    let y := (r2 - (1 # 2)) * height in
    let '(r3, g3) := random g2 in
    let rotY := angle + Math_PI / 2 + (r3 - (1 # 2)) * (1 # 2) in
    let '(r4, g4) := random g3 in
    let rotZ := (r4 - (1 # 2)) * (2 # 10) in
    let '(r5, g5) := random g4 in
    let rotX := (r5 - (1 # 2)) * (2 # 10) in
    let twig :=
      {| twigPosition := vec3 (Math_cos angle * radius) y (Math_sin angle * radius);
         twigRotation := vec3 rotX rotY rotZ |} in
    let '(rest, g') := nestTwigs k g5 in
    (twig :: rest, g')
  end.

Definition createNest (g : RNG) : Nest * RNG :=
  let '(ts, g') := nestTwigs 20 g in
  ({| nestPosition := V3.zero; twigs := ts |}, g').

(** The leaf cells of [createTree]: three nested loops. *)
Definition treeLeaves (seed canopyBaseY canopyHeight canopyRadius : Q)
  : list Vector3 :=
  flatMap (fun y =>
    flatMap (fun lx =>
      flatMap (fun lz =>
        let t := (y - canopyBaseY - canopyHeight / 2) * (15 # 10) in
        let dist := Math_sqrt (lx * lx + lz * lz + t * t) in
        if (dist <? canopyRadius)
           && (pseudoRandom (seed + lx * 13 + y * 31 + lz * 53) >? (2 # 10))
        then [vec3 lx y lz] else [])
      (forLe (- canopyRadius) canopyRadius))
    (forLe (- canopyRadius) canopyRadius))
  (forLt canopyBaseY (canopyBaseY + canopyHeight)).

(** The nest block of [createTree], run when the tree has leaves: the nest
    of the tree, if one is placed, and what is left of the random source.
    [None] in the first component of an inner [Some] cannot happen: it
    would mean the chosen leaf index is out of range (see [placeNest_ok]). *)
Definition placeNest (seed canopyBaseY canopyHeight : Q)
  (leaves : list Vector3) (g : RNG) : option (option Nest) * RNG :=
  if (pseudoRandom (seed + 57) <? NEST_CHANCE)
     && (5 <? List.length leaves)%nat then
    let '(n, g') := createNest g in
    let suitableLeaves :=
      List.filter (fun p => (vy p >? canopyBaseY + 1)
                            && (vy p <? canopyBaseY + canopyHeight - 1)) leaves in
    let pick (l : list Vector3) :=
      at_ l (Num.floor (pseudoRandom (seed + 61)
                        * inject_Z (Z.of_nat (List.length l)))) in
    let targetLeafPos :=
      if (0 <? List.length suitableLeaves)%nat then pick suitableLeaves
      else pick leaves in
    match targetLeafPos with
    | Some p =>
      (Some (Some {| nestPosition := vec3 (vx p) (vy p + (1 # 2)) (vz p);
                     twigs := twigs n |}), g')
    | None => (None, g')
    end
  else (Some None, g).

(** [createTree]; [None] if the nest's leaf index were out of range. *)
Definition createTree (x z seed : Q) (g : RNG) : option Tree * RNG :=
  let trunkHeight := 5 + pseudoRandom (seed + 1) * 4 in
  let trunkW := (9 # 10) + pseudoRandom (seed + 2) * (4 # 10) in
  let canopyBaseY := trunkHeight - 2 in
  let canopyHeight := 3 + pseudoRandom (seed + 3) * 2 in
  let canopyRadius := 2 + pseudoRandom (seed + 4) * (15 # 10) in
  let leaves := treeLeaves seed canopyBaseY canopyHeight canopyRadius in
  let '(placed, g') :=
    if (0 <? List.length leaves)%nat
    then placeNest seed canopyBaseY canopyHeight leaves g
    else (Some None, g) in
  match placed with
  | Some n =>
    (Some {| treePosition := vec3 x 0 z; height := trunkHeight;
             trunkWidth := trunkW; leafPositions := leaves; nest := n |}, g')
  | None => (None, g')
  end.

Definition createBush (x z seed : Q) : Bush :=
  let size := 1 + pseudoRandom seed * (15 # 10) in
  let leaves :=
    List.map (fun i =>
      vec3 ((pseudoRandom (seed + i * 2) - (1 # 2)) * size)
           ((pseudoRandom (seed + i * 3) - (3 # 10)) * size * (1 # 2))
           ((pseudoRandom (seed + i * 5) - (1 # 2)) * size))
      (forLt 0 (5 + pseudoRandom (seed + 1) * 5)) in
  {| bushPosition := vec3 x (1 # 2) z; bushLeaves := leaves |}.

(** [createHouse]: the two [seed++] give [seed] and [seed + 1]. *)
Definition createHouse (seed : Q) : House :=
  let width := 5 + pseudoRandom seed * 2 in
  let depth := 6 + pseudoRandom (seed + 1) * 3 in
  let height := 4 in
  let wallBlocks :=
    flatMap (fun x =>
      flatMap (fun z =>
        if Qeq_bool x (- width / 2) || Qeq_bool x (width / 2)
           || Qeq_bool z (- depth / 2) || Qeq_bool z (depth / 2) then
          (* Skip door *)
          if Qeq_bool z (depth / 2) && (x >? - (15 # 10)) && (x <? (15 # 10))
          then [] else [vec3 x (height / 2) z]
        else [])
      (forLe (- depth / 2) (depth / 2)))
    (forLe (- width / 2) (width / 2)) in
  let roofPitch := 6 # 10 in
  let roofBlocks :=
    flatMap (fun z =>
      List.map (fun x =>
        vec3 x (height + (width / 2 - Qabs x) * roofPitch) z)
      (forLe (- width / 2 - (1 # 2)) (width / 2 + (1 # 2))))
    (forLe (- depth / 2 - (1 # 2)) (depth / 2 + (1 # 2))) in
  {| houseWidth := width; houseDepth := depth; walls := wallBlocks;
     roof := roofBlocks; interiorPoint := vec3 0 1 (-1) |}.

(** [createFarmPlot]: after the two [seed++] the block loop reads
    [seed + 2]. *)
Definition createFarmPlot (seed0 : Q) : FarmPlot :=
  let width := 4 + inject_Z (Num.floor (pseudoRandom seed0 * 3)) in
  let depth := 6 + inject_Z (Num.floor (pseudoRandom (seed0 + 1) * 4)) in
  let seed := seed0 + 2 in
  let fence :=
    flatMap (fun x =>
      flatMap (fun z =>
        if Qeq_bool x (- width / 2) || Qeq_bool x (width / 2)
           || Qeq_bool z (- depth / 2) || Qeq_bool z (depth / 2)
        then [vec3 x (75 # 100) z] else [])
      (forLe (- depth / 2) (depth / 2)))
    (forLe (- width / 2) (width / 2)) in
  let cells :=
    flatMap (fun x =>
      List.map (fun z =>
        let blockType := pseudoRandom (seed + x * 17 + z * 31) in
        if blockType <? (2 # 10) then Water x z
        else Farmland x z
               (pseudoRandom (seed + z * 5 + x * 3) * (8 # 10) + (2 # 10)))
      (forLt (- depth / 2 + 1) (depth / 2 - 1)))
    (forLt (- width / 2 + 1) (width / 2 - 1)) in
  let plots :=
    flatMap (fun b =>
      match b with
      | Water _ _ => []
      | Farmland x z _ => [vec3 x (1 # 2) z]
      end) cells in
  {| farmWidth := width; farmDepth := depth; posts := fence;
     blocks := cells; workPoints := plots |}.

(** [findNewLandingSpot] (utils.ts): a random leaf, lowered by 0.8; the
    tree top when there are no leaves (no draw then). [None] if the leaf
    index were out of range. *)
Definition findNewLandingSpot (tree : Tree) (g : RNG)
  : option Vector3 * RNG :=
  match leafPositions tree with
  | [] => (Some (vec3 0 (height tree) 0), g)
  | _ :: _ =>
    let '(r, g') := random g in
    let leafIndex :=
      Num.floor (r * inject_Z (Z.of_nat (List.length (leafPositions tree)))) in
    match at_ (leafPositions tree) leafIndex with
    | Some p => (Some (vec3 (vx p) (vy p - (8 # 10)) (vz p)), g')
    | None => (None, g')
    end
  end.

End WorldTs.
(** ** PlayerController: the player block of [animate] *)

Module Player.

(** What a frame reads from the input devices.  On desktop the yaw is also
    turned by the mouse handler between frames: [lookDelta] is the amount
    it added to [character.rotation.y] since the last frame. *)
Record Input : Type := {
  isMobile : bool;
  moveX : Q;              (* moveRef.current.x *)
  moveY : Q;              (* moveRef.current.y *)
  keyForward : bool;      (* W, w or arrowup *)
  keyBack : bool;         (* S, s or arrowdown *)
  keyLeft : bool;         (* A, a or arrowleft *)
  keyRight : bool;        (* D, d or arrowright *)
  keyShift : bool;
  keySpace : bool;
  isJumping : bool;       (* isJumpingRef.current *)
  lookDelta : Q
}.

Record State : Type := {
  position : Vector3;       (* character.position *)
  rotationY : Q;            (* character.rotation.y *)
  velocityY : Q;            (* playerVelocity.y *)
  isOnGround : bool;
  wasOnGround : bool
}.

Section WithMath.
Context {M : JSMath}.

Definition b2q (b : bool) : Q := if b then 1 else 0.

(** Horizontal displacement and yaw ("Player Movement"). *)
Definition move (inp : Input) (delta : Q) (s : State) : State :=
  if isMobile inp then
    let rot := rotationY s - moveX inp * PLAYER_ROTATION_SPEED * delta in
    let p := position s in
    let p' :=
      if Qeq_bool (moveY inp) 0 then p
      else
        let moveSpeed := PLAYER_SPEED * moveY inp in
        vec3 (vx p + Math_sin rot * moveSpeed * delta) (vy p)
             (vz p + Math_cos rot * moveSpeed * delta) in
    {| position := p'; rotationY := rot; velocityY := velocityY s;
       isOnGround := isOnGround s; wasOnGround := wasOnGround s |}
  else
    let rot := rotationY s + lookDelta inp in
    let forwardInput := b2q (keyForward inp) - b2q (keyBack inp) in
    let strafeInput := b2q (keyLeft inp) - b2q (keyRight inp) in
    let walkMagnitude := Qmax (Qabs forwardInput) (Qabs strafeInput) in
    let isRunning := keyShift inp && (walkMagnitude >? (1 # 10)) in
    let currentSpeed :=
      if isRunning then PLAYER_SPEED * PLAYER_RUN_MULTIPLIER else PLAYER_SPEED in
    let p := position s in
    let p' :=
      if negb (Qeq_bool forwardInput 0) || negb (Qeq_bool strafeInput 0) then
        let moveDirection := V3.normalize (vec3 strafeInput 0 forwardInput) in
        let moveSpeed := currentSpeed * delta in
        let forwardDir := vec3 (Math_sin rot) 0 (Math_cos rot) in
        let rightDir := vec3 (vz forwardDir) 0 (- vx forwardDir) in
        V3.add
          (V3.add p (V3.multiplyScalar forwardDir (vz moveDirection * moveSpeed)))
          (V3.multiplyScalar rightDir (vx moveDirection * moveSpeed))
      else p in
    {| position := p'; rotationY := rot; velocityY := velocityY s;
       isOnGround := isOnGround s; wasOnGround := wasOnGround s |}.

(** Vertical integration and ground clamp. *)
Definition integrate (delta : Q) (s : State) : State :=
  let p := position s in
  let groundYPosition := getHeight (vx p) (vz p) + 1 in
  let vel := velocityY s - GRAVITY * delta in
  let y := vy p + vel * delta in
  if y <=? groundYPosition then
    {| position := vec3 (vx p) groundYPosition (vz p); rotationY := rotationY s;
       velocityY := 0; isOnGround := true; wasOnGround := wasOnGround s |}
  else
    {| position := vec3 (vx p) y (vz p); rotationY := rotationY s;
       velocityY := vel; isOnGround := isOnGround s;
       wasOnGround := wasOnGround s |}.

(** Jump impulse, then [wasOnGround = isOnGround]. *)
Definition jump (inp : Input) (s : State) : State :=
  let requested := if isMobile inp then isJumping inp else keySpace inp in
  if requested && isOnGround s then
    {| position := position s; rotationY := rotationY s;
       velocityY := JUMP_FORCE; isOnGround := false; wasOnGround := false |}
  else
    {| position := position s; rotationY := rotationY s;
       velocityY := velocityY s; isOnGround := isOnGround s;
       wasOnGround := isOnGround s |}.

(** One frame of the player: movement, integration and clamp, jump. *)
Definition advance (inp : Input) (delta : Q) (s : State) : State :=
  jump inp (integrate delta (move inp delta s)).

(** The player after a sequence of frames, oldest first. *)
Fixpoint run (frames : list (Input * Q)) (s : State) : State :=
  match frames with
  | [] => s
  | (inp, delta) :: rest => run rest (advance inp delta s)
  end.

(** The player stands on or above the terrain under it. *)
Definition aboveTerrain (s : State) : Prop :=
  getHeight (vx (position s)) (vz (position s)) <= vy (position s).

(** The stronger fact the clamp gives: at least one unit above. *)
Definition clearOfTerrain (s : State) : Prop :=
  getHeight (vx (position s)) (vz (position s)) + 1 <= vy (position s).

End WithMath.
End Player.

(** ** BirdFlightAI: the body of [birdsRef.current.forEach] *)

Module Bird.

Inductive Flight : Type := SITTING | FLYING.
Inductive Mode : Type := NONE | CIRCLING | EXPLORING | SWOOPING | RETURNING.
Inductive Phase : Type := DIVE | PULL_UP.

(** The bird group and the fields of its [userData] the flight AI reads or
    writes.  [homeTreeWorld] is what [homeTree.getWorldPosition] returns:
    the chunk origin plus the tree's position, fixed when the bird is
    created.  [lookTarget] is the last argument given to [bird.lookAt].
    The wing flap writes only the wing groups, which are not modelled. *)
Record State : Type := {
  position : Vector3;
  lookTarget : Vector3;
  state : Flight;
  flightMode : Mode;
  stateTimer : Q;
  chunkId : string;
  homeTree : Tree;
  homeTreeWorld : Vector3;
  hasNest : bool;                 (* data.nest is set *)
  landingSpot : Vector3;
  velocity : Vector3;
  circleAngle : Q;
  circleRadius : Q;
  circleAltitude : Q;
  swoopTarget : Vector3;
  swoopPhase : Phase;
  audioPlaying : bool             (* data.audio.isPlaying *)
}.

Record Env : Type := { delta : Q }.

Definition isExploring (b : State) : bool :=
  match state b, flightMode b with
  | FLYING, EXPLORING => true
  | _, _ => false
  end.

Section WithMath.
Context {M : JSMath}.

Definition update (b : State)
  (pos look : Vector3) (st : Flight) (mode : Mode) (timer : Q) : State :=
  {| position := pos; lookTarget := look; state := st; flightMode := mode;
     stateTimer := timer; chunkId := chunkId b; homeTree := homeTree b;
     homeTreeWorld := homeTreeWorld b; hasNest := hasNest b;
     landingSpot := landingSpot b; velocity := velocity b;
     circleAngle := circleAngle b; circleRadius := circleRadius b;
     circleAltitude := circleAltitude b; swoopTarget := swoopTarget b;
     swoopPhase := swoopPhase b; audioPlaying := audioPlaying b |}.

Definition setMode (st : Flight) (mode : Mode) (b : State) : State :=
  update b (position b) (lookTarget b) st mode (stateTimer b).

Definition setTimer (t : Q) (b : State) : State :=
  update b (position b) (lookTarget b) (state b) (flightMode b) t.

Definition setPose (pos look : Vector3) (b : State) : State :=
  update b pos look (state b) (flightMode b) (stateTimer b).

Definition setCircle (angle radius altitude : Q) (b : State) : State :=
  {| position := position b; lookTarget := lookTarget b; state := state b;
     flightMode := flightMode b; stateTimer := stateTimer b;
     chunkId := chunkId b; homeTree := homeTree b;
     homeTreeWorld := homeTreeWorld b; hasNest := hasNest b;
     landingSpot := landingSpot b; velocity := velocity b;
     circleAngle := angle; circleRadius := radius;
     circleAltitude := altitude; swoopTarget := swoopTarget b;
     swoopPhase := swoopPhase b; audioPlaying := audioPlaying b |}.

Definition setSwoop (target : Vector3) (phase : Phase) (b : State) : State :=
  {| position := position b; lookTarget := lookTarget b; state := state b;
     flightMode := flightMode b; stateTimer := stateTimer b;
     chunkId := chunkId b; homeTree := homeTree b;
     homeTreeWorld := homeTreeWorld b; hasNest := hasNest b;
     landingSpot := landingSpot b; velocity := velocity b;
     circleAngle := circleAngle b; circleRadius := circleRadius b;
     circleAltitude := circleAltitude b; swoopTarget := target;
     swoopPhase := phase; audioPlaying := audioPlaying b |}.

Definition setLanding (spot : Vector3) (b : State) : State :=
  {| position := position b; lookTarget := lookTarget b; state := state b;
     flightMode := flightMode b; stateTimer := stateTimer b;
     chunkId := chunkId b; homeTree := homeTree b;
     homeTreeWorld := homeTreeWorld b; hasNest := hasNest b;
     landingSpot := spot; velocity := velocity b;
     circleAngle := circleAngle b; circleRadius := circleRadius b;
     circleAltitude := circleAltitude b; swoopTarget := swoopTarget b;
     swoopPhase := swoopPhase b; audioPlaying := audioPlaying b |}.

Definition setVelocity (v : Vector3) (b : State) : State :=
  {| position := position b; lookTarget := lookTarget b; state := state b;
     flightMode := flightMode b; stateTimer := stateTimer b;
     chunkId := chunkId b; homeTree := homeTree b;
     homeTreeWorld := homeTreeWorld b; hasNest := hasNest b;
     landingSpot := landingSpot b; velocity := v;
     circleAngle := circleAngle b; circleRadius := circleRadius b;
     circleAltitude := circleAltitude b; swoopTarget := swoopTarget b;
     swoopPhase := swoopPhase b; audioPlaying := audioPlaying b |}.

Definition setAudio (playing : bool) (b : State) : State :=
  {| position := position b; lookTarget := lookTarget b; state := state b;
     flightMode := flightMode b; stateTimer := stateTimer b;
     chunkId := chunkId b; homeTree := homeTree b;
     homeTreeWorld := homeTreeWorld b; hasNest := hasNest b;
     landingSpot := landingSpot b; velocity := velocity b;
     circleAngle := circleAngle b; circleRadius := circleRadius b;
     circleAltitude := circleAltitude b; swoopTarget := swoopTarget b;
     swoopPhase := swoopPhase b; audioPlaying := playing |}.

(** Where the bird perches: tree position plus landing spot, raised by 0.2
    when the bird has a nest. *)
Definition perch (b : State) : Vector3 :=
  let p := V3.add (homeTreeWorld b) (landingSpot b) in
  if hasNest b then vec3 (vx p) (vy p + (2 # 10)) (vz p) else p.

(** Entering CIRCLING: timer, angle, radius, altitude, four draws. *)
Definition startCircling (g : RNG) (b : State) : State * RNG :=
  let '(r1, g1) := random g in
  let '(r2, g2) := random g1 in
  let '(r3, g3) := random g2 in
  let '(r4, g4) := random g3 in
  (setCircle (r2 * Math_PI * 2) (r3 * 10 + 10) (r4 * 5 + 5)
     (setTimer (r1 * 8 + 8) (setMode (state b) CIRCLING b)), g4).

(** [case 'SITTING'].  The timer was already decremented by the caller. *)
Definition sitting (g : RNG) (b : State) : State * RNG :=
  let expectedPosition := perch b in
  if V3.distanceTo (position b) expectedPosition >? (15 # 10) then
    (setMode FLYING RETURNING b, g)
  else if stateTimer b <=? 0 then
    let b1 := setMode FLYING (flightMode b) b in
    let '(rand, g1) := random g in
    if rand <? (1 # 2) then startCircling g1 b1
    else if rand <? (85 # 100) then
      let '(r, g2) := random g1 in
      (setTimer (r * 10 + 15) (setMode FLYING EXPLORING b1), g2)
    else
      let t := homeTreeWorld b in
      let '(r1, g2) := random g1 in
      let '(r2, g3) := random g2 in
      (setSwoop (vec3 (vx t + (r1 - (1 # 2)) * 20) (vy t - 1)
                      (vz t + (r2 - (1 # 2)) * 20)) DIVE
         (setMode FLYING SWOOPING b1), g3)
  else
    (* the chirp: drawn only while no chirp is playing *)
    if negb (audioPlaying b) then
      let '(r, g1) := random g in
      if r <? (5 # 1000) then (setAudio true b, g1) else (b, g1)
    else (b, g).

(** Leaving for RETURNING on timer expiry; a bird without a nest re-rolls
    its landing spot.  [None] if the leaf index were out of range. *)
Definition startReturning (g : RNG) (b : State) : option State * RNG :=
  if stateTimer b <=? 0 then
    let b1 := setMode (state b) RETURNING b in
    if negb (hasNest b) then
      let '(spot, g1) := findNewLandingSpot (homeTree b) g in
      match spot with
      | Some s => (Some (setLanding s b1), g1)
      | None => (None, g1)
      end
    else (Some b1, g)
  else (Some b, g).

(** [v.clampLength(min, max)] *)
Definition clampLength (v : Vector3) (lo hi : Q) : Vector3 :=
  let len := V3.length v in
  V3.multiplyScalar (V3.divideScalar v (Num.orElse len 1))
                    (Qmax lo (Qmin hi len)).

(** The flocking sums over the other birds that are exploring. *)
Record Flock : Type := {
  alignment : Vector3; cohesion : Vector3; separation : Vector3;
  neighborCount : nat
}.

Definition BIRD_PERCEPTION_RADIUS : Q := 20.
Definition BIRD_SEPARATION_DISTANCE : Q := 5.
Definition BIRD_ALIGNMENT_WEIGHT : Q := 1.
Definition BIRD_COHESION_WEIGHT : Q := 1.
Definition BIRD_SEPARATION_WEIGHT : Q := 15 # 10.

Definition flockStep (b : State) (f : Flock) (other : State) : Flock :=
  if isExploring other then
    let dist := V3.distanceTo (position b) (position other) in
    if (dist >? 0) && (dist <? BIRD_PERCEPTION_RADIUS) then
      {| alignment := V3.add (alignment f) (velocity other);
         cohesion := V3.add (cohesion f) (position other);
         separation :=
           if dist <? BIRD_SEPARATION_DISTANCE then
             V3.add (separation f)
               (V3.divideScalar
                  (V3.normalize (V3.sub (position b) (position other))) dist)
           else separation f;
         neighborCount := S (neighborCount f) |}
    else f
  else f.

Definition flock (b : State) (others : list State) : Flock :=
  List.fold_left (flockStep b) others
    {| alignment := V3.zero; cohesion := V3.zero; separation := V3.zero;
       neighborCount := O |}.

(** The EXPLORING branch. *)
Definition exploring (e : Env) (others : list State) (g : RNG) (b : State)
  : option State * RNG :=
  let f := flock b others in
  let '(vel1, g1) :=
    if (0 <? neighborCount f)%nat then
      let n := inject_Z (Z.of_nat (neighborCount f)) in
      let steer (v : Vector3) (w : Q) :=
        V3.multiplyScalar
          (V3.sub (V3.multiplyScalar (V3.normalize v) BIRD_MAX_SPEED)
                  (velocity b)) w in
      let a := steer (V3.divideScalar (alignment f) n) BIRD_ALIGNMENT_WEIGHT in
      let c := steer (V3.sub (V3.divideScalar (cohesion f) n) (position b))
                     BIRD_COHESION_WEIGHT in
      let s := steer (V3.divideScalar (separation f) n)
                     BIRD_SEPARATION_WEIGHT in
      (V3.add (V3.add (V3.add (velocity b) a) c) s, g)
    else
      let '(r1, g') := random g in
      let '(r2, g'') := random g' in
      let '(r3, g''') := random g'' in
      let wanderVector :=
        vec3 (r1 - (1 # 2)) ((r2 - (1 # 2)) * (3 # 10)) (r3 - (1 # 2)) in
      (V3.add (velocity b)
         (V3.multiplyScalar (V3.normalize wanderVector) (3 # 10)), g''') in
  let '(vel2, g2) :=
    if V3.lengthSq vel1 <? (1 # 10) then
      let '(r1, g') := random g1 in
      let '(r2, g'') := random g' in
      (vec3 (r1 - (1 # 2)) 0 (r2 - (1 # 2)), g'')
    else (vel1, g1) in
  let vel := clampLength vel2 (BIRD_MAX_SPEED * (6 # 10)) BIRD_MAX_SPEED in
  let pos := V3.add (position b) (V3.multiplyScalar vel (delta e)) in
  let b1 := setPose pos (V3.add pos vel) (setVelocity vel b) in
  startReturning g2 b1.

(** [case 'FLYING']. *)
Definition flying (e : Env) (others : list State) (g : RNG) (b : State)
  : option State * RNG :=
  match flightMode b with
  | RETURNING =>
    let landingWorldPos := perch b in
    let approachPos := V3.add landingWorldPos (vec3 0 2 0) in
    let distanceToTarget := V3.distanceTo (position b) landingWorldPos in
    let b1 :=
      if distanceToTarget >? (25 # 10) then
        setPose (V3.lerp (position b) approachPos (delta e * (15 # 10)))
                approachPos b
      else
        setPose (V3.lerp (position b) landingWorldPos (delta e * 3))
                landingWorldPos b in
    if distanceToTarget <? (2 # 10) then
      let '(r1, g1) := random g in
      let '(r2, g2) := random g1 in
      let lookAway :=
        V3.add landingWorldPos
               (V3.normalize (vec3 (r1 - (1 # 2)) 0 (r2 - (1 # 2)))) in
      let '(r3, g3) := random g2 in
      (Some (setTimer (r3 * 10 + 5)
               (setMode SITTING (flightMode b1)
                  (setPose landingWorldPos lookAway b1))), g3)
    else (Some b1, g)
  | CIRCLING =>
    let treePos := homeTreeWorld b in
    let angle := circleAngle b + delta e * (15 # 10) in
    let targetPosition :=
      vec3 (vx treePos + Math_cos angle * circleRadius b)
           (vy treePos + height (homeTree b) / 2 + circleAltitude b)
           (vz treePos + Math_sin angle * circleRadius b) in
    let look :=
      vec3 (vx targetPosition + Math_cos (angle + (1 # 10)))
           (vy targetPosition)
           (vz targetPosition + Math_sin (angle + (1 # 10))) in
    let b1 :=
      setPose (V3.lerp (position b) targetPosition (delta e * 2)) look
        (setCircle angle (circleRadius b) (circleAltitude b) b) in
    startReturning g b1
  | SWOOPING =>
    match swoopPhase b with
    | DIVE =>
      let b1 :=
        setPose (V3.lerp (position b) (swoopTarget b) (delta e * 3))
                (swoopTarget b) b in
      if V3.distanceTo (position b1) (swoopTarget b1) <? 2 then
        let t := swoopTarget b1 in
        (Some (setSwoop (vec3 (vx t) (vy t + 15) (vz t)) PULL_UP b1), g)
      else (Some b1, g)
    | PULL_UP =>
      let b1 :=
        setPose (V3.lerp (position b) (swoopTarget b) (delta e * (25 # 10)))
                (swoopTarget b) b in
      if V3.distanceTo (position b1) (swoopTarget b1) <? 3 then
        let '(b2, g') := startCircling g b1 in (Some b2, g')
      else (Some b1, g)
    end
  | EXPLORING => exploring e others g b
  | NONE => (Some b, g)
  end.

(** One frame of one bird; [others] are the other birds of
    [birdsRef.current] as they stand when this bird is visited. *)
Definition advance (e : Env) (others : list State) (g : RNG) (b : State)
  : option State * RNG :=
  let b0 := setTimer (stateTimer b - delta e) b in
  match state b0 with
  | SITTING => let '(b1, g1) := sitting g b0 in (Some b1, g1)
  | FLYING => flying e others g b0
  end.

(** The [forEach]: birds are visited in order and updated in place, so a
    bird sees the earlier birds as already advanced.  [done] holds those,
    newest first. *)
Fixpoint advanceFrom (e : Env) (g : RNG) (done todo : list State)
  : option (list State) * RNG :=
  match todo with
  | [] => (Some (List.rev done), g)
  | b :: rest =>
    match advance e (List.rev done ++ rest) g b with
    | (Some b', g') => advanceFrom e g' (b' :: done) rest
    | (None, g') => (None, g')
    end
  end.

Definition advanceAll (e : Env) (g : RNG) (birds : list State)
  : option (list State) * RNG :=
  advanceFrom e g [] birds.

End WithMath.
End Bird.

(** ** VillagerRoutineAI: the body of [villagersRef.current.forEach] *)

Module Villager.

Inductive Routine : Type :=
| IDLE | WANDERING | GOING_TO_WORK | WORKING | GOING_HOME | SLEEPING
| LOOKING_AT_PLAYER.

Inductive Profession : Type := farmer | librarian | blacksmith | nitwit.

Definition Routine_eqb (a b : Routine) : bool :=
  match a, b with
  | IDLE, IDLE | WANDERING, WANDERING | GOING_TO_WORK, GOING_TO_WORK
  | WORKING, WORKING | GOING_HOME, GOING_HOME | SLEEPING, SLEEPING
  | LOOKING_AT_PLAYER, LOOKING_AT_PLAYER => true
  | _, _ => false
  end.

Definition isFarmer (p : Profession) : bool :=
  match p with farmer => true | _ => false end.

(** The villager group and the fields of its [userData] that the routine
    reads or writes.  The yaw steering and the limb animation at the end of
    the loop body write only [rotation] and the limb groups, which are not
    part of this record. *)
Record State : Type := {
  position : Vector3;
  state : Routine;
  prevState : option Routine;        (* undefined until first saved *)
  stateTimer : Q;
  chunkId : string;
  targetPosition : option Vector3;   (* null or a point *)
  profession : Profession;
  homePoint : Vector3;
  workPoint : option Vector3;
  velocityY : Q;                     (* data.velocity.y *)
  isOnGround : bool
}.

(** What the frame passes to every villager. *)
Record Env : Type := {
  delta : Q;
  timeOfDay : Q;
  playerPosition : Vector3           (* character.position *)
}.

Definition setPosition (p : Vector3) (v : State) : State :=
  {| position := p; state := state v; prevState := prevState v;
     stateTimer := stateTimer v; chunkId := chunkId v;
     targetPosition := targetPosition v; profession := profession v;
     homePoint := homePoint v; workPoint := workPoint v;
     velocityY := velocityY v; isOnGround := isOnGround v |}.

Definition setRoutine (s : Routine) (v : State) : State :=
  {| position := position v; state := s; prevState := prevState v;
     stateTimer := stateTimer v; chunkId := chunkId v;
     targetPosition := targetPosition v; profession := profession v;
     homePoint := homePoint v; workPoint := workPoint v;
     velocityY := velocityY v; isOnGround := isOnGround v |}.

Definition setPrevState (s : option Routine) (v : State) : State :=
  {| position := position v; state := state v; prevState := s;
     stateTimer := stateTimer v; chunkId := chunkId v;
     targetPosition := targetPosition v; profession := profession v;
     homePoint := homePoint v; workPoint := workPoint v;
     velocityY := velocityY v; isOnGround := isOnGround v |}.

Definition setTimer (t : Q) (v : State) : State :=
  {| position := position v; state := state v; prevState := prevState v;
     stateTimer := t; chunkId := chunkId v;
     targetPosition := targetPosition v; profession := profession v;
     homePoint := homePoint v; workPoint := workPoint v;
     velocityY := velocityY v; isOnGround := isOnGround v |}.

Definition setTarget (t : option Vector3) (v : State) : State :=
  {| position := position v; state := state v; prevState := prevState v;
     stateTimer := stateTimer v; chunkId := chunkId v;
     targetPosition := t; profession := profession v;
     homePoint := homePoint v; workPoint := workPoint v;
     velocityY := velocityY v; isOnGround := isOnGround v |}.

Definition setVertical (vel : Q) (g : bool) (v : State) : State :=
  {| position := position v; state := state v; prevState := prevState v;
     stateTimer := stateTimer v; chunkId := chunkId v;
     targetPosition := targetPosition v; profession := profession v;
     homePoint := homePoint v; workPoint := workPoint v;
     velocityY := vel; isOnGround := g |}.

Section WithMath.
Context {M : JSMath}.

(** "Villager physics to keep them grounded": skipped while SLEEPING. *)
Definition physics (e : Env) (v : State) : State :=
  if negb (Routine_eqb (state v) SLEEPING) then
    let p := position v in
    let groundY := getHeight (vx p) (vz p) in
    let vel := velocityY v - GRAVITY * delta e in
    let y := vy p + vel * delta e in
    if y <? groundY then
      setVertical 0 true (setPosition (vec3 (vx p) groundY (vz p)) v)
    else
      setVertical vel false (setPosition (vec3 (vx p) y (vz p)) v)
  else v.

Definition isDayTime (e : Env) : bool :=
  (timeOfDay e >? (28 # 100)) && (timeOfDay e <? (76 # 100)).

(** "High-level state changes based on time". *)
Definition timeGate (e : Env) (g : RNG) (v : State) : State * RNG :=
  let v1 :=
    if negb (isDayTime e) && negb (Routine_eqb (state v) SLEEPING)
       && negb (Routine_eqb (state v) GOING_HOME)
    then setTarget (Some (homePoint v)) (setRoutine GOING_HOME v)
    else v in
  if isDayTime e && Routine_eqb (state v1) SLEEPING then
    let '(r, g1) := random g in
    (setTimer (r * 5 + 3) (setRoutine IDLE v1), g1)
  else (v1, g).

(** "Player interaction overrides other states".  [distanceToPlayer] was
    measured before the time gate, right after the physics block. *)
Definition interaction (distanceToPlayer : Q) (g : RNG) (v : State)
  : State * RNG :=
  if (distanceToPlayer <? VILLAGER_INTERACTION_RADIUS)
     && negb (Routine_eqb (state v) LOOKING_AT_PLAYER) then
    (setTarget None
       (setRoutine LOOKING_AT_PLAYER (setPrevState (Some (state v)) v)), g)
  else if (distanceToPlayer >=? VILLAGER_INTERACTION_RADIUS)
          && Routine_eqb (state v) LOOKING_AT_PLAYER then
    let resumed := match prevState v with Some s => s | None => IDLE end in
    let '(r, g1) := random g in
    (setTimer (r * 2 + 1) (setRoutine resumed v), g1)
  else (v, g).

(** "Timer-based state changes for daytime". *)
Definition timerGate (e : Env) (g : RNG) (v : State) : State * RNG :=
  if (stateTimer v <=? 0) && isDayTime e then
    if Routine_eqb (state v) IDLE || Routine_eqb (state v) WANDERING then
      let farmerWithWork :=
        match workPoint v with
        | Some _ => isFarmer (profession v)
        | None => false
        end in
      (* Math.random() < 0.5 is evaluated only for a farmer with a work point *)
      let '(toWork, g0) :=
        if farmerWithWork then
          let '(r, g') := random g in (r <? (1 # 2), g')
        else (false, g) in
      if toWork then
        (setTarget (workPoint v) (setRoutine GOING_TO_WORK v), g0)
      else
        let '(r1, g1) := random g0 in
        let angle := r1 * Math_PI * 2 in
        let '(r2, g2) := random g1 in
        let wanderDist := r2 * 10 + 5 in
        let target :=
          vec3 (vx (position v) + Math_cos angle * wanderDist) 0
               (vz (position v) + Math_sin angle * wanderDist) in
        let '(r3, g3) := random g2 in
        (setTimer (wanderDist / (15 # 10) + r3 * 2)
           (setTarget (Some target) (setRoutine WANDERING v)), g3)
    else
      let '(r, g1) := random g in
      (setTimer (r * 8 + 5) (setRoutine IDLE v), g1)
  else (v, g).

(** "State actions": the [switch (data.state)]. *)
Definition act (e : Env) (g : RNG) (v : State) : State * RNG :=
  match state v with
  | IDLE => (v, g)
  | LOOKING_AT_PLAYER => (v, g)        (* only sets the yaw target *)
  | GOING_HOME | GOING_TO_WORK | WANDERING =>
    match targetPosition v with
    | Some target =>
      let d := V3.sub target (position v) in
      let direction := vec3 (vx d) 0 (vz d) in
      if V3.lengthSq direction >? 1 then
        let n := V3.normalize direction in
        let p := position v in
        (setPosition
           (vec3 (vx p + vx n * (15 # 10) * delta e) (vy p)
                 (vz p + vz n * (15 # 10) * delta e)) v, g)
      else
        (* Arrived: three ifs in a row, each on the current state *)
        let v0 := setTarget None v in
        let v1 :=
          if Routine_eqb (state v0) GOING_HOME then setRoutine SLEEPING v0
          else v0 in
        let '(v2, g2) :=
          if Routine_eqb (state v1) GOING_TO_WORK then
            let '(r, g') := random g in
            (setTimer (r * 10 + 10) (setRoutine WORKING v1), g')
          else (v1, g) in
        if Routine_eqb (state v2) WANDERING then
          let '(r, g') := random g2 in
          (setTimer (r * 5 + 3) (setRoutine IDLE v2), g')
        else (v2, g2)
    | None => (v, g)
    end
  | WORKING => (v, g)                  (* only animates head and arms *)
  | SLEEPING =>
    (setPosition (V3.lerp (position v) (homePoint v) (delta e)) v, g)
  end.

(** One frame of one villager. *)
Definition advance (e : Env) (g : RNG) (v : State) : State * RNG :=
  let v0 := setTimer (stateTimer v - delta e) v in
  let v1 := physics e v0 in
  let distanceToPlayer := V3.distanceTo (position v1) (playerPosition e) in
  let '(v2, g2) := timeGate e g v1 in
  let '(v3, g3) := interaction distanceToPlayer g2 v2 in
  let '(v4, g4) := timerGate e g3 v3 in
  act e g4 v4.

(** A villager through a sequence of frames, oldest first. *)
Fixpoint run (frames : list Env) (g : RNG) (v : State) : State * RNG :=
  match frames with
  | [] => (v, g)
  | e :: rest => let '(v', g') := advance e g v in run rest g' v'
  end.

(** The loop over [villagersRef.current]. *)
Fixpoint advanceAll (e : Env) (g : RNG) (vs : list State)
  : list State * RNG :=
  match vs with
  | [] => ([], g)
  | v :: rest =>
    let '(v', g') := advance e g v in
    let '(rest', g'') := advanceAll e g' rest in
    (v' :: rest', g'')
  end.

(** The villager after the grounding block of a frame. *)
Definition grounded (e : Env) (v : State) : State :=
  physics e (setTimer (stateTimer v - delta e) v).

(** The player is within the interaction radius in frame [e], as the
    frame measures it: from the villager's position after grounding. *)
Definition near (e : Env) (v : State) : Prop :=
  V3.distanceTo (position (grounded e v)) (playerPosition e)
  < VILLAGER_INTERACTION_RADIUS.

(** An undisturbed look: in every frame of [frames] it is day, the player
    is near, and the villager's timer has not run out. *)
Fixpoint undisturbed (frames : list Env) (g : RNG) (v : State) : Prop :=
  match frames with
  | [] => True
  | e :: rest =>
    isDayTime e = true /\ near e v /\ 0 < stateTimer v - delta e /\
    undisturbed rest (snd (advance e g v)) (fst (advance e g v))
  end.

(** Fields a step leaves alone. *)
Definition sameBody (v v' : State) : Prop :=
  velocityY v' = velocityY v /\ isOnGround v' = isOnGround v /\
  chunkId v' = chunkId v /\ homePoint v' = homePoint v /\
  workPoint v' = workPoint v /\ profession v' = profession v.

End WithMath.
End Villager.

(** ** environment.ts: ParticleSystem *)

Module ParticleSystem.

Record Color : Type := rgb { red : Q; green : Q; blue : Q }.

Record Particle : Type := {
  active : bool;
  position : Vector3;
  velocity : Vector3;
  life : Q;
  maxLife : Q;
  size : Q;
  startSize : Q;
  endSize : Q;
  color : Color;
  startColor : Color;
  endColor : Color;
  rotation : Q;
  rotationSpeed : Q
}.

(** [number | [number, number]] and [Color | [Color, Color]] *)
Inductive OneOrRange (A : Type) : Type :=
| One (a : A)
| Range (a b : A).
Arguments One {A} a.
Arguments Range {A} a b.

(** [ParticleEmitterOptions]; [None] is an omitted optional field. *)
Record Options : Type := {
  optPosition : Vector3;
  count : Q;
  optColor : option (OneOrRange Color);
  optVelocity : option Vector3;
  velocityRandomness : option Q;
  optSize : option (OneOrRange Q);
  optLife : option (OneOrRange Q);
  optRotationSpeed : option (OneOrRange Q)
}.

(** The pool: [this.particles], with the system's gravity. *)
Record System : Type := {
  particles : list Particle;
  gravity : Q
}.

Section WithMath.
Context {M : JSMath}.

(** [THREE.MathUtils.lerp(x, y, t)] *)
Definition lerp (x y t : Q) : Q := (1 - t) * x + t * y.

(** [c.lerp(d, alpha)] on colors. *)
Definition lerpColor (c d : Color) (alpha : Q) : Color :=
  rgb (red c + (red d - red c) * alpha)
      (green c + (green d - green c) * alpha)
      (blue c + (blue d - blue c) * alpha).

Definition inactiveParticle : Particle :=
  {| active := false; position := V3.zero; velocity := V3.zero;
     life := 0; maxLife := 1; size := 1; startSize := 1; endSize := 0;
     color := rgb 1 1 1; startColor := rgb 1 1 1; endColor := rgb 1 1 1;
     rotation := 0; rotationSpeed := 0 |}.

(** The constructor's pool of [n] inactive particles. *)
Definition create (n : nat) (grav : Q) : System :=
  {| particles := List.repeat inactiveParticle n; gravity := grav |}.

(** [x || d] for an optional number: omitted or zero gives [d]. *)
Definition numberOr (x : option Q) (d : Q) : Q :=
  match x with Some v => Num.orElse v d | None => d end.

(** [Array.isArray(o) ? lerp(o[0], o[1], Math.random()) : o || d]; the draw
    is made only for a range. *)
Definition sample (o : option (OneOrRange Q)) (d : Q) (g : RNG) : Q * RNG :=
  match o with
  | Some (Range a b) => let '(r, g') := random g in (lerp a b r, g')
  | Some (One a) => (Num.orElse a d, g)
  | None => (d, g)
  end.

Definition initParticle (o : Options) (g : RNG) (p : Particle)
  : Particle * RNG :=
  let baseVelocity :=
    match optVelocity o with Some v => v | None => V3.zero end in
  let '(r1, g1) := random g in
  let '(r2, g2) := random g1 in
  let '(r3, g3) := random g2 in
  let vel :=
    V3.add baseVelocity
      (V3.multiplyScalar (vec3 (r1 - (1 # 2)) (r2 - (1 # 2)) (r3 - (1 # 2)))
                         (numberOr (velocityRandomness o) 0)) in
  let '(l, g4) := sample (optLife o) 1 g3 in
  let '(sz, g5) := sample (optSize o) 1 g4 in
  let '(col, g6) :=
    match optColor o with
    | Some (Range a b) =>
      let '(r, g') := random g5 in (lerpColor a b r, g')
    | Some (One a) => (a, g5)
    | None => (rgb 1 1 1, g5)
    end in
  let '(r7, g7) := random g6 in
  let '(rs, g8) := sample (optRotationSpeed o) 0 g7 in
  ({| active := true; position := optPosition o; velocity := vel;
      life := l; maxLife := l; size := sz; startSize := sz; endSize := 0;
      color := col; startColor := col; endColor := col;
      rotation := r7 * Math_PI * 2; rotationSpeed := rs |}, g8).

(** The loop of [emit] from slot [i] on, [created] particles made so far:
    it stops at the end of the pool or once [created < options.count]
    fails. *)
Fixpoint emitLoop (o : Options) (created : Z) (g : RNG) (ps : list Particle)
  : list Particle * RNG :=
  match ps with
  | [] => ([], g)
  | p :: rest =>
    if inject_Z created <? count o then
      if negb (active p) then
        let '(p', g') := initParticle o g p in
        let '(rest', g'') := emitLoop o (created + 1) g' rest in
        (p' :: rest', g'')
      else
        let '(rest', g') := emitLoop o created g rest in
        (p :: rest', g')
    else (p :: rest, g)
  end.

Definition emit (o : Options) (g : RNG) (s : System) : System * RNG :=
  let '(ps, g') := emitLoop o 0 g (particles s) in
  ({| particles := ps; gravity := gravity s |}, g').

(** [update(delta, camera)] on the particle fields (the writes to the
    instanced mesh are rendering). *)
Definition updateParticle (grav delta : Q) (p : Particle) : Particle :=
  if negb (active p) then p
  else
    let l := life p - delta in
    if l <=? 0 then
      {| active := false; position := position p; velocity := velocity p;
         life := l; maxLife := maxLife p; size := size p;
         startSize := startSize p; endSize := endSize p; color := color p;
         startColor := startColor p; endColor := endColor p;
         rotation := rotation p; rotationSpeed := rotationSpeed p |}
    else
      let v := velocity p in
      let vel := vec3 (vx v) (vy v - grav * delta) (vz v) in
      let lifeRatio := l / maxLife p in
      {| active := true;
         position := V3.add (position p) (V3.multiplyScalar vel delta);
         velocity := vel; life := l; maxLife := maxLife p;
         size := lerp (endSize p) (startSize p) lifeRatio;
         startSize := startSize p; endSize := endSize p;
         color := lerpColor (startColor p) (endColor p) (1 - lifeRatio);
         startColor := startColor p; endColor := endColor p;
         rotation := rotation p + rotationSpeed p * delta;
         rotationSpeed := rotationSpeed p |}.

Definition update (delta : Q) (s : System) : System :=
  {| particles := List.map (updateParticle (gravity s) delta) (particles s);
     gravity := gravity s |}.

(** Slots in use and slots free. *)
Definition activeCount (ps : list Particle) : nat :=
  List.length (List.filter active ps).
Definition inactiveCount (ps : list Particle) : nat :=
  List.length (List.filter (fun p => negb (active p)) ps).

End WithMath.
End ParticleSystem.

(** ** utils.ts: the flora noise *)

Section Noise.
Context {M : JSMath}.

(** [perm] of [createNoise2D]: 256 entries, each [floor(pseudoRandom * 256)]. *)
Definition noisePerm (seed : Q) : list Z :=
  List.map (fun i =>
    Num.floor (pseudoRandom (seed + inject_Z (Z.of_nat i) * (11 # 10)) * 256))
    (List.seq 0 256).

(** [p[i]]; every index the noise function uses is below 512. *)
Definition permAt (p : list Z) (i : Z) : Z := List.nth (Z.to_nat i) p 0%Z.

Definition fade (t : Q) : Q := t * t * t * (t * (t * 6 - 15) + 10).
Definition mix (t a b : Q) : Q := a + t * (b - a).
Definition grad (hash : Z) (x y : Q) : Q :=
  let h := Z.land hash 15 in
  let u := if (h <? 8)%Z then x else y in
  let v := if (h <? 8)%Z then y else x in
  (if (Z.land h 1 =? 0)%Z then u else - u)
  + (if (Z.land h 2 =? 0)%Z then v else - v).

Definition createNoise2D (seed : Q) : Q -> Q -> Q :=
  let perm := noisePerm seed in
  let p := perm ++ perm in
  fun x0 y0 =>
    let X := Z.land (Num.floor x0) 255 in
    let Y := Z.land (Num.floor y0) 255 in
    let x := x0 - inject_Z (Num.floor x0) in
    let y := y0 - inject_Z (Num.floor y0) in
    let u := fade x in
    let v := fade y in
    let aa := permAt p (permAt p X + Y) in
    let ab := permAt p (permAt p X + Y + 1) in
    let ba := permAt p (permAt p (X + 1) + Y) in
    let bb := permAt p (permAt p (X + 1) + Y + 1) in
    mix v (mix u (grad (permAt p aa) x y) (grad (permAt p ba) (x - 1) y))
          (mix u (grad (permAt p ab) x (y - 1))
                 (grad (permAt p bb) (x - 1) (y - 1))).

Definition floraNoise : Q -> Q -> Q := createNoise2D 12345.

End Noise.

(** ** The shared [matrixDummy] and the decoration buffers of a chunk *)

(** A baked instance matrix: the position and Euler rotation it was
    composed from. *)
Record Matrix4 : Type := { matPosition : Vector3; matRotation : Vector3 }.

(** [matrixDummy]: one [THREE.Object3D] shared by every chunk generation.
    [matrix] changes only in [updateMatrix]. *)
Record Object3D : Type := {
  objPosition : Vector3;
  objRotation : Vector3;
  matrix : Matrix4
}.

Definition positionSet (p : Vector3) (d : Object3D) : Object3D :=
  {| objPosition := p; objRotation := objRotation d; matrix := matrix d |}.
Definition rotationSet (r : Vector3) (d : Object3D) : Object3D :=
  {| objPosition := objPosition d; objRotation := r; matrix := matrix d |}.
Definition updateMatrix (d : Object3D) : Object3D :=
  {| objPosition := objPosition d; objRotation := objRotation d;
     matrix := {| matPosition := objPosition d;
                  matRotation := objRotation d |} |}.

(** The eleven matrix arrays a chunk fills. *)
Inductive Layer : Type :=
| grassMatrices | dirtTopMatrices | dirtBaseMatrices
| flowerStemMatrices | redFlowerHeadMatrices | yellowFlowerHeadMatrices
| blueFlowerHeadMatrices | mushroomStalkMatrices | redMushroomCapMatrices
| brownMushroomCapMatrices | grassBladesMatrices.

Definition Layer_eqb (a b : Layer) : bool :=
  match a, b with
  | grassMatrices, grassMatrices | dirtTopMatrices, dirtTopMatrices
  | dirtBaseMatrices, dirtBaseMatrices
  | flowerStemMatrices, flowerStemMatrices
  | redFlowerHeadMatrices, redFlowerHeadMatrices
  | yellowFlowerHeadMatrices, yellowFlowerHeadMatrices
  | blueFlowerHeadMatrices, blueFlowerHeadMatrices
  | mushroomStalkMatrices, mushroomStalkMatrices
  | redMushroomCapMatrices, redMushroomCapMatrices
  | brownMushroomCapMatrices, brownMushroomCapMatrices
  | grassBladesMatrices, grassBladesMatrices => true
  | _, _ => false
  end.

(** The pushes of one generation, in program order; each array is the
    pushes made to it, in order. *)
Definition Pushes : Type := list (Layer * Matrix4).

Definition layer (l : Layer) (out : Pushes) : list Matrix4 :=
  List.map snd (List.filter (fun e => Layer_eqb (fst e) l) out).

(** The generation state threaded through the decoration code: the shared
    dummy and the pushes so far. *)
Definition Gen : Type := (Object3D * Pushes)%type.

(** [arr.push(matrixDummy.matrix.clone())] *)
Definition push (l : Layer) (s : Gen) : Gen :=
  (fst s, snd s ++ [(l, matrix (fst s))]).

(** [matrixDummy.position.set(...); matrixDummy.updateMatrix()] *)
Definition place (p : Vector3) (s : Gen) : Gen :=
  (updateMatrix (positionSet p (fst s)), snd s).

Definition rotate (r : Vector3) (s : Gen) : Gen :=
  (rotationSet r (fst s), snd s).

(** Two generation states with the same pushes, whatever the dummy. *)
Definition samePushes (s s' : Gen) : Prop := snd s = snd s'.

Section Decorations.
Context {M : JSMath}.

Definition half : Q := 1 # 2.

(** The blades of one grass tuft: [for (k = 0; k < numBlades; k++)], with
    the rotation seeds [s15 + k], [s14 + k], [s16 + k]. *)
Definition blade (p : Vector3) (s15 s14 s16 : Q) (st : Gen) (k : nat) : Gen :=
  let q := inject_Z (Z.of_nat k) in
  let st1 := (positionSet p (fst st), snd st) in
  let st2 :=
    rotate (vec3 ((pseudoRandom (s15 + q) - half) * (4 # 10))
                 (pseudoRandom (s14 + q) * Math_PI * 2)
                 ((pseudoRandom (s16 + q) - half) * (4 # 10))) st1 in
  push grassBladesMatrices (updateMatrix (fst st2), snd st2).

Definition blades (p : Vector3) (s15 s14 s16 : Q) (numBlades : Z) (s : Gen)
  : Gen :=
  List.fold_left (blade p s15 s14 s16) (List.seq 0 (Z.to_nat numBlades)) s.

(** The per-cell seed. *)
Definition blockSeed (worldX worldZ : Q) : Q :=
  inject_Z (Num.floor worldX) * 1839 + inject_Z (Num.floor worldZ) * 3847.

(** The first statements of a cell: the dummy is put under the ground
    block with rotation zero, baked, and pushed as the dirt base. *)
Definition cellGround (x z : Z) (ij : Z * Z) (s : Gen) : Gen :=
  let '(i, j) := ij in
  let cs := inject_Z CHUNK_SIZE in
  let localX := inject_Z i - cs / 2 + 1 in
  let localZ := inject_Z j - cs / 2 + 1 in
  let worldX := inject_Z x * cs + inject_Z i - cs / 2 + 1 in
  let worldZ := inject_Z z * cs + inject_Z j - cs / 2 + 1 in
  let groundY := getHeight worldX worldZ in
  let s1 := (positionSet (vec3 localX (groundY - (175 # 100)) localZ) (fst s),
             snd s) in
  let s2 := rotate (vec3 0 0 0) s1 in
  push dirtBaseMatrices (updateMatrix (fst s2), snd s2).

(** The body of the two cell loops for the cell [(i, j)] of chunk
    [(x, z)].  [noise] is the module-level [floraNoise], built once. *)
Definition cell (noise : Q -> Q -> Q) (x z : Z) (s : Gen) (ij : Z * Z)
  : Gen :=
  let '(i, j) := ij in
  let cs := inject_Z CHUNK_SIZE in
  let localX := inject_Z i - cs / 2 + 1 in
  let localZ := inject_Z j - cs / 2 + 1 in
  let worldX := inject_Z x * cs + inject_Z i - cs / 2 + 1 in
  let worldZ := inject_Z z * cs + inject_Z j - cs / 2 + 1 in
  let groundY := getHeight worldX worldZ in
  let blockSeed := blockSeed worldX worldZ in
  let s3 := cellGround x z (i, j) s in
  let s4 := place (vec3 localX (groundY - (25 # 100)) localZ) s3 in
  let isDirtPatch := pseudoRandom blockSeed <=? DIRT_PATCH_DENSITY in
  let s5 :=
    if negb isDirtPatch then
      let a := push grassMatrices s4 in
      let floraDensity := (noise (worldX / 50) (worldZ / 50) + 1) / 2 in
      let floraSeed := blockSeed * 3 in
      let b :=
        if pseudoRandom floraSeed <? FLOWER_DENSITY * floraDensity then
          let flowerX := localX + (pseudoRandom (floraSeed * 2) - half) in
          let flowerZ := localZ + (pseudoRandom (floraSeed * 3) - half) in
          let flowerY := getHeight (inject_Z x * cs + flowerX)
                                   (inject_Z z * cs + flowerZ) in
          let f1 := push flowerStemMatrices
                      (place (vec3 flowerX (flowerY + (25 # 100)) flowerZ) a) in
          let f2 := place (vec3 flowerX (flowerY + half) flowerZ) f1 in
          let colorRand := pseudoRandom (floraSeed * 5) in
          if colorRand <? (4 # 10) then push redFlowerHeadMatrices f2
          else if colorRand <? (8 # 10) then push yellowFlowerHeadMatrices f2
          else push blueFlowerHeadMatrices f2
        else a in
      if pseudoRandom (floraSeed + 10) <? GRASS_DENSITY * floraDensity * 2 then
        let grassX := localX + (pseudoRandom (floraSeed * 11) - half) in
        let grassZ := localZ + (pseudoRandom (floraSeed * 12) - half) in
        let grassY := getHeight (inject_Z x * cs + grassX)
                                (inject_Z z * cs + grassZ) in
        let numBlades := (2 + Num.floor (pseudoRandom (floraSeed * 13) * 3))%Z in
        blades (vec3 grassX (grassY + (6 # 10)) grassZ)
               (floraSeed * 15) (floraSeed * 14) (floraSeed * 16) numBlades b
      else b
    else push dirtTopMatrices s4 in
  let floraSeedMush := blockSeed * 5 in
  let floraDensityMush := (noise (worldX / 20) (worldZ / 20) + 1) / 2 in
  if isDirtPatch
     && (pseudoRandom floraSeedMush <? MUSHROOM_DENSITY * floraDensityMush) then
    let mushX := localX + (pseudoRandom (floraSeedMush * 6) - half) in
    let mushZ := localZ + (pseudoRandom (floraSeedMush * 7) - half) in
    let mushY := getHeight (inject_Z x * cs + mushX)
                           (inject_Z z * cs + mushZ) in
    let m1 := (positionSet (vec3 mushX (mushY + (3 # 10)) mushZ) (fst s5),
               snd s5) in
    let m2 := rotate (vec3 0 0 0) m1 in
    let m3 := push mushroomStalkMatrices (updateMatrix (fst m2), snd m2) in
    let m4 := place (vec3 mushX (mushY + (6 # 10)) mushZ) m3 in
    if pseudoRandom (floraSeedMush * 9) <? (6 # 10)
    then push brownMushroomCapMatrices m4
    else push redMushroomCapMatrices m4
  else s5.

(** The index pairs of [for (i = 0; i < CHUNK_SIZE; i += 2) for (j ...)]. *)
Definition cellIndices : list (Z * Z) :=
  let evens := List.map (fun k => (2 * Z.of_nat k)%Z)
                        (List.seq 0 (Z.to_nat (CHUNK_SIZE / 2))) in
  flatMap (fun i => List.map (fun j => (i, j)) evens) evens.

(** The per-chunk seed. *)
Definition chunkSeed (x z : Z) : Q := inject_Z x * 1839 + inject_Z z * 3847.

(** The tree of a chunk, if the gate passes: its chunk-local x and z. *)
Definition localTrees (x z : Z) : list Vector3 :=
  let seed := chunkSeed x z in
  if pseudoRandom seed <? TREE_DENSITY then
    [vec3 ((pseudoRandom (seed * 2) - half) * inject_Z CHUNK_SIZE * (8 # 10)) 0
          ((pseudoRandom (seed * 3) - half) * inject_Z CHUNK_SIZE * (8 # 10))]
  else [].

(** The fifteen grass tufts around a tree. *)
Definition tuft (x z : Z) (treePos : Vector3) (st : Gen) (k : nat) : Gen :=
  let seed := chunkSeed x z in
  let originX := inject_Z x * inject_Z CHUNK_SIZE in
  let originZ := inject_Z z * inject_Z CHUNK_SIZE in
  let q := inject_Z (Z.of_nat k) in
  let angle := pseudoRandom (seed * q * 5) * Math_PI * 2 in
  let radius := 1 + pseudoRandom (seed * q * 7) * 3 in
  let grassX := vx treePos + Math_cos angle * radius in
  let grassZ := vz treePos + Math_sin angle * radius in
  let grassY := getHeight (originX + grassX) (originZ + grassZ) in
  let numBlades := (2 + Num.floor (pseudoRandom (seed * q * 9) * 3))%Z in
  blades (vec3 grassX (grassY + (6 # 10)) grassZ)
         (seed * 15) (seed * 14) (seed * 16) numBlades st.

Definition treeGrass (x z : Z) (treePos : Vector3) (s : Gen) : Gen :=
  List.fold_left (tuft x z treePos) (List.seq 0 15) s.

(** The decoration pass of one chunk: every cell, then the grass around
    the chunk's trees. *)
Definition decorate (x z : Z) (s : Gen) : Gen :=
  let noise := floraNoise in
  let s1 := List.fold_left (cell noise x z) cellIndices s in
  List.fold_left (fun st t => treeGrass x z t st) (localTrees x z) s1.

End Decorations.

(** ** WorldStreamer: [updateWorld] *)

Module World.

(** *** Chunk ids: [`${x},${z}`] and back *)

(** A chunk coordinate printed as JavaScript prints an integral number
    (below 1e21 in magnitude): decimal digits, with a minus sign for a
    negative one. *)
Definition numberToString (n : Z) : string :=
  NilZero.string_of_int (Z.to_int n).

Definition chunkIdOf (x z : Z) : string :=
  (numberToString x ++ "," ++ numberToString z)%string.

(** [s.split(',')] *)
Fixpoint splitComma (s : string) : list string :=
  match s with
  | EmptyString => [EmptyString]
  | String c rest =>
    if Ascii.eqb c ","%char then EmptyString :: splitComma rest
    else
      match splitComma rest with
      | [] => [String c EmptyString]
      | first :: others => String c first :: others
      end
  end.

(** No comma in [s]. *)
Fixpoint commaFree (s : string) : bool :=
  match s with
  | EmptyString => true
  | String c rest => negb (Ascii.eqb c ","%char) && commaFree rest
  end.

(** [parseInt(s, 10)] on an optional field; [None] is [NaN].  On the
    strings [numberToString] prints, it reads back the number. *)
Definition parseInt (s : option string) : option Z :=
  match s with
  | Some str => option_map Z.of_int (NilZero.int_of_string str)
  | None => None
  end.

(** [const [xStr, zStr] = chunkId.split(','); parseInt(xStr, 10), ...] *)
Definition parseChunkId (chunkId : string) : option Z * option Z :=
  let fields := splitComma chunkId in
  (parseInt (List.nth_error fields 0), parseInt (List.nth_error fields 1)).

(** [Math.abs(a - c) > RENDER_DISTANCE_IN_CHUNKS], false for [NaN]. *)
Definition beyond (a : option Z) (c : Z) : bool :=
  match a with
  | Some v => (Z.abs (v - c) >? RENDER_DISTANCE_IN_CHUNKS)%Z
  | None => false
  end.

(** *** A [Map<string, V>] in insertion order *)

Section StringMap.
Context {V : Type}.

Definition has (k : string) (m : list (string * V)) : bool :=
  List.existsb (fun e => String.eqb (fst e) k) m.

Definition get (k : string) (m : list (string * V)) : option V :=
  option_map snd (List.find (fun e => String.eqb (fst e) k) m).

Definition delete (k : string) (m : list (string * V)) : list (string * V) :=
  List.filter (fun e => negb (String.eqb (fst e) k)) m.

(** [m.set(k, v)]: a present key keeps its place, a new one goes last. *)
Definition set (k : string) (v : V) (m : list (string * V))
  : list (string * V) :=
  if has k m then
    List.map (fun e => if String.eqb (fst e) k then (k, v) else e) m
  else m ++ [(k, v)].

Definition keys (m : list (string * V)) : list string := List.map fst m.

End StringMap.

(** *** The streamed objects *)

Record PlacedTree : Type := {
  tree : Tree;
  treeY : Q                      (* tree.position.y, set after creation *)
}.

Record PlacedBush : Type := {
  bush : Bush;
  bushY : Q
}.

Record Chunk : Type := {
  chunkUid : nat;
  chunkOrigin : Vector3;         (* chunkGroup.position *)
  decorations : Pushes;
  trees : list PlacedTree;
  bushes : list PlacedBush
}.

Record PlacedHouse : Type := {
  house : House;
  housePosition : Vector3;
  houseRotationY : Q
}.

Record Village : Type := {
  villageUid : nat;
  villageOrigin : Vector3;       (* villageGroup.position *)
  villageChunkId : string;
  houses : list PlacedHouse;
  farm : FarmPlot;
  farmPosition : Vector3;
  wellPosition : Vector3
}.

(** Everything [updateWorld] reads and writes.  An object is known to the
    scene by its uid, which stands for its identity; [scene] lists the
    streamed children of the scene in order. *)
Record State : Type := {
  activeChunks : list (string * Chunk);
  activeVillages : list (string * Village);
  birds : list (nat * Bird.State);            (* birdsRef.current *)
  villagers : list (nat * Villager.State);    (* villagersRef.current *)
  scene : list nat;
  matrixDummy : Object3D;
  rng : RNG;
  nextUid : nat
}.

Definition empty (g : RNG) : State :=
  {| activeChunks := []; activeVillages := []; birds := []; villagers := [];
     scene := [];
     matrixDummy := {| objPosition := V3.zero; objRotation := V3.zero;
                       matrix := {| matPosition := V3.zero;
                                    matRotation := V3.zero |} |};
     rng := g; nextUid := O |}.

(** [scene.remove(o)]: the first occurrence, if any. *)
Fixpoint sceneRemove (uid : nat) (children : list nat) : list nat :=
  match children with
  | [] => []
  | c :: rest => if Nat.eqb c uid then rest else c :: sceneRemove uid rest
  end.

(** The layout of a chunk: what the spec calls its decoration and
    structure placement.  Identities (uids) are not part of it. *)
Record Layout : Type := {
  layoutDecorations : Pushes;
  layoutTrees : list (Vector3 * Q * Q * list Vector3 * option Vector3);
      (* position, height, trunk width, leaves, nest position *)
  layoutBushes : list PlacedBush;
  layoutVillage : option (Vector3 * list PlacedHouse * FarmPlot * Vector3 * Vector3)
      (* origin, houses, farm, farm position, well position *)
}.

Definition treeLayout (t : PlacedTree)
  : Vector3 * Q * Q * list Vector3 * option Vector3 :=
  (vec3 (vx (treePosition (tree t))) (treeY t) (vz (treePosition (tree t))),
   height (tree t), trunkWidth (tree t), leafPositions (tree t),
   option_map nestPosition (nest (tree t))).

Definition layoutOf (c : Chunk) (v : option Village) : Layout :=
  {| layoutDecorations := decorations c;
     layoutTrees := List.map treeLayout (trees c);
     layoutBushes := bushes c;
     layoutVillage :=
       option_map (fun vl => (villageOrigin vl, houses vl, farm vl,
                              farmPosition vl, wellPosition vl)) v |}.


Section Generation.
Context {M : JSMath}.

(** *** Generation of one chunk *)

(** One bird of a nested or leafy tree: the object literal's fields in
    evaluation order ([landingSpot], [flapOffset], [velocity]), then the
    pose.  [None] if a leaf index were out of range. *)
Definition newBird (chunkId : string) (seed : Q) (i : nat)
  (treeWorldPos : Vector3) (t : Tree) (g : RNG) : option Bird.State * RNG :=
  let treeHasNest := match nest t with Some _ => true | None => false end in
  let timer :=
    pseudoRandom (seed * 13 * (inject_Z (Z.of_nat i) + 1)) * 10 + 5 in
  let '(spot, g1) :=
    match nest t with
    | Some n => (Some (nestPosition n), g)
    | None => findNewLandingSpot t g
    end in
  match spot with
  | None => (None, g1)
  | Some landing =>
    let '(flap, g2) := random g1 in
    let '(r2, g3) := random g2 in
    let '(r3, g4) := random g3 in
    let vel :=
      V3.multiplyScalar
        (V3.normalize (vec3 ((r2 - half) * 2) 0 ((r3 - half) * 2)))
        BIRD_MAX_SPEED in
    let p0 := V3.add treeWorldPos landing in
    let pos := if treeHasNest then vec3 (vx p0) (vy p0 + (2 # 10)) (vz p0)
               else p0 in
    let '(r4, g5) := random g4 in
    let '(r5, g6) := random g5 in
    let lookAwayTarget :=
      V3.add pos (V3.normalize (vec3 (r4 - half) 0 (r5 - half))) in
    (Some {| Bird.position := pos; Bird.lookTarget := lookAwayTarget;
             Bird.state := Bird.SITTING; Bird.flightMode := Bird.NONE;
             Bird.stateTimer := timer; Bird.chunkId := chunkId;
             Bird.homeTree := t; Bird.homeTreeWorld := treeWorldPos;
             Bird.hasNest := treeHasNest; Bird.landingSpot := landing;
             Bird.velocity := vel; Bird.circleAngle := 0;
             Bird.circleRadius := 0; Bird.circleAltitude := 0;
             Bird.swoopTarget := V3.zero; Bird.swoopPhase := Bird.DIVE;
             Bird.audioPlaying := false |}, g6)
  end.

(** [scene.add(bird); birdsRef.current.push(bird)] for [n] birds. *)
Fixpoint spawnBirds (chunkId : string) (seed : Q) (treeWorldPos : Vector3)
  (t : Tree) (i n : nat) (w : State) : option State :=
  match n with
  | O => Some w
  | S k =>
    match newBird chunkId seed i treeWorldPos t (rng w) with
    | (Some b, g) =>
      spawnBirds chunkId seed treeWorldPos t (S i) k
        {| activeChunks := activeChunks w;
           activeVillages := activeVillages w;
           birds := birds w ++ [(nextUid w, b)];
           villagers := villagers w;
           scene := scene w ++ [nextUid w];
           matrixDummy := matrixDummy w; rng := g;
           nextUid := S (nextUid w) |}
    | (None, _) => None
    end
  end.

Definition withRng (g : RNG) (w : State) : State :=
  {| activeChunks := activeChunks w; activeVillages := activeVillages w;
     birds := birds w; villagers := villagers w; scene := scene w;
     matrixDummy := matrixDummy w; rng := g; nextUid := nextUid w |}.

(** The second [localTrees.forEach]: the tree and its birds. *)
Definition plantTree (x z : Z) (chunkId : string) (origin treePos : Vector3)
  (acc : option (State * list PlacedTree)) : option (State * list PlacedTree) :=
  match acc with
  | None => None
  | Some (w, placed) =>
    let seed := chunkSeed x z in
    match createTree (vx treePos) (vz treePos) seed (rng w) with
    | (None, _) => None
    | (Some t, g) =>
      let y := getHeight (vx origin + vx treePos) (vz origin + vz treePos) in
      let w1 := withRng g w in
      let pt := {| tree := t; treeY := y |} in
      let w2 :=
        if pseudoRandom (seed * 5) <? BIRD_TREE_CHANCE then
          let numBirds := (Num.floor (pseudoRandom (seed * 7) * 3) + 1)%Z in
          match leafPositions t with
          | [] => Some w1            (* no instanced leaves: no birds *)
          | _ :: _ =>
            spawnBirds chunkId seed
              (V3.add origin (vec3 (vx treePos) y (vz treePos)))
              t O (Z.to_nat numBirds) w1
          end
        else Some w1 in
      option_map (fun w' => (w', placed ++ [pt])) w2
    end
  end.

(** Rotation of a point about the y axis: [p.applyQuaternion(q)] for the
    quaternion of a group whose only rotation is [rotation.y = theta]. *)
Definition rotateY (p : Vector3) (theta : Q) : Vector3 :=
  vec3 (vx p * Math_cos theta + vz p * Math_sin theta) (vy p)
       (- vx p * Math_sin theta + vz p * Math_cos theta).

Definition placeHouse (origin : Vector3) (villageSeed : Q) (numHouses : Z)
  (i : nat) : PlacedHouse :=
  let q := inject_Z (Z.of_nat i) in
  let angle := (q / inject_Z numHouses) * Math_PI * 2
               + pseudoRandom (villageSeed + q) * half in
  let radius := 8 + pseudoRandom (villageSeed + q * 2) * 4 in
  let houseX := Math_cos angle * radius in
  let houseZ := Math_sin angle * radius in
  {| house := createHouse (villageSeed + q * 3);
     housePosition :=
       vec3 houseX (getHeight (vx origin + houseX) (vz origin + houseZ)) houseZ;
     houseRotationY := - angle + Math_PI / 2 |}.

Definition professions : list Villager.Profession :=
  [Villager.farmer; Villager.librarian; Villager.blacksmith; Villager.nitwit].

(** One villager of a village.  [None] if an array index were out of
    range. *)
Definition newVillager (chunkId : string) (villageSeed : Q)
  (origin : Vector3) (hs : list PlacedHouse) (fm : FarmPlot)
  (farmPos : Vector3) (i : nat) (g : RNG) : option Villager.State * RNG :=
  let q := inject_Z (Z.of_nat i) in
  let prof :=
    at_ professions
        (Num.floor (pseudoRandom (villageSeed + q * 19)
                    * inject_Z (Z.of_nat (List.length professions)))) in
  let '(r, g1) := random g in
  let spawnAngle := r * Math_PI * 2 in
  let villagerX := vx origin + Math_cos spawnAngle * 5 in
  let villagerZ := vz origin + Math_sin spawnAngle * 5 in
  match prof, List.nth_error hs (i mod List.length hs) with
  | Some p, Some homeHouse =>
    let inHouse := rotateY (interiorPoint (house homeHouse))
                           (houseRotationY homeHouse) in
    let hp := V3.add (V3.add (housePosition homeHouse) inHouse) origin in
    let homeP := vec3 (vx hp) (getHeight (vx hp) (vz hp) + 1) (vz hp) in
    let work :=
      if Villager.isFarmer p && (0 <? List.length (workPoints fm))%nat then
        match List.nth_error (workPoints fm)
                             (i mod List.length (workPoints fm)) with
        | Some wp =>
          let pt := V3.add (V3.add farmPos wp) origin in
          Some (vec3 (vx pt) (getHeight (vx pt) (vz pt) + half) (vz pt))
        | None => None
        end
      else None in
    (Some {| Villager.position :=
               vec3 villagerX (getHeight villagerX villagerZ) villagerZ;
             Villager.state := Villager.IDLE;
             Villager.prevState := None;
             Villager.stateTimer :=
               pseudoRandom (villageSeed * 23 * q) * 5 + 3;
             Villager.chunkId := chunkId;
             Villager.targetPosition := None;
             Villager.profession := p;
             Villager.homePoint := homeP;
             Villager.workPoint := work;
             Villager.velocityY := 0;
             Villager.isOnGround := true |}, g1)
  | _, _ => (None, g1)
  end.

Fixpoint spawnVillagers (chunkId : string) (villageSeed : Q)
  (origin : Vector3) (hs : list PlacedHouse) (fm : FarmPlot)
  (farmPos : Vector3) (i n : nat) (w : State) : option State :=
  match n with
  | O => Some w
  | S k =>
    match newVillager chunkId villageSeed origin hs fm farmPos i (rng w) with
    | (Some v, g) =>
      spawnVillagers chunkId villageSeed origin hs fm farmPos (S i) k
        {| activeChunks := activeChunks w;
           activeVillages := activeVillages w;
           birds := birds w;
           villagers := villagers w ++ [(nextUid w, v)];
           scene := scene w ++ [nextUid w];
           matrixDummy := matrixDummy w; rng := g;
           nextUid := S (nextUid w) |}
    | (None, _) => None
    end
  end.

(** The bush of a chunk, if its gate passes. *)
Definition placeBushes (x z : Z) : list PlacedBush :=
  let seed := chunkSeed x z in
  let origin := vec3 (inject_Z x * inject_Z CHUNK_SIZE) 0
                     (inject_Z z * inject_Z CHUNK_SIZE) in
  if pseudoRandom (seed * 5) <? BUSH_DENSITY then
    let bushX := (pseudoRandom (seed * 7) - half)
                 * inject_Z CHUNK_SIZE * (9 # 10) in
    let bushZ := (pseudoRandom (seed * 11) - half)
                 * inject_Z CHUNK_SIZE * (9 # 10) in
    [{| bush := createBush bushX bushZ seed;
        bushY := getHeight (vx origin + bushX) (vz origin + bushZ) + half |}]
  else [].

(** The seeded plan of a village: its houses, farm, farm and well
    positions, and the number of villagers. *)
Record VillagePlan : Type := {
  planOrigin : Vector3;
  planSeed : Q;
  planHouses : list PlacedHouse;
  planFarm : FarmPlot;
  planFarmPosition : Vector3;
  planWellPosition : Vector3;
  planVillagers : Z
}.

Definition villageGate (x z : Z) : bool :=
  pseudoRandom (chunkSeed x z * 13) <? VILLAGE_DENSITY.

Definition villagePlan (x z : Z) : VillagePlan :=
  let seed := chunkSeed x z in
  let origin := vec3 (inject_Z x * inject_Z CHUNK_SIZE) 0
                     (inject_Z z * inject_Z CHUNK_SIZE) in
  let villageSeed := seed * 17 in
  let numHouses := (2 + Num.floor (pseudoRandom villageSeed * 2))%Z in
  let ground := getHeight (vx origin) (vz origin) in
  {| planOrigin := origin;
     planSeed := villageSeed;
     planHouses := List.map (placeHouse origin villageSeed numHouses)
                            (List.seq 0 (Z.to_nat numHouses));
     planFarm := createFarmPlot (villageSeed + 11);
     planFarmPosition := vec3 0 ground 12;
     planWellPosition := vec3 0 ground (-2);
     planVillagers :=
       (numHouses + Num.floor (pseudoRandom (villageSeed + 17)))%Z |}.

(** The village block: gate, houses, farm, well, villagers, and the
    latch in [activeVillages]. *)
Definition buildVillage (x z : Z) (chunkId : string) (w : State)
  : option State :=
  if villageGate x z && negb (has chunkId (activeVillages w)) then
    let plan := villagePlan x z in
    let uid := nextUid w in
    let w1 :=
      {| activeChunks := activeChunks w; activeVillages := activeVillages w;
         birds := birds w; villagers := villagers w; scene := scene w;
         matrixDummy := matrixDummy w; rng := rng w;
         nextUid := S uid |} in
    match spawnVillagers chunkId (planSeed plan) (planOrigin plan)
                         (planHouses plan) (planFarm plan)
                         (planFarmPosition plan)
                         O (Z.to_nat (planVillagers plan)) w1 with
    | Some w2 =>
      let village :=
        {| villageUid := uid; villageOrigin := planOrigin plan;
           villageChunkId := chunkId; houses := planHouses plan;
           farm := planFarm plan;
           farmPosition := planFarmPosition plan;
           wellPosition := planWellPosition plan |} in
      Some {| activeChunks := activeChunks w2;
              activeVillages := set chunkId village (activeVillages w2);
              birds := birds w2; villagers := villagers w2;
              scene := scene w2 ++ [uid];
              matrixDummy := matrixDummy w2; rng := rng w2;
              nextUid := nextUid w2 |}
    | None => None
    end
  else Some w.

(** The body of the two coordinate loops for a chunk that is not
    active. *)
Definition generateChunk (x z : Z) (w : State) : option State :=
  let chunkId := chunkIdOf x z in
  let origin := vec3 (inject_Z x * inject_Z CHUNK_SIZE) 0
                     (inject_Z z * inject_Z CHUNK_SIZE) in
  let uid := nextUid w in
  let '(dummy, pushes) := decorate x z (matrixDummy w, []) in
  let w0 :=
    {| activeChunks := activeChunks w; activeVillages := activeVillages w;
       birds := birds w; villagers := villagers w; scene := scene w;
       matrixDummy := dummy; rng := rng w; nextUid := S uid |} in
  match List.fold_left (fun acc t => plantTree x z chunkId origin t acc)
                       (localTrees x z) (Some (w0, [])) with
  | None => None
  | Some (w1, placedTrees) =>
    let placedBushes := placeBushes x z in
    match buildVillage x z chunkId w1 with
    | None => None
    | Some w2 =>
      let chunk :=
        {| chunkUid := uid; chunkOrigin := origin; decorations := pushes;
           trees := placedTrees; bushes := placedBushes |} in
      Some {| activeChunks := set chunkId chunk (activeChunks w2);
              activeVillages := activeVillages w2;
              birds := birds w2; villagers := villagers w2;
              scene := scene w2 ++ [uid];
              matrixDummy := matrixDummy w2; rng := rng w2;
              nextUid := nextUid w2 |}
    end
  end.

(** *** Teardown of one chunk *)

(** [xs.filter(e => { if (e.userData.chunkId === chunkId)
    { scene.remove(e); return false; } return true; })] *)
Fixpoint dropEntities {A : Type} (chunkIdOfEntity : A -> string)
  (chunkId : string) (es : list (nat * A)) (children : list nat)
  : list (nat * A) * list nat :=
  match es with
  | [] => ([], children)
  | (uid, e) :: rest =>
    if String.eqb (chunkIdOfEntity e) chunkId then
      dropEntities chunkIdOfEntity chunkId rest (sceneRemove uid children)
    else
      let '(kept, children') :=
        dropEntities chunkIdOfEntity chunkId rest children in
      ((uid, e) :: kept, children')
  end.

(** The test of the teardown callback: the coordinate parsed from the
    chunk id is beyond the render distance on one axis. *)
Definition far (currentChunkX currentChunkZ : Z) (chunkId : string) : bool :=
  let '(x, z) := parseChunkId chunkId in
  beyond x currentChunkX || beyond z currentChunkZ.

(** The callback of [activeChunks.forEach] for one entry. *)
Definition teardown (currentChunkX currentChunkZ : Z) (w : State)
  (entry : string * Chunk) : State :=
  let '(chunkId, chunk) := entry in
  if far currentChunkX currentChunkZ chunkId then
    let w1 :=
      match get chunkId (activeVillages w) with
      | Some village =>
        let children := sceneRemove (villageUid village) (scene w) in
        let '(vs, children') :=
          dropEntities Villager.chunkId chunkId (villagers w) children in
        {| activeChunks := activeChunks w;
           activeVillages := delete chunkId (activeVillages w);
           birds := birds w; villagers := vs; scene := children';
           matrixDummy := matrixDummy w; rng := rng w;
           nextUid := nextUid w |}
      | None => w
      end in
    let '(bs, children) :=
      dropEntities Bird.chunkId chunkId (birds w1) (scene w1) in
    {| activeChunks := delete chunkId (activeChunks w1);
       activeVillages := activeVillages w1;
       birds := bs; villagers := villagers w1;
       scene := sceneRemove (chunkUid chunk) children;
       matrixDummy := matrixDummy w1; rng := rng w1;
       nextUid := nextUid w1 |}
  else w.

(** *** [updateWorld] *)

(** The coordinates of the two generation loops, in visiting order. *)
Definition window (currentChunkX currentChunkZ : Z) : list (Z * Z) :=
  let span (c : Z) :=
    List.map (fun k => (c - RENDER_DISTANCE_IN_CHUNKS + Z.of_nat k)%Z)
             (List.seq 0 (Z.to_nat (2 * RENDER_DISTANCE_IN_CHUNKS + 1))) in
  flatMap (fun x => List.map (fun z => (x, z)) (span currentChunkZ))
          (span currentChunkX).

Definition generateIfMissing (acc : option State) (xz : Z * Z)
  : option State :=
  match acc with
  | None => None
  | Some w =>
    if negb (has (chunkIdOf (fst xz) (snd xz)) (activeChunks w))
    then generateChunk (fst xz) (snd xz) w
    else Some w
  end.

(** The player's chunk coordinate. *)
Definition chunkOf (playerX playerZ : Q) : Z * Z :=
  (Num.floor (playerX / inject_Z CHUNK_SIZE),
   Num.floor (playerZ / inject_Z CHUNK_SIZE)).

(** [updateWorld(playerX, playerZ)].  [None] stands for an exception
    thrown by an out-of-range array read during generation.  The teardown
    loop visits the entries present when it starts; the only entry the
    callback deletes is the one being visited. *)
Definition updateWorld (playerX playerZ : Q) (w : State) : option State :=
  let '(currentChunkX, currentChunkZ) := chunkOf playerX playerZ in
  match List.fold_left generateIfMissing
                       (window currentChunkX currentChunkZ) (Some w) with
  | None => None
  | Some w1 =>
    Some (List.fold_left (teardown currentChunkX currentChunkZ)
                         (activeChunks w1) w1)
  end.

(** The village a chunk's plan lays out. *)
Definition plannedVillage (x z : Z)
  : Vector3 * list PlacedHouse * FarmPlot * Vector3 * Vector3 :=
  let plan := villagePlan x z in
  (planOrigin plan, planHouses plan, planFarm plan,
   planFarmPosition plan, planWellPosition plan).

Definition villageLayout (v : Village)
  : Vector3 * list PlacedHouse * FarmPlot * Vector3 * Vector3 :=
  (villageOrigin v, houses v, farm v, farmPosition v, wellPosition v).

(** *** The layout of a coordinate *)

Definition pristineDummy : Object3D :=
  {| objPosition := V3.zero; objRotation := V3.zero;
     matrix := {| matPosition := V3.zero; matRotation := V3.zero |} |}.

(** The tree of a chunk as it is laid out: [createTree] with the height
    set, without the twigs of its nest. *)
Definition layTree (x z : Z) (treePos : Vector3)
  : list (Vector3 * Q * Q * list Vector3 * option Vector3) :=
  let origin := vec3 (inject_Z x * inject_Z CHUNK_SIZE) 0
                     (inject_Z z * inject_Z CHUNK_SIZE) in
  match fst (createTree (vx treePos) (vz treePos) (chunkSeed x z) O) with
  | Some t =>
    [treeLayout
       {| tree := t;
          treeY := getHeight (vx origin + vx treePos)
                             (vz origin + vz treePos) |}]
  | None => []
  end.

(** The layout of the chunk at [(x, z)]: a function of the coordinate
    (and of the host's math functions) and of nothing else. *)
Definition chunkLayout (x z : Z) : Layout :=
  {| layoutDecorations := snd (decorate x z (pristineDummy, []));
     layoutTrees := flatMap (layTree x z) (localTrees x z);
     layoutBushes := placeBushes x z;
     layoutVillage :=
       if villageGate x z then
         let plan := villagePlan x z in
         Some (planOrigin plan, planHouses plan, planFarm plan,
               planFarmPosition plan, planWellPosition plan)
       else None |}.

(** The layout of the chunk a world holds at [(x, z)], if it is active. *)
Definition layoutAt (w : State) (x z : Z) : option Layout :=
  match get (chunkIdOf x z) (activeChunks w) with
  | Some c => Some (layoutOf c (get (chunkIdOf x z) (activeVillages w)))
  | None => None
  end.

(** *** The invariant of the streamed world *)

(** Every tracked entity belongs to an active chunk; a village only
    exists with its chunk. *)
Definition tracked (w : State) : Prop :=
  (forall u b, In (u, b) (birds w) ->
               has (Bird.chunkId b) (activeChunks w) = true) /\
  (forall u v, In (u, v) (villagers w) ->
               has (Villager.chunkId v) (activeVillages w) = true) /\
  (forall k, has k (activeVillages w) = true ->
             has k (activeChunks w) = true).

(** No object is in the scene twice, and uids not yet handed out are not
    in the scene. *)
Definition sceneSound (w : State) : Prop :=
  NoDup (scene w) /\ (forall u, In u (scene w) -> (u < nextUid w)%nat).

(** Every active chunk is laid out as its coordinate dictates. *)
Definition laidOut (w : State) : Prop :=
  forall x z l, layoutAt w x z = Some l -> l = chunkLayout x z.

(** What generating for the chunk [id] may do to a world: append its
    birds and villagers, append fresh objects to the scene, hand out
    uids. *)
Definition adds (id : string) (w w' : State) : Prop :=
  activeChunks w' = activeChunks w /\
  (exists bs, birds w' = birds w ++ bs /\
              forall u b, In (u, b) bs -> Bird.chunkId b = id) /\
  (exists vs, villagers w' = villagers w ++ vs /\
              forall u v, In (u, v) vs -> Villager.chunkId v = id) /\
  (exists ns, scene w' = scene w ++ ns /\ NoDup ns /\
              forall u, In u ns -> (nextUid w <= u < nextUid w')%nat) /\
  (nextUid w <= nextUid w')%nat.

Definition invariant (w : State) : Prop :=
  tracked w /\ sceneSound w /\ laidOut w.

(** The coordinate [(x, z)] is outside the render radius of the chunk
    [(cx, cz)]. *)
Definition outside (cx cz x z : Z) : Prop :=
  (Z.abs (x - cx) > RENDER_DISTANCE_IN_CHUNKS
   \/ Z.abs (z - cz) > RENDER_DISTANCE_IN_CHUNKS)%Z.

End Generation.
End World.

(** ** DayNightClock *)

Module Clock.

Definition DAY_NIGHT_CYCLE_SECONDS : Q := 300.
Definition START_TIME_OFFSET : Q := DAY_NIGHT_CYCLE_SECONDS * (35 # 100).

(** A keyframe's time and light intensities (its colours are rendering). *)
Record Keyframe : Type := { time : Q; sun : Q; ambient : Q }.

Definition keyframes : list Keyframe :=
  [ {| time := 0;        sun := 0;      ambient := 5 # 100 |};
    {| time := 23 # 100; sun := 0;      ambient := 5 # 100 |};
    {| time := 25 # 100; sun := 1 # 2;  ambient := 3 # 10 |};
    {| time := 30 # 100; sun := 9 # 10; ambient := 6 # 10 |};
    {| time := 70 # 100; sun := 9 # 10; ambient := 6 # 10 |};
    {| time := 75 # 100; sun := 1 # 2;  ambient := 3 # 10 |};
    {| time := 77 # 100; sun := 0;      ambient := 5 # 100 |};
    {| time := 1;        sun := 0;      ambient := 5 # 100 |} ].

(** [x % 1.0]: the remainder has the sign of [x]. *)
Definition mod1 (x : Q) : Q :=
  if x >=? 0 then x - inject_Z (Qfloor x) else x - inject_Z (Qceiling x).

Definition timeOfDay (elapsedTime : Q) : Q :=
  mod1 ((elapsedTime + START_TIME_OFFSET) / DAY_NIGHT_CYCLE_SECONDS).

(** The first pair of neighbouring keyframes that brackets [t]. *)
Fixpoint bracket (t : Q) (ks : list Keyframe) : option (Keyframe * Keyframe) :=
  match ks with
  | a :: ((b :: _) as rest) =>
    if (t >=? time a) && (t <? time b) then Some (a, b) else bracket t rest
  | _ => None
  end.

(** [THREE.MathUtils.lerp] and [THREE.MathUtils.smoothstep] *)
Definition lerp (x y t : Q) : Q := (1 - t) * x + t * y.
Definition smoothstep (x lo hi : Q) : Q :=
  if x <=? lo then 0
  else if x >=? hi then 1
  else let u := (x - lo) / (hi - lo) in u * u * (3 - 2 * u).

Definition dayFactor (t : Q) : Q :=
  match bracket t keyframes with
  | Some (startKey, endKey) =>
    let duration := time endKey - time startKey in
    let alpha := (t - time startKey) / duration in
    let sunIntensity := lerp (sun startKey) (sun endKey) alpha in
    let nightFactor := 1 - sunIntensity / (9 # 10) in
    1 - nightFactor
  | None => 0
  end.

Definition birdOpacity (t : Q) : Q :=
  let d := dayFactor t in
  if d >? (1 # 10) then smoothstep d (1 # 10) (4 # 10) else 0.

End Clock.

(** ** The frame: [animate] *)

Module Frame.

(** Everything that lives across frames.  [reconciliations] is a ghost
    counter of the calls of [updateWorld] made from [animate]. *)
Record Session : Type := {
  elapsedTime : Q;
  world : World.State;
  player : Player.State;
  lastPlayerChunk : option (Z * Z);
  dustSystem : ParticleSystem.System;
  sparkSystem : ParticleSystem.System;
  reconciliations : nat
}.

Section WithMath.
Context {M : JSMath}.

Import ParticleSystem.

Definition landingDust (at_pos : Vector3) : Options :=
  {| optPosition := V3.sub at_pos (vec3 0 1 0); count := 20;
     optColor := Some (One (rgb (139 # 255) (69 # 255) (19 # 255)));
     optVelocity := Some (vec3 0 (1 # 2) 0);
     velocityRandomness := Some 3;
     optSize := Some (Range (1 # 2) (15 # 10));
     optLife := Some (Range (1 # 2) 1);
     optRotationSpeed := Some (Range (-1) 1) |}.

Definition jumpDust (at_pos : Vector3) : Options :=
  {| optPosition := V3.sub at_pos (vec3 0 1 0); count := 8;
     optColor := Some (One (rgb (204 # 255) (204 # 255) (204 # 255)));
     optVelocity := Some (vec3 0 1 0);
     velocityRandomness := Some 1;
     optSize := Some (Range (2 # 10) (4 # 10));
     optLife := Some (Range (3 # 10) (6 # 10));
     optRotationSpeed := Some (Range (-2) 2) |}.

(** The player block with its dust: movement, integration and clamp, the
    landing puff, the jump puff and impulse. *)
Definition playerBlock (inp : Player.Input) (delta : Q) (g : RNG)
  (dust : System) (p : Player.State) : Player.State * System * RNG :=
  let p1 := Player.move inp delta p in
  let fallSpeed := Player.velocityY p1 in
  let p2 := Player.integrate delta p1 in
  let justLanded := negb (Player.wasOnGround p2) && Player.isOnGround p2 in
  let '(dust1, g1) :=
    if justLanded && (fallSpeed <? -5)
    then emit (landingDust (Player.position p2)) g dust
    else (dust, g) in
  let requested :=
    if Player.isMobile inp then Player.isJumping inp
    else Player.keySpace inp in
  let '(dust2, g2) :=
    if requested && Player.isOnGround p2
    then emit (jumpDust (Player.position p2)) g1 dust1
    else (dust1, g1) in
  (Player.jump inp p2, dust2, g2).

(** The bird loop, run only while the birds are visible. *)
Definition birdBlock (delta t : Q) (g : RNG) (bs : list (nat * Bird.State))
  : option (list (nat * Bird.State)) * RNG :=
  if Clock.birdOpacity t >? 0 then
    match Bird.advanceAll {| Bird.delta := delta |} g (List.map snd bs) with
    | (Some bs', g') => (Some (List.combine (List.map fst bs) bs'), g')
    | (None, g') => (None, g')
    end
  else (Some bs, g).

Definition villagerBlock (e : Villager.Env) (g : RNG)
  (vs : list (nat * Villager.State)) : list (nat * Villager.State) * RNG :=
  let '(vs', g') := Villager.advanceAll e g (List.map snd vs) in
  (List.combine (List.map fst vs) vs', g').

(** The chunk-change gate at the end of the player block. *)
Definition streamGate (w : World.State) (last : option (Z * Z))
  (n : nat) (px pz : Q) : option (World.State * option (Z * Z) * nat) :=
  let '(playerChunkX, playerChunkZ) := World.chunkOf px pz in
  let changed :=
    match last with
    | None => true
    | Some (lx, lz) =>
      negb (lx =? playerChunkX)%Z || negb (lz =? playerChunkZ)%Z
    end in
  if changed then
    match World.updateWorld px pz w with
    | Some w' => Some (w', Some (playerChunkX, playerChunkZ), S n)
    | None => None
    end
  else Some (w, last, n).

(** One call of [animate]; [None] if an exception escaped the frame. *)
Definition animate (inp : Player.Input) (delta : Q) (s : Session)
  : option Session :=
  let elapsed := elapsedTime s + delta in
  let dust0 := update delta (dustSystem s) in
  let spark0 := update delta (sparkSystem s) in
  let t := Clock.timeOfDay elapsed in
  let w := world s in
  match birdBlock delta t (World.rng w) (World.birds w) with
  | (None, _) => None
  | (Some bs, g1) =>
    let e := {| Villager.delta := delta; Villager.timeOfDay := t;
                Villager.playerPosition := Player.position (player s) |} in
    let '(vs, g2) := villagerBlock e g1 (World.villagers w) in
    let '(p, dust1, g3) := playerBlock inp delta g2 dust0 (player s) in
    let w1 :=
      {| World.activeChunks := World.activeChunks w;
         World.activeVillages := World.activeVillages w;
         World.birds := bs; World.villagers := vs;
         World.scene := World.scene w;
         World.matrixDummy := World.matrixDummy w;
         World.rng := g3; World.nextUid := World.nextUid w |} in
    match streamGate w1 (lastPlayerChunk s) (reconciliations s)
                     (vx (Player.position p)) (vz (Player.position p)) with
    | None => None
    | Some (w2, last, n) =>
      Some {| elapsedTime := elapsed; world := w2; player := p;
              lastPlayerChunk := last; dustSystem := dust1;
              sparkSystem := spark0; reconciliations := n |}
    end
  end.

(** The mount: the character at (0, getHeight(0, 5) + 1, 5), the two pools
    of 100 particles, and the first [updateWorld], made before any frame
    and without recording a chunk coordinate. *)
Definition mount (g : RNG) : option Session :=
  let start := vec3 0 (getHeight 0 5 + 1) 5 in
  match World.updateWorld (vx start) (vz start) (World.empty g) with
  | Some w =>
    Some {| elapsedTime := 0; world := w;
            player := {| Player.position := start; Player.rotationY := 0;
                         Player.velocityY := 0; Player.isOnGround := true;
                         Player.wasOnGround := true |};
            lastPlayerChunk := None;
            dustSystem := ParticleSystem.create 100 0;
            sparkSystem := ParticleSystem.create 100 10;
            reconciliations := O |}
  | None => None
  end.

(** The sessions the program can be in: the mount, then frames. *)
Inductive reachable : Session -> Prop :=
| reach_mount (g : RNG) (s : Session) :
    mount g = Some s -> reachable s
| reach_frame (s : Session) (inp : Player.Input) (delta : Q) (s' : Session) :
    reachable s -> animate inp delta s = Some s' -> reachable s'.

(** The player's chunk coordinate as the gate of a frame computes it. *)
Definition playerChunk (s : Session) : Z * Z :=
  World.chunkOf (vx (Player.position (player s)))
                (vz (Player.position (player s))).

(** A sequence of frames, oldest first: the session at the end, and the
    player's chunk coordinate at the gate of each frame. *)
Fixpoint run (frames : list (Player.Input * Q)) (s : Session)
  : option (Session * list (Z * Z)) :=
  match frames with
  | [] => Some (s, [])
  | (inp, delta) :: rest =>
    match animate inp delta s with
    | None => None
    | Some s1 =>
      match run rest s1 with
      | None => None
      | Some (sN, cs) => Some (sN, playerChunk s1 :: cs)
      end
    end
  end.


End WithMath.
End Frame.

(** ** A computable host for examples *)

Module Host.

(** Square root on numerator and denominator, rounded down: exact on the
    quotient of two perfect squares. *)
Definition sqrtQ (q : Q) : Q := Z.sqrt (Qnum q) # Pos.sqrt (Qden q).

(** A stand-in for the host's math library that computes.  It agrees with
    the real functions where the worked examples below evaluate them:
    [sin 0 = 0], [cos 0 = 1], and square roots of perfect squares; elsewhere
    it is the first terms of the Taylor series.  [ds] is the stream of
    [Math.random()]. *)
Definition math (ds : nat -> Q) : JSMath :=
  {| Math_sin := fun x => x - x * x * x / 6;
     Math_cos := fun x => 1 - x * x / 2;
     Math_sqrt := sqrtQ;
     Math_PI := 355 # 113;
     Math_random := ds |}.

(** The host whose [Math.random()] always draws [d]. *)
Definition fixed (d : Q) : JSMath := math (fun _ => d).

End Host.

(** ** Worked inputs *)

Module Examples.

(** A villager wandering on level ground at the origin, where the terrain
    height is 0. *)
Definition wanderer (timer : Q) : Villager.State :=
  {| Villager.position := vec3 0 0 0;
     Villager.state := Villager.WANDERING;
     Villager.prevState := None;
     Villager.stateTimer := timer;
     Villager.chunkId := "0,0";
     Villager.targetPosition := Some (vec3 6 0 0);
     Villager.profession := Villager.nitwit;
     Villager.homePoint := vec3 3 1 0;
     Villager.workPoint := None;
     Villager.velocityY := 0;
     Villager.isOnGround := true |}.

(** A villager asleep at home, hovering half a unit above the ground on
    its way up to its home point. *)
Definition sleeper : Villager.State :=
  {| Villager.position := vec3 0 (1 # 2) 0;
     Villager.state := Villager.SLEEPING;
     Villager.prevState := None;
     Villager.stateTimer := 0;
     Villager.chunkId := "0,0";
     Villager.targetPosition := None;
     Villager.profession := Villager.nitwit;
     Villager.homePoint := vec3 0 1 0;
     Villager.workPoint := None;
     Villager.velocityY := 0;
     Villager.isOnGround := true |}.

(** A frame of a tenth of a second at time of day [t] with the player
    standing [dx] east of the origin. *)
Definition frameAt (t dx : Q) : Villager.Env :=
  {| Villager.delta := 1 # 10; Villager.timeOfDay := t;
     Villager.playerPosition := vec3 dx 1 0 |}.

Definition noon : Q := 1 # 2.
Definition dusk : Q := 7599 # 10000.       (* still day: below 0.76 *)
Definition nightfall : Q := 7601 # 10000.  (* night: above 0.76 *)

End Examples.

(** ** Pointer look: [handleMouseMove] *)

Module Pointer.

Definition MOUSE_SENSITIVITY : Q := 2 # 1000.

(** What the handler writes: the character's yaw and the pitch of the
    neck group (which carries the first-person camera). *)
Record Look : Type := {
  yaw : Q;       (* character.rotation.y *)
  pitch : Q      (* neckGroup.rotation.x *)
}.

Record MouseEvent : Type := {
  locked : bool;     (* document.pointerLockElement === renderer.domElement *)
  movementX : Q;
  movementY : Q
}.

Section WithMath.
Context {M : JSMath}.

Definition FIRST_PERSON_PITCH_LIMIT : Q := Math_PI / 2 - (1 # 10).

(** [handleMouseMove], once the character exists. *)
Definition handleMouseMove (ev : MouseEvent) (l : Look) : Look :=
  if negb (locked ev) then l
  else
    let p := pitch l - movementY ev * MOUSE_SENSITIVITY in
    {| yaw := yaw l - movementX ev * MOUSE_SENSITIVITY;
       pitch := Qmax (- FIRST_PERSON_PITCH_LIMIT)
                     (Qmin FIRST_PERSON_PITCH_LIMIT p) |}.

(** The look after a sequence of mouse events, oldest first. *)
Definition looks (evs : list MouseEvent) (l : Look) : Look :=
  List.fold_left (fun acc ev => handleMouseMove ev acc) evs l.

End WithMath.
End Pointer.

(** ** Weapons: the gun library, the hotbar, shooting and tracers *)

Module Weapons.

(** weapons.ts: a gun of [createGunLibrary] without its model. *)
Record Gun : Type := { gunName : string; fireRate : Q }.

Definition gunLibrary : list Gun :=
  [ {| gunName := "Pistol";     fireRate := 2 # 10 |};
    {| gunName := "SMG";        fireRate := 8 # 100 |};
    {| gunName := "Shotgun";    fireRate := 1 |};
    {| gunName := "Rifle";      fireRate := 5 # 10 |};
    {| gunName := "Sniper";     fireRate := 15 # 10 |};
    {| gunName := "Revolver";   fireRate := 6 # 10 |};
    {| gunName := "LMG";        fireRate := 1 # 10 |};
    {| gunName := "Golden Gun"; fireRate := 3 # 10 |};
    {| gunName := "Blaster";    fireRate := 4 # 10 |} ].

(** Hotbar.tsx *)
Definition gunNames : list string :=
  [ "Pistol"; "SMG"; "Shotgun"; "Rifle"; "Sniper"; "Revolver"; "LMG";
    "Golden Gun"; "Blaster" ]%string.

(** The slot indices [gunNames.map((name, index) => ...)] renders. *)
Definition hotbarSlots : list Z :=
  List.map Z.of_nat (List.seq 0 (List.length gunNames)).

(** [handleSlotClick(index)]: what it passes to [onWeaponSelect]. *)
Definition handleSlotClick (index : Z) (currentWeaponIndex : option Z)
  : option Z :=
  match currentWeaponIndex with
  | Some c => if (c =? index)%Z then None else Some index
  | None => Some index
  end.

(** A decimal digit. *)
Definition digitOf (c : ascii) : option Z :=
  let n := Z.of_N (N_of_ascii c) in
  if ((48 <=? n) && (n <=? 57))%Z then Some (n - 48)%Z else None.

(** The digits that continue a number read so far. *)
Fixpoint digitsFrom (s : string) (acc : Z) : Z :=
  match s with
  | EmptyString => acc
  | String c rest =>
    match digitOf c with
    | Some d => digitsFrom rest (acc * 10 + d)
    | None => acc
    end
  end.

(** [parseInt(key)] on a string that starts with a digit: the number its
    leading digits spell; [None] is [NaN].  (Leading white space, a sign
    or a [0x] prefix, which [parseInt] also reads, cannot start a key that
    passes the range test of [handleKeyDown].) *)
Definition parseIntKey (s : string) : option Z :=
  match s with
  | EmptyString => None
  | String c rest =>
    match digitOf c with
    | Some d => Some (digitsFrom rest d)
    | None => None
    end
  end.

(** What the weapon branch of [handleKeyDown] does with
    [onWeaponSwitchRef.current]. *)
Inductive Switch : Type :=
| NoSwitch                       (* the key is not in the range '1'..'9' *)
| SwitchTo (index : option Z)    (* called with null or an index *)
| SwitchNaN.                     (* called with NaN *)

(** [key >= '1' && key <= '9']: string comparison. *)
Definition isWeaponKey (key : string) : bool :=
  String.leb "1" key && String.leb key "9".

(** The weapon branch of [handleKeyDown]; [key] is
    [event.key.toLowerCase()]. *)
Definition weaponKey (key : string) (currentWeaponIndex : option Z)
  : Switch :=
  if isWeaponKey key then
    match parseIntKey key with
    | Some n =>
      let index := (n - 1)%Z in
      match currentWeaponIndex with
      | Some c => if (c =? index)%Z then SwitchTo None
                  else SwitchTo (Some index)
      | None => SwitchTo (Some index)
      end
    | None => SwitchNaN
    end
  else NoSwitch.

(** A tracer line: its end points and [userData.life]. *)
Record Tracer : Type := {
  tracerStart : Vector3;
  tracerEnd : Vector3;
  tracerLife : Q
}.

Definition aged (delta : Q) (t : Tracer) : Tracer :=
  {| tracerStart := tracerStart t; tracerEnd := tracerEnd t;
     tracerLife := tracerLife t - delta |}.

(** [xs.splice(k, 1)] *)
Definition removeAt {A : Type} (k : nat) (xs : list A) : list A :=
  List.firstn k xs ++ List.skipn (S k) xs.

(** [xs[k] = x] for an index in range *)
Definition setAt {A : Type} (k : nat) (x : A) (xs : list A) : list A :=
  List.firstn k xs ++ x :: List.skipn (S k) xs.

(** The tracer sweep at the start of [animate]:
    [activeTracersRef.current.forEach((tracer, index) => ...)].
    [forEach] reads the length once and then visits the indices
    [0 .. length - 1] that are still present when their turn comes, while
    the callback splices the array it iterates.  [n] counts the visits
    left, [k] is the index of the next one. *)
Fixpoint sweepFrom (n k : nat) (delta : Q) (ts : list Tracer)
  : list Tracer :=
  match n with
  | O => ts
  | S n' =>
    match List.nth_error ts k with
    | None => sweepFrom n' (S k) delta ts
    | Some t =>
      let t' := aged delta t in
      if tracerLife t' <=? 0
      then sweepFrom n' (S k) delta (removeAt k ts)
      else sweepFrom n' (S k) delta (setAt k t' ts)
    end
  end.

Definition sweepTracers (delta : Q) (ts : list Tracer) : list Tracer :=
  sweepFrom (List.length ts) 0 delta ts.

(** What the host computes for a shot: the first intersection of the
    camera ray that is not part of the character, if any; the point 300
    units along the ray; the world position of the weapon. *)
Record Aim : Type := {
  firstHit : option Vector3;
  rayEnd : Vector3;
  muzzlePosition : Vector3
}.

(** What [handleShoot] reads and writes. *)
Record Armory : Type := {
  lastShotTime : Q;               (* lastShotTimeRef.current *)
  activeTracers : list Tracer;    (* activeTracersRef.current *)
  sparks : ParticleSystem.System  (* sparkSystem *)
}.

Section WithMath.
Context {M : JSMath}.

Import ParticleSystem.

Definition hitSparks (point : Vector3) : Options :=
  {| optPosition := point; count := 15;
     optColor := Some (Range (rgb 1 1 0) (rgb 1 (136 # 255) 0));
     optVelocity := None;
     velocityRandomness := Some 5;
     optSize := Some (Range (1 # 10) (3 # 10));
     optLife := Some (Range (2 # 10) (5 # 10));
     optRotationSpeed := None |}.

(** [handleShoot] at clock time [now]; [None] stands for the TypeError of
    reading [fireRate] of an undefined gun.  The boolean tells whether a
    shot was fired. *)
Definition handleShoot (weaponIndex : option Z) (now : Q) (aim : Aim)
  (g : RNG) (a : Armory) : option (Armory * RNG * bool) :=
  match weaponIndex with
  | None => Some (a, g, false)
  | Some i =>
    match at_ gunLibrary i with
    | None => None
    | Some gun =>
      if now - lastShotTime a <? fireRate gun then Some (a, g, false)
      else
        let '(sparks', g') :=
          match firstHit aim with
          | Some point => emit (hitSparks point) g (sparks a)
          | None => (sparks a, g)
          end in
        let hitPoint :=
          match firstHit aim with
          | Some point => point
          | None => rayEnd aim
          end in
        Some ({| lastShotTime := now;
                 activeTracers :=
                   activeTracers a
                   ++ [{| tracerStart := muzzlePosition aim;
                          tracerEnd := hitPoint;
                          tracerLife := 5 # 100 |}];
                 sparks := sparks' |}, g', true)
    end
  end.

(** A sequence of clicks with the weapon [weaponIndex] in hand, oldest
    first: the armory at the end and the clock times of the shots that
    were fired. *)
Fixpoint volley (weaponIndex : option Z) (clicks : list (Q * Aim))
  (g : RNG) (a : Armory) : option (Armory * RNG * list Q) :=
  match clicks with
  | [] => Some (a, g, [])
  | (now, aim) :: rest =>
    match handleShoot weaponIndex now aim g a with
    | None => None
    | Some (a1, g1, fired) =>
      match volley weaponIndex rest g1 a1 with
      | None => None
      | Some (aN, gN, times) =>
        Some (aN, gN, if fired then now :: times else times)
      end
    end
  end.

End WithMath.
End Weapons.

(** ** Predicates the entity properties are stated with *)

(** The bird [b'] has the home of [b]: chunk, tree, tree position, nest. *)
Definition homeKept (b b' : Bird.State) : Prop :=
  Bird.chunkId b' = Bird.chunkId b /\
  Bird.homeTree b' = Bird.homeTree b /\
  Bird.homeTreeWorld b' = Bird.homeTreeWorld b /\
  Bird.hasNest b' = Bird.hasNest b.

(** [spot] is a landing spot of the tree [t]: one of its leaf positions
    lowered by 0.8, or the tree top if it has no leaves. *)
Definition landingSpotOn (t : Tree) (spot : Vector3) : Prop :=
  match leafPositions t with
  | [] => spot = vec3 0 (height t) 0
  | _ :: _ =>
    exists p, In p (leafPositions t) /\
              spot = vec3 (vx p) (vy p - (8 # 10)) (vz p)
  end.

(** The input asks for no movement and no jump: on mobile the stick's
    forward axis is zero and no jump is pending, on desktop no movement
    key and no space bar is down. *)
Definition idleInput (inp : Player.Input) : Prop :=
  if Player.isMobile inp then
    Player.moveY inp == 0 /\ Player.isJumping inp = false
  else
    Player.keyForward inp = false /\ Player.keyBack inp = false /\
    Player.keyLeft inp = false /\ Player.keyRight inp = false /\
    Player.keySpace inp = false.

(** Every time of [times] comes at least [rate] after the one before it,
    the first after [last]. *)
Fixpoint spaced (rate last : Q) (times : list Q) : Prop :=
  match times with
  | [] => True
  | t :: rest => rate <= t - last /\ spaced rate t rest
  end.

(** The census of the decoration pushes of [cells] ground cells and
    [tufts] tree-grass tufts: one dirt base per cell, a grass top or a
    dirt top on it, a head on every flower stem and flowers only on
    grass, a cap on every mushroom stalk and mushrooms only on dirt,
    2 to 4 blades per tuft and at most 4 more per grass cell. *)
Definition decorationCensus (cells tufts : nat) (out : Pushes) : Prop :=
  let c (l : Layer) := List.length (layer l out) in
  c dirtBaseMatrices = cells /\
  (c grassMatrices + c dirtTopMatrices)%nat = cells /\
  c flowerStemMatrices
  = (c redFlowerHeadMatrices + c yellowFlowerHeadMatrices
     + c blueFlowerHeadMatrices)%nat /\
  (c flowerStemMatrices <= c grassMatrices)%nat /\
  c mushroomStalkMatrices
  = (c redMushroomCapMatrices + c brownMushroomCapMatrices)%nat /\
  (c mushroomStalkMatrices <= c dirtTopMatrices)%nat /\
  (2 * tufts <= c grassBladesMatrices)%nat /\
  (c grassBladesMatrices <= 4 * c grassMatrices + 4 * tufts)%nat.

(** ** The frame up to the chunk-change gate *)

Module Stage.


Section WithMath.
Context {M : JSMath}.

Import ParticleSystem Frame.



End WithMath.
End Stage.

(** ** A host with an accurate sine *)

Module Libm.

(** [floor (pi * 2^128)], and two pi from it. *)
Definition piScaled : Z := 1069028584064966747859680373161870783300.
Definition twoPi : Q :=
  (2 * piScaled) # 340282366920938463463374607431768211456.

(** Fixed point with 80 fractional bits. *)
Definition fixedOne : Z := 1208925819614629174706176.

(** The Taylor series of [sin r / r] in Horner form, innermost factor
    first: [r2] is [r * r], [acc] the factor so far. *)
Fixpoint horner (n : nat) (r2 acc : Z) : Z :=
  match n with
  | O => acc
  | S k =>
    let d := (2 * Z.of_nat n * (2 * Z.of_nat n + 1))%Z in
    horner k r2 (fixedOne - Z.shiftr (r2 * acc) 80 / d)%Z
  end.

(** Sine: the argument is reduced by the nearest multiple of two pi and
    the series is summed to degree 41 in fixed point.  For arguments up
    to [10^9] in size the error stays in the last few of the 80
    fractional bits, far below what binary64 resolves. *)
Definition sin (x : Q) : Q :=
  let k := Qfloor (x / twoPi + (1 # 2)) in
  let r := x - inject_Z k * twoPi in
  let rf := Qfloor (r * inject_Z fixedOne) in
  let r2 := Z.shiftr (rf * rf) 80 in
  Z.shiftr (rf * horner 20 r2 fixedOne) 80 # 1208925819614629174706176.

(** Square root, rounded down to 64 fractional bits. *)
Definition sqrt (q : Q) : Q :=
  Z.sqrt (Qfloor (q * 340282366920938463463374607431768211456))
  # 18446744073709551616.

(** The host; [ds] is the stream of [Math.random()]. *)
Definition math (ds : nat -> Q) : JSMath :=
  {| Math_sin := sin;
     Math_cos := fun x => sin (x + twoPi / 4);
     Math_sqrt := sqrt;
     Math_PI := twoPi / 2;
     Math_random := ds |}.

End Libm.

(** * Properties *)

(** ** Numbers and the seeded hash *)

Module NumFacts.

Import Num.

Lemma ltb_true a b : ltb a b = true <-> a < b.
Proof.
  unfold ltb. destruct (Qlt_le_dec a b) as [H|H]; split; intro K; auto.
  - discriminate.
  - exfalso. apply (Qlt_irrefl a). eapply Qlt_le_trans; eauto.
Qed.

Lemma ltb_false a b : ltb a b = false <-> b <= a.
Proof.
  unfold ltb. destruct (Qlt_le_dec a b) as [H|H]; split; intro K; auto.
  - discriminate.
  - exfalso. apply (Qlt_irrefl a). eapply Qlt_le_trans; eauto.
Qed.

Lemma leb_true a b : leb a b = true <-> a <= b.
Proof. apply Qle_bool_iff. Qed.

Lemma leb_false a b : leb a b = false <-> b < a.
Proof.
  unfold leb. split; intro H.
  - apply Qnot_le_lt. intro K. apply Qle_bool_iff in K. congruence.
  - destruct (Qle_bool a b) eqn:E; auto.
    apply Qle_bool_iff in E. exfalso.
    apply (Qlt_irrefl b). eapply Qlt_le_trans; eauto.
Qed.

End NumFacts.

Section UtilsFacts.
Context {M : JSMath}.

Lemma pseudoRandom_range seed : 0 <= pseudoRandom seed /\ pseudoRandom seed < 1.
Proof.
  unfold pseudoRandom, Num.floor. cbv zeta.
  set (x := Math_sin seed * 10000).
  pose proof (Qfloor_le x) as Hlo.
  pose proof (Qlt_floor x) as Hhi.
  rewrite inject_Z_plus in Hhi. change (inject_Z 1) with 1 in Hhi.
  split; lra.
Qed.

End UtilsFacts.

(** ** PlayerController *)

Section PlayerFacts.
Context {M : JSMath}.
Import Player.

Lemma integrate_xz delta s :
  vx (position (integrate delta s)) = vx (position s) /\
  vz (position (integrate delta s)) = vz (position s).
Proof.
  unfold integrate. cbv zeta.
  destruct (_ <=? _); simpl; auto.
Qed.

Lemma integrate_clear delta s : clearOfTerrain (integrate delta s).
Proof.
  unfold clearOfTerrain, integrate. cbv zeta.
  destruct (_ <=? _) eqn:E; simpl.
  - apply Qle_refl.
  - apply NumFacts.leb_false in E. apply Qlt_le_weak. exact E.
Qed.

Lemma clear_above s : clearOfTerrain s -> aboveTerrain s.
Proof. unfold clearOfTerrain, aboveTerrain. intro H. lra. Qed.

Lemma jump_position inp s : position (jump inp s) = position s.
Proof. unfold jump. destruct (_ && _); reflexivity. Qed.

Lemma advance_clear inp delta s : clearOfTerrain (advance inp delta s).
Proof.
  unfold advance, clearOfTerrain. rewrite jump_position.
  apply integrate_clear.
Qed.

Lemma run_snoc frames inp delta s :
  run (frames ++ [(inp, delta)]) s = advance inp delta (run frames s).
Proof.
  revert s. induction frames as [|[i d] rest IH]; intro s; simpl.
  - reflexivity.
  - apply IH.
Qed.

(** C1. Whatever the frames played so far and whatever the inputs and the
    delta of the current frame, the player's height right after the
    vertical integration and clamp is at least [getHeight(x, z) + 1], hence
    at least the terrain height under the player, and this still holds at
    the end of the frame. *)
Theorem player_never_below_terrain :
  forall (frames : list (Input * Q)) (inp : Input) (delta : Q) (s0 : State),
    let clamped := integrate delta (move inp delta (run frames s0)) in
    let after := run (frames ++ [(inp, delta)]) s0 in
    getHeight (vx (position clamped)) (vz (position clamped)) + 1
      <= vy (position clamped) /\
    aboveTerrain clamped /\
    aboveTerrain after.
Proof.
  intros frames inp delta s0 clamped after.
  assert (Hc : clearOfTerrain clamped) by apply integrate_clear.
  split; [exact Hc|]. split.
  - apply clear_above, Hc.
  - unfold after. rewrite run_snoc. apply clear_above, advance_clear.
Qed.

End PlayerFacts.

(** ** ParticleSystem *)

Section ParticleFacts.
Context {M : JSMath}.
Import ParticleSystem.

Lemma initParticle_active o g p : active (fst (initParticle o g p)) = true.
Proof.
  unfold initParticle.
  repeat match goal with
  | |- context [let '(_, _) := ?e in _] => destruct e
  end.
  reflexivity.
Qed.

Lemma counts_cons p ps :
  activeCount (p :: ps) = ((if active p then 1 else 0) + activeCount ps)%nat /\
  inactiveCount (p :: ps)
  = ((if active p then 0 else 1) + inactiveCount ps)%nat.
Proof.
  unfold activeCount, inactiveCount. simpl.
  destruct (active p); simpl; auto.
Qed.

Lemma below_count o created (k : nat) :
  count o == inject_Z (Z.of_nat k) ->
  (inject_Z created <? count o) = (created <? Z.of_nat k)%Z.
Proof.
  intro Hk.
  destruct (created <? Z.of_nat k)%Z eqn:E.
  - apply NumFacts.ltb_true. rewrite Hk. rewrite <- Zlt_Qlt.
    apply Z.ltb_lt. exact E.
  - apply NumFacts.ltb_false. rewrite Hk. rewrite <- Zle_Qle.
    apply Z.ltb_ge. exact E.
Qed.

(** The loop from any slot on: with [created] particles made so far, it
    makes as many more as [count] still allows and free slots remain. *)
Lemma emitLoop_spec o (k : nat) :
  count o == inject_Z (Z.of_nat k) ->
  forall ps created g,
    (0 <= created)%Z ->
    let ps' := fst (emitLoop o created g ps) in
    List.length ps' = List.length ps /\
    activeCount ps'
    = (activeCount ps
       + Nat.min (Z.to_nat (Z.of_nat k - created)) (inactiveCount ps))%nat /\
    (forall i p, List.nth_error ps i = Some p -> active p = true ->
                 List.nth_error ps' i = Some p).
Proof.
  intros Hk ps. induction ps as [|p rest IH]; intros created g Hc; simpl.
  - unfold activeCount, inactiveCount. simpl.
    rewrite Nat.min_0_r. repeat split; auto.
  - rewrite (below_count o created k Hk).
    destruct (created <? Z.of_nat k)%Z eqn:E.
    + apply Z.ltb_lt in E.
      destruct (active p) eqn:Ha; simpl.
      * specialize (IH created g Hc). simpl in IH.
        destruct (emitLoop o created g rest) as [rest' g'] eqn:Er.
        simpl in *. destruct IH as (Hl & Hn & Hk').
        destruct (counts_cons p rest') as [A1 _].
        destruct (counts_cons p rest) as [B1 B2].
        rewrite A1, B1, B2, Ha, Hn. simpl.
        repeat split; auto.
        intros [|i] q Hq Hact; simpl in *; auto.
      * destruct (initParticle o g p) as [p' g'] eqn:Ei.
        assert (Hp' : active p' = true).
        { pose proof (initParticle_active o g p) as H. rewrite Ei in H.
          exact H. }
        assert (Hc' : (0 <= created + 1)%Z) by lia.
        specialize (IH (created + 1)%Z g' Hc'). simpl in IH.
        destruct (emitLoop o (created + 1) g' rest) as [rest' g''] eqn:Er.
        simpl in *. destruct IH as (Hl & Hn & Hk').
        destruct (counts_cons p' rest') as [A1 _].
        destruct (counts_cons p rest) as [B1 B2].
        rewrite A1, B1, B2, Ha, Hp', Hn.
        repeat split; auto.
        -- replace (Z.to_nat (Z.of_nat k - created))
             with (S (Z.to_nat (Z.of_nat k - (created + 1)))) by lia.
           simpl. lia.
        -- intros [|i] q Hq Hact; simpl in *; auto.
           injection Hq as <-. congruence.
    + apply Z.ltb_ge in E. simpl.
      replace (Z.to_nat (Z.of_nat k - created)) with O by lia.
      simpl. repeat split; auto.
Qed.

Lemma inactive_zero_all_active ps :
  inactiveCount ps = O -> forall p, In p ps -> active p = true.
Proof.
  induction ps as [|q rest IH]; intros H p Hin; simpl in *.
  - contradiction.
  - destruct (counts_cons q rest) as [_ B]. rewrite B in H.
    destruct (active q) eqn:Hq; simpl in H; try discriminate.
    destruct Hin as [<-|Hin]; auto.
Qed.

(** C9. For a request whose count is a natural number [k], [emit] turns
    exactly [min k free] inactive slots active, leaves every slot that was
    active as it was, keeps the pool at its size, and on a full pool
    returns the pool unchanged; being a total function, it has no failure
    to report. *)
Theorem emit_activates_min_of_count_and_free :
  forall (o : Options) (g : RNG) (s : System) (k : nat),
    count o == inject_Z (Z.of_nat k) ->
    let s' := fst (emit o g s) in
    List.length (particles s') = List.length (particles s) /\
    activeCount (particles s')
    = (activeCount (particles s)
       + Nat.min k (inactiveCount (particles s)))%nat /\
    (forall i p, List.nth_error (particles s) i = Some p ->
                 active p = true ->
                 List.nth_error (particles s') i = Some p) /\
    (inactiveCount (particles s) = O -> particles s' = particles s).
Proof.
  intros o g s k Hk. unfold emit.
  pose proof (emitLoop_spec o k Hk (particles s) 0%Z g (Z.le_refl 0)) as H.
  simpl in H.
  destruct (emitLoop o 0 g (particles s)) as [ps' g'] eqn:E. simpl in *.
  destruct H as (Hl & Hn & Hkeep).
  replace (Z.to_nat (Z.of_nat k - 0)) with k in Hn by lia.
  repeat split; auto.
  intro Hfull.
  pose proof (inactive_zero_all_active _ Hfull) as Hall.
  apply List.nth_error_ext. intro i.
  destruct (List.nth_error (particles s) i) as [p|] eqn:Ei.
  - apply Hkeep; auto. apply Hall. eapply List.nth_error_In; eauto.
  - apply List.nth_error_None in Ei. apply List.nth_error_None. lia.
Qed.

End ParticleFacts.

(** A pool of three slots, the middle one in use, asked for five
    particles: the two free slots are taken. *)
Lemma emit_activates_min_of_count_and_free_witness :
  let busy :=
    {| ParticleSystem.active := true; ParticleSystem.position := V3.zero;
       ParticleSystem.velocity := V3.zero; ParticleSystem.life := 1;
       ParticleSystem.maxLife := 1; ParticleSystem.size := 1;
       ParticleSystem.startSize := 1; ParticleSystem.endSize := 0;
       ParticleSystem.color := ParticleSystem.rgb 1 1 1;
       ParticleSystem.startColor := ParticleSystem.rgb 1 1 1;
       ParticleSystem.endColor := ParticleSystem.rgb 1 1 1;
       ParticleSystem.rotation := 0; ParticleSystem.rotationSpeed := 0 |} in
  let pool :=
    {| ParticleSystem.particles :=
         [ParticleSystem.inactiveParticle; busy;
          ParticleSystem.inactiveParticle];
       ParticleSystem.gravity := 0 |} in
  let request :=
    {| ParticleSystem.optPosition := V3.zero; ParticleSystem.count := 5;
       ParticleSystem.optColor := None; ParticleSystem.optVelocity := None;
       ParticleSystem.velocityRandomness := None;
       ParticleSystem.optSize := None; ParticleSystem.optLife := None;
       ParticleSystem.optRotationSpeed := None |} in
  ParticleSystem.count request == inject_Z (Z.of_nat 5) /\
  ParticleSystem.activeCount
    (ParticleSystem.particles
       (fst (ParticleSystem.emit (M := Host.fixed (1 # 2)) request O pool)))
  = 3%nat.
Proof.
  intros busy pool request.
  assert (H : ParticleSystem.count request == inject_Z (Z.of_nat 5))
    by reflexivity.
  split; [exact H|].
  destruct (emit_activates_min_of_count_and_free (M := Host.fixed (1 # 2))
              request O pool 5 H) as (_ & Hn & _).
  rewrite Hn. reflexivity.
Defined.

(** ** Array reads with a seeded or random index *)

Section IndexFacts.

Lemma floor_nonneg (q : Q) : 0 <= q -> (0 <= Num.floor q)%Z.
Proof.
  intro H. unfold Num.floor.
  change 0%Z with (Qfloor 0). apply Qfloor_resp_le. exact H.
Qed.

Lemma floor_below (q : Q) (n : Z) : q < inject_Z n -> (Num.floor q < n)%Z.
Proof.
  intro H. unfold Num.floor. rewrite Zlt_Qlt.
  eapply Qle_lt_trans; [apply Qfloor_le | exact H].
Qed.

(** [xs[Math.floor(r * xs.length)]] is an element when [0 <= r < 1] and
    [xs] is not empty. *)
Lemma at_scaled {A : Type} (xs : list A) (r : Q) :
  0 <= r -> r < 1 -> xs <> [] ->
  exists a, at_ xs (Num.floor (r * inject_Z (Z.of_nat (List.length xs))))
            = Some a /\ In a xs.
Proof.
  intros H0 H1 Hne.
  set (n := Z.of_nat (List.length xs)).
  assert (Hn : (0 < n)%Z).
  { unfold n. destruct xs; [congruence | simpl; lia]. }
  assert (HnQ : 0 < inject_Z n).
  { change 0 with (inject_Z 0). rewrite <- Zlt_Qlt. exact Hn. }
  assert (Hlo : (0 <= Num.floor (r * inject_Z n))%Z).
  { apply floor_nonneg. apply Qmult_le_0_compat;
      [exact H0 | apply Qlt_le_weak; exact HnQ]. }
  assert (Hhi : (Num.floor (r * inject_Z n) < n)%Z).
  { apply floor_below.
    setoid_replace (inject_Z n) with (1 * inject_Z n) at 2 by ring.
    apply Qmult_lt_compat_r; assumption. }
  unfold at_.
  destruct (Num.floor (r * inject_Z n) <? 0)%Z eqn:E.
  - apply Z.ltb_lt in E. lia.
  - destruct (List.nth_error xs (Z.to_nat (Num.floor (r * inject_Z n))))
      as [a|] eqn:En.
    + exists a. split; auto. eapply List.nth_error_In; eauto.
    + apply List.nth_error_None in En. unfold n in *. lia.
Qed.

End IndexFacts.

(** ** world.ts: the nest of a tree *)

Section TreeFacts.
Context {M : JSMath}.

(** The nest block never reads outside the leaf array, and places a nest
    exactly when the gate passes and there are more than five leaves. *)
Lemma placeNest_spec seed canopyBaseY canopyHeight leaves g :
  exists r g',
    placeNest seed canopyBaseY canopyHeight leaves g = (Some r, g') /\
    ((exists n, r = Some n)
     <-> pseudoRandom (seed + 57) < NEST_CHANCE /\ (5 < List.length leaves)%nat).
Proof.
  unfold placeNest.
  destruct (pseudoRandom (seed + 57) <? NEST_CHANCE) eqn:Eg;
    [destruct (5 <? List.length leaves)%nat eqn:El|]; cbn [andb].
  - apply NumFacts.ltb_true in Eg. apply Nat.ltb_lt in El.
    destruct (createNest g) as [n g'].
    destruct (pseudoRandom_range (seed + 61)) as [R0 R1].
    cbv zeta.
    set (suitable := List.filter _ leaves).
    assert (Hpick : forall l : list Vector3, l <> [] ->
              exists a, at_ l (Num.floor (pseudoRandom (seed + 61)
                          * inject_Z (Z.of_nat (List.length l)))) = Some a).
    { intros l Hl. destruct (at_scaled l _ R0 R1 Hl) as (a & Ha & _).
      eauto. }
    destruct (0 <? List.length suitable)%nat eqn:Es.
    + apply Nat.ltb_lt in Es.
      destruct (Hpick suitable) as [a Ha].
      { destruct suitable; cbn [List.length] in Es; [lia | congruence]. }
      rewrite Ha. eexists _, _. split; [reflexivity|].
      split; intro; eauto.
    + destruct (Hpick leaves) as [a Ha].
      { destruct leaves; cbn [List.length] in El; [lia | congruence]. }
      rewrite Ha. eexists _, _. split; [reflexivity|].
      split; intro; eauto.
  - apply NumFacts.ltb_true in Eg. apply Nat.ltb_ge in El.
    eexists _, _. split; [reflexivity|].
    split; [intros [n Hn]; discriminate | intros [_ H]; lia].
  - apply NumFacts.ltb_false in Eg.
    eexists _, _. split; [reflexivity|].
    split; [intros [n Hn]; discriminate | intros [H _]; lra].
Qed.

(** C8, as the code has it. [createTree] always returns a tree, and the
    tree hosts a nest (one, in [userData.nest]) exactly when the seeded
    gate [pseudoRandom(seed + 57) < NEST_CHANCE] passes and the tree has
    more than five leaf cells, that is at least six. *)
Theorem tree_nest_iff_gate_and_more_than_five_leaves :
  forall (x z seed : Q) (g : RNG),
    exists t g',
      createTree x z seed g = (Some t, g') /\
      ((exists n, nest t = Some n)
       <-> pseudoRandom (seed + 57) < NEST_CHANCE
           /\ (6 <= List.length (leafPositions t))%nat).
Proof.
  intros x z seed g. unfold createTree. cbv zeta.
  set (h := 5 + pseudoRandom (seed + 1) * 4).
  set (ch := 3 + pseudoRandom (seed + 3) * 2).
  set (leaves := treeLeaves seed (h - 2) ch _).
  destruct (0 <? List.length leaves)%nat eqn:E0.
  - destruct (placeNest_spec seed (h - 2) ch leaves g) as (r & g' & Hp & Hiff).
    rewrite Hp. eexists _, _. split; [reflexivity|]. cbn [nest leafPositions].
    rewrite Hiff. reflexivity.
  - apply Nat.ltb_ge in E0.
    eexists _, _. split; [reflexivity|]. cbn [nest leafPositions].
    split; [intros [n Hn]; discriminate | intros [_ H]; lia].
Qed.

End TreeFacts.

(** [createTree(0, 0, 283813257)] under a host with an accurate sine.
    The canopy radius is 2.05, so 18 cells lie inside the canopy, and 5 of
    them pass the leaf test.  The gate reads [pseudoRandom(seed + 57)],
    about 0.023, and passes; yet the tree has no nest.  So "gate passes
    and at least five leaf cells" does not imply a nest. *)
Lemma five_leaves_no_nest :
  let seed := 283813257 in
  pseudoRandom (M := Libm.math (fun _ => 0)) (seed + 57) < NEST_CHANCE /\
  exists t,
    createTree (M := Libm.math (fun _ => 0)) 0 0 seed O = (Some t, O) /\
    List.length (leafPositions t) = 5%nat /\
    nest t = None.
Proof.
  cbv zeta. split; [vm_compute; reflexivity|].
  assert (V : match createTree (M := Libm.math (fun _ => 0))
                               0 0 283813257 O with
              | (Some t, g) =>
                (List.length (leafPositions t) =? 5)%nat
                && match nest t with Some _ => false | None => true end
                && (g =? 0)%nat
              | (None, _) => false
              end = true) by (vm_compute; reflexivity).
  destruct (createTree (M := Libm.math (fun _ => 0)) 0 0 283813257 O)
    as [[t|] g]; [|discriminate].
  apply andb_true_iff in V. destruct V as [V Vg].
  apply andb_true_iff in V. destruct V as [Vl Vn].
  apply Nat.eqb_eq in Vl. apply Nat.eqb_eq in Vg. subst g.
  exists t. split; [reflexivity|]. split; [exact Vl|].
  destruct (nest t); [discriminate | reflexivity].
Qed.

(** ** The random source *)

Section RandomFacts.

Context {M : JSMath}.

Lemma skip_0 g : skip g 0 = g.
Proof. unfold skip. apply Nat.add_0_r. Qed.

Lemma random_skip g k : random (skip g k) = (draw g k, skip g (S k)).
Proof.
  unfold random, skip, draw. rewrite Nat.add_succ_r. reflexivity.
Qed.

Lemma random_start g : random g = (draw g 0, skip g 1).
Proof. rewrite <- (skip_0 g) at 1. apply random_skip. Qed.

Lemma draw_unit g k : unitDraws -> 0 <= draw g k /\ draw g k < 1.
Proof. intro H. apply H. Qed.

Lemma skip_skip g j k : skip (skip g j) k = skip g (j + k).
Proof. unfold skip. symmetry. apply Nat.add_assoc. Qed.

Lemma draw_skip g j k : draw (skip g j) k = draw g (j + k).
Proof. unfold draw, skip. rewrite Nat.add_assoc. reflexivity. Qed.

End RandomFacts.

(** ** BirdFlightAI: the perched bird *)

Section BirdFacts.
Context {M : JSMath}.
Import Bird.







End BirdFacts.


(** ** VillagerRoutineAI *)

Section VillagerFacts.
Context {M : JSMath}.
Import Villager.

Ltac villager_fields :=
  cbv beta iota zeta delta
    [setPosition setRoutine setPrevState setTimer setTarget setVertical
     position state prevState stateTimer chunkId targetPosition profession
     homePoint workPoint velocityY isOnGround fst snd].

(** Split every conditional and pattern-matching [let] of the goal. *)
Ltac split_all :=
  repeat match goal with
  | |- context [if ?c then _ else _] => destruct c
  | |- context [match ?x with Some _ => _ | None => _ end] => destruct x
  | |- context [match state ?v with _ => _ end] => destruct (state v)
  | |- context [let '(_, _) := random ?g in _] =>
      unfold random; cbv beta iota zeta
  end.

Lemma timeGate_body e g v : sameBody v (fst (timeGate e g v)).
Proof.
  unfold timeGate, sameBody. cbv zeta. split_all; villager_fields; auto 10.
Qed.

Lemma interaction_body d g v : sameBody v (fst (interaction d g v)).
Proof.
  unfold interaction, sameBody. cbv zeta.
  split_all; villager_fields; auto 10.
Qed.

Lemma timerGate_body e g v : sameBody v (fst (timerGate e g v)).
Proof.
  unfold timerGate, sameBody. cbv zeta.
  split_all; villager_fields; auto 10.
Qed.

Lemma act_body e g v : sameBody v (fst (act e g v)).
Proof.
  unfold act, sameBody. cbv zeta.
  split_all; villager_fields; auto 10.
Qed.

Lemma sameBody_trans a b c : sameBody a b -> sameBody b c -> sameBody a c.
Proof.
  unfold sameBody. intros (A1 & A2 & A3 & A4 & A5 & A6)
                          (B1 & B2 & B3 & B4 & B5 & B6).
  repeat split; congruence.
Qed.

Lemma advance_body e g v : sameBody (grounded e v) (fst (advance e g v)).
Proof.
  unfold advance, grounded. cbv zeta.
  set (v1 := physics e _).
  pose proof (timeGate_body e g v1) as H2.
  destruct (timeGate e g v1) as [v2 g2].
  pose proof (interaction_body
                (V3.distanceTo (position v1) (playerPosition e)) g2 v2) as H3.
  destruct (interaction _ g2 v2) as [v3 g3].
  pose proof (timerGate_body e g3 v3) as H4.
  destruct (timerGate e g3 v3) as [v4 g4].
  pose proof (act_body e g4 v4) as H5.
  cbn [fst] in *.
  eapply sameBody_trans; [exact H2|].
  eapply sameBody_trans; [exact H3|].
  eapply sameBody_trans; [exact H4|exact H5].
Qed.

Lemma Routine_eqb_eq a b : Routine_eqb a b = true <-> a = b.
Proof. destruct a, b; cbn; split; intro H; try reflexivity; discriminate. Qed.

Lemma Routine_eqb_neq a b : Routine_eqb a b = false <-> a <> b.
Proof.
  destruct a, b; cbn; split; intro H; try reflexivity; try discriminate;
    try congruence.
Qed.

(** The grounding block of a frame.  A villager that does not start the
    frame SLEEPING has gravity taken off its vertical velocity and its
    height integrated, and is then clamped from below to [getHeight] at its
    (x, z); nothing later in the frame touches the velocity or the flag.
    For a villager that starts the frame SLEEPING the block is skipped. *)
Lemma grounding_block :
  forall (e : Env) (g : RNG) (v : State),
    let p := position v in
    let groundY := getHeight (vx p) (vz p) in
    let vel := velocityY v - GRAVITY * delta e in
    let y := vy p + vel * delta e in
    let v1 := grounded e v in
    let v' := fst (advance e g v) in
    (state v <> SLEEPING ->
       groundY <= vy (position v1) /\
       vx (position v1) = vx p /\ vz (position v1) = vz p /\
       (y < groundY ->
          vy (position v1) = groundY /\ velocityY v' = 0 /\
          isOnGround v' = true) /\
       (groundY <= y ->
          vy (position v1) = y /\ velocityY v' = vel /\
          isOnGround v' = false)) /\
    (state v = SLEEPING ->
       position v1 = position v /\ velocityY v' = velocityY v /\
       isOnGround v' = isOnGround v).
Proof.
  intros e g v p groundY vel y v1 v'.
  destruct (advance_body e g v) as (Hv & Hg & _).
  fold v1 in Hv, Hg. fold v' in Hv, Hg.
  rewrite Hv, Hg. clear Hv Hg.
  unfold v1, grounded, physics.
  change (state (setTimer (stateTimer v - delta e) v)) with (state v).
  change (position (setTimer (stateTimer v - delta e) v)) with p.
  change (velocityY (setTimer (stateTimer v - delta e) v)) with (velocityY v).
  cbv zeta. fold groundY. fold vel. fold y.
  split.
  - intro Hns. apply Routine_eqb_neq in Hns. rewrite Hns. cbn [negb].
    destruct (y <? groundY) eqn:E.
    + apply NumFacts.ltb_true in E. villager_fields. cbn [vx vy vz].
      repeat split; auto; try lra; intros; try lra.
    + apply NumFacts.ltb_false in E. villager_fields. cbn [vx vy vz].
      repeat split; auto; try lra; intros; try lra.
  - intro Hs. apply Routine_eqb_eq in Hs. rewrite Hs. cbn [negb].
    villager_fields. auto.
Qed.

End VillagerFacts.

Section VillagerResume.
Context {M : JSMath}.
Import Villager.

Ltac villager_fields :=
  cbv beta iota zeta delta
    [setPosition setRoutine setPrevState setTimer setTarget setVertical
     position state prevState stateTimer chunkId targetPosition profession
     homePoint workPoint velocityY isOnGround fst snd].

(** What the grounding block leaves alone. *)
Lemma grounded_mind e v :
  state (grounded e v) = state v /\
  prevState (grounded e v) = prevState v /\
  targetPosition (grounded e v) = targetPosition v /\
  stateTimer (grounded e v) = stateTimer v - delta e.
Proof.
  unfold grounded, physics. cbv zeta.
  destruct (negb _); [destruct (_ <? _)|]; villager_fields; auto.
Qed.

Lemma near_lt e v :
  near e v ->
  (V3.distanceTo (position (grounded e v)) (playerPosition e)
   <? VILLAGER_INTERACTION_RADIUS) = true.
Proof. intro H. apply NumFacts.ltb_true. exact H. Qed.

Lemma far_ge e v :
  ~ near e v ->
  (V3.distanceTo (position (grounded e v)) (playerPosition e)
   <? VILLAGER_INTERACTION_RADIUS) = false /\
  (V3.distanceTo (position (grounded e v)) (playerPosition e)
   >=? VILLAGER_INTERACTION_RADIUS) = true.
Proof.
  intro H. unfold near in H. apply Qnot_lt_le in H.
  split; [apply NumFacts.ltb_false | apply NumFacts.leb_true]; exact H.
Qed.

(** By day the time gate leaves a villager that is not asleep alone. *)
Lemma timeGate_day e g v :
  isDayTime e = true -> state v <> SLEEPING -> timeGate e g v = (v, g).
Proof.
  intros Hd Hs. unfold timeGate. rewrite Hd. cbn [negb andb].
  apply Routine_eqb_neq in Hs. rewrite Hs. reflexivity.
Qed.

Lemma timerGate_running e g v :
  0 < stateTimer v -> timerGate e g v = (v, g).
Proof.
  intro H. unfold timerGate. apply NumFacts.leb_false in H. rewrite H.
  reflexivity.
Qed.

(** The frame in which the player comes near a villager that is awake and
    not yet looking. *)
Lemma advance_enter e g v :
  isDayTime e = true -> near e v -> 0 < stateTimer v - delta e ->
  state v <> SLEEPING -> state v <> LOOKING_AT_PLAYER ->
  snd (advance e g v) = g /\
  state (fst (advance e g v)) = LOOKING_AT_PLAYER /\
  prevState (fst (advance e g v)) = Some (state v) /\
  targetPosition (fst (advance e g v)) = None /\
  stateTimer (fst (advance e g v)) = stateTimer v - delta e.
Proof.
  intros Hd Hn Ht Hs Hl.
  destruct (grounded_mind e v) as (G1 & G2 & G3 & G4).
  unfold advance. cbv zeta. fold (grounded e v).
  rewrite timeGate_day by (auto; rewrite G1; auto).
  cbv beta iota zeta.
  unfold interaction. rewrite (near_lt e v Hn).
  apply Routine_eqb_neq in Hl. rewrite G1, Hl. cbn [negb andb].
  cbv beta iota zeta.
  set (v3 := setTarget None _).
  assert (H3 : stateTimer v3 = stateTimer v - delta e /\
               state v3 = LOOKING_AT_PLAYER /\
               prevState v3 = Some (state v) /\ targetPosition v3 = None).
  { unfold v3. cbn [setTarget setRoutine setPrevState stateTimer state
                    prevState targetPosition]. auto. }
  destruct H3 as (T1 & T2 & T3 & T4).
  rewrite timerGate_running by (rewrite T1; exact Ht).
  cbv beta iota zeta. unfold act. rewrite T2. cbn [fst snd]. auto.
Qed.

(** A frame of an undisturbed look changes nothing the routine minds. *)
Lemma advance_look e g v :
  isDayTime e = true -> near e v -> 0 < stateTimer v - delta e ->
  state v = LOOKING_AT_PLAYER ->
  snd (advance e g v) = g /\
  state (fst (advance e g v)) = LOOKING_AT_PLAYER /\
  prevState (fst (advance e g v)) = prevState v /\
  targetPosition (fst (advance e g v)) = targetPosition v.
Proof.
  intros Hd Hn Ht Hl.
  destruct (grounded_mind e v) as (G1 & G2 & G3 & G4).
  unfold advance. cbv zeta. fold (grounded e v).
  rewrite timeGate_day by (auto; rewrite G1, Hl; discriminate).
  cbv beta iota zeta.
  unfold interaction. rewrite (near_lt e v Hn). rewrite G1, Hl.
  cbn [Routine_eqb negb andb].
  assert (Hge : (V3.distanceTo (position (grounded e v)) (playerPosition e)
                 >=? VILLAGER_INTERACTION_RADIUS) = false).
  { apply NumFacts.leb_false. exact Hn. }
  rewrite Hge. cbn [andb]. cbv beta iota zeta.
  rewrite timerGate_running by (rewrite G4; exact Ht).
  cbv beta iota zeta.
  unfold act. rewrite G1, Hl. cbn [fst snd].
  repeat split; try assumption; congruence.
Qed.

(** The frame in which the player has left. *)
Lemma advance_release e g v s :
  unitDraws ->
  isDayTime e = true -> ~ near e v ->
  state v = LOOKING_AT_PLAYER -> prevState v = Some s ->
  targetPosition v = None ->
  s = WANDERING \/ s = IDLE ->
  state (fst (advance e g v)) = s /\
  stateTimer (fst (advance e g v)) = draw g 0 * 2 + 1 /\
  targetPosition (fst (advance e g v)) = None.
Proof.
  intros Hg Hd Hf Hl Hp Htg Hs.
  destruct (grounded_mind e v) as (G1 & G2 & G3 & G4).
  destruct (far_ge e v Hf) as [F1 F2].
  destruct (draw_unit g 0 Hg) as [R0 R1].
  unfold advance. cbv zeta. fold (grounded e v).
  rewrite timeGate_day by (auto; rewrite G1, Hl; discriminate).
  cbv beta iota zeta.
  unfold interaction. rewrite F1, F2, G1, Hl, G2, Hp.
  cbn [Routine_eqb negb andb].
  rewrite random_start. cbv beta iota zeta.
  set (v3 := setTimer _ _).
  assert (H3 : stateTimer v3 = draw g 0 * 2 + 1 /\ state v3 = s /\
               targetPosition v3 = None).
  { unfold v3. cbn [setTimer setRoutine stateTimer state targetPosition].
    rewrite G3. auto. }
  destruct H3 as (T1 & T2 & T3).
  rewrite timerGate_running by (rewrite T1; lra).
  cbv beta iota zeta. unfold act. rewrite T2, T3.
  destruct Hs as [-> | ->]; cbn [fst snd]; auto.
Qed.

Lemma undisturbed_run frames :
  forall g v,
    undisturbed frames g v ->
    state v = LOOKING_AT_PLAYER ->
    snd (run frames g v) = g /\
    state (fst (run frames g v)) = LOOKING_AT_PLAYER /\
    prevState (fst (run frames g v)) = prevState v /\
    targetPosition (fst (run frames g v)) = targetPosition v.
Proof.
  induction frames as [|e rest IH]; intros g v Hu Hl.
  - cbn [run fst snd]. auto.
  - cbn [undisturbed] in Hu. destruct Hu as (Hd & Hn & Ht & Hrest).
    destruct (advance_look e g v Hd Hn Ht Hl) as (A1 & A2 & A3 & A4).
    cbn [run]. destruct (advance e g v) as [v1 g1]. cbn [fst snd] in *.
    destruct (IH g1 v1 Hrest A2) as (B1 & B2 & B3 & B4).
    subst g1. repeat split; auto; congruence.
Qed.

(** C4, as the code has it. A villager is WANDERING when, by day and with
    its timer running, the player comes within the interaction radius: it
    enters LOOKING_AT_PLAYER with WANDERING saved.  If the look is
    undisturbed (each frame by day, the player near, the timer not run
    out) and the player then leaves by day, the villager is WANDERING
    again in that frame, with a fresh timer [1 + 2u] in [1, 3) and no
    movement target.  On release the state is always the saved one, and
    IDLE only stands in when none was saved. *)
Theorem wandering_resumes_after_undisturbed_look :
  forall (eIn : Env) (looks : list Env) (eOut : Env) (g : RNG) (v : State),
    unitDraws ->
    state v = WANDERING ->
    isDayTime eIn = true -> near eIn v -> 0 < stateTimer v - delta eIn ->
    let v1 := fst (advance eIn g v) in
    let g1 := snd (advance eIn g v) in
    undisturbed looks g1 v1 ->
    let v2 := fst (run looks g1 v1) in
    let g2 := snd (run looks g1 v1) in
    isDayTime eOut = true -> ~ near eOut v2 ->
    let v3 := fst (advance eOut g2 v2) in
    (state v1 = LOOKING_AT_PLAYER /\ prevState v1 = Some WANDERING) /\
    state v2 = LOOKING_AT_PLAYER /\
    (state v3 = WANDERING /\ 1 <= stateTimer v3 /\ stateTimer v3 < 3 /\
     targetPosition v3 = None) /\
    (forall d g0 v0,
       state v0 = LOOKING_AT_PLAYER ->
       VILLAGER_INTERACTION_RADIUS <= d ->
       state (fst (interaction d g0 v0))
       = match prevState v0 with Some s => s | None => IDLE end).
Proof.
  intros eIn looks eOut g v Hg Hw Hd Hn Ht v1 g1 Hu v2 g2 Hd' Hf v3.
  destruct (advance_enter eIn g v Hd Hn Ht) as (A0 & A1 & A2 & A3 & A4).
  { rewrite Hw. discriminate. }
  { rewrite Hw. discriminate. }
  fold v1 in A1, A2, A3, A4. fold g1 in A0.
  rewrite Hw in A2.
  destruct (undisturbed_run looks g1 v1 Hu A1) as (B0 & B1 & B2 & B3).
  fold v2 in B1, B2, B3. fold g2 in B0.
  destruct (advance_release eOut g2 v2 WANDERING Hg Hd' Hf B1)
    as (C1 & C2 & C3); try congruence; auto.
  fold v3 in C1, C2, C3.
  destruct (draw_unit g2 0 Hg) as [R0 R1].
  split; [split; assumption|]. split; [assumption|].
  split; [rewrite C2; repeat split; auto; lra|].
  intros d g0 v0 Hl Hdist. unfold interaction.
  assert (F1 : (d <? VILLAGER_INTERACTION_RADIUS) = false)
    by (apply NumFacts.ltb_false; exact Hdist).
  assert (F2 : (d >=? VILLAGER_INTERACTION_RADIUS) = true)
    by (apply NumFacts.leb_true; exact Hdist).
  rewrite F1, F2, Hl. cbn [Routine_eqb negb andb].
  rewrite random_start. cbv beta iota zeta.
  destruct (prevState v0); reflexivity.
Qed.

End VillagerResume.

(** A few frames of look, then the player walks off, all at noon: the
    wanderer wanders again. *)
Lemma wandering_resumes_after_undisturbed_look_witness :
  let g := O in
  let v := Examples.wanderer 5 in
  let eIn := Examples.frameAt Examples.noon 0 in
  let looks := [Examples.frameAt Examples.noon 0;
                Examples.frameAt Examples.noon 1] in
  let eOut := Examples.frameAt Examples.noon 20 in
  let v1 := fst (Villager.advance (M := Host.fixed (1 # 2)) eIn g v) in
  let g1 := snd (Villager.advance (M := Host.fixed (1 # 2)) eIn g v) in
  let v2 := fst (Villager.run (M := Host.fixed (1 # 2)) looks g1 v1) in
  let g2 := snd (Villager.run (M := Host.fixed (1 # 2)) looks g1 v1) in
  let v3 := fst (Villager.advance (M := Host.fixed (1 # 2)) eOut g2 v2) in
  (unitDraws (M := Host.fixed (1 # 2)) /\
   Villager.state v = Villager.WANDERING /\
   Villager.isDayTime eIn = true /\ Villager.near (M := Host.fixed (1 # 2)) eIn v /\
   0 < Villager.stateTimer v - Villager.delta eIn /\
   Villager.undisturbed (M := Host.fixed (1 # 2)) looks g1 v1 /\
   Villager.isDayTime eOut = true /\
   ~ Villager.near (M := Host.fixed (1 # 2)) eOut v2) /\
  Villager.state v3 = Villager.WANDERING /\
  Villager.stateTimer v3 = (1 # 2) * 2 + 1.
Proof.
  intros g v eIn looks eOut v1 g1 v2 g2 v3.
  assert (Hg : unitDraws (M := Host.fixed (1 # 2))).
  { intro n. split; [discriminate | reflexivity]. }
  assert (Hw : Villager.state v = Villager.WANDERING) by reflexivity.
  assert (Hd : Villager.isDayTime eIn = true) by reflexivity.
  assert (Hn : Villager.near (M := Host.fixed (1 # 2)) eIn v)
    by (vm_compute; reflexivity).
  assert (Ht : 0 < Villager.stateTimer v - Villager.delta eIn)
    by reflexivity.
  assert (Hu : Villager.undisturbed (M := Host.fixed (1 # 2)) looks g1 v1).
  { vm_compute. repeat split. }
  assert (Hd' : Villager.isDayTime eOut = true) by reflexivity.
  assert (Hf : ~ Villager.near (M := Host.fixed (1 # 2)) eOut v2).
  { intro K. vm_compute in K. discriminate. }
  split;
    [exact (conj Hg (conj Hw (conj Hd (conj Hn (conj Ht
              (conj Hu (conj Hd' Hf)))))))|].
  destruct (wandering_resumes_after_undisturbed_look (M := Host.fixed (1 # 2))
              eIn looks eOut g v Hg Hw Hd Hn Ht Hu Hd' Hf)
    as (_ & _ & (Hs & _) & _).
  split; [exact Hs|]. vm_compute. reflexivity.
Defined.

(** The claim without the conditions fails, in two ways.  (1) The timer of
    the wanderer runs out in the second frame of the look, by day with the
    player still near: the timer gate sends it to IDLE, the next frame
    saves IDLE and looks again, and on release it is IDLE.  (2) Night
    falls during the look: the time gate sends it to GOING_HOME, which is
    what gets saved, and on release it is GOING_HOME. *)
Lemma wanderer_released_idle_or_going_home :
  let g := O in
  let near t := Examples.frameAt t 0 in
  let far t := Examples.frameAt t 20 in
  let after frames v :=
    fst (Villager.run (M := Host.fixed (1 # 2)) frames g v) in
  (* (1) timer of 0.15 s, frames of 0.1 s, all at noon *)
  (Villager.state (Examples.wanderer (15 # 100)) = Villager.WANDERING /\
   Villager.state (after [near Examples.noon] (Examples.wanderer (15 # 100)))
   = Villager.LOOKING_AT_PLAYER /\
   Villager.prevState
     (after [near Examples.noon] (Examples.wanderer (15 # 100)))
   = Some Villager.WANDERING /\
   Villager.state
     (after [near Examples.noon; near Examples.noon; near Examples.noon;
             far Examples.noon] (Examples.wanderer (15 # 100)))
   = Villager.IDLE) /\
  (* (2) timer of 5 s, dusk turning to night during the look *)
  (Villager.state (after [near Examples.dusk] (Examples.wanderer 5))
   = Villager.LOOKING_AT_PLAYER /\
   Villager.prevState (after [near Examples.dusk] (Examples.wanderer 5))
   = Some Villager.WANDERING /\
   Villager.state
     (after [near Examples.dusk; near Examples.nightfall;
             far Examples.nightfall] (Examples.wanderer 5))
   = Villager.GOING_HOME).
Proof.
  cbv zeta. vm_compute. repeat split.
Qed.

(** A sleeping villager hovering half a unit above the ground with
    velocity 0: the grounding rule would give it velocity [-3] and clear
    [isOnGround]; the frame leaves both alone and only eases the villager
    toward its home point. *)
Lemma sleeper_is_not_grounded :
  let v := Examples.sleeper in
  let e := Examples.frameAt Examples.nightfall 20 in
  let v' := fst (Villager.advance (M := Host.fixed 0) e O v) in
  Villager.state v = Villager.SLEEPING /\
  getHeight (M := Host.fixed 0) 0 0 == 0 /\
  Villager.velocityY v - GRAVITY * Villager.delta e == -3 /\
  Villager.velocityY v' == 0 /\
  Villager.isOnGround v' = true /\
  vy (Villager.position v') == 55 # 100.
Proof.
  cbv zeta. vm_compute. repeat split.
Qed.

(** ** The chunk-change gate *)

Section GateFacts.
Context {M : JSMath}.
Import Frame.











End GateFacts.

(** ** Chunk ids and the string-keyed maps *)

Section ChunkIdFacts.
Import World.

Lemma uint_commaFree d : commaFree (NilEmpty.string_of_uint d) = true.
Proof. induction d; cbn; auto. Qed.

Lemma numberToString_commaFree n : commaFree (numberToString n) = true.
Proof.
  unfold numberToString.
  destruct (Z.to_int n) as [d|d]; cbn [NilZero.string_of_int].
  - destruct d; cbn; auto using uint_commaFree.
  - cbn. destruct d; cbn; auto using uint_commaFree.
Qed.

Lemma splitComma_free s : commaFree s = true -> splitComma s = [s].
Proof.
  induction s as [|c rest IH]; cbn; auto.
  destruct (Ascii.eqb c ","); cbn; [discriminate|].
  intro H. rewrite (IH H). reflexivity.
Qed.

Lemma splitComma_app a b :
  commaFree a = true ->
  splitComma (a ++ String "," b) = a :: splitComma b.
Proof.
  induction a as [|c rest IH]; cbn; auto.
  destruct (Ascii.eqb c ","); cbn; [discriminate|].
  intro H. rewrite (IH H). reflexivity.
Qed.

Lemma parseInt_numberToString n : parseInt (Some (numberToString n)) = Some n.
Proof.
  unfold parseInt, numberToString.
  rewrite NilZero.isi.
  - cbn. rewrite DecimalZ.of_to. reflexivity.
  - destruct n; cbn; try discriminate.
    intro H. injection H as H. exact (Unsigned.to_uint_nonnil _ H).
  - destruct n; cbn; try discriminate.
    intro H. injection H as H. exact (Unsigned.to_uint_nonnil _ H).
Qed.

(** A chunk id reads back as the coordinate it was printed from. *)
Lemma parseChunkId_chunkIdOf x z :
  parseChunkId (chunkIdOf x z) = (Some x, Some z).
Proof.
  unfold parseChunkId, chunkIdOf.
  change ("," ++ numberToString z)%string
    with (String "," (numberToString z)).
  rewrite splitComma_app by apply numberToString_commaFree.
  rewrite splitComma_free by apply numberToString_commaFree.
  cbn [List.nth_error]. rewrite !parseInt_numberToString. reflexivity.
Qed.

Lemma chunkIdOf_inj x z x' z' :
  chunkIdOf x z = chunkIdOf x' z' -> x = x' /\ z = z'.
Proof.
  intro H.
  pose proof (parseChunkId_chunkIdOf x z) as A.
  rewrite H, parseChunkId_chunkIdOf in A.
  injection A as -> ->. auto.
Qed.

End ChunkIdFacts.

Section StringMapFacts.
Import World.
Context {V : Type}.
Implicit Types (m : list (string * V)) (k : string).

Lemma has_In k m : has k m = true <-> In k (keys m).
Proof.
  unfold has, keys. rewrite List.existsb_exists. split.
  - intros [[k' v] [Hin He]]. cbn in He. apply String.eqb_eq in He. subst.
    apply List.in_map_iff. exists (k, v). auto.
  - intro H. apply List.in_map_iff in H. destruct H as [[k' v] [He Hin]].
    cbn in He. subst. exists (k, v). split; auto. cbn. apply String.eqb_refl.
Qed.

Lemma has_app k m m' : has k (m ++ m') = has k m || has k m'.
Proof. unfold has. apply List.existsb_app. Qed.

Lemma has_set k k' v m : has k (set k' v m) = String.eqb k' k || has k m.
Proof.
  unfold set. destruct (has k' m) eqn:E.
  - assert (H : has k (List.map (fun e => if String.eqb (fst e) k'
                                           then (k', v) else e) m)
                = has k m).
    { unfold has. clear E. induction m as [|[a b] rest IH]; cbn; auto.
      rewrite IH. destruct (String.eqb_spec a k'); cbn; subst; auto. }
    rewrite H. destruct (String.eqb_spec k' k); cbn; subst; auto.
  - rewrite has_app. unfold has at 2. cbn. rewrite orb_false_r.
    apply orb_comm.
Qed.

Lemma has_delete k k' m :
  has k (delete k' m) = has k m && negb (String.eqb k k').
Proof.
  unfold has, delete. induction m as [|[a b] rest IH]; cbn; auto.
  destruct (String.eqb_spec a k'); cbn.
  - rewrite IH. subst. destruct (String.eqb_spec k' k); cbn; subst.
    + rewrite String.eqb_refl. cbn. rewrite andb_false_r. reflexivity.
    + reflexivity.
  - rewrite IH. destruct (String.eqb_spec a k); cbn; subst.
    + destruct (String.eqb_spec k k'); cbn; [contradiction | reflexivity].
    + reflexivity.
Qed.

Lemma get_has k m : has k m = true <-> exists v, get k m = Some v.
Proof.
  unfold has, get. induction m as [|[a b] rest IH]; cbn.
  - split; [discriminate | intros [v H]; discriminate].
  - destruct (String.eqb a k); cbn.
    + split; eauto.
    + exact IH.
Qed.

Lemma get_none k m : get k m = None <-> has k m = false.
Proof.
  destruct (has k m) eqn:E.
  - apply get_has in E. destruct E as [v ->]. split; discriminate.
  - split; auto. intros _. destruct (get k m) eqn:G; auto.
    assert (H : has k m = true) by (apply get_has; eauto). congruence.
Qed.

Lemma delete_absent k m : has k m = false -> delete k m = m.
Proof.
  unfold has, delete. induction m as [|[a b] rest IH]; cbn; auto.
  destruct (String.eqb a k); cbn; [discriminate|].
  intro H. rewrite (IH H). reflexivity.
Qed.

Lemma get_delete_ne k k' m : k <> k' -> get k (delete k' m) = get k m.
Proof.
  intro Hne. unfold get, delete. induction m as [|[a b] rest IH]; cbn; auto.
  destruct (String.eqb_spec a k'); cbn; subst.
  - destruct (String.eqb_spec k' k); [congruence | exact IH].
  - destruct (String.eqb_spec a k); cbn; auto.
Qed.

Lemma get_delete_eq k m : get k (delete k m) = None.
Proof.
  apply get_none. rewrite has_delete, String.eqb_refl. cbn.
  apply andb_false_r.
Qed.

Lemma get_set_eq k v m : has k m = false -> get k (set k v m) = Some v.
Proof.
  intro H. unfold set. rewrite H. unfold get.
  assert (F : forall l, has k l = false ->
              List.find (fun e : string * V => String.eqb (fst e) k)
                        (l ++ [(k, v)]) = Some (k, v)).
  { induction l as [|[a b] rest IH]; cbn.
    - rewrite String.eqb_refl. reflexivity.
    - unfold has. cbn. destruct (String.eqb a k); cbn; [discriminate|].
      exact IH. }
  rewrite (F m H). reflexivity.
Qed.

Lemma get_set_ne k k' v m : k <> k' -> get k (set k' v m) = get k m.
Proof.
  intro Hne. unfold set. destruct (has k' m).
  - unfold get. induction m as [|[a b] rest IH]; cbn; auto.
    destruct (String.eqb_spec a k'); cbn; subst.
    + destruct (String.eqb_spec k' k); [congruence|]. exact IH.
    + destruct (String.eqb_spec a k); cbn; auto.
  - unfold get. induction m as [|[a b] rest IH]; cbn.
    + destruct (String.eqb_spec k' k); [congruence | reflexivity].
    + destruct (String.eqb a k); cbn; auto.
Qed.

End StringMapFacts.

(** ** The scene and the entity lists under teardown *)

Section SceneFacts.
Import World.

Lemma sceneRemove_incl u sc : incl (sceneRemove u sc) sc.
Proof.
  induction sc as [|c rest IH]; cbn; [apply incl_refl|].
  destruct (Nat.eqb c u).
  - apply incl_tl, incl_refl.
  - intros a [<-|Ha]; [left; reflexivity | right; apply IH, Ha].
Qed.

Lemma sceneRemove_NoDup u sc : NoDup sc -> NoDup (sceneRemove u sc).
Proof.
  induction sc as [|c rest IH]; cbn; intro H; auto.
  inversion H as [|? ? Hn Hr]; subst.
  destruct (Nat.eqb c u); auto.
  constructor; auto. intro K. apply Hn. eapply sceneRemove_incl; eauto.
Qed.

Lemma sceneRemove_gone u sc : NoDup sc -> ~ In u (sceneRemove u sc).
Proof.
  induction sc as [|c rest IH]; cbn; intro H; auto.
  inversion H as [|? ? Hn Hr]; subst.
  destruct (Nat.eqb_spec c u).
  - subst. exact Hn.
  - intros [K|K]; [contradiction | exact (IH Hr K)].
Qed.

Section Drop.
Context {A : Type} (f : A -> string) (id : string).

Lemma dropEntities_list es sc :
  fst (dropEntities f id es sc)
  = List.filter (fun e => negb (String.eqb (f (snd e)) id)) es.
Proof.
  revert sc. induction es as [|[u e] rest IH]; intro sc; cbn; auto.
  destruct (String.eqb (f e) id); cbn.
  - apply IH.
  - specialize (IH sc). destruct (dropEntities f id rest sc). cbn in *.
    rewrite IH. reflexivity.
Qed.

Lemma dropEntities_scene es sc :
  incl (snd (dropEntities f id es sc)) sc /\
  (NoDup sc -> NoDup (snd (dropEntities f id es sc))) /\
  (NoDup sc -> forall u e, In (u, e) es -> f e = id ->
               ~ In u (snd (dropEntities f id es sc))).
Proof.
  revert sc. induction es as [|[u e] rest IH]; intro sc; cbn.
  - split; [apply incl_refl|]. split; [auto|]. intros _ ? ? [].
  - destruct (String.eqb_spec (f e) id).
    + destruct (IH (sceneRemove u sc)) as (I1 & I2 & I3).
      split; [|split].
      * eapply incl_tran; [exact I1 | apply sceneRemove_incl].
      * intro H. apply I2, sceneRemove_NoDup, H.
      * intros H u' e' [K|K] Hf.
        -- injection K as <- <-. intro C. apply I1 in C.
           exact (sceneRemove_gone u sc H C).
        -- apply (I3 (sceneRemove_NoDup u sc H) u' e' K Hf).
    + specialize (IH sc).
      destruct (dropEntities f id rest sc) as [kept sc']. cbn in *.
      destruct IH as (I1 & I2 & I3).
      split; [exact I1|]. split; [exact I2|].
      intros H u' e' [K|K] Hf.
      * injection K as <- <-. contradiction.
      * apply (I3 H u' e' K Hf).
Qed.

End Drop.

End SceneFacts.

(** ** Generation only adds, and never throws *)

Section GenerationFacts.
Context {M : JSMath}.
Import World.

Lemma adds_refl id w : adds id w w.
Proof.
  unfold adds. split; [reflexivity|].
  split; [exists []; rewrite app_nil_r; split; [reflexivity | intros ? ? []]|].
  split; [exists []; rewrite app_nil_r; split; [reflexivity | intros ? ? []]|].
  split; [|lia].
  exists []. rewrite app_nil_r. split; [reflexivity|].
  split; [constructor | intros ? []].
Qed.

Lemma NoDup_app_ranges (a b : list nat) lo :
  NoDup a -> NoDup b ->
  (forall u, In u a -> (u < lo)%nat) -> (forall u, In u b -> (lo <= u)%nat) ->
  NoDup (a ++ b).
Proof.
  intros Ha Hb La Lb. induction a as [|x rest IH]; cbn; auto.
  inversion Ha as [|? ? Hn Hr]; subst.
  constructor.
  - intro K. apply in_app_or in K. destruct K as [K|K]; [contradiction|].
    specialize (La x (or_introl eq_refl)). specialize (Lb x K). lia.
  - apply IH; auto. intros u Hu. apply La. right. exact Hu.
Qed.

Lemma NoDup_snoc (l : list nat) x : NoDup l -> ~ In x l -> NoDup (l ++ [x]).
Proof.
  induction l as [|a rest IH]; cbn; intros Hl Hx.
  - constructor; [intros [] | constructor].
  - inversion Hl as [|? ? Hn Hr]; subst. constructor.
    + intro K. apply in_app_or in K. destruct K as [K|[K|[]]]; auto.
    + apply IH; auto.
Qed.

Lemma adds_trans id w1 w2 w3 : adds id w1 w2 -> adds id w2 w3 -> adds id w1 w3.
Proof.
  intros (A1 & (bs & A2 & A2') & (vs & A3 & A3') & (ns & A4 & A4' & A4'') & A5)
         (B1 & (bs' & B2 & B2') & (vs' & B3 & B3') & (ns' & B4 & B4' & B4'') & B5).
  unfold adds. split; [congruence|].
  split.
  { exists (bs ++ bs'). rewrite B2, A2, app_assoc. split; [reflexivity|].
    intros u b H. apply in_app_or in H. destruct H; eauto. }
  split.
  { exists (vs ++ vs'). rewrite B3, A3, app_assoc. split; [reflexivity|].
    intros u v H. apply in_app_or in H. destruct H; eauto. }
  split; [|lia].
  exists (ns ++ ns'). rewrite B4, A4, app_assoc. split; [reflexivity|].
  split.
  - apply (NoDup_app_ranges ns ns' (nextUid w2)); auto.
    + intros u Hu. apply A4'' in Hu. lia.
    + intros u Hu. apply B4'' in Hu. lia.
  - intros u H. apply in_app_or in H. destruct H as [H|H].
    + apply A4'' in H. lia.
    + apply B4'' in H. lia.
Qed.

(** Appending one entity with a fresh uid. *)
Lemma adds_bird id w b g :
  Bird.chunkId b = id ->
  adds id w
    {| activeChunks := activeChunks w; activeVillages := activeVillages w;
       birds := birds w ++ [(nextUid w, b)]; villagers := villagers w;
       scene := scene w ++ [nextUid w]; matrixDummy := matrixDummy w;
       rng := g; nextUid := S (nextUid w) |}.
Proof.
  intro Hb. unfold adds. cbn [activeChunks birds villagers scene nextUid].
  split; [reflexivity|].
  split.
  { exists [(nextUid w, b)]. split; [reflexivity|].
    intros u b' [K|[]]. injection K as <- <-. exact Hb. }
  split.
  { exists []. rewrite app_nil_r. split; [reflexivity | intros ? ? []]. }
  split; [|lia].
  exists [nextUid w]. split; [reflexivity|]. split.
  - constructor; [intros [] | constructor].
  - intros u [<-|[]]. lia.
Qed.

Lemma adds_villager id w v g :
  Villager.chunkId v = id ->
  adds id w
    {| activeChunks := activeChunks w; activeVillages := activeVillages w;
       birds := birds w; villagers := villagers w ++ [(nextUid w, v)];
       scene := scene w ++ [nextUid w]; matrixDummy := matrixDummy w;
       rng := g; nextUid := S (nextUid w) |}.
Proof.
  intro Hv. unfold adds. cbn [activeChunks birds villagers scene nextUid].
  split; [reflexivity|].
  split.
  { exists []. rewrite app_nil_r. split; [reflexivity | intros ? ? []]. }
  split.
  { exists [(nextUid w, v)]. split; [reflexivity|].
    intros u v' [K|[]]. injection K as <- <-. exact Hv. }
  split; [|lia].
  exists [nextUid w]. split; [reflexivity|]. split.
  - constructor; [intros [] | constructor].
  - intros u [<-|[]]. lia.
Qed.

(** Handing out a uid, or adding an object without entities. *)
Lemma adds_uid id w d g :
  adds id w
    {| activeChunks := activeChunks w; activeVillages := activeVillages w;
       birds := birds w; villagers := villagers w; scene := scene w;
       matrixDummy := d; rng := g; nextUid := S (nextUid w) |}.
Proof.
  unfold adds. cbn [activeChunks birds villagers scene nextUid].
  split; [reflexivity|].
  split; [exists []; rewrite app_nil_r; split; [reflexivity | intros ? ? []]|].
  split; [exists []; rewrite app_nil_r; split; [reflexivity | intros ? ? []]|].
  split; [|lia].
  exists []. rewrite app_nil_r. split; [reflexivity|].
  split; [constructor | intros ? []].
Qed.

Lemma adds_rng id w g : adds id w (withRng g w).
Proof.
  unfold adds, withRng. cbn [activeChunks birds villagers scene nextUid].
  split; [reflexivity|].
  split; [exists []; rewrite app_nil_r; split; [reflexivity | intros ? ? []]|].
  split; [exists []; rewrite app_nil_r; split; [reflexivity | intros ? ? []]|].
  split; [|lia].
  exists []. rewrite app_nil_r. split; [reflexivity|].
  split; [constructor | intros ? []].
Qed.

(** *** Birds *)

Lemma findNewLandingSpot_total t g :
  unitDraws -> exists p g', findNewLandingSpot t g = (Some p, g').
Proof.
  intro Hu. unfold findNewLandingSpot.
  destruct (leafPositions t) as [|l ls] eqn:El; [eauto|].
  rewrite random_start. cbv beta iota zeta.
  destruct (draw_unit g 0 Hu) as [R0 R1].
  destruct (at_scaled (l :: ls) (draw g 0) R0 R1) as (a & Ha & _);
    [discriminate|].
  rewrite Ha. eauto.
Qed.

Lemma newBird_spec id seed i tw t g :
  unitDraws ->
  exists b g', newBird id seed i tw t g = (Some b, g') /\ Bird.chunkId b = id.
Proof.
  intro Hu. unfold newBird. cbv zeta.
  assert (Hs : exists p g1,
            match nest t with
            | Some n => (Some (nestPosition n), g)
            | None => findNewLandingSpot t g
            end = (Some p, g1)).
  { destruct (nest t); [eauto | apply findNewLandingSpot_total, Hu]. }
  destruct Hs as (p & g1 & ->).
  rewrite !random_start. cbv beta iota zeta.
  unfold random. cbv beta iota zeta.
  eexists _, _. split; [reflexivity|]. reflexivity.
Qed.

Lemma spawnBirds_spec id seed tw t n :
  unitDraws ->
  forall i w,
    exists w', spawnBirds id seed tw t i n w = Some w' /\
               adds id w w' /\
               activeVillages w' = activeVillages w /\
               villagers w' = villagers w.
Proof.
  intro Hu. induction n as [|n IH]; intros i w; cbn [spawnBirds].
  - exists w. split; [reflexivity|]. split; [apply adds_refl | auto].
  - destruct (newBird_spec id seed i tw t (rng w) Hu) as (b & g & -> & Hb).
    match goal with
    | |- context [spawnBirds id seed tw t (S i) n ?w1] =>
        destruct (IH (S i) w1) as (w' & Hw' & Ha & Hv & Hvs);
        exists w'; split; [exact Hw'|]; split;
          [eapply adds_trans; [apply (adds_bird id w b g Hb) | exact Ha]|];
          split; [rewrite Hv | rewrite Hvs]; reflexivity
    end.
Qed.

(** *** The tree *)

Lemma createTree_total x z seed g :
  exists t g', createTree x z seed g = (Some t, g').
Proof.
  unfold createTree. cbv zeta.
  destruct (0 <? List.length (treeLeaves _ _ _ _))%nat.
  - match goal with
    | |- context [placeNest ?s ?b ?h ?l g] =>
        destruct (placeNest_spec s b h l g) as (r & g' & -> & _)
    end.
    eexists _, _. reflexivity.
  - eexists _, _. reflexivity.
Qed.

(** What [createTree] lays out does not depend on the random source:
    only the twigs of the nest do. *)
Lemma placeNest_layout seed base h leaves g1 g2 :
  option_map (option_map nestPosition) (fst (placeNest seed base h leaves g1))
  = option_map (option_map nestPosition)
               (fst (placeNest seed base h leaves g2)).
Proof.
  unfold placeNest.
  destruct ((pseudoRandom (seed + 57) <? NEST_CHANCE)
            && (5 <? List.length leaves)%nat); [|reflexivity].
  destruct (createNest g1) as [n1 g1'], (createNest g2) as [n2 g2'].
  cbv zeta.
  destruct (0 <? List.length _)%nat;
    match goal with
    | |- context [at_ ?l ?i] => destruct (at_ l i)
    end; reflexivity.
Qed.

Lemma createTree_layout x z seed g1 g2 t1 t2 g1' g2' y :
  createTree x z seed g1 = (Some t1, g1') ->
  createTree x z seed g2 = (Some t2, g2') ->
  treeLayout {| tree := t1; treeY := y |}
  = treeLayout {| tree := t2; treeY := y |}.
Proof.
  unfold createTree. cbv zeta.
  set (h := 5 + pseudoRandom (seed + 1) * 4).
  set (ch := 3 + pseudoRandom (seed + 3) * 2).
  set (leaves := treeLeaves seed (h - 2) ch _).
  destruct (0 <? List.length leaves)%nat.
  - pose proof (placeNest_layout seed (h - 2) ch leaves g1 g2) as HL.
    destruct (placeNest seed (h - 2) ch leaves g1) as [[n1|] k1];
      destruct (placeNest seed (h - 2) ch leaves g2) as [[n2|] k2];
      cbn [fst option_map] in HL; try discriminate.
    intros H1 H2. injection H1 as <- <-. injection H2 as <- <-.
    unfold treeLayout. cbn [tree treeY treePosition height trunkWidth
                            leafPositions nest vx vz].
    injection HL as HL. rewrite HL. reflexivity.
  - intros H1 H2. injection H1 as <- <-. injection H2 as <- <-.
    reflexivity.
Qed.

Lemma plantTree_spec x z id treePos w placed :
  unitDraws ->
  let origin := vec3 (inject_Z x * inject_Z CHUNK_SIZE) 0
                     (inject_Z z * inject_Z CHUNK_SIZE) in
  exists w' pt,
    plantTree x z id origin treePos (Some (w, placed))
    = Some (w', placed ++ [pt]) /\
    adds id w w' /\ activeVillages w' = activeVillages w /\
    villagers w' = villagers w /\
    layTree x z treePos = [treeLayout pt].
Proof.
  intros Hu origin. unfold plantTree.
  destruct (createTree_total (vx treePos) (vz treePos) (chunkSeed x z) (rng w))
    as (t & g & Ht).
  rewrite Ht. cbv zeta.
  assert (HL : layTree x z treePos
               = [treeLayout
                    {| tree := t;
                       treeY := getHeight (vx origin + vx treePos)
                                          (vz origin + vz treePos) |}]).
  { unfold layTree. cbv zeta.
    destruct (createTree_total (vx treePos) (vz treePos) (chunkSeed x z) O)
      as (t0 & g0 & Ht0).
    rewrite Ht0. cbn [fst]. f_equal.
    eapply createTree_layout; eauto. }
  destruct (pseudoRandom (chunkSeed x z * 5) <? BIRD_TREE_CHANCE).
  - destruct (leafPositions t) as [|l ls].
    + cbn [option_map]. eexists _, _. split; [reflexivity|].
      split; [apply adds_rng|]. split; [reflexivity|].
      split; [reflexivity | exact HL].
    + match goal with
      | |- context [spawnBirds id ?s ?tw t O ?n ?w1] =>
          destruct (spawnBirds_spec id s tw t n Hu O w1)
            as (w' & -> & Ha & Hv & Hvs)
      end.
      cbn [option_map]. eexists _, _. split; [reflexivity|].
      split; [eapply adds_trans; [apply adds_rng | exact Ha]|].
      split; [rewrite Hv; reflexivity|].
      split; [rewrite Hvs; reflexivity | exact HL].
  - cbn [option_map]. eexists _, _. split; [reflexivity|].
    split; [apply adds_rng|]. split; [reflexivity|].
    split; [reflexivity | exact HL].
Qed.

Lemma plantTrees_spec x z id ts :
  unitDraws ->
  forall w placed,
    exists w' placed',
      List.fold_left
        (fun acc t =>
           plantTree x z id (vec3 (inject_Z x * inject_Z CHUNK_SIZE) 0
                                  (inject_Z z * inject_Z CHUNK_SIZE)) t acc)
        ts (Some (w, placed)) = Some (w', placed') /\
      adds id w w' /\ activeVillages w' = activeVillages w /\
      villagers w' = villagers w /\
      List.map treeLayout placed'
      = List.map treeLayout placed ++ flatMap (layTree x z) ts.
Proof.
  intro Hu. induction ts as [|t rest IH]; intros w placed.
  - cbn [List.fold_left]. exists w, placed. split; [reflexivity|].
    split; [apply adds_refl|]. split; [reflexivity|]. split; [reflexivity|].
    unfold flatMap. cbn. rewrite app_nil_r. reflexivity.
  - cbn [List.fold_left].
    destruct (plantTree_spec x z id t w placed Hu)
      as (w1 & pt & -> & A1 & A2 & A3 & A4).
    destruct (IH w1 (placed ++ [pt])) as (w2 & pl & -> & B1 & B2 & B3 & B4).
    exists w2, pl. split; [reflexivity|].
    split; [eapply adds_trans; eauto|].
    split; [congruence|]. split; [congruence|].
    rewrite B4, List.map_app. unfold flatMap. cbn [List.map List.concat].
    rewrite A4. cbn [List.map app]. rewrite <- app_assoc. reflexivity.
Qed.

(** *** The village *)

Lemma newVillager_spec id seed origin hs fm farmPos i g :
  hs <> [] ->
  exists v g', newVillager id seed origin hs fm farmPos i g = (Some v, g') /\
               Villager.chunkId v = id.
Proof.
  intro Hne. unfold newVillager. cbv zeta.
  destruct (pseudoRandom_range (seed + inject_Z (Z.of_nat i) * 19)) as [R0 R1].
  destruct (at_scaled professions _ R0 R1) as (p & Hp & _); [discriminate|].
  rewrite Hp. rewrite random_start. cbv beta iota zeta.
  destruct (List.nth_error hs (i mod List.length hs)) as [hh|] eqn:Eh.
  - eexists _, _. split; reflexivity.
  - apply List.nth_error_None in Eh.
    assert (K : (i mod List.length hs < List.length hs)%nat).
    { apply Nat.mod_upper_bound. destruct hs; [congruence | cbn; lia]. }
    lia.
Qed.

Lemma spawnVillagers_spec id seed origin hs fm farmPos n :
  hs <> [] ->
  forall i w,
    exists w', spawnVillagers id seed origin hs fm farmPos i n w = Some w' /\
               adds id w w' /\ activeVillages w' = activeVillages w.
Proof.
  intro Hne. induction n as [|n IH]; intros i w; cbn [spawnVillagers].
  - exists w. split; [reflexivity|]. split; [apply adds_refl | auto].
  - destruct (newVillager_spec id seed origin hs fm farmPos i (rng w) Hne)
      as (v & g & -> & Hv).
    match goal with
    | |- context [spawnVillagers id seed origin hs fm farmPos (S i) n ?w1] =>
        destruct (IH (S i) w1) as (w' & Hw' & Ha & Hvl);
        exists w'; split; [exact Hw'|]; split;
          [eapply adds_trans; [apply (adds_villager id w v g Hv) | exact Ha]|];
          rewrite Hvl; reflexivity
    end.
Qed.

Lemma planHouses_nonempty x z : planHouses (villagePlan x z) <> [].
Proof.
  unfold villagePlan. cbv zeta. cbn [planHouses].
  set (s := chunkSeed x z * 17).
  destruct (pseudoRandom_range s) as [R0 _].
  assert (H : (0 <= Num.floor (pseudoRandom s * 2))%Z).
  { apply floor_nonneg. lra. }
  destruct (Z.to_nat (2 + Num.floor (pseudoRandom s * 2))) eqn:E; [lia|].
  cbn. discriminate.
Qed.

(** Adding an object to the scene under a uid handed out earlier and not
    yet used. *)
Lemma adds_scene_last id w w2 uid vls :
  adds id
    {| activeChunks := activeChunks w; activeVillages := activeVillages w;
       birds := birds w; villagers := villagers w; scene := scene w;
       matrixDummy := matrixDummy w; rng := rng w;
       nextUid := S uid |} w2 ->
  uid = nextUid w ->
  adds id w
    {| activeChunks := activeChunks w2; activeVillages := vls;
       birds := birds w2; villagers := villagers w2;
       scene := scene w2 ++ [uid];
       matrixDummy := matrixDummy w2; rng := rng w2;
       nextUid := nextUid w2 |}.
Proof.
  intros (A1 & A2 & A3 & (ns & A4 & A4' & A4'') & A5) ->.
  cbn [activeChunks birds villagers scene nextUid] in *.
  unfold adds. cbn [activeChunks birds villagers scene nextUid].
  split; [exact A1|]. split; [exact A2|]. split; [exact A3|].
  split; [|lia].
  exists (ns ++ [nextUid w]). rewrite A4, app_assoc. split; [reflexivity|].
  split.
  - apply NoDup_snoc; auto. intro Hu. apply A4'' in Hu. lia.
  - intros u Hu. apply in_app_or in Hu. destruct Hu as [Hu|[<-|[]]].
    + apply A4'' in Hu. lia.
    + lia.
Qed.

Lemma buildVillage_spec x z id w :
  exists w',
    buildVillage x z id w = Some w' /\ adds id w w' /\
    ((villageGate x z && negb (has id (activeVillages w)) = false /\
      activeVillages w' = activeVillages w /\ villagers w' = villagers w)
     \/
     (villageGate x z = true /\ has id (activeVillages w) = false /\
      exists v, activeVillages w' = set id v (activeVillages w) /\
                villageLayout v = plannedVillage x z)).
Proof.
  unfold buildVillage.
  destruct (villageGate x z && negb (has id (activeVillages w))) eqn:Eg.
  - cbv zeta.
    match goal with
    | |- context [spawnVillagers id ?s ?o ?hs ?fm ?fp O ?n ?w1] =>
        destruct (spawnVillagers_spec id s o hs fm fp n
                    (planHouses_nonempty x z) O w1) as (w2 & -> & Ha & Hv)
    end.
    eexists. split; [reflexivity|]. split.
    + apply adds_scene_last; [exact Ha | reflexivity].
    + right. apply andb_true_iff in Eg. destruct Eg as [G1 G2].
      apply negb_true_iff in G2.
      split; [exact G1|]. split; [exact G2|].
      eexists. cbn [activeVillages]. split; [rewrite Hv; reflexivity|].
      reflexivity.
  - exists w. split; [reflexivity|]. split; [apply adds_refl|].
    left. auto.
Qed.

(** One chunk: the world after generation is the world before plus the
    chunk's entities and objects, with the chunk entered in the map, laid
    out as the pushes on the shared dummy, the seeded trees and the bush
    give. *)
Lemma generateChunk_spec x z w :
  unitDraws ->
  let id := chunkIdOf x z in
  exists w' w2 c,
    generateChunk x z w = Some w' /\ adds id w w2 /\
    activeChunks w' = set id c (activeChunks w) /\
    activeVillages w' = activeVillages w2 /\
    birds w' = birds w2 /\ villagers w' = villagers w2 /\
    scene w' = scene w2 /\ nextUid w' = nextUid w2 /\ rng w' = rng w2 /\
    ((villageGate x z && negb (has id (activeVillages w)) = false /\
      activeVillages w2 = activeVillages w /\ villagers w2 = villagers w)
     \/
     (villageGate x z = true /\ has id (activeVillages w) = false /\
      exists v, activeVillages w2 = set id v (activeVillages w) /\
                villageLayout v = plannedVillage x z)) /\
    decorations c = snd (decorate x z (matrixDummy w, [])) /\
    List.map treeLayout (trees c) = flatMap (layTree x z) (localTrees x z) /\
    bushes c = placeBushes x z.
Proof.
  intros Hu id. unfold generateChunk. fold id.
  destruct (decorate x z (matrixDummy w, [])) as [dummy pushes] eqn:Ed.
  cbv zeta.
  match goal with
  | |- context [List.fold_left _ (localTrees x z) (Some (?w0, []))] =>
      destruct (plantTrees_spec x z id (localTrees x z) Hu w0 [])
        as (w1 & placed & Hf & A1 & A2 & A3 & A4);
      pose proof (adds_uid id w dummy (rng w)) as A0
  end.
  rewrite Hf.
  destruct (buildVillage_spec x z id w1) as (w2 & Hb & B1 & B2).
  rewrite Hb.
  eexists _, _, _. split; [reflexivity|].
  cbn [activeChunks activeVillages birds villagers scene nextUid rng
       decorations trees bushes].
  split.
  { apply (adds_scene_last id w w2 (nextUid w) (activeVillages w2)).
    - eapply adds_trans; [exact A1 | exact B1].
    - reflexivity. }
  cbn [activeChunks activeVillages birds villagers scene nextUid rng].
  assert (C2 : activeChunks w2 = activeChunks w).
  { destruct B1 as [-> _]. destruct A1 as [-> _]. reflexivity. }
  cbn [activeVillages villagers] in A2, A3.
  rewrite C2.
  repeat (split; [reflexivity|]).
  split.
  { destruct B2 as [(G & V1 & V2) | (G1 & G2 & v & V1 & V2)].
    - left. rewrite A2 in G. split; [exact G|]. split; congruence.
    - right. rewrite A2 in G2. split; [exact G1|]. split; [exact G2|].
      exists v. rewrite V1, A2. auto. }
  split; [reflexivity|]. split; [exact A4 | reflexivity].
Qed.

End GenerationFacts.

(** ** The layout does not depend on the world *)

Section LayoutFacts.
Context {M : JSMath}.
Import World.

Lemma fold_related {A B : Type} (R : A -> A -> Prop) (f : A -> B -> A) :
  (forall a a' b, R a a' -> R (f a b) (f a' b)) ->
  forall bs a a', R a a' -> R (List.fold_left f bs a) (List.fold_left f bs a').
Proof.
  intros Hf bs. induction bs as [|b rest IH]; intros a a' H; cbn; auto.
Qed.

(** The first statements of a cell overwrite all of the dummy. *)
Lemma cellGround_resets x z ij s s' :
  samePushes s s' -> cellGround x z ij s = cellGround x z ij s'.
Proof.
  unfold samePushes. destruct s as [d out], s' as [d' out'], ij as [i j].
  cbn [snd]. intros <-. reflexivity.
Qed.

Lemma cell_resets noise x z s s' ij :
  samePushes s s' -> cell noise x z s ij = cell noise x z s' ij.
Proof.
  intro H. unfold cell. destruct ij as [i j].
  rewrite (cellGround_resets x z (i, j) s s' H). reflexivity.
Qed.

Lemma blade_pushes p a b c s s' k :
  samePushes s s' -> samePushes (blade p a b c s k) (blade p a b c s' k).
Proof.
  unfold samePushes. destruct s as [d out], s' as [d' out'].
  cbn [snd]. intros <-. reflexivity.
Qed.

Lemma tuft_pushes x z t s s' k :
  samePushes s s' -> samePushes (tuft x z t s k) (tuft x z t s' k).
Proof.
  intro H. unfold tuft, blades. cbv zeta.
  apply fold_related; auto. intros. apply blade_pushes. assumption.
Qed.

(** The pushes of a chunk do not depend on what an earlier generation
    left in the shared dummy. *)
Lemma decorate_pushes x z d d' :
  snd (decorate x z (d, [])) = snd (decorate x z (d', [])).
Proof.
  unfold decorate. cbv zeta.
  change (samePushes
            (List.fold_left (fun st t => treeGrass x z t st) (localTrees x z)
               (List.fold_left (cell floraNoise x z) cellIndices (d, [])))
            (List.fold_left (fun st t => treeGrass x z t st) (localTrees x z)
               (List.fold_left (cell floraNoise x z) cellIndices (d', [])))).
  apply fold_related.
  - intros a a' t H. unfold treeGrass. apply fold_related; auto.
    intros. apply tuft_pushes. assumption.
  - apply fold_related.
    + intros a a' ij H. rewrite (cell_resets floraNoise x z a a' ij H).
      reflexivity.
    + reflexivity.
Qed.

(** The chunk seed is the fixed integer formula of the coordinate. *)
Lemma chunkSeed_formula x z :
  chunkSeed x z = inject_Z (x * 1839 + z * 3847).
Proof.
  unfold chunkSeed, inject_Z, Qplus, Qmult. cbn [Qnum Qden].
  f_equal. lia.
Qed.

(** The layout [generateChunk] gives a chunk that has no village latched
    is [chunkLayout] of its coordinate, whatever the world. *)
Lemma generateChunk_layout x z w :
  unitDraws ->
  has (chunkIdOf x z) (activeChunks w) = false ->
  has (chunkIdOf x z) (activeVillages w) = false ->
  exists w', generateChunk x z w = Some w' /\
             layoutAt w' x z = Some (chunkLayout x z).
Proof.
  intros Hu Hc Hv.
  destruct (generateChunk_spec x z w Hu)
    as (w' & w2 & c & Hg & _ & C1 & C2 & _ & _ & _ & _ & _ & Hvil & D1 & D2 & D3).
  exists w'. split; [exact Hg|].
  unfold layoutAt. rewrite C1, get_set_eq by exact Hc.
  f_equal. unfold layoutOf, chunkLayout. rewrite D1, D2, D3.
  rewrite (decorate_pushes x z (matrixDummy w) pristineDummy).
  f_equal. rewrite C2.
  destruct Hvil as [(G & V1 & _) | (G1 & _ & v & V1 & V2)].
  - rewrite Hv in G. cbn [negb] in G. rewrite andb_true_r in G.
    rewrite G, V1.
    assert (E : get (chunkIdOf x z) (activeVillages w) = None)
      by (apply get_none; exact Hv).
    rewrite E. reflexivity.
  - rewrite G1, V1, get_set_eq by exact Hv.
    cbn [option_map]. unfold villageLayout in V2. rewrite V2. reflexivity.
Qed.

End LayoutFacts.

(** ** The invariant of the streamed world *)

Section InvariantFacts.
Context {M : JSMath}.
Import World.

Lemma layoutAt_active w x z l :
  layoutAt w x z = Some l -> has (chunkIdOf x z) (activeChunks w) = true.
Proof.
  unfold layoutAt. intro H. apply get_has.
  destruct (get (chunkIdOf x z) (activeChunks w)) as [c|];
    [eauto | discriminate].
Qed.

Lemma invariant_empty g : invariant (empty g).
Proof.
  unfold invariant, tracked, sceneSound, laidOut, empty, layoutAt.
  cbn [birds villagers activeVillages activeChunks scene nextUid].
  repeat split; try (intros; contradiction); try discriminate.
  constructor.
Qed.

Lemma layoutAt_other w w' x z :
  get (chunkIdOf x z) (activeChunks w') = get (chunkIdOf x z) (activeChunks w) ->
  get (chunkIdOf x z) (activeVillages w')
  = get (chunkIdOf x z) (activeVillages w) ->
  layoutAt w' x z = layoutAt w x z.
Proof. intros H1 H2. unfold layoutAt. rewrite H1, H2. reflexivity. Qed.

(** Generating a chunk that is not active keeps the invariant, keeps what
    was there, and makes the chunk active. *)
Lemma generateChunk_invariant x z w :
  unitDraws -> invariant w ->
  has (chunkIdOf x z) (activeChunks w) = false ->
  exists w',
    generateChunk x z w = Some w' /\ invariant w' /\
    (forall k, has k (activeChunks w')
               = String.eqb (chunkIdOf x z) k || has k (activeChunks w)) /\
    (forall e, In e (birds w) -> In e (birds w')) /\
    (forall e, In e (villagers w) -> In e (villagers w')).
Proof.
  intros Hu (Ht & Hs & Hl) Hc.
  destruct Ht as (T1 & T2 & T3). destruct Hs as (S1 & S2).
  set (id := chunkIdOf x z) in *.
  assert (Hv : has id (activeVillages w) = false).
  { destruct (has id (activeVillages w)) eqn:E; auto.
    apply T3 in E. congruence. }
  destruct (generateChunk_layout x z w Hu Hc Hv) as (w' & Hg & Hlay).
  destruct (generateChunk_spec x z w Hu)
    as (w'' & w2 & c & Hg' & Ha & C1 & C2 & C3 & C4 & C5 & C6 & _ & Hvil & _).
  fold id in Hg', Ha, C1, Hvil.
  rewrite Hg in Hg'. injection Hg' as <-.
  destruct Ha as (_ & (bs & B1 & B2) & (vs & V1 & V2)
                  & (ns & N1 & N2 & N3) & U).
  exists w'. split; [exact Hg|].
  assert (Hk : forall k, has k (activeChunks w')
                         = String.eqb id k || has k (activeChunks w)).
  { intro k. rewrite C1. apply has_set. }
  assert (Hvk : forall k, has k (activeVillages w) = true ->
                          has k (activeVillages w') = true).
  { intros k H. rewrite C2.
    destruct Hvil as [(_ & E & _) | (_ & _ & v & E & _)]; rewrite E; auto.
    rewrite has_set, H. apply orb_true_r. }
  split; [|split; [exact Hk|split]].
  - split; [|split].
    + (* tracked *)
      split; [|split].
      * intros u b Hin. rewrite C3, B1 in Hin. rewrite Hk.
        apply in_app_or in Hin. destruct Hin as [Hin|Hin].
        -- rewrite (T1 u b Hin). apply orb_true_r.
        -- rewrite (B2 u b Hin), String.eqb_refl. reflexivity.
      * intros u v Hin. rewrite C4, V1 in Hin.
        apply in_app_or in Hin. destruct Hin as [Hin|Hin].
        -- apply Hvk. eapply T2; eauto.
        -- rewrite C2.
           destruct Hvil as [(_ & _ & E) | (_ & _ & v0 & E & _)].
           ++ rewrite V1 in E.
              assert (vs = []).
              { apply (app_inv_head (villagers w)).
                rewrite app_nil_r. exact E. }
              subst vs. contradiction.
           ++ rewrite E, has_set, (V2 u v Hin), String.eqb_refl.
              reflexivity.
      * intros k H. rewrite Hk. rewrite C2 in H.
        destruct Hvil as [(_ & E & _) | (_ & _ & v0 & E & _)];
          rewrite E in H.
        -- rewrite (T3 k H). apply orb_true_r.
        -- rewrite has_set in H. apply orb_true_iff in H.
           destruct H as [H|H]; [rewrite H; reflexivity|].
           rewrite (T3 k H). apply orb_true_r.
    + (* sceneSound *)
      split.
      * rewrite C5, N1.
        apply NoDup_app_ranges with (lo := nextUid w); auto.
        intros u Hin. apply N3 in Hin. lia.
      * intros u Hin. rewrite C5, N1 in Hin. rewrite C6.
        apply in_app_or in Hin. destruct Hin as [Hin|Hin].
        -- apply S2 in Hin. lia.
        -- apply N3 in Hin. lia.
    + (* laidOut *)
      intros x' z' l Hl'.
      destruct (String.eqb_spec (chunkIdOf x' z') id) as [E|E].
      * apply chunkIdOf_inj in E. destruct E as [-> ->].
        rewrite Hlay in Hl'. injection Hl' as <-. reflexivity.
      * apply (Hl x' z'). rewrite <- Hl'. symmetry.
        apply layoutAt_other.
        -- rewrite C1. apply get_set_ne. exact E.
        -- rewrite C2.
           destruct Hvil as [(_ & E' & _) | (_ & _ & v0 & E' & _)];
             rewrite E'; [reflexivity | apply get_set_ne; exact E].
  - intros e Hin. rewrite C3, B1. apply in_or_app. left. exact Hin.
  - intros e Hin. rewrite C4, V1. apply in_or_app. left. exact Hin.
Qed.

(** The generation loops: every coordinate visited ends up active. *)
Lemma generation_invariant coords :
  unitDraws ->
  forall w,
    invariant w ->
    exists w1,
      List.fold_left generateIfMissing coords (Some w) = Some w1 /\
      invariant w1 /\
      (forall k, has k (activeChunks w) = true ->
                 has k (activeChunks w1) = true) /\
      (forall k, has k (activeChunks w1) = true ->
                 has k (activeChunks w) = true \/
                 exists x z, In (x, z) coords /\ k = chunkIdOf x z) /\
      (forall x z, In (x, z) coords ->
                   has (chunkIdOf x z) (activeChunks w1) = true) /\
      (forall e, In e (birds w) -> In e (birds w1)) /\
      (forall e, In e (villagers w) -> In e (villagers w1)).
Proof.
  intro Hu. induction coords as [|[x z] rest IH]; intros w Hi.
  - exists w. cbn [List.fold_left]. split; [reflexivity|].
    split; [exact Hi|]. repeat split; auto; try contradiction.
  - cbn [List.fold_left generateIfMissing fst snd].
    destruct (has (chunkIdOf x z) (activeChunks w)) eqn:Ec; cbn [negb].
    + destruct (IH w Hi) as (w1 & F & I1 & K1 & K2 & K3 & B & V).
      exists w1. split; [exact F|]. split; [exact I1|].
      split; [exact K1|]. split; [|split; [|split; assumption]].
      * intros k H. destruct (K2 k H) as [H'|(x' & z' & Hin & ->)]; auto.
        right. exists x', z'. split; [right; exact Hin | reflexivity].
      * intros x' z' [E|Hin]; [|apply K3; exact Hin].
        injection E as <- <-. apply K1. exact Ec.
    + destruct (generateChunk_invariant x z w Hu Hi Ec)
        as (w0 & G & I0 & K0 & B0 & V0).
      rewrite G.
      destruct (IH w0 I0) as (w1 & F & I1 & K1 & K2 & K3 & B & V).
      exists w1. split; [exact F|]. split; [exact I1|].
      split; [|split; [|split; [|split]]].
      * intros k H. apply K1. rewrite K0, H. apply orb_true_r.
      * intros k H. destruct (K2 k H) as [H'|(x' & z' & Hin & ->)].
        -- rewrite K0 in H'. apply orb_true_iff in H'.
           destruct H' as [H'|H']; [|left; exact H'].
           apply String.eqb_eq in H'. subst k.
           right. exists x, z. split; [left; reflexivity | reflexivity].
        -- right. exists x', z'. split; [right; exact Hin | reflexivity].
      * intros x' z' [E|Hin]; [|apply K3; exact Hin].
        injection E as <- <-. apply K1. rewrite K0, String.eqb_refl.
        reflexivity.
      * intros e Hin. apply B, B0, Hin.
      * intros e Hin. apply V, V0, Hin.
Qed.

End InvariantFacts.

(** ** Teardown *)

Section TeardownFacts.
Context {M : JSMath}.
Import World.

Lemma far_chunkIdOf cx cz x z :
  far cx cz (chunkIdOf x z) = true <-> outside cx cz x z.
Proof.
  unfold far, outside. rewrite parseChunkId_chunkIdOf. unfold beyond.
  rewrite orb_true_iff, !Z.gtb_gt. reflexivity.
Qed.

(** What the callback does to an entry that is beyond the render
    distance. *)
Lemma teardown_far cx cz w id c :
  far cx cz id = true ->
  let w' := teardown cx cz w (id, c) in
  activeChunks w' = delete id (activeChunks w) /\
  activeVillages w' = delete id (activeVillages w) /\
  birds w'
  = List.filter (fun e => negb (String.eqb (Bird.chunkId (snd e)) id))
                (birds w) /\
  (has id (activeVillages w) = true ->
   villagers w'
   = List.filter (fun e => negb (String.eqb (Villager.chunkId (snd e)) id))
                 (villagers w)) /\
  (has id (activeVillages w) = false -> villagers w' = villagers w) /\
  incl (scene w') (scene w) /\
  (NoDup (scene w) -> NoDup (scene w')) /\
  (NoDup (scene w) -> forall u b, In (u, b) (birds w) ->
     Bird.chunkId b = id -> ~ In u (scene w')) /\
  (NoDup (scene w) -> has id (activeVillages w) = true ->
   forall u v, In (u, v) (villagers w) ->
     Villager.chunkId v = id -> ~ In u (scene w')) /\
  nextUid w' = nextUid w.
Proof.
  intro Hf. cbv zeta. unfold teardown. rewrite Hf.
  destruct (get id (activeVillages w)) as [village|] eqn:Eg.
  - assert (Hh : has id (activeVillages w) = true)
      by (apply get_has; eauto).
    pose proof (dropEntities_list Villager.chunkId id (villagers w)
                  (sceneRemove (villageUid village) (scene w))) as L1.
    destruct (dropEntities_scene Villager.chunkId id (villagers w)
                (sceneRemove (villageUid village) (scene w)))
      as (I1 & I2 & I3).
    destruct (dropEntities Villager.chunkId id (villagers w)
                (sceneRemove (villageUid village) (scene w)))
      as [vs sc1].
    cbn [fst snd] in L1, I1, I2, I3.
    cbn [birds scene activeChunks activeVillages villagers].
    pose proof (dropEntities_list Bird.chunkId id (birds w) sc1) as L2.
    destruct (dropEntities_scene Bird.chunkId id (birds w) sc1)
      as (J1 & J2 & J3).
    destruct (dropEntities Bird.chunkId id (birds w) sc1) as [bs sc2].
    cbn [fst snd] in L2, J1, J2, J3.
    cbn [birds scene activeChunks activeVillages villagers nextUid].
    assert (K1 : incl sc1 (scene w)).
    { eapply incl_tran; [exact I1 | apply sceneRemove_incl]. }
    assert (K2 : NoDup (scene w) -> NoDup sc1).
    { intro H. apply I2, sceneRemove_NoDup, H. }
    split; [reflexivity|]. split; [reflexivity|]. split; [exact L2|].
    split; [intros _; exact L1|]. split; [congruence|].
    split.
    { eapply incl_tran; [apply sceneRemove_incl|].
      eapply incl_tran; [exact J1 | exact K1]. }
    split; [intro H; apply sceneRemove_NoDup; auto|].
    split.
    { intros H u b Hb Hid C. apply sceneRemove_incl in C.
      exact (J3 (K2 H) u b Hb Hid C). }
    split; [|reflexivity].
    intros H _ u v Hv Hid C. apply sceneRemove_incl in C. apply J1 in C.
    exact (I3 (sceneRemove_NoDup _ _ H) u v Hv Hid C).
  - assert (Hh : has id (activeVillages w) = false)
      by (apply get_none; exact Eg).
    pose proof (dropEntities_list Bird.chunkId id (birds w) (scene w)) as L2.
    destruct (dropEntities_scene Bird.chunkId id (birds w) (scene w))
      as (J1 & J2 & J3).
    destruct (dropEntities Bird.chunkId id (birds w) (scene w)) as [bs sc2].
    cbn [fst snd] in L2, J1, J2, J3.
    cbn [birds scene activeChunks activeVillages villagers nextUid].
    split; [reflexivity|].
    split; [symmetry; apply delete_absent; exact Hh|].
    split; [exact L2|].
    split; [congruence|]. split; [reflexivity|].
    split; [eapply incl_tran; [apply sceneRemove_incl | exact J1]|].
    split; [intro H; apply sceneRemove_NoDup; auto|].
    split.
    { intros H u b Hb Hid C. apply sceneRemove_incl in C.
      exact (J3 H u b Hb Hid C). }
    split; [congruence | reflexivity].
Qed.

Lemma teardown_near cx cz w id c :
  far cx cz id = false -> teardown cx cz w (id, c) = w.
Proof. intro Hf. unfold teardown. rewrite Hf. reflexivity. Qed.

Lemma teardown_invariant cx cz w e :
  invariant w -> invariant (teardown cx cz w e).
Proof.
  destruct e as [id c].
  destruct (far cx cz id) eqn:Hf; [|rewrite teardown_near; auto].
  intros ((T1 & T2 & T3) & (S1 & S2) & Hl).
  destruct (teardown_far cx cz w id c Hf)
    as (C1 & C2 & C3 & C4 & C5 & C6 & C7 & _ & _ & C10).
  set (w' := teardown cx cz w (id, c)) in *.
  split; [|split].
  - split; [|split].
    + intros u b Hin. rewrite C3 in Hin. apply List.filter_In in Hin.
      destruct Hin as [Hin Hne]. cbn [snd] in Hne.
      rewrite C1, has_delete, (T1 u b Hin), Hne. reflexivity.
    + intros u v Hin. rewrite C2, has_delete.
      destruct (has id (activeVillages w)) eqn:Hh.
      * rewrite (C4 eq_refl) in Hin. apply List.filter_In in Hin.
        destruct Hin as [Hin Hne]. cbn [snd] in Hne.
        rewrite (T2 u v Hin), Hne. reflexivity.
      * rewrite (C5 eq_refl) in Hin. rewrite (T2 u v Hin). cbn [andb].
        destruct (String.eqb_spec (Villager.chunkId v) id) as [E|E]; auto.
        rewrite <- E, (T2 u v Hin) in Hh. discriminate.
    + intros k H. rewrite C2, has_delete in H. rewrite C1, has_delete.
      apply andb_true_iff in H. destruct H as [H1 H2].
      rewrite (T3 k H1), H2. reflexivity.
  - split; [auto|]. intros u Hin. rewrite C10. apply S2, C6, Hin.
  - intros x z l Hl'. apply (Hl x z). rewrite <- Hl'. symmetry.
    unfold layoutAt in Hl'. rewrite C1 in Hl'.
    destruct (String.eqb_spec (chunkIdOf x z) id) as [E|E].
    + rewrite E, get_delete_eq in Hl'. discriminate.
    + apply layoutAt_other.
      * rewrite C1. apply get_delete_ne. exact E.
      * rewrite C2. apply get_delete_ne. exact E.
Qed.

Lemma teardown_shrinks cx cz w e :
  (forall k, has k (activeChunks (teardown cx cz w e)) = true ->
             has k (activeChunks w) = true) /\
  incl (scene (teardown cx cz w e)) (scene w) /\
  (forall k, far cx cz k = false -> has k (activeChunks w) = true ->
             has k (activeChunks (teardown cx cz w e)) = true) /\
  (forall u b, In (u, b) (birds w) -> Bird.chunkId b <> fst e ->
               In (u, b) (birds (teardown cx cz w e))) /\
  (forall u v, In (u, v) (villagers w) -> Villager.chunkId v <> fst e ->
               In (u, v) (villagers (teardown cx cz w e))).
Proof.
  destruct e as [id c]. cbn [fst].
  destruct (far cx cz id) eqn:Hf.
  - destruct (teardown_far cx cz w id c Hf)
      as (C1 & C2 & C3 & C4 & C5 & C6 & _).
    split; [|split; [exact C6|split; [|split]]].
    + intros k H. rewrite C1, has_delete in H.
      apply andb_true_iff in H. tauto.
    + intros k Hk H. rewrite C1, has_delete, H. cbn [andb].
      destruct (String.eqb_spec k id); [subst; congruence | reflexivity].
    + intros u b Hin Hne. rewrite C3. apply List.filter_In.
      split; [exact Hin|]. cbn [snd].
      destruct (String.eqb_spec (Bird.chunkId b) id); [contradiction|].
      reflexivity.
    + intros u v Hin Hne.
      destruct (has id (activeVillages w)) eqn:Hh.
      * rewrite (C4 eq_refl). apply List.filter_In.
        split; [exact Hin|]. cbn [snd].
        destruct (String.eqb_spec (Villager.chunkId v) id); [contradiction|].
        reflexivity.
      * rewrite (C5 eq_refl). exact Hin.
  - rewrite teardown_near by exact Hf.
    repeat split; auto. apply incl_refl.
Qed.

(** The teardown loop over any list of entries. *)
Lemma teardown_loop cx cz entries :
  forall w,
    invariant w ->
    let wf := List.fold_left (teardown cx cz) entries w in
    invariant wf /\
    (forall k, has k (activeChunks wf) = true ->
               has k (activeChunks w) = true) /\
    incl (scene wf) (scene w) /\
    (forall k, far cx cz k = false -> has k (activeChunks w) = true ->
               has k (activeChunks wf) = true) /\
    (forall id c, In (id, c) entries -> far cx cz id = true ->
       has id (activeChunks wf) = false /\
       (forall u b, In (u, b) (birds w) -> Bird.chunkId b = id ->
                    ~ In u (scene wf)) /\
       (forall u v, In (u, v) (villagers w) -> Villager.chunkId v = id ->
                    ~ In u (scene wf))).
Proof.
  induction entries as [|[k c0] rest IH]; intros w Hi; cbv zeta;
    cbn [List.fold_left].
  - split; [exact Hi|]. split; [auto|]. split; [apply incl_refl|].
    split; [auto|]. intros ? ? [].
  - pose proof (teardown_invariant cx cz w (k, c0) Hi) as Hi1.
    destruct (teardown_shrinks cx cz w (k, c0)) as (D1 & D2 & D3 & D4 & D5).
    cbn [fst] in D4, D5.
    set (w1 := teardown cx cz w (k, c0)) in *.
    destruct (IH w1 Hi1) as (I1 & I2 & I3 & I4 & I5).
    cbv zeta in I1, I2, I3, I4, I5.
    set (wf := List.fold_left (teardown cx cz) rest w1) in *.
    split; [exact I1|].
    split; [intros k' H; apply D1, I2, H|].
    split; [eapply incl_tran; [exact I3 | exact D2]|].
    split; [intros k' Hk H; apply I4; auto|].
    intros id c Hin Hf.
    assert (Hgone : has id (activeChunks wf) = false).
    { destruct Hin as [E|Hin].
      - injection E as -> ->.
        destruct (has id (activeChunks wf)) eqn:E; auto.
        apply I2 in E. unfold w1 in E.
        destruct (teardown_far cx cz w id c Hf) as (C1 & _).
        cbv zeta in C1. rewrite C1, has_delete, String.eqb_refl in E.
        cbn [negb] in E. rewrite andb_false_r in E. discriminate.
      - destruct (I5 id c Hin Hf) as [H _]. exact H. }
    split; [exact Hgone|].
    destruct Hi as ((T1 & T2 & T3) & (S1 & S2) & Hl).
    split.
    + intros u b Hb Hid.
      destruct (String.eqb_spec id k) as [E|E].
      * subst k. intro C. apply I3 in C.
        destruct (teardown_far cx cz w id c0 Hf)
          as (_ & _ & _ & _ & _ & _ & _ & C8 & _).
        exact (C8 S1 u b Hb Hid C).
      * destruct Hin as [E'|Hin]; [injection E' as -> ->; congruence|].
        destruct (I5 id c Hin Hf) as (_ & B & _).
        apply (B u b); auto. apply D4; auto. congruence.
    + intros u v Hv Hid.
      destruct (String.eqb_spec id k) as [E|E].
      * subst k. intro C. apply I3 in C.
        destruct (teardown_far cx cz w id c0 Hf)
          as (_ & _ & _ & _ & _ & _ & _ & _ & C9 & _).
        assert (Hh : has id (activeVillages w) = true).
        { rewrite <- Hid. eapply T2; eauto. }
        exact (C9 S1 Hh u v Hv Hid C).
      * destruct Hin as [E'|Hin]; [injection E' as -> ->; congruence|].
        destruct (I5 id c Hin Hf) as (_ & _ & V).
        apply (V u v); auto. apply D5; auto. congruence.
Qed.

End TeardownFacts.

(** ** The entity loops keep every entity with its chunk *)

Section EntityFacts.
Context {M : JSMath}.

Lemma startReturning_spec g b :
  unitDraws ->
  exists b' g', Bird.startReturning g b = (Some b', g') /\
                Bird.chunkId b' = Bird.chunkId b.
Proof.
  intro Hu. unfold Bird.startReturning.
  destruct (Bird.stateTimer b <=? 0); [|eauto].
  cbv zeta. destruct (negb (Bird.hasNest b)); [|eauto].
  destruct (findNewLandingSpot_total (Bird.homeTree b) g Hu) as (p & g' & ->).
  eauto.
Qed.

Lemma sitting_chunk g b :
  Bird.chunkId (fst (Bird.sitting g b)) = Bird.chunkId b.
Proof.
  unfold Bird.sitting, Bird.startCircling, random. cbv zeta.
  repeat match goal with
  | |- context [if ?c then _ else _] => destruct c
  end; reflexivity.
Qed.

Lemma exploring_spec e others g b :
  unitDraws ->
  exists b' g', Bird.exploring e others g b = (Some b', g') /\
                Bird.chunkId b' = Bird.chunkId b.
Proof.
  intro Hu. unfold Bird.exploring. cbv zeta.
  match goal with
  | |- context [let '(_, _) := ?x in _] => destruct x as [vel1 g1]
  end.
  match goal with
  | |- context [let '(_, _) := ?x in _] => destruct x as [vel2 g2]
  end.
  match goal with
  | |- context [Bird.startReturning g2 ?b1] =>
      destruct (startReturning_spec g2 b1 Hu) as (b' & g' & -> & Hc)
  end.
  exists b', g'. split; [reflexivity|]. rewrite Hc. reflexivity.
Qed.

Lemma flying_spec e others g b :
  unitDraws ->
  exists b' g', Bird.flying e others g b = (Some b', g') /\
                Bird.chunkId b' = Bird.chunkId b.
Proof.
  intro Hu. unfold Bird.flying.
  destruct (Bird.flightMode b).
  - eauto.
  - cbv zeta.
    match goal with
    | |- context [Bird.startReturning g ?b1] =>
        destruct (startReturning_spec g b1 Hu) as (b' & g' & -> & Hc)
    end.
    exists b', g'. split; [reflexivity|]. rewrite Hc. reflexivity.
  - apply exploring_spec, Hu.
  - destruct (Bird.swoopPhase b); cbv zeta.
    + destruct (_ <? _); eexists _, _; split; reflexivity.
    + destruct (_ <? _).
      * unfold Bird.startCircling, random. cbv beta iota zeta.
        eexists _, _. split; reflexivity.
      * eexists _, _. split; reflexivity.
  - cbv zeta. unfold random.
    destruct (_ >? _); destruct (_ <? _); cbv beta iota zeta;
      eexists _, _; split; reflexivity.
Qed.

Lemma bird_advance_spec e others g b :
  unitDraws ->
  exists b' g', Bird.advance e others g b = (Some b', g') /\
                Bird.chunkId b' = Bird.chunkId b.
Proof.
  intro Hu. unfold Bird.advance. cbv zeta.
  set (b0 := Bird.setTimer _ b).
  destruct (Bird.state b0).
  - pose proof (sitting_chunk g b0) as H.
    destruct (Bird.sitting g b0) as [b1 g1]. cbn [fst] in H.
    exists b1, g1. split; [reflexivity | exact H].
  - destruct (flying_spec e others g b0 Hu) as (b' & g' & -> & Hc).
    exists b', g'. split; [reflexivity | exact Hc].
Qed.

(** The whole loop: same number of birds, each with its chunk id. *)
Lemma bird_advanceFrom_spec e :
  unitDraws ->
  forall todo done g,
    exists bs g',
      Bird.advanceFrom e g done todo = (Some (List.rev done ++ bs), g') /\
      List.map Bird.chunkId bs = List.map Bird.chunkId todo.
Proof.
  intro Hu. induction todo as [|b rest IH]; intros done g.
  - exists [], g. cbn [Bird.advanceFrom]. rewrite app_nil_r. auto.
  - cbn [Bird.advanceFrom].
    destruct (bird_advance_spec e (List.rev done ++ rest) g b Hu)
      as (b' & g' & -> & Hc).
    destruct (IH (b' :: done) g') as (bs & g'' & -> & Hm).
    exists (b' :: bs), g''. cbn [List.rev List.map].
    rewrite <- app_assoc. cbn [app]. split; [reflexivity|].
    rewrite Hc, Hm. reflexivity.
Qed.

Lemma bird_advanceAll_spec e g bs :
  unitDraws ->
  exists bs' g',
    Bird.advanceAll e g bs = (Some bs', g') /\
    List.map Bird.chunkId bs' = List.map Bird.chunkId bs.
Proof.
  intro Hu. unfold Bird.advanceAll.
  destruct (bird_advanceFrom_spec e Hu bs [] g) as (bs' & g' & H & Hm).
  exists bs', g'. cbn [List.rev app] in H. auto.
Qed.

Lemma villager_advanceAll_spec e g vs :
  List.map Villager.chunkId (fst (Villager.advanceAll e g vs))
  = List.map Villager.chunkId vs.
Proof.
  revert g. induction vs as [|v rest IH]; intro g;
    cbn [Villager.advanceAll]; [reflexivity|].
  destruct (advance_body e g v) as (_ & _ & Hc & _).
  assert (Hg : Villager.chunkId (Villager.grounded e v) = Villager.chunkId v).
  { unfold Villager.grounded, Villager.physics. cbv zeta.
    destruct (negb _); [destruct (_ <? _)|]; reflexivity. }
  destruct (Villager.advance e g v) as [v' g']. cbn [fst] in Hc.
  specialize (IH g').
  destruct (Villager.advanceAll e g' rest) as [rest' g'']. cbn [fst] in *.
  cbn [List.map]. rewrite IH, Hc, Hg. reflexivity.
Qed.

(** Pairing the uids back onto advanced entities. *)
Lemma combine_tracked {A : Type} (f : A -> string) (es : list (nat * A))
      (es' : list A) :
  List.map f es' = List.map f (List.map snd es) ->
  forall u a', In (u, a') (List.combine (List.map fst es) es') ->
               exists a, In (u, a) es /\ f a' = f a.
Proof.
  revert es'. induction es as [|[u0 a0] rest IH]; intros es' Hm u a' Hin.
  - cbn in Hin. contradiction.
  - destruct es' as [|a1 rest']; [cbn in Hin; contradiction|].
    cbn [List.map fst snd] in Hm. injection Hm as H1 H2.
    cbn [List.map fst List.combine] in Hin. destruct Hin as [E|Hin].
    + injection E as <- <-. exists a0. split; [left; reflexivity | exact H1].
    + destruct (IH rest' H2 u a' Hin) as (a & Ha & Hf).
      exists a. split; [right; exact Ha | exact Hf].
Qed.

End EntityFacts.

(** ** Reconciliation *)

Section StreamingFacts.
Context {M : JSMath}.
Import World.

(** One reconciliation of a world that satisfies the invariant. *)
Lemma updateWorld_spec px pz w :
  unitDraws -> invariant w ->
  let cx := fst (chunkOf px pz) in
  let cz := snd (chunkOf px pz) in
  exists w',
    updateWorld px pz w = Some w' /\ invariant w' /\
    (forall x z,
       has (chunkIdOf x z) (activeChunks w) = true -> outside cx cz x z ->
       has (chunkIdOf x z) (activeChunks w') = false /\
       (forall u b, In (u, b) (birds w) -> Bird.chunkId b = chunkIdOf x z ->
                    ~ In (u, b) (birds w') /\ ~ In u (scene w')) /\
       (forall u v, In (u, v) (villagers w) ->
                    Villager.chunkId v = chunkIdOf x z ->
                    ~ In (u, v) (villagers w') /\ ~ In u (scene w'))) /\
    (forall x z, In (x, z) (window cx cz) ->
                 layoutAt w' x z = Some (chunkLayout x z)).
Proof.
  intros Hu Hi cx cz. unfold updateWorld.
  destruct (chunkOf px pz) as [cx0 cz0] eqn:Ec. cbn [fst snd] in cx, cz.
  subst cx cz.
  destruct (generation_invariant (window cx0 cz0) Hu w Hi)
    as (w1 & F & I1 & K1 & K2 & K3 & B & V).
  rewrite F.
  destruct (teardown_loop cx0 cz0 (activeChunks w1) w1 I1)
    as (J1 & J2 & J3 & J4 & J5).
  cbv zeta in J1, J2, J3, J4, J5.
  set (wf := List.fold_left (teardown cx0 cz0) (activeChunks w1) w1) in *.
  exists wf. split; [reflexivity|]. split; [exact J1|].
  destruct J1 as ((T1 & T2 & T3) & _ & Hl).
  split.
  - intros x z Ha Ho.
    assert (Hf : far cx0 cz0 (chunkIdOf x z) = true)
      by (apply far_chunkIdOf; exact Ho).
    assert (Hin : exists c, In (chunkIdOf x z, c) (activeChunks w1)).
    { apply K1 in Ha. apply has_In in Ha. unfold keys in Ha.
      apply List.in_map_iff in Ha. destruct Ha as [[k c] [E Hin]].
      cbn [fst] in E. subst k. eauto. }
    destruct Hin as [c Hin].
    destruct (J5 (chunkIdOf x z) c Hin Hf) as (G1 & G2 & G3).
    split; [exact G1|]. split.
    + intros u b Hb Hid. split.
      * intro C. apply T1 in C. rewrite Hid in C. congruence.
      * apply (G2 u b); [apply (B (u, b)); exact Hb | exact Hid].
    + intros u v Hv Hid. split.
      * intro C. apply T2 in C. apply T3 in C. rewrite Hid in C. congruence.
      * apply (G3 u v); [apply (V (u, v)); exact Hv | exact Hid].
  - intros x z Hin.
    assert (Hn : far cx0 cz0 (chunkIdOf x z) = false).
    { destruct (far cx0 cz0 (chunkIdOf x z)) eqn:E; auto.
      apply far_chunkIdOf in E. exfalso.
      unfold window, flatMap in Hin. apply List.in_concat in Hin.
      destruct Hin as (l & Hl1 & Hl2).
      apply List.in_map_iff in Hl1. destruct Hl1 as (x' & <- & Hx).
      apply List.in_map_iff in Hl2. destruct Hl2 as (z' & E' & Hz).
      injection E' as -> ->.
      apply List.in_map_iff in Hx. destruct Hx as (i & <- & Hi').
      apply List.in_map_iff in Hz. destruct Hz as (j & <- & Hj').
      apply List.in_seq in Hi'. apply List.in_seq in Hj'.
      unfold outside, RENDER_DISTANCE_IN_CHUNKS in *.
      cbn in Hi', Hj'. lia. }
    assert (Ha : has (chunkIdOf x z) (activeChunks wf) = true).
    { apply J4; auto. }
    apply get_has in Ha. destruct Ha as [c Hc].
    pose proof (Hl x z) as Hl'. unfold layoutAt in *. rewrite Hc in *.
    rewrite <- (Hl' _ eq_refl). reflexivity.
Qed.

End StreamingFacts.

(** ** Frames keep the invariant and never throw *)

Section FrameFacts.
Context {M : JSMath}.
Import World Frame.

Lemma birdBlock_spec delta t g bs :
  unitDraws ->
  exists bs' g',
    birdBlock delta t g bs = (Some bs', g') /\
    forall u b', In (u, b') bs' ->
                 exists b, In (u, b) bs /\ Bird.chunkId b' = Bird.chunkId b.
Proof.
  intro Hu. unfold birdBlock.
  destruct (Clock.birdOpacity t >? 0).
  - destruct (bird_advanceAll_spec {| Bird.delta := delta |} g
                (List.map snd bs) Hu) as (bs' & g' & -> & Hm).
    eexists _, _. split; [reflexivity|].
    apply combine_tracked. exact Hm.
  - exists bs, g. split; [reflexivity|]. intros u b' H. eauto.
Qed.

Lemma villagerBlock_spec e g vs :
  forall u v', In (u, v') (fst (villagerBlock e g vs)) ->
               exists v, In (u, v) vs /\
                         Villager.chunkId v' = Villager.chunkId v.
Proof.
  unfold villagerBlock.
  pose proof (villager_advanceAll_spec e g (List.map snd vs)) as Hm.
  destruct (Villager.advanceAll e g (List.map snd vs)) as [vs' g'].
  cbn [fst] in *. apply combine_tracked. exact Hm.
Qed.

(** The entity loops change no map, no scene and no uid. *)
Lemma entities_invariant w bs vs g :
  invariant w ->
  (forall u b', In (u, b') bs ->
     exists b, In (u, b) (birds w) /\ Bird.chunkId b' = Bird.chunkId b) ->
  (forall u v', In (u, v') vs ->
     exists v, In (u, v) (villagers w) /\
               Villager.chunkId v' = Villager.chunkId v) ->
  invariant
    {| activeChunks := activeChunks w; activeVillages := activeVillages w;
       birds := bs; villagers := vs; scene := scene w;
       matrixDummy := matrixDummy w; rng := g; nextUid := nextUid w |}.
Proof.
  intros ((T1 & T2 & T3) & Hs & Hl) Hb Hv.
  split; [|split].
  - split; [|split]; cbn [birds villagers activeChunks activeVillages].
    + intros u b' Hin. destruct (Hb u b' Hin) as (b & Hin' & ->). eauto.
    + intros u v' Hin. destruct (Hv u v' Hin) as (v & Hin' & ->). eauto.
    + exact T3.
  - exact Hs.
  - exact Hl.
Qed.

Lemma animate_spec inp delta s :
  unitDraws -> invariant (world s) ->
  exists s', animate inp delta s = Some s' /\ invariant (world s').
Proof.
  intros Hu Hi. unfold animate. cbv zeta.
  destruct (birdBlock_spec delta
              (Clock.timeOfDay (elapsedTime s + delta))
              (rng (world s)) (birds (world s)) Hu) as (bs & g1 & -> & Hb).
  match goal with
  | |- context [villagerBlock ?e g1 ?vs] =>
      pose proof (villagerBlock_spec e g1 vs) as Hv;
      destruct (villagerBlock e g1 vs) as [vs' g2]
  end.
  cbn [fst] in Hv.
  destruct (playerBlock inp delta g2 _ (player s)) as [[p dust1] g3].
  pose proof (entities_invariant (world s) bs vs' g3 Hi Hb Hv) as Hi1.
  unfold streamGate.
  destruct (chunkOf (vx (Player.position p)) (vz (Player.position p)))
    as [cx cz] eqn:Ec.
  match goal with
  | |- context [if ?c then _ else _] => destruct c
  end.
  - match goal with
    | |- context [updateWorld ?px ?pz ?w1] =>
        destruct (updateWorld_spec px pz w1 Hu Hi1) as (w2 & -> & Hi2 & _)
    end.
    eexists. split; [reflexivity|]. exact Hi2.
  - eexists. split; [reflexivity|]. exact Hi1.
Qed.

Lemma mount_spec g :
  unitDraws -> exists s, mount g = Some s /\ invariant (world s).
Proof.
  intro Hu. unfold mount. cbv zeta.
  match goal with
  | |- context [updateWorld ?px ?pz ?w0] =>
      destruct (updateWorld_spec px pz w0 Hu (invariant_empty g))
        as (w & -> & Hi & _)
  end.
  eexists. split; [reflexivity|]. exact Hi.
Qed.

Lemma reachable_invariant s :
  unitDraws -> reachable s -> invariant (world s).
Proof.
  intros Hu Hr. induction Hr as [g s Hm | s inp delta s' Hr IH Ha].
  - destruct (mount_spec g Hu) as (s0 & E & Hi).
    rewrite Hm in E. injection E as <-. exact Hi.
  - destruct (animate_spec inp delta s Hu IH) as (s0 & E & Hi).
    rewrite Ha in E. injection E as <-. exact Hi.
Qed.


End FrameFacts.

(** ** Sitting birds, frame by frame *)

Section SittingFrames.
Context {M : JSMath}.
Import Bird.




End SittingFrames.



(** ** The streamed world: teardown, determinism, seeds *)

Section WorldClaims.
Context {M : JSMath}.
Import World Frame.

(** C2. In every session the program can reach, and more generally in
    every world that satisfies the streaming invariant, a reconciliation
    returns, and for every active chunk whose coordinate is outside the
    render radius of the player's chunk: the chunk is no longer active
    afterwards, and every bird and every villager that carried its id is
    gone from [birdsRef] / [villagersRef] and from the scene.  Afterwards
    every tracked bird and villager carries the id of an active chunk.
    Frames of reachable sessions return as well, so the invariant holds
    throughout. *)
Theorem chunk_teardown_is_total :
  unitDraws ->
  (forall s, reachable s ->
     invariant (world s) /\
     forall inp delta, exists s', animate inp delta s = Some s') /\
  (forall (w : State) (px pz : Q),
     invariant w ->
     exists w',
       updateWorld px pz w = Some w' /\ invariant w' /\
       (forall x z,
          has (chunkIdOf x z) (activeChunks w) = true ->
          outside (fst (chunkOf px pz)) (snd (chunkOf px pz)) x z ->
          has (chunkIdOf x z) (activeChunks w') = false /\
          (forall u b, In (u, b) (birds w) ->
             Bird.chunkId b = chunkIdOf x z ->
             ~ In (u, b) (birds w') /\ ~ In u (scene w')) /\
          (forall u v, In (u, v) (villagers w) ->
             Villager.chunkId v = chunkIdOf x z ->
             ~ In (u, v) (villagers w') /\ ~ In u (scene w'))) /\
       (forall u b, In (u, b) (birds w') ->
          has (Bird.chunkId b) (activeChunks w') = true) /\
       (forall u v, In (u, v) (villagers w') ->
          has (Villager.chunkId v) (activeChunks w') = true)).
Proof.
  intro Hu. split.
  - intros s Hr. pose proof (reachable_invariant s Hu Hr) as Hi.
    split; [exact Hi|]. intros inp delta.
    destruct (animate_spec inp delta s Hu Hi) as (s' & Ha & _). eauto.
  - intros w px pz Hi.
    destruct (updateWorld_spec px pz w Hu Hi) as (w' & Hw & Hi' & Ht & _).
    exists w'. split; [exact Hw|]. split; [exact Hi'|].
    split; [exact Ht|].
    destruct Hi' as ((T1 & T2 & T3) & _).
    split; [exact T1|]. intros u v Hin. eapply T3, T2, Hin.
Qed.

(** C3. Generating the chunk of a coordinate twice, in any two worlds
    that satisfy the streaming invariant and do not hold the chunk (the
    first time, and again after a teardown), gives the same layout: the
    same pushes to every decoration array, hence the same counts and
    positions, the same trees and bush, and the same village placement.
    The same holds of whole reconciliations: a coordinate inside the
    window of both has the same layout after both. *)
Theorem regeneration_yields_identical_layout :
  unitDraws ->
  forall (x z : Z) (w1 w2 : State),
    invariant w1 -> invariant w2 ->
    (has (chunkIdOf x z) (activeChunks w1) = false ->
     has (chunkIdOf x z) (activeChunks w2) = false ->
     exists w1' w2' l,
       generateChunk x z w1 = Some w1' /\
       generateChunk x z w2 = Some w2' /\
       layoutAt w1' x z = Some l /\ layoutAt w2' x z = Some l /\
       forall k, List.length (layer k (layoutDecorations l))
                 = List.length
                     (layer k (snd (decorate x z (matrixDummy w2, []))))) /\
    (forall px1 pz1 px2 pz2,
       In (x, z) (window (fst (chunkOf px1 pz1)) (snd (chunkOf px1 pz1))) ->
       In (x, z) (window (fst (chunkOf px2 pz2)) (snd (chunkOf px2 pz2))) ->
       exists w1' w2' l,
         updateWorld px1 pz1 w1 = Some w1' /\
         updateWorld px2 pz2 w2 = Some w2' /\
         layoutAt w1' x z = Some l /\ layoutAt w2' x z = Some l).
Proof.
  intros Hu x z w1 w2 Hi1 Hi2. split.
  - intros Hc1 Hc2.
    assert (Hv : forall w, invariant w ->
                   has (chunkIdOf x z) (activeChunks w) = false ->
                   has (chunkIdOf x z) (activeVillages w) = false).
    { intros w ((_ & _ & T3) & _) Hc.
      destruct (has (chunkIdOf x z) (activeVillages w)) eqn:E; auto.
      apply T3 in E. congruence. }
    destruct (generateChunk_layout x z w1 Hu Hc1 (Hv w1 Hi1 Hc1))
      as (w1' & G1 & L1).
    destruct (generateChunk_layout x z w2 Hu Hc2 (Hv w2 Hi2 Hc2))
      as (w2' & G2 & L2).
    exists w1', w2', (chunkLayout x z).
    split; [exact G1|]. split; [exact G2|].
    split; [exact L1|]. split; [exact L2|].
    intro k. unfold chunkLayout. cbn [layoutDecorations].
    rewrite (decorate_pushes x z pristineDummy (matrixDummy w2)).
    reflexivity.
  - intros px1 pz1 px2 pz2 H1 H2.
    destruct (updateWorld_spec px1 pz1 w1 Hu Hi1) as (w1' & U1 & _ & _ & L1).
    destruct (updateWorld_spec px2 pz2 w2 Hu Hi2) as (w2' & U2 & _ & _ & L2).
    exists w1', w2', (chunkLayout x z).
    split; [exact U1|]. split; [exact U2|].
    split; [exact (L1 x z H1)|exact (L2 x z H2)].
Qed.

(** C10. The layout of a chunk is [chunkLayout x z], a function of the
    chunk coordinate with no seed, session or world argument: the chunk
    seed is [x * 1839 + z * 3847], the cell seed is
    [floor(worldX) * 1839 + floor(worldZ) * 3847], the structure gates of
    two coordinates with the same chunk seed agree, generation in any
    world gives that layout, and so does every active chunk of every
    reachable session. *)
Theorem layout_is_a_function_of_the_coordinate :
  unitDraws ->
  (forall x z, chunkSeed x z = inject_Z (x * 1839 + z * 3847)) /\
  (forall worldX worldZ,
     blockSeed worldX worldZ
     = inject_Z (Num.floor worldX * 1839 + Num.floor worldZ * 3847)) /\
  (forall x z x' z',
     (x * 1839 + z * 3847 = x' * 1839 + z' * 3847)%Z ->
     localTrees x z = localTrees x' z' /\
     villageGate x z = villageGate x' z') /\
  (forall (w : State) (x z : Z),
     invariant w ->
     has (chunkIdOf x z) (activeChunks w) = false ->
     exists w', generateChunk x z w = Some w' /\
                layoutAt w' x z = Some (chunkLayout x z)) /\
  (forall s x z l,
     reachable s -> layoutAt (world s) x z = Some l -> l = chunkLayout x z).
Proof.
  intro Hu.
  assert (Hseed : forall x z, chunkSeed x z = inject_Z (x * 1839 + z * 3847))
    by apply chunkSeed_formula.
  split; [exact Hseed|]. split; [|split; [|split]].
  - intros wx wz. unfold blockSeed, inject_Z, Qplus, Qmult.
    cbn [Qnum Qden]. f_equal. lia.
  - intros x z x' z' E. unfold localTrees, villageGate.
    rewrite (Hseed x z), (Hseed x' z'), E. split; reflexivity.
  - intros w x z Hi Hc.
    apply generateChunk_layout; auto.
    destruct Hi as ((_ & _ & T3) & _).
    destruct (has (chunkIdOf x z) (activeVillages w)) eqn:E; auto.
    apply T3 in E. congruence.
  - intros s x z l Hr Hl.
    destruct (reachable_invariant s Hu Hr) as (_ & _ & Hlaid).
    apply (Hlaid x z l Hl).
Qed.

End WorldClaims.

(** ** The chunk-change gate over whole sessions *)

Section GateClaims.
Context {M : JSMath}.
Import World Frame.


End GateClaims.

(** ** Worked sessions *)

(** The first reconciliation at the mount position makes the chunk (0, 0)
    active; a reconciliation with the player at (1000, 1000), in chunk
    (31, 31), removes it. *)
Lemma chunk_teardown_is_total_witness :
  unitDraws (M := Host.fixed 0) /\
  World.invariant (M := Host.fixed 0) (World.empty O) /\
  exists w1 w2,
    World.updateWorld (M := Host.fixed 0) 0 5 (World.empty O) = Some w1 /\
    World.has (World.chunkIdOf 0 0) (World.activeChunks w1) = true /\
    World.updateWorld (M := Host.fixed 0) 1000 1000 w1 = Some w2 /\
    World.has (World.chunkIdOf 0 0) (World.activeChunks w2) = false.
Proof.
  assert (Hu : unitDraws (M := Host.fixed 0)).
  { intro n. split; [discriminate | reflexivity]. }
  pose proof (invariant_empty (M := Host.fixed 0) O) as Hi.
  split; [exact Hu|]. split; [exact Hi|].
  destruct (chunk_teardown_is_total (M := Host.fixed 0) Hu) as [_ H].
  destruct (H (World.empty O) 0 5 Hi) as (w1 & U1 & I1 & _).
  destruct (updateWorld_spec (M := Host.fixed 0) 0 5 (World.empty O)
              Hu Hi) as (w1' & U1' & _ & _ & L1).
  assert (E : w1' = w1) by congruence. subst w1'.
  assert (A : World.has (World.chunkIdOf 0 0) (World.activeChunks w1) = true).
  { assert (Hin : In (0%Z, 0%Z)
                     (World.window (fst (World.chunkOf 0 5))
                                   (snd (World.chunkOf 0 5)))).
    { vm_compute. tauto. }
    exact (layoutAt_active w1 0%Z 0%Z _ (L1 0%Z 0%Z Hin)). }
  destruct (H w1 1000 1000 I1) as (w2 & U2 & _ & T & _).
  exists w1, w2. split; [exact U1|]. split; [exact A|].
  split; [exact U2|].
  apply (T 0%Z 0%Z A). left. vm_compute. reflexivity.
Defined.

(** The chunk (0, 0) generated in two empty worlds whose random sources
    stand at different draws. *)
Lemma regeneration_yields_identical_layout_witness :
  unitDraws (M := Host.fixed 0) /\
  exists w1' w2' l,
    World.generateChunk (M := Host.fixed 0) 0 0 (World.empty 0%nat) = Some w1' /\
    World.generateChunk (M := Host.fixed 0) 0 0 (World.empty 7%nat) = Some w2' /\
    World.layoutAt w1' 0 0 = Some l /\ World.layoutAt w2' 0 0 = Some l.
Proof.
  assert (Hu : unitDraws (M := Host.fixed 0)).
  { intro n. split; [discriminate | reflexivity]. }
  split; [exact Hu|].
  destruct (regeneration_yields_identical_layout (M := Host.fixed 0) Hu
              0%Z 0%Z (World.empty 0%nat) (World.empty 7%nat)
              (invariant_empty 0%nat) (invariant_empty 7%nat))
    as [H _].
  destruct (H eq_refl eq_refl) as (w1' & w2' & l & G1 & G2 & L1 & L2 & _).
  exists w1', w2', l. auto.
Defined.

(** The seed of the chunk (2, 3), and two coordinates with the same seed:
    (3847, 0) and (0, 1839). *)
Lemma layout_is_a_function_of_the_coordinate_witness :
  unitDraws (M := Host.fixed 0) /\
  chunkSeed 2 3 = 15219 /\
  localTrees (M := Host.fixed 0) 3847 0
  = localTrees (M := Host.fixed 0) 0 1839 /\
  exists w',
    World.generateChunk (M := Host.fixed 0) 2 3 (World.empty O) = Some w' /\
    World.layoutAt w' 2 3 = Some (World.chunkLayout (M := Host.fixed 0) 2 3).
Proof.
  assert (Hu : unitDraws (M := Host.fixed 0)).
  { intro n. split; [discriminate | reflexivity]. }
  split; [exact Hu|].
  destruct (layout_is_a_function_of_the_coordinate (M := Host.fixed 0) Hu)
    as (S1 & _ & S3 & S4 & _).
  split; [exact (S1 2%Z 3%Z)|].
  split; [exact (proj1 (S3 3847%Z 0%Z 0%Z 1839%Z eq_refl))|].
  exact (S4 (World.empty O) 2%Z 3%Z (invariant_empty O) eq_refl).
Defined.


(** ** Counted loops: what they visit *)

Section LoopFacts.

Lemma Qceiling_unique (x : Q) (n : Z) :
  inject_Z (n - 1) < x -> x <= inject_Z n -> Qceiling x = n.
Proof.
  intros Hlo Hhi.
  pose proof (Qle_ceiling x) as H1. pose proof (Qceiling_lt x) as H2.
  assert (A : (n - 1 < Qceiling x)%Z).
  { rewrite Zlt_Qlt. eapply Qlt_le_trans; eauto. }
  assert (B : (Qceiling x - 1 < n)%Z).
  { rewrite Zlt_Qlt. eapply Qlt_le_trans; eauto. }
  lia.
Qed.

Lemma Qfloor_unique (x : Q) (n : Z) :
  inject_Z n <= x -> x < inject_Z (n + 1) -> Qfloor x = n.
Proof.
  intros Hlo Hhi.
  pose proof (Qfloor_le x) as H1. pose proof (Qlt_floor x) as H2.
  assert (A : (n < Qfloor x + 1)%Z).
  { rewrite Zlt_Qlt. eapply Qle_lt_trans; eauto. }
  assert (B : (Qfloor x < n + 1)%Z).
  { rewrite Zlt_Qlt. eapply Qle_lt_trans; eauto. }
  lia.
Qed.

Lemma Qceiling_pred (x : Q) : Qceiling (x - 1) = (Qceiling x - 1)%Z.
Proof.
  apply Qceiling_unique.
  - pose proof (Qceiling_lt x) as H.
    unfold Z.sub in *. rewrite !inject_Z_plus in *.
    change (inject_Z (- (1))) with (- (1)) in *. lra.
  - pose proof (Qle_ceiling x) as H.
    unfold Z.sub. rewrite inject_Z_plus.
    change (inject_Z (- (1))) with (- (1)). lra.
Qed.

Lemma Qfloor_pred (x : Q) : Qfloor (x - 1) = (Qfloor x - 1)%Z.
Proof.
  apply Qfloor_unique.
  - pose proof (Qfloor_le x) as H.
    unfold Z.sub. rewrite inject_Z_plus.
    change (inject_Z (- (1))) with (- (1)). lra.
  - pose proof (Qlt_floor x) as H.
    unfold Z.sub in *. rewrite !inject_Z_plus in *.
    change (inject_Z (- (1))) with (- (1)) in *.
    change (inject_Z 1) with 1 in *. lra.
Qed.

Lemma Qceiling_pos (x : Q) : 0 < x -> (1 <= Qceiling x)%Z.
Proof.
  intro H. pose proof (Qle_ceiling x) as H1.
  assert (A : (0 < Qceiling x)%Z).
  { rewrite Zlt_Qlt. eapply Qlt_le_trans; eauto. }
  lia.
Qed.

Lemma Qceiling_nonpos (x : Q) : x <= 0 -> (Qceiling x <= 0)%Z.
Proof.
  intro H. change 0%Z with (Qceiling 0). apply Qceiling_resp_le. exact H.
Qed.

Lemma In_flatMap {A B : Type} (f : A -> list B) (xs : list A) (b : B) :
  In b (flatMap f xs) <-> exists a, In a xs /\ In b (f a).
Proof.
  unfold flatMap. rewrite in_concat. split.
  - intros (l & Hl & Hb). apply in_map_iff in Hl.
    destruct Hl as (a & <- & Ha). eauto.
  - intros (a & Ha & Hb). exists (f a). split; [|exact Hb].
    apply in_map_iff. eauto.
Qed.

(** A [for (v = lo; v < hi; v += 1)] loop visits [lo], [lo + 1], ...
    below [hi], and nothing else. *)
Lemma forFrom_lt_In (hi : Q) (fuel : nat) :
  forall lo v,
    In v (forFrom fuel (fun v => v <? hi) lo) ->
    lo <= v /\ v < hi /\ exists k : nat, v == lo + inject_Z (Z.of_nat k).
Proof.
  induction fuel as [|n IH]; intros lo v Hin; [contradiction|].
  cbn [forFrom] in Hin.
  destruct (lo <? hi) eqn:E; [|contradiction].
  apply NumFacts.ltb_true in E.
  destruct Hin as [<- | Hin].
  - split; [apply Qle_refl|]. split; [exact E|].
    exists O. cbn. ring.
  - destruct (IH _ _ Hin) as (H1 & H2 & k & Hk).
    split; [lra|]. split; [exact H2|].
    exists (S k). rewrite Hk, Nat2Z.inj_succ. unfold Z.succ.
    rewrite inject_Z_plus. cbn [inject_Z]. ring.
Qed.

Lemma forFrom_le_In (hi : Q) (fuel : nat) :
  forall lo v,
    In v (forFrom fuel (fun v => v <=? hi) lo) ->
    lo <= v /\ v <= hi /\ exists k : nat, v == lo + inject_Z (Z.of_nat k).
Proof.
  induction fuel as [|n IH]; intros lo v Hin; [contradiction|].
  cbn [forFrom] in Hin.
  destruct (lo <=? hi) eqn:E; [|contradiction].
  apply NumFacts.leb_true in E.
  destruct Hin as [<- | Hin].
  - split; [apply Qle_refl|]. split; [exact E|].
    exists O. cbn. ring.
  - destruct (IH _ _ Hin) as (H1 & H2 & k & Hk).
    split; [lra|]. split; [exact H2|].
    exists (S k). rewrite Hk, Nat2Z.inj_succ. unfold Z.succ.
    rewrite inject_Z_plus. cbn [inject_Z]. ring.
Qed.

Lemma forLt_In lo hi v :
  In v (forLt lo hi) ->
  lo <= v /\ v < hi /\ exists k : nat, v == lo + inject_Z (Z.of_nat k).
Proof. apply forFrom_lt_In. Qed.

Lemma forLe_In lo hi v :
  In v (forLe lo hi) ->
  lo <= v /\ v <= hi /\ exists k : nat, v == lo + inject_Z (Z.of_nat k).
Proof. apply forFrom_le_In. Qed.

(** The fuel of [forLt] is enough: the loop runs [ceil(hi - lo)] times. *)
Lemma forFrom_lt_length (hi : Q) (fuel : nat) :
  forall lo,
    (Z.to_nat (Qceiling (hi - lo)) <= fuel)%nat ->
    List.length (forFrom fuel (fun v => v <? hi) lo)
    = Z.to_nat (Qceiling (hi - lo)).
Proof.
  induction fuel as [|n IH]; intros lo Hf.
  - cbn [forFrom List.length]. lia.
  - cbn [forFrom].
    destruct (lo <? hi) eqn:E.
    + apply NumFacts.ltb_true in E.
      assert (Hc : (1 <= Qceiling (hi - lo))%Z) by (apply Qceiling_pos; lra).
      assert (Hs : Qceiling (hi - (lo + 1)) = (Qceiling (hi - lo) - 1)%Z).
      { rewrite <- Qceiling_pred. apply Qceiling_comp. ring. }
      cbn [List.length]. rewrite IH by (rewrite Hs; lia).
      rewrite Hs. lia.
    + apply NumFacts.ltb_false in E.
      assert (Hc : (Qceiling (hi - lo) <= 0)%Z)
        by (apply Qceiling_nonpos; lra).
      cbn [List.length]. lia.
Qed.

Lemma forLt_length lo hi :
  List.length (forLt lo hi) = Z.to_nat (Qceiling (hi - lo)).
Proof.
  unfold forLt, loopFuel. apply forFrom_lt_length. lia.
Qed.

(** A loop that starts within its bound runs its body for the start. *)
Lemma forLe_first lo hi :
  lo <= hi -> exists rest, forLe lo hi = lo :: rest.
Proof.
  intro H. unfold forLe, loopFuel. cbn [forFrom].
  apply NumFacts.leb_true in H. rewrite H. eauto.
Qed.

End LoopFacts.

(** ** utils.ts and world.ts: seeded numbers, noise, trees, bushes, houses *)

(** [lra] with the halves of the source written as fractions. *)
Ltac lra_halves :=
  unfold Qdiv in *; change (/ 2) with (1 # 2) in *; lra.

Section FloraFacts.
Context {M : JSMath}.

Lemma nestTwigs_spec n :
  forall g, List.length (fst (nestTwigs n g)) = n /\
            snd (nestTwigs n g) = (g + 5 * n)%nat.
Proof.
  induction n as [|k IH]; intro g.
  - cbn [nestTwigs fst snd List.length]. split; [reflexivity | lia].
  - cbn [nestTwigs]. unfold random. cbv beta iota zeta.
    destruct (IH (S (S (S (S (S g)))))) as [H1 H2].
    destruct (nestTwigs k (S (S (S (S (S g)))))) as [rest g'].
    cbn [fst snd List.length] in *. split; [congruence | lia].
Qed.

(** Where [placeNest] puts a nest, and what it draws. *)
Lemma placeNest_position seed base h leaves g r g' :
  placeNest seed base h leaves g = (Some r, g') ->
  match r with
  | Some n =>
    List.length (twigs n) = 20%nat /\ g' = (g + 100)%nat /\
    exists p, In p leaves /\
              nestPosition n = vec3 (vx p) (vy p + (1 # 2)) (vz p)
  | None => g' = g
  end.
Proof.
  unfold placeNest.
  destruct ((pseudoRandom (seed + 57) <? NEST_CHANCE)
            && (5 <? List.length leaves)%nat).
  - unfold createNest.
    destruct (nestTwigs_spec 20 g) as [H1 H2].
    destruct (nestTwigs 20 g) as [ts g1]. cbn [fst snd] in H1, H2.
    cbv beta iota zeta. cbn [twigs].
    set (suitable := List.filter _ leaves).
    destruct (0 <? List.length suitable)%nat.
    + destruct (at_ suitable _) as [p|] eqn:Ea; [|discriminate].
      intro H. injection H as <- <-. cbn [twigs nestPosition].
      split; [exact H1|]. split; [lia|].
      exists p. split; [|reflexivity].
      unfold at_ in Ea. destruct (_ <? 0)%Z; [discriminate|].
      apply List.nth_error_In in Ea. unfold suitable in Ea.
      apply List.filter_In in Ea. tauto.
    + destruct (at_ leaves _) as [p|] eqn:Ea; [|discriminate].
      intro H. injection H as <- <-. cbn [twigs nestPosition].
      split; [exact H1|]. split; [lia|].
      exists p. split; [|reflexivity].
      unfold at_ in Ea. destruct (_ <? 0)%Z; [discriminate|].
      apply List.nth_error_In in Ea. exact Ea.
  - intro H. injection H as <- <-. reflexivity.
Qed.

Lemma treeLeaves_In seed base ch R p :
  In p (treeLeaves seed base ch R) ->
  base <= vy p /\ vy p < base + ch /\
  - R <= vx p /\ vx p <= R /\ - R <= vz p /\ vz p <= R.
Proof.
  unfold treeLeaves. intro H.
  apply In_flatMap in H. destruct H as (y & Hy & H).
  apply In_flatMap in H. destruct H as (lx & Hx & H).
  apply In_flatMap in H. destruct H as (lz & Hz & H).
  cbv zeta in H.
  destruct (_ && _) in H; [|contradiction].
  destruct H as [<- | []]. cbn [vx vy vz].
  apply forLt_In in Hy. apply forLe_In in Hx. apply forLe_In in Hz.
  tauto.
Qed.

(** X1. For every whole-number seed, which is what every seeded index
    of the program is computed from, [pseudoRandom] returns a number in
    [0, 1); hence the idiom
    [xs[Math.floor(pseudoRandom(s) * xs.length)]] reads an element of a
    non-empty array, never [undefined]. *)
Theorem pseudoRandom_is_a_unit_fraction :
  forall n : Z,
    let seed := inject_Z n in
    0 <= pseudoRandom seed /\ pseudoRandom seed < 1 /\
    forall (A : Type) (xs : list A),
      xs <> [] ->
      exists a,
        at_ xs (Num.floor (pseudoRandom seed
                           * inject_Z (Z.of_nat (List.length xs))))
        = Some a /\ In a xs.
Proof.
  intros n seed. destruct (pseudoRandom_range seed) as [H0 H1].
  split; [exact H0|]. split; [exact H1|].
  intros A xs Hne. apply at_scaled; assumption.
Qed.

Lemma noisePerm_length seed : List.length (noisePerm seed) = 256%nat.
Proof. unfold noisePerm. rewrite List.length_map, List.length_seq. reflexivity. Qed.

Lemma noisePerm_range seed v :
  In v (noisePerm seed) -> (0 <= v <= 255)%Z.
Proof.
  unfold noisePerm. intro H. apply in_map_iff in H.
  destruct H as (i & <- & _).
  destruct (pseudoRandom_range (seed + inject_Z (Z.of_nat i) * (11 # 10)))
    as [R0 R1].
  split.
  - apply floor_nonneg. apply Qmult_le_0_compat; [exact R0 | discriminate].
  - assert (H : (Num.floor (pseudoRandom
                    (seed + inject_Z (Z.of_nat i) * (11 # 10)) * 256) < 256)%Z).
    { apply floor_below. change (inject_Z 256) with 256. lra. }
    lia.
Qed.

Lemma permAt_range (p : list Z) (i : Z) :
  (forall v, In v p -> (0 <= v <= 255)%Z) -> (0 <= permAt p i <= 255)%Z.
Proof.
  intro H. unfold permAt.
  destruct (List.nth_in_or_default (Z.to_nat i) p 0%Z) as [Hin | ->];
    [apply H; exact Hin | lia].
Qed.

Lemma land_255_range (a : Z) : (0 <= Z.land a 255 <= 255)%Z.
Proof.
  change 255%Z with (Z.ones 8). rewrite Z.land_ones by lia.
  pose proof (Z.mod_pos_bound a (2 ^ 8)) as H.
  change (Z.ones 8) with 255%Z. change (2 ^ 8)%Z with 256%Z in *. lia.
Qed.

(** X2. The table of [floraNoise], the one noise function the program
    builds ([createNoise2D(12345)]), has 512 entries, each between 0 and
    255, and every index the noise function reads from it, for any
    arguments, is inside the table: no read gives [undefined]. *)
Theorem noise_reads_stay_inside_the_table :
  forall (x0 y0 : Q),
    let perm := noisePerm 12345 in
    let p := perm ++ perm in
    let X := Z.land (Num.floor x0) 255 in
    let Y := Z.land (Num.floor y0) 255 in
    let inside (i : Z) := (0 <= i < Z.of_nat (List.length p))%Z in
    List.length p = 512%nat /\
    (forall v, In v p -> (0 <= v <= 255)%Z) /\
    inside X /\ inside (X + 1)%Z /\
    inside (permAt p X + Y)%Z /\ inside (permAt p X + Y + 1)%Z /\
    inside (permAt p (X + 1) + Y)%Z /\
    inside (permAt p (X + 1) + Y + 1)%Z /\
    inside (permAt p (permAt p X + Y)) /\
    inside (permAt p (permAt p X + Y + 1)) /\
    inside (permAt p (permAt p (X + 1) + Y)) /\
    inside (permAt p (permAt p (X + 1) + Y + 1)).
Proof.
  intros x0 y0 perm p X Y inside.
  assert (Hlen : List.length p = 512%nat).
  { unfold p, perm. rewrite List.length_app, noisePerm_length. reflexivity. }
  assert (Hval : forall v, In v p -> (0 <= v <= 255)%Z).
  { intros v Hv. unfold p in Hv. apply List.in_app_or in Hv.
    destruct Hv as [Hv | Hv]; exact (noisePerm_range 12345 v Hv). }
  pose proof (land_255_range (Num.floor x0)) as HX.
  pose proof (land_255_range (Num.floor y0)) as HY.
  fold X in HX. fold Y in HY.
  pose proof (fun i => permAt_range p i Hval) as Hp.
  pose proof (Hp X) as P1. pose proof (Hp (X + 1)%Z) as P2.
  pose proof (Hp (permAt p X + Y)%Z) as P3.
  pose proof (Hp (permAt p X + Y + 1)%Z) as P4.
  pose proof (Hp (permAt p (X + 1) + Y)%Z) as P5.
  pose proof (Hp (permAt p (X + 1) + Y + 1)%Z) as P6.
  split; [exact Hlen|]. split; [exact Hval|].
  unfold inside. rewrite Hlen.
  change (Z.of_nat 512%nat) with 512%Z.
  repeat split; lia.
Qed.

(** X3. [findNewLandingSpot] on a tree without leaves returns the tree
    top [(0, height, 0)] and makes no draw; on a tree with leaves it makes
    one draw and returns one of the tree's leaf positions lowered by 0.8,
    its index always being in range. *)
Theorem landing_spot_is_a_lowered_leaf :
  unitDraws ->
  forall (t : Tree) (g : RNG),
    (leafPositions t = [] ->
     findNewLandingSpot t g = (Some (vec3 0 (height t) 0), g)) /\
    (leafPositions t <> [] ->
     exists p,
       In p (leafPositions t) /\
       findNewLandingSpot t g
       = (Some (vec3 (vx p) (vy p - (8 # 10)) (vz p)), S g)).
Proof.
  intros Hu t g. unfold findNewLandingSpot. split.
  - intros ->. reflexivity.
  - intro Hne. destruct (leafPositions t) as [|l ls] eqn:El; [congruence|].
    unfold random. cbv beta iota zeta.
    destruct (Hu g) as [R0 R1].
    destruct (at_scaled (l :: ls) (Math_random g) R0 R1) as (a & Ha & Hin);
      [discriminate|].
    rewrite Ha. exists a. split; [exact Hin | reflexivity].
Qed.

(** X4. Every tree [createTree] returns stands at [(x, 0, z)], has a
    trunk height in [5, 9) and a trunk width in [0.9, 1.3); each of its
    leaf cells lies between 2 below and 3 above the trunk top and within
    3.5 of the trunk on either axis; a nest, if there is one, has 20
    twigs and sits half a unit above one of the tree's leaf cells, and
    only a tree with a nest consumes random draws (100 of them). *)
Theorem tree_shape :
  forall (x z seed : Q) (g : RNG),
    exists t g',
      createTree x z seed g = (Some t, g') /\
      treePosition t = vec3 x 0 z /\
      5 <= height t /\ height t < 9 /\
      9 # 10 <= trunkWidth t /\ trunkWidth t < 13 # 10 /\
      (forall p, In p (leafPositions t) ->
         height t - 2 <= vy p /\ vy p < height t + 3 /\
         Qabs (vx p) < 35 # 10 /\ Qabs (vz p) < 35 # 10) /\
      match nest t with
      | Some n =>
        List.length (twigs n) = 20%nat /\ g' = (g + 100)%nat /\
        exists p, In p (leafPositions t) /\
                  nestPosition n = vec3 (vx p) (vy p + (1 # 2)) (vz p)
      | None => g' = g
      end.
Proof.
  intros x z seed g. unfold createTree. cbv zeta.
  destruct (pseudoRandom_range (seed + 1)) as [A0 A1].
  destruct (pseudoRandom_range (seed + 2)) as [B0 B1].
  destruct (pseudoRandom_range (seed + 3)) as [C0 C1].
  destruct (pseudoRandom_range (seed + 4)) as [D0 D1].
  set (h := 5 + pseudoRandom (seed + 1) * 4) in *.
  set (ch := 3 + pseudoRandom (seed + 3) * 2) in *.
  set (R := 2 + pseudoRandom (seed + 4) * (15 # 10)) in *.
  set (leaves := treeLeaves seed (h - 2) ch R).
  assert (Hleaf : forall p, In p leaves ->
            h - 2 <= vy p /\ vy p < h + 3 /\
            Qabs (vx p) < 35 # 10 /\ Qabs (vz p) < 35 # 10).
  { intros p Hp. apply treeLeaves_In in Hp.
    destruct Hp as (P1 & P2 & P3 & P4 & P5 & P6).
    unfold ch, R in *.
    split; [exact P1|]. split; [lra|].
    split; apply Qabs_Qlt_condition; lra. }
  assert (Hdims : 5 <= h /\ h < 9 /\
                  9 # 10 <= (9 # 10) + pseudoRandom (seed + 2) * (4 # 10) /\
                  (9 # 10) + pseudoRandom (seed + 2) * (4 # 10) < 13 # 10).
  { unfold h. repeat split; lra. }
  destruct Hdims as (E1 & E2 & E3 & E4).
  destruct (0 <? List.length leaves)%nat.
  - destruct (placeNest_spec seed (h - 2) ch leaves g) as (r & g' & Hp & _).
    rewrite Hp. pose proof (placeNest_position _ _ _ _ _ _ _ Hp) as Hn.
    eexists _, _. split; [reflexivity|].
    cbn [treePosition height trunkWidth leafPositions nest].
    split; [reflexivity|]. split; [exact E1|]. split; [exact E2|].
    split; [exact E3|]. split; [exact E4|]. split; [exact Hleaf | exact Hn].
  - eexists _, _. split; [reflexivity|].
    cbn [treePosition height trunkWidth leafPositions nest].
    split; [reflexivity|]. split; [exact E1|]. split; [exact E2|].
    split; [exact E3|]. split; [exact E4|]. split; [exact Hleaf | reflexivity].
Qed.

(** X5. Every bush [createBush] returns stands at [(x, 0.5, z)] and has
    between 5 and 10 leaf blobs, each within 1.25 of the bush on the x
    and z axes and between 0.375 below and 0.875 above it. *)
Theorem bush_shape :
  forall (x z seed : Q),
    let b := createBush x z seed in
    bushPosition b = vec3 x (1 # 2) z /\
    (5 <= List.length (bushLeaves b) <= 10)%nat /\
    forall p, In p (bushLeaves b) ->
      Qabs (vx p) <= 125 # 100 /\ Qabs (vz p) <= 125 # 100 /\
      - (375 # 1000) <= vy p /\ vy p <= 875 # 1000.
Proof.
  intros x z seed. unfold createBush. cbv zeta.
  cbn [bushPosition bushLeaves].
  destruct (pseudoRandom_range seed) as [S0 S1].
  destruct (pseudoRandom_range (seed + 1)) as [T0 T1].
  split; [reflexivity|]. split.
  - rewrite List.length_map, forLt_length.
    set (c := Qceiling (5 + pseudoRandom (seed + 1) * 5 - 0)).
    assert (H5 : (5 <= c)%Z).
    { change 5%Z with (Qceiling 5). apply Qceiling_resp_le. lra. }
    assert (H10 : (c <= 10)%Z).
    { change 10%Z with (Qceiling 10). apply Qceiling_resp_le. lra. }
    lia.
  - intros p Hp. apply in_map_iff in Hp. destruct Hp as (i & <- & _).
    cbn [vx vy vz].
    destruct (pseudoRandom_range (seed + i * 2)) as [a0 a1].
    destruct (pseudoRandom_range (seed + i * 3)) as [b0 b1].
    destruct (pseudoRandom_range (seed + i * 5)) as [c0 c1].
    set (s := pseudoRandom seed) in *.
    set (ra := pseudoRandom (seed + i * 2)) in *.
    set (rb := pseudoRandom (seed + i * 3)) in *.
    set (rc := pseudoRandom (seed + i * 5)) in *.
    split; [apply Qabs_Qle_condition; split; nra|].
    split; [apply Qabs_Qle_condition; split; nra|].
    split; nra.
Qed.

(** X6. A house of [createHouse] is between 5 and 7 wide and 6 and 9
    deep; its wall loops start at [-width/2] and [-depth/2] and step by
    one, so a wall block stands on the line [x = width/2] only if the
    width is a whole number and on the line [z = depth/2] (the door side)
    only if the depth is one: otherwise all wall blocks, at height 2, are
    on the two lines [x = -width/2] and [z = -depth/2].  The corner block
    of those two lines is always there. *)
Theorem house_walls_start_at_the_low_sides :
  forall seed : Q,
    let h := createHouse seed in
    let w := houseWidth h in
    let d := houseDepth h in
    5 <= w /\ w < 7 /\ 6 <= d /\ d < 9 /\
    (exists p, In p (walls h) /\
               vx p == - w / 2 /\ vy p == 2 /\ vz p == - d / 2) /\
    forall p, In p (walls h) ->
      vy p == 2 /\
      (vx p == - w / 2 \/ vz p == - d / 2 \/
       (vx p == w / 2 /\ exists n : Z, w == inject_Z n) \/
       (vz p == d / 2 /\ (exists n : Z, d == inject_Z n) /\
        ~ (- (15 # 10) < vx p /\ vx p < 15 # 10))).
Proof.
  intro seed. unfold createHouse. cbv zeta.
  cbn [houseWidth houseDepth walls].
  destruct (pseudoRandom_range seed) as [S0 S1].
  destruct (pseudoRandom_range (seed + 1)) as [T0 T1].
  set (w := 5 + pseudoRandom seed * 2) in *.
  set (d := 6 + pseudoRandom (seed + 1) * 3) in *.
  assert (Hw : 5 <= w /\ w < 7) by (unfold w; split; lra).
  assert (Hd : 6 <= d /\ d < 9) by (unfold d; split; lra).
  split; [tauto|]. split; [tauto|]. split; [tauto|]. split; [tauto|].
  assert (Hint : forall a b (k : nat),
            a == - b / 2 + inject_Z (Z.of_nat k) -> a == b / 2 ->
            exists n : Z, b == inject_Z n).
  { intros a b k E1 E2. exists (Z.of_nat k).
    set (q := inject_Z (Z.of_nat k)) in *. lra_halves. }
  split.
  - destruct (forLe_first (- w / 2) (w / 2)) as [xs Hxs]; [lra_halves|].
    destruct (forLe_first (- d / 2) (d / 2)) as [zs Hzs]; [lra_halves|].
    exists (vec3 (- w / 2) (4 / 2) (- d / 2)).
    split; [|cbn [vx vy vz]; repeat split; reflexivity].
    apply In_flatMap. exists (- w / 2). split; [rewrite Hxs; left; reflexivity|].
    apply In_flatMap. exists (- d / 2). split; [rewrite Hzs; left; reflexivity|].
    assert (E : Qeq_bool (- w / 2) (- w / 2) = true)
      by (apply Qeq_bool_iff; reflexivity).
    rewrite E. cbn [orb].
    assert (F : Qeq_bool (- d / 2) (d / 2) = false).
    { apply not_true_is_false. intro K. apply Qeq_bool_iff in K. lra_halves. }
    rewrite F. cbn [andb]. left. reflexivity.
  - intros p Hp.
    apply In_flatMap in Hp. destruct Hp as (px & Hx & Hp).
    apply In_flatMap in Hp. destruct Hp as (pz & Hz & Hp).
    apply forLe_In in Hx. destruct Hx as (_ & _ & kx & Hkx).
    apply forLe_In in Hz. destruct Hz as (_ & _ & kz & Hkz).
    destruct (Qeq_bool px (- w / 2)) eqn:E1.
    { cbn [orb] in Hp.
      destruct (_ && _) in Hp; [contradiction|].
      destruct Hp as [<- | []]. cbn [vx vy vz].
      split; [reflexivity|]. left. apply Qeq_bool_iff. exact E1. }
    destruct (Qeq_bool pz (- d / 2)) eqn:E3.
    { destruct (Qeq_bool px (w / 2)); cbn [orb] in Hp;
        (destruct (_ && _) in Hp; [contradiction|]);
        destruct Hp as [<- | []]; cbn [vx vy vz];
        (split; [reflexivity|]); right; left; apply Qeq_bool_iff; exact E3. }
    destruct (Qeq_bool pz (d / 2)) eqn:E4.
    { apply Qeq_bool_iff in E4.
      assert (Hor : forall b, (b || false || true) = true)
        by (intros []; reflexivity).
      rewrite Hor in Hp. cbn [andb] in Hp.
      destruct ((px >? - (15 # 10)) && (px <? 15 # 10)) eqn:Door;
        [contradiction|].
      destruct Hp as [<- | []]. cbn [vx vy vz].
      split; [reflexivity|]. right; right; right.
      split; [exact E4|]. split; [eapply Hint; eauto|].
      intros [K1 K2].
      apply andb_false_iff in Door. destruct Door as [K | K].
      - unfold Num.gtb in K. apply NumFacts.ltb_false in K. lra.
      - apply NumFacts.ltb_false in K. lra. }
    destruct (Qeq_bool px (w / 2)) eqn:E2; cbn [orb] in Hp; [|contradiction].
    apply Qeq_bool_iff in E2. cbn [andb] in Hp.
    destruct Hp as [<- | []]. cbn [vx vy vz].
    split; [reflexivity|]. right; right; left.
    split; [exact E2 | eapply Hint; eauto].
Qed.

End FloraFacts.

(** A three-element array indexed by the fraction of the seed 3. *)
Lemma pseudoRandom_is_a_unit_fraction_witness :
  let xs := [10%Z; 20%Z; 30%Z] in
  xs <> [] /\
  exists a,
    at_ xs (Num.floor (pseudoRandom (M := Host.fixed 0) (inject_Z 3)
                       * inject_Z (Z.of_nat (List.length xs))))
    = Some a /\ In a xs.
Proof.
  intro xs.
  assert (H : xs <> []) by discriminate.
  split; [exact H|].
  exact (proj2 (proj2 (pseudoRandom_is_a_unit_fraction
                         (M := Host.fixed 0) 3%Z)) Z xs H).
Defined.

(** A tree with two leaves and a source that always draws 1/2: the
    second leaf is chosen. *)
Lemma landing_spot_is_a_lowered_leaf_witness :
  let t := {| treePosition := vec3 0 0 0; height := 5; trunkWidth := 1;
              leafPositions := [vec3 0 4 0; vec3 1 5 0]; nest := None |} in
  unitDraws (M := Host.fixed (1 # 2)) /\ leafPositions t <> [] /\
  exists p,
    In p (leafPositions t) /\
    findNewLandingSpot (M := Host.fixed (1 # 2)) t O
    = (Some (vec3 (vx p) (vy p - (8 # 10)) (vz p)), 1%nat).
Proof.
  intro t.
  assert (Hu : unitDraws (M := Host.fixed (1 # 2))).
  { intro n. split; [discriminate | reflexivity]. }
  assert (Hl : leafPositions t <> []) by discriminate.
  split; [exact Hu|]. split; [exact Hl|].
  exact (proj2 (landing_spot_is_a_lowered_leaf (M := Host.fixed (1 # 2))
                  Hu t O) Hl).
Defined.

(** ** environment.ts: the particle pool over time *)

Section ParticleFacts.
Context {M : JSMath}.
Import ParticleSystem.

Lemma updateParticle_inactive grav delta p :
  active p = false -> updateParticle grav delta p = p.
Proof. intro H. unfold updateParticle. rewrite H. reflexivity. Qed.

Lemma updateParticle_expired grav delta p :
  active p = true -> life p - delta <= 0 ->
  active (updateParticle grav delta p) = false /\
  position (updateParticle grav delta p) = position p.
Proof.
  intros Ha Hl. unfold updateParticle. rewrite Ha. cbn [negb]. cbv zeta.
  apply NumFacts.leb_true in Hl. rewrite Hl. split; reflexivity.
Qed.

Lemma updateParticle_alive grav delta p :
  active p = true -> 0 < life p - delta ->
  let p' := updateParticle grav delta p in
  active p' = true /\ life p' = life p - delta /\ maxLife p' = maxLife p /\
  startSize p' = startSize p /\ endSize p' = endSize p /\
  size p' = lerp (endSize p) (startSize p) ((life p - delta) / maxLife p) /\
  vy (velocity p') = vy (velocity p) - grav * delta.
Proof.
  intros Ha Hl. unfold updateParticle. rewrite Ha. cbn [negb]. cbv zeta.
  apply NumFacts.leb_false in Hl. rewrite Hl.
  cbn [active life maxLife startSize endSize size velocity vy].
  repeat split; reflexivity.
Qed.

Lemma updateParticle_active_inv grav delta p :
  active (updateParticle grav delta p) = true -> active p = true.
Proof.
  unfold updateParticle. destruct (active p) eqn:E; [reflexivity|].
  cbn [negb]. rewrite E. auto.
Qed.

Lemma activeCount_update grav delta ps :
  (activeCount (List.map (updateParticle grav delta) ps) <= activeCount ps)%nat.
Proof.
  induction ps as [|p ps IH]; [apply Nat.le_refl|].
  cbn [List.map].
  destruct (counts_cons p ps) as [-> _].
  destruct (counts_cons (updateParticle grav delta p)
                        (List.map (updateParticle grav delta) ps)) as [-> _].
  destruct (active (updateParticle grav delta p)) eqn:E.
  - apply updateParticle_active_inv in E. rewrite E. lia.
  - destruct (active p); lia.
Qed.

Lemma updates_gravity deltas :
  forall s, gravity (List.fold_left (fun s d => update d s) deltas s)
            = gravity s.
Proof.
  induction deltas as [|d ds IH]; intro s; [reflexivity|].
  cbn [List.fold_left]. rewrite IH. reflexivity.
Qed.

Lemma inactive_persists deltas :
  forall s i p,
    List.nth_error (particles s) i = Some p -> active p = false ->
    List.nth_error
      (particles (List.fold_left (fun s d => update d s) deltas s)) i
    = Some p.
Proof.
  induction deltas as [|d ds IH]; intros s i p Hn Ha; [exact Hn|].
  cbn [List.fold_left]. apply IH; [|exact Ha].
  unfold update. cbn [particles].
  rewrite List.nth_error_map, Hn. cbn [option_map].
  rewrite updateParticle_inactive by exact Ha. reflexivity.
Qed.

(** X7. [ParticleSystem.update] only retires particles: the pool keeps
    its size and gravity, an inactive slot is left exactly as it is, no
    slot becomes active, an active particle whose remaining life is at
    most [delta] becomes inactive where it is, and any other active
    particle stays active with its life reduced by [delta], its size
    interpolated from [endSize] to [startSize] by the remaining fraction
    of its life, and gravity taken from its vertical velocity. *)
Theorem update_only_retires_particles :
  forall (delta : Q) (s : System),
    let s' := update delta s in
    List.length (particles s') = List.length (particles s) /\
    gravity s' = gravity s /\
    (activeCount (particles s') <= activeCount (particles s))%nat /\
    forall i p,
      List.nth_error (particles s) i = Some p ->
      exists p',
        List.nth_error (particles s') i = Some p' /\
        (active p = false -> p' = p) /\
        (active p' = true -> active p = true) /\
        (active p = true -> life p - delta <= 0 ->
           active p' = false /\ position p' = position p) /\
        (active p = true -> 0 < life p - delta ->
           active p' = true /\ life p' = life p - delta /\
           size p'
           = lerp (endSize p) (startSize p) ((life p - delta) / maxLife p) /\
           vy (velocity p') = vy (velocity p) - gravity s * delta).
Proof.
  intros delta s. cbv zeta. unfold update. cbn [particles gravity].
  split; [apply List.length_map|]. split; [reflexivity|].
  split; [apply activeCount_update|].
  intros i p Hn. exists (updateParticle (gravity s) delta p).
  split; [rewrite List.nth_error_map, Hn; reflexivity|].
  split; [apply updateParticle_inactive|].
  split; [apply updateParticle_active_inv|].
  split; [apply updateParticle_expired|].
  intros Ha Hl.
  destruct (updateParticle_alive (gravity s) delta p Ha Hl)
    as (A & B & _ & _ & _ & C & D).
  auto.
Qed.

(** X8. A particle does not outlive its life: after any non-empty
    sequence of [update] calls whose deltas add up to at least the life
    the particle in a slot has, the slot is inactive (nothing having been
    emitted in between). *)
Theorem particles_expire :
  forall (deltas : list Q) (s : System) (i : nat) (p : Particle),
    deltas <> [] ->
    List.nth_error (particles s) i = Some p ->
    life p <= List.fold_right Qplus 0 deltas ->
    exists p',
      List.nth_error
        (particles (List.fold_left (fun s d => update d s) deltas s)) i
      = Some p' /\
      active p' = false.
Proof.
  induction deltas as [|d ds IH]; intros s i p Hne Hn Hl; [congruence|].
  cbn [List.fold_left List.fold_right] in *.
  assert (Hn1 : List.nth_error (particles (update d s)) i
                = Some (updateParticle (gravity s) d p)).
  { unfold update. cbn [particles]. rewrite List.nth_error_map, Hn.
    reflexivity. }
  destruct (active p) eqn:Ha.
  - destruct (Qlt_le_dec 0 (life p - d)) as [Hpos | Hexp].
    + destruct (updateParticle_alive (gravity s) d p Ha Hpos)
        as (_ & B & _).
      destruct ds as [|d2 ds'].
      * cbn [List.fold_right] in Hl. lra.
      * eapply IH; [discriminate | exact Hn1 |]. rewrite B. lra.
    + destruct (updateParticle_expired (gravity s) d p Ha Hexp) as [A _].
      eexists. split; [|exact A].
      apply inactive_persists; [exact Hn1 | exact A].
  - rewrite updateParticle_inactive in Hn1 by exact Ha.
    exists p. split; [|exact Ha].
    apply inactive_persists; [exact Hn1 | exact Ha].
Qed.

Lemma lerp_between a b r :
  a <= b -> 0 <= r -> r < 1 -> a <= lerp a b r /\ lerp a b r <= b.
Proof. intros H H0 H1. unfold lerp. split; nra. Qed.

Lemma sample_range a b d g :
  unitDraws -> a <= b ->
  a <= fst (sample (Some (Range a b)) d g) /\
  fst (sample (Some (Range a b)) d g) <= b.
Proof.
  intros Hu Hab. unfold sample, random. cbn [fst].
  destruct (Hu g) as [R0 R1]. apply lerp_between; assumption.
Qed.

(** The fields [initParticle] writes, by the draws behind them. *)
Lemma initParticle_fields o g p :
  let p' := fst (initParticle o g p) in
  let life0 := sample (optLife o) 1 (S (S (S g))) in
  let size0 := sample (optSize o) 1 (snd life0) in
  active p' = true /\ position p' = optPosition o /\
  life p' = fst life0 /\ maxLife p' = fst life0 /\
  size p' = fst size0 /\ startSize p' = fst size0 /\ endSize p' = 0 /\
  startColor p' = color p' /\ endColor p' = color p' /\
  velocity p'
  = V3.add (match optVelocity o with Some v => v | None => V3.zero end)
      (V3.multiplyScalar
         (vec3 (Math_random g - (1 # 2)) (Math_random (S g) - (1 # 2))
               (Math_random (S (S g)) - (1 # 2)))
         (numberOr (velocityRandomness o) 0)).
Proof.
  cbv zeta. unfold initParticle, random. cbv beta iota zeta.
  destruct (sample (optLife o) 1 (S (S (S g)))) as [l g4].
  cbn [fst snd].
  destruct (sample (optSize o) 1 g4) as [sz g5].
  destruct (optColor o) as [[c | c1 c2]|]; cbv beta iota zeta;
    destruct (sample (optRotationSpeed o) 0 _) as [rs g8];
    cbn [fst active position life maxLife size startSize endSize startColor
         endColor color velocity];
    repeat split; reflexivity.
Qed.

(** X9. A particle [initParticle] starts is active at the requested
    position, with its full life ahead ([life = maxLife]), its size at
    its start size and its end size 0; a life or size given as a range
    [[lo, hi]] is sampled inside the range, an omitted one is 1; and each
    component of its velocity is within half the requested randomness of
    the base velocity. *)
Theorem emitted_particle_respects_its_ranges :
  unitDraws ->
  forall (o : Options) (g : RNG) (p : Particle),
    let p' := fst (initParticle o g p) in
    let base := match optVelocity o with Some v => v | None => V3.zero end in
    active p' = true /\ position p' = optPosition o /\
    maxLife p' = life p' /\ startSize p' = size p' /\ endSize p' = 0 /\
    (forall lo hi, optLife o = Some (Range lo hi) -> lo <= hi ->
                   lo <= life p' /\ life p' <= hi) /\
    (optLife o = None -> life p' = 1) /\
    (forall lo hi, optSize o = Some (Range lo hi) -> lo <= hi ->
                   lo <= size p' /\ size p' <= hi) /\
    (optSize o = None -> size p' = 1) /\
    (forall k, velocityRandomness o = Some k -> 0 <= k ->
       Qabs (vx (velocity p') - vx base) <= k / 2 /\
       Qabs (vy (velocity p') - vy base) <= k / 2 /\
       Qabs (vz (velocity p') - vz base) <= k / 2).
Proof.
  intros Hu o g p. cbv zeta.
  destruct (initParticle_fields o g p)
    as (A & B & C & D & E & F & G & _ & _ & V).
  cbv zeta in C, D, E, F.
  split; [exact A|]. split; [exact B|]. split; [congruence|].
  split; [congruence|]. split; [exact G|].
  split; [|split; [|split; [|split]]].
  - intros lo hi Ho Hle. rewrite C, Ho. apply sample_range; assumption.
  - intro Ho. rewrite C, Ho. reflexivity.
  - intros lo hi Ho Hle. rewrite E, Ho. apply sample_range; assumption.
  - intro Ho. rewrite E, Ho. reflexivity.
  - intros k Hk Hk0. rewrite V, Hk.
    destruct (Hu g) as [a0 a1]. destruct (Hu (S g)) as [b0 b1].
    destruct (Hu (S (S g))) as [c0 c1].
    assert (Hor : forall r, 0 <= r -> r < 1 ->
              Qabs ((r - (1 # 2)) * numberOr (Some k) 0) <= k / 2).
    { intros r r0 r1. unfold numberOr, Num.orElse.
      destruct (Qeq_bool k 0) eqn:Ek.
      - apply Qeq_bool_iff in Ek. apply Qabs_Qle_condition.
        unfold Qdiv. change (/ 2) with (1 # 2). split; nra.
      - apply Qabs_Qle_condition.
        unfold Qdiv. change (/ 2) with (1 # 2). split; nra. }
    cbn [V3.add V3.multiplyScalar vx vy vz].
    assert (Hshift : forall b d, b + d - b == d) by (intros; ring).
    rewrite !Hshift. repeat split; apply Hor; assumption.
Qed.

Lemma emitLoop_nothing o created g ps :
  count o <= inject_Z created -> emitLoop o created g ps = (ps, g).
Proof.
  intro H. destruct ps as [|p rest]; [reflexivity|].
  cbn [emitLoop].
  assert (E : (inject_Z created <? count o) = false)
    by (apply NumFacts.ltb_false; exact H).
  rewrite E. reflexivity.
Qed.

(** X10. [emit] with a count of zero or less, or on a pool without
    slots, changes nothing and draws no random number. *)
Theorem emit_without_work_is_a_no_op :
  forall (o : Options) (g : RNG) (s : System),
    (count o <= 0 -> emit o g s = (s, g)) /\
    (particles s = [] -> emit o g s = (s, g)).
Proof.
  intros o g s. unfold emit. split.
  - intro H. rewrite emitLoop_nothing by exact H.
    destruct s; reflexivity.
  - intro H. rewrite H. cbn [emitLoop]. destruct s. cbn in H. subst.
    reflexivity.
Qed.

End ParticleFacts.

(** A particle with one second to live, after two frames of 0.6 s. *)
Lemma particles_expire_witness :
  let p :=
    {| ParticleSystem.active := true;
       ParticleSystem.position := vec3 0 1 0;
       ParticleSystem.velocity := vec3 0 2 0;
       ParticleSystem.life := 1; ParticleSystem.maxLife := 1;
       ParticleSystem.size := 1; ParticleSystem.startSize := 1;
       ParticleSystem.endSize := 0;
       ParticleSystem.color := ParticleSystem.rgb 1 1 1;
       ParticleSystem.startColor := ParticleSystem.rgb 1 1 1;
       ParticleSystem.endColor := ParticleSystem.rgb 1 1 1;
       ParticleSystem.rotation := 0; ParticleSystem.rotationSpeed := 0 |} in
  let s := {| ParticleSystem.particles := [p];
              ParticleSystem.gravity := 98 # 10 |} in
  let deltas := [6 # 10; 6 # 10] in
  deltas <> [] /\
  List.nth_error (ParticleSystem.particles s) 0 = Some p /\
  ParticleSystem.life p <= List.fold_right Qplus 0 deltas /\
  exists p',
    List.nth_error
      (ParticleSystem.particles
         (List.fold_left (fun s d => ParticleSystem.update d s) deltas s)) 0
    = Some p' /\
    ParticleSystem.active p' = false.
Proof.
  intros p s deltas.
  assert (H1 : deltas <> []) by discriminate.
  assert (H2 : List.nth_error (ParticleSystem.particles s) 0 = Some p)
    by reflexivity.
  assert (H3 : ParticleSystem.life p <= List.fold_right Qplus 0 deltas)
    by (vm_compute; discriminate).
  split; [exact H1|]. split; [exact H2|]. split; [exact H3|].
  exact (particles_expire deltas s 0 p H1 H2 H3).
Defined.

(** The sparks of a hit, drawn from a source that always gives 1/2. *)
Lemma emitted_particle_respects_its_ranges_witness :
  let o :=
    {| ParticleSystem.optPosition := vec3 1 2 3;
       ParticleSystem.count := 15;
       ParticleSystem.optColor := None;
       ParticleSystem.optVelocity := None;
       ParticleSystem.velocityRandomness := Some 5;
       ParticleSystem.optSize := Some (ParticleSystem.Range (1 # 10) (3 # 10));
       ParticleSystem.optLife := Some (ParticleSystem.Range (2 # 10) (5 # 10));
       ParticleSystem.optRotationSpeed := None |} in
  let p' :=
    fst (ParticleSystem.initParticle (M := Host.fixed (1 # 2)) o O
           ParticleSystem.inactiveParticle) in
  unitDraws (M := Host.fixed (1 # 2)) /\
  ParticleSystem.active p' = true /\
  2 # 10 <= ParticleSystem.life p' /\ ParticleSystem.life p' <= 5 # 10.
Proof.
  intros o p'.
  assert (Hu : unitDraws (M := Host.fixed (1 # 2))).
  { intro n. split; [discriminate | reflexivity]. }
  split; [exact Hu|].
  pose proof (emitted_particle_respects_its_ranges (M := Host.fixed (1 # 2))
                Hu o O ParticleSystem.inactiveParticle) as K.
  cbv zeta in K. destruct K as (A & _ & _ & _ & _ & L & _).
  split; [exact A|].
  apply (L (2 # 10) (5 # 10) eq_refl). discriminate.
Defined.

(** A request for no particles. *)
Lemma emit_without_work_is_a_no_op_witness :
  let o :=
    {| ParticleSystem.optPosition := vec3 1 2 3;
       ParticleSystem.count := 0;
       ParticleSystem.optColor := None;
       ParticleSystem.optVelocity := None;
       ParticleSystem.velocityRandomness := None;
       ParticleSystem.optSize := None;
       ParticleSystem.optLife := None;
       ParticleSystem.optRotationSpeed := None |} in
  let s := ParticleSystem.create 4 (98 # 10) in
  ParticleSystem.count o <= 0 /\
  ParticleSystem.emit (M := Host.fixed (1 # 2)) o O s = (s, O).
Proof.
  intros o s.
  assert (H : ParticleSystem.count o <= 0) by discriminate.
  split; [exact H|].
  exact (proj1 (emit_without_work_is_a_no_op (M := Host.fixed (1 # 2)) o O s)
           H).
Defined.

(** ** The day and night cycle *)

Section ClockFacts.
Context {M : JSMath}.
Import Clock.

Lemma mod1_nonneg x : 0 <= x -> 0 <= mod1 x /\ mod1 x < 1.
Proof.
  intro H. unfold mod1.
  assert (E : (x >=? 0) = true) by (apply NumFacts.leb_true; exact H).
  rewrite E.
  pose proof (Qfloor_le x) as H1. pose proof (Qlt_floor x) as H2.
  rewrite inject_Z_plus in H2. change (inject_Z 1) with 1 in H2.
  split; lra.
Qed.

Lemma timeOfDay_range elapsed :
  0 <= elapsed -> 0 <= timeOfDay elapsed /\ timeOfDay elapsed < 1.
Proof.
  intro H. unfold timeOfDay. apply mod1_nonneg.
  unfold START_TIME_OFFSET, DAY_NIGHT_CYCLE_SECONDS, Qdiv.
  change (/ 300) with (1 # 300). lra.
Qed.

Lemma between_true t a b :
  a <= t -> t < b -> ((t >=? a) && (t <? b)) = true.
Proof.
  intros H1 H2. apply andb_true_iff. split.
  - apply NumFacts.leb_true. exact H1.
  - apply NumFacts.ltb_true. exact H2.
Qed.

Lemma between_false t a b :
  b <= t -> ((t >=? a) && (t <? b)) = false.
Proof.
  intro H. apply andb_false_iff. right. apply NumFacts.ltb_false. exact H.
Qed.

(** The keyframe pair of each part of the day. *)
Lemma bracket_segments t :
  0 <= t -> t < 1 ->
  let k (a s m : Q) := {| time := a; sun := s; ambient := m |} in
  (t < 23 # 100 /\
   bracket t keyframes
   = Some (k 0 0 (5 # 100), k (23 # 100) 0 (5 # 100))) \/
  (23 # 100 <= t /\ t < 25 # 100 /\
   bracket t keyframes
   = Some (k (23 # 100) 0 (5 # 100), k (25 # 100) (1 # 2) (3 # 10))) \/
  (25 # 100 <= t /\ t < 30 # 100 /\
   bracket t keyframes
   = Some (k (25 # 100) (1 # 2) (3 # 10), k (30 # 100) (9 # 10) (6 # 10))) \/
  (30 # 100 <= t /\ t < 70 # 100 /\
   bracket t keyframes
   = Some (k (30 # 100) (9 # 10) (6 # 10), k (70 # 100) (9 # 10) (6 # 10))) \/
  (70 # 100 <= t /\ t < 75 # 100 /\
   bracket t keyframes
   = Some (k (70 # 100) (9 # 10) (6 # 10), k (75 # 100) (1 # 2) (3 # 10))) \/
  (75 # 100 <= t /\ t < 77 # 100 /\
   bracket t keyframes
   = Some (k (75 # 100) (1 # 2) (3 # 10), k (77 # 100) 0 (5 # 100))) \/
  (77 # 100 <= t /\
   bracket t keyframes
   = Some (k (77 # 100) 0 (5 # 100), k 1 0 (5 # 100))).
Proof.
  intros H0 H1 k. unfold keyframes. cbn [bracket time].
  destruct (Qlt_le_dec t (23 # 100)) as [L1 | G1].
  { left. rewrite between_true by assumption. auto. }
  rewrite (between_false t 0) by assumption. right.
  destruct (Qlt_le_dec t (25 # 100)) as [L2 | G2].
  { left. rewrite between_true by assumption. auto. }
  rewrite (between_false t (23 # 100)) by assumption. right.
  destruct (Qlt_le_dec t (30 # 100)) as [L3 | G3].
  { left. rewrite between_true by assumption. auto. }
  rewrite (between_false t (25 # 100)) by assumption. right.
  destruct (Qlt_le_dec t (70 # 100)) as [L4 | G4].
  { left. rewrite between_true by assumption. auto. }
  rewrite (between_false t (30 # 100)) by assumption. right.
  destruct (Qlt_le_dec t (75 # 100)) as [L5 | G5].
  { left. rewrite between_true by assumption. auto. }
  rewrite (between_false t (70 # 100)) by assumption. right.
  destruct (Qlt_le_dec t (77 # 100)) as [L6 | G6].
  { left. rewrite between_true by assumption. auto. }
  rewrite (between_false t (75 # 100)) by assumption. right.
  rewrite between_true by assumption. auto.
Qed.

(** The day factor on each part of the day. *)
Lemma dayFactor_segments t :
  0 <= t -> t < 1 ->
  (t <= 23 # 100 /\ dayFactor t == 0) \/
  (23 # 100 <= t /\ t < 25 # 100 /\
   dayFactor t == (t - (23 # 100)) * ((250 # 9))) \/
  (25 # 100 <= t /\ t < 30 # 100 /\
   dayFactor t == (5 # 9) + (t - (25 # 100)) * (80 # 9)) \/
  (30 # 100 <= t /\ t < 70 # 100 /\ dayFactor t == 1) \/
  (70 # 100 <= t /\ t < 75 # 100 /\
   dayFactor t == 1 - (t - (70 # 100)) * (80 # 9)) \/
  (75 # 100 <= t /\ t < 77 # 100 /\
   dayFactor t == (5 # 9) - (t - (75 # 100)) * (250 # 9)) \/
  (77 # 100 <= t /\ dayFactor t == 0).
Proof.
  intros H0 H1. unfold dayFactor.
  destruct (bracket_segments t H0 H1)
    as [(A & ->) | [(A & B & ->) | [(A & B & ->) | [(A & B & ->)
       | [(A & B & ->) | [(A & B & ->) | (A & ->)]]]]]];
    cbv zeta; cbn [time sun]; unfold lerp.
  - left. split; [lra | field].
  - right; left. split; [exact A|]. split; [exact B | field].
  - right; right; left. split; [exact A|]. split; [exact B | field].
  - right; right; right; left. split; [exact A|]. split; [exact B | field].
  - right; right; right; right; left.
    split; [exact A|]. split; [exact B | field].
  - right; right; right; right; right; left.
    split; [exact A|]. split; [exact B | field].
  - right; right; right; right; right; right. split; [exact A | field].
Qed.

Lemma dayFactor_range t : 0 <= t -> t < 1 -> 0 <= dayFactor t <= 1.
Proof.
  intros H0 H1.
  destruct (dayFactor_segments t H0 H1)
    as [(A & E) | [(A & B & E) | [(A & B & E) | [(A & B & E)
       | [(A & B & E) | [(A & B & E) | (A & E)]]]]]];
    rewrite E; split; lra.
Qed.

Lemma smoothstep_range x lo hi :
  lo < hi -> 0 <= smoothstep x lo hi <= 1.
Proof.
  intro H. unfold smoothstep.
  destruct (x <=? lo) eqn:E1; [split; lra|].
  destruct (x >=? hi) eqn:E2; [split; lra|].
  apply NumFacts.leb_false in E1. apply NumFacts.leb_false in E2.
  cbv zeta.
  assert (U0 : 0 <= (x - lo) / (hi - lo)).
  { apply Qle_shift_div_l; lra. }
  assert (U1 : (x - lo) / (hi - lo) <= 1).
  { apply Qle_shift_div_r; lra. }
  set (u := (x - lo) / (hi - lo)) in *.
  split.
  - assert (0 <= u * u) by nra. nra.
  - assert (K : 1 - u * u * (3 - 2 * u) == (1 - u) * (1 - u) * (1 + 2 * u))
      by ring.
    assert (0 <= (1 - u) * (1 - u)) by nra.
    assert (0 <= (1 - u) * (1 - u) * (1 + 2 * u)) by nra.
    lra.
Qed.

Lemma birdOpacity_dark t : dayFactor t <= 1 # 10 -> birdOpacity t = 0.
Proof.
  intro H. unfold birdOpacity. cbv zeta.
  assert (E : (dayFactor t >? 1 # 10) = false)
    by (apply NumFacts.ltb_false; exact H).
  rewrite E. reflexivity.
Qed.

Lemma birdOpacity_bright t : 4 # 10 <= dayFactor t -> birdOpacity t = 1.
Proof.
  intro H. unfold birdOpacity, smoothstep. cbv zeta.
  assert (E : (dayFactor t >? 1 # 10) = true)
    by (apply NumFacts.ltb_true; lra).
  assert (E1 : (dayFactor t <=? 1 # 10) = false)
    by (apply NumFacts.leb_false; lra).
  assert (E2 : (dayFactor t >=? 4 # 10) = true)
    by (apply NumFacts.leb_true; exact H).
  rewrite E, E1, E2. reflexivity.
Qed.

(** X11. At every elapsed time from 0 on, the time of day is in
    [0, 1) and lies between two neighbouring keyframes, so the frame
    always finds its [startKey] and [endKey]; the day factor it derives
    from the sun intensity and the opacity of the birds are within
    [0, 1]. *)
Theorem keyframes_bracket_every_time_of_day :
  forall elapsedTime : Q,
    0 <= elapsedTime ->
    let t := timeOfDay elapsedTime in
    0 <= t /\ t < 1 /\
    (exists startKey endKey,
       bracket t keyframes = Some (startKey, endKey) /\
       time startKey <= t /\ t < time endKey) /\
    0 <= dayFactor t /\ dayFactor t <= 1 /\
    0 <= birdOpacity t /\ birdOpacity t <= 1.
Proof.
  intros e He t.
  destruct (timeOfDay_range e He) as [H0 H1]. fold t in H0, H1.
  split; [exact H0|]. split; [exact H1|]. split.
  - destruct (bracket_segments t H0 H1)
      as [(A & ->) | [(A & B & ->) | [(A & B & ->) | [(A & B & ->)
         | [(A & B & ->) | [(A & B & ->) | (A & ->)]]]]]];
      eexists _, _; (split; [reflexivity|]); cbn [time]; split; lra.
  - destruct (dayFactor_range t H0 H1) as [D0 D1].
    split; [exact D0|]. split; [exact D1|].
    unfold birdOpacity. cbv zeta.
    destruct (dayFactor t >? 1 # 10).
    + apply smoothstep_range. reflexivity.
    + split; lra.
Qed.

(** X12. By night, at a time of day up to 0.23 or from 0.77 on, the day
    factor is 0, the birds are fully transparent and the bird loop of the
    frame is skipped: no bird moves, no timer runs and no random number
    is drawn.  From 0.30 to 0.70 the day factor and the opacity of the
    birds are 1 and the bird loop runs. *)
Theorem birds_rest_at_night :
  forall t : Q,
    0 <= t -> t < 1 ->
    (t <= 23 # 100 \/ 77 # 100 <= t ->
     dayFactor t == 0 /\ birdOpacity t = 0 /\
     forall delta g bs, Frame.birdBlock delta t g bs = (Some bs, g)) /\
    (30 # 100 <= t /\ t < 70 # 100 ->
     dayFactor t == 1 /\ birdOpacity t = 1 /\
     forall delta g bs,
       Frame.birdBlock delta t g bs
       = match Bird.advanceAll {| Bird.delta := delta |} g
                               (List.map snd bs) with
         | (Some bs', g') => (Some (List.combine (List.map fst bs) bs'), g')
         | (None, g') => (None, g')
         end).
Proof.
  intros t H0 H1. split.
  - intro Hn.
    assert (E : dayFactor t == 0).
    { destruct (dayFactor_segments t H0 H1)
        as [(A & E) | [(A & B & E) | [(A & B & E) | [(A & B & E)
           | [(A & B & E) | [(A & B & E) | (A & E)]]]]]];
        try exact E; destruct Hn; lra. }
    assert (O : birdOpacity t = 0) by (apply birdOpacity_dark; lra).
    split; [exact E|]. split; [exact O|].
    intros delta g bs. unfold Frame.birdBlock. rewrite O.
    assert (K : (0 >? 0) = false) by (apply NumFacts.ltb_false; lra).
    rewrite K. reflexivity.
  - intros [A B].
    assert (E : dayFactor t == 1).
    { destruct (dayFactor_segments t H0 H1)
        as [(A' & E) | [(A' & B' & E) | [(A' & B' & E) | [(A' & B' & E)
           | [(A' & B' & E) | [(A' & B' & E) | (A' & E)]]]]]];
        try exact E; lra. }
    assert (O : birdOpacity t = 1) by (apply birdOpacity_bright; lra).
    split; [exact E|]. split; [exact O|].
    intros delta g bs. unfold Frame.birdBlock. rewrite O.
    assert (K : (1 >? 0) = true) by (apply NumFacts.ltb_true; lra).
    rewrite K. reflexivity.
Qed.

End ClockFacts.

(** A hundred seconds after the start: 0.35 + 1/3 of the cycle. *)
Lemma keyframes_bracket_every_time_of_day_witness :
  let t := Clock.timeOfDay 100 in
  0 <= 100 /\
  0 <= t /\ t < 1 /\
  exists startKey endKey,
    Clock.bracket t Clock.keyframes = Some (startKey, endKey) /\
    Clock.time startKey <= t /\ t < Clock.time endKey.
Proof.
  intro t.
  assert (H : 0 <= 100) by discriminate.
  split; [exact H|].
  pose proof (keyframes_bracket_every_time_of_day 100 H) as K.
  cbv zeta in K. destruct K as (A & B & C & _).
  split; [exact A|]. split; [exact B|]. exact C.
Defined.

(** Deep night, a tenth into the cycle. *)
Lemma birds_rest_at_night_witness :
  0 <= 1 # 10 /\ 1 # 10 < 1 /\
  Clock.dayFactor (1 # 10) == 0 /\ Clock.birdOpacity (1 # 10) = 0.
Proof.
  assert (H0 : 0 <= 1 # 10) by discriminate.
  assert (H1 : 1 # 10 < 1) by reflexivity.
  split; [exact H0|]. split; [exact H1|].
  destruct (birds_rest_at_night (M := Host.fixed 0) (1 # 10) H0 H1) as [N _].
  assert (Hn : 1 # 10 <= 23 # 100 \/ 77 # 100 <= 1 # 10)
    by (left; discriminate).
  destruct (N Hn) as (A & B & _).
  split; [exact A | exact B].
Defined.

(** ** Villagers by night and by day *)

Section VillagerRoutineFacts.
Context {M : JSMath}.
Import Villager.

Ltac fields :=
  cbn
    [setPosition setRoutine setPrevState setTimer setTarget setVertical
     position state prevState stateTimer chunkId targetPosition profession
     homePoint workPoint velocityY isOnGround fst snd
     negb andb orb Routine_eqb].

Lemma timeGate_night e g v :
  isDayTime e = false ->
  snd (timeGate e g v) = g /\
  (state (fst (timeGate e g v)) = SLEEPING \/
   state (fst (timeGate e g v)) = GOING_HOME).
Proof.
  intro Hn. unfold timeGate. rewrite Hn.
  destruct (state v) eqn:E; fields; rewrite ?E; fields; auto.
Qed.

Lemma interaction_settled d g v :
  state v <> LOOKING_AT_PLAYER ->
  snd (interaction d g v) = g /\
  (d < VILLAGER_INTERACTION_RADIUS ->
   state (fst (interaction d g v)) = LOOKING_AT_PLAYER /\
   prevState (fst (interaction d g v)) = Some (state v) /\
   position (fst (interaction d g v)) = position v /\
   stateTimer (fst (interaction d g v)) = stateTimer v) /\
  (~ d < VILLAGER_INTERACTION_RADIUS -> fst (interaction d g v) = v).
Proof.
  intro Hl. apply Routine_eqb_neq in Hl. unfold interaction. rewrite Hl.
  destruct (d <? VILLAGER_INTERACTION_RADIUS) eqn:E.
  - apply NumFacts.ltb_true in E. fields.
    split; [reflexivity|]. split; [auto | tauto].
  - apply NumFacts.ltb_false in E. rewrite andb_false_r. fields.
    split; [reflexivity|]. split; [intro; lra | reflexivity].
Qed.

Lemma timerGate_night e g v :
  isDayTime e = false -> timerGate e g v = (v, g).
Proof.
  intro Hn. unfold timerGate. rewrite Hn, andb_false_r. reflexivity.
Qed.

Lemma act_resting e g v :
  state v = SLEEPING \/ state v = GOING_HOME \/
  state v = LOOKING_AT_PLAYER \/ state v = IDLE ->
  snd (act e g v) = g /\
  (state v = LOOKING_AT_PLAYER \/ state v = IDLE -> fst (act e g v) = v) /\
  (state v = SLEEPING -> state (fst (act e g v)) = SLEEPING) /\
  (state v = GOING_HOME ->
   state (fst (act e g v)) = GOING_HOME \/
   state (fst (act e g v)) = SLEEPING).
Proof.
  intros [E | [E | [E | E]]]; unfold act; rewrite E.
  - fields. split; [reflexivity|].
    split; [intros [K | K]; discriminate|]. split; [auto | discriminate].
  - destruct (targetPosition v) as [target|].
    + cbv zeta. destruct (_ >? 1).
      * fields. rewrite E.
        split; [reflexivity|].
        split; [intros [K | K]; discriminate|].
        split; [discriminate | auto].
      * fields. rewrite E. fields.
        split; [reflexivity|].
        split; [intros [K | K]; discriminate|].
        split; [discriminate | auto].
    + fields. rewrite E.
      split; [reflexivity|].
      split; [intros [K | K]; discriminate|].
      split; [discriminate | auto].
  - fields. split; [reflexivity|].
    split; [reflexivity|]. split; discriminate.
  - fields. split; [reflexivity|].
    split; [reflexivity|]. split; discriminate.
Qed.

(** X13. By night (the time of day not strictly between 0.28 and
    0.76) a frame leaves every villager GOING_HOME, SLEEPING or, when the
    player is within the interaction radius, LOOKING_AT_PLAYER: none is
    left IDLE, WANDERING, GOING_TO_WORK or WORKING, and the frame draws no
    random number for it.  With the player outside the radius it is
    GOING_HOME or SLEEPING. *)
Theorem villagers_keep_curfew :
  forall (e : Env) (g : RNG) (v : State),
    isDayTime e = false ->
    let v' := fst (advance e g v) in
    snd (advance e g v) = g /\
    (near e v -> state v' = LOOKING_AT_PLAYER) /\
    (~ near e v -> state v' = GOING_HOME \/ state v' = SLEEPING).
Proof.
  intros e g v Hn. cbv zeta.
  unfold advance. cbv zeta. fold (grounded e v).
  destruct (timeGate_night e g (grounded e v) Hn) as [T1 T2].
  destruct (timeGate e g (grounded e v)) as [v2 g2].
  cbn [fst snd] in T1, T2. subst g2.
  assert (Hl : state v2 <> LOOKING_AT_PLAYER)
    by (destruct T2 as [-> | ->]; discriminate).
  destruct (interaction_settled
              (V3.distanceTo (position (grounded e v)) (playerPosition e))
              g v2 Hl) as (I1 & I2 & I3).
  destruct (interaction _ g v2) as [v3 g3].
  cbn [fst snd] in I1, I2, I3. subst g3.
  rewrite timerGate_night by exact Hn.
  split; [|split].
  - destruct (Qlt_le_dec
                (V3.distanceTo (position (grounded e v)) (playerPosition e))
                VILLAGER_INTERACTION_RADIUS) as [Hd | Hd].
    + destruct (I2 Hd) as (S3 & _).
      apply (act_resting e g v3). auto.
    + assert (E3 : v3 = v2) by (apply I3; lra). subst v3.
      apply (act_resting e g v2). tauto.
  - intro Hnear. destruct (I2 Hnear) as (S3 & _).
    destruct (act_resting e g v3) as (_ & A & _); [auto|].
    rewrite A by auto. exact S3.
  - intro Hfar. assert (E3 : v3 = v2) by (apply I3; exact Hfar). subst v3.
    destruct (act_resting e g v2) as (_ & _ & A & B); [tauto|].
    destruct T2 as [E | E]; [right; apply A; exact E|].
    destruct (B E); auto.
Qed.

Lemma grounded_identity e v :
  chunkId (grounded e v) = chunkId v /\
  profession (grounded e v) = profession v /\
  homePoint (grounded e v) = homePoint v /\
  workPoint (grounded e v) = workPoint v.
Proof.
  unfold grounded, physics. cbv zeta.
  destruct (negb _); [destruct (_ <? _)|]; fields; auto.
Qed.

(** X14. Whatever happens to a villager, in any number of frames, its
    chunk id, profession, home point and work point stay what they were
    when it was created: a villager that wanders into another chunk still
    belongs to the chunk of its village. *)
Theorem villager_identity_is_fixed :
  forall (frames : list Env) (g : RNG) (v : State),
    let v' := fst (run frames g v) in
    chunkId v' = chunkId v /\ profession v' = profession v /\
    homePoint v' = homePoint v /\ workPoint v' = workPoint v.
Proof.
  induction frames as [|e rest IH]; intros g v; cbv zeta.
  - cbn [run fst]. auto.
  - cbn [run].
    destruct (advance_body e g v) as (_ & _ & B3 & B4 & B5 & B6).
    destruct (grounded_identity e v) as (G1 & G2 & G3 & G4).
    destruct (advance e g v) as [v1 g1]. cbn [fst] in *.
    destruct (IH g1 v1) as (I1 & I2 & I3 & I4).
    repeat split; congruence.
Qed.

Lemma physics_sleeping e v : state v = SLEEPING -> physics e v = v.
Proof. intro H. unfold physics. rewrite H. reflexivity. Qed.

(** X15. A villager that starts a daytime frame SLEEPING wakes up in it:
    it does not move, one random number is drawn for its timer, which is
    set between 3 and 8 seconds, and it ends the frame IDLE, or
    LOOKING_AT_PLAYER with IDLE saved as the state to resume when the
    player is within the interaction radius. *)
Theorem sleeping_villager_wakes_by_day :
  unitDraws ->
  forall (e : Env) (g : RNG) (v : State),
    isDayTime e = true -> state v = SLEEPING ->
    let v' := fst (advance e g v) in
    snd (advance e g v) = S g /\
    position v' = position v /\
    stateTimer v' = Math_random g * 5 + 3 /\
    3 <= stateTimer v' /\ stateTimer v' < 8 /\
    (near e v -> state v' = LOOKING_AT_PLAYER /\ prevState v' = Some IDLE) /\
    (~ near e v -> state v' = IDLE).
Proof.
  intros Hu e g v Hd Hs. cbv zeta.
  destruct (Hu g) as [R0 R1].
  unfold near. unfold advance, grounded. cbv zeta.
  set (v0 := setTimer (stateTimer v - delta e) v).
  assert (S0 : state v0 = SLEEPING) by exact Hs.
  rewrite (physics_sleeping e v0 S0).
  assert (P0 : position v0 = position v) by reflexivity.
  unfold timeGate. rewrite Hd, S0. fields. rewrite S0. fields.
  unfold random. fields. rewrite P0.
  match goal with
  | |- context [interaction _ _ ?x] => set (v2 := x)
  end.
  assert (F2 : state v2 = IDLE /\ position v2 = position v /\
               stateTimer v2 = Math_random g * 5 + 3) by (split; auto).
  destruct F2 as (F1 & F2 & F3).
  assert (Hl : state v2 <> LOOKING_AT_PLAYER) by (rewrite F1; discriminate).
  destruct (interaction_settled
              (V3.distanceTo (position v) (playerPosition e))
              (S g) v2 Hl) as (I1 & I2 & I3).
  destruct (interaction _ (S g) v2) as [v3 g3].
  cbn [fst snd] in I1, I2, I3. subst g3.
  assert (T3 : stateTimer v3 = Math_random g * 5 + 3 /\
               position v3 = position v /\
               (state v3 = LOOKING_AT_PLAYER \/ state v3 = IDLE)).
  { destruct (Qlt_le_dec (V3.distanceTo (position v) (playerPosition e))
                         VILLAGER_INTERACTION_RADIUS) as [Hn | Hf].
    - destruct (I2 Hn) as (A & B & C & D).
      split; [congruence|]. split; [congruence | auto].
    - rewrite I3 by lra. auto. }
  destruct T3 as (T3 & P3 & St3).
  rewrite timerGate_running by (rewrite T3; lra).
  destruct (act_resting e (S g) v3) as (A1 & A2 & _); [tauto|].
  rewrite (A2 St3) in *.
  split; [exact A1|]. split; [exact P3|]. split; [exact T3|].
  rewrite T3. split; [lra|]. split; [lra|]. split.
  - intro Hn. destruct (I2 Hn) as (A & B & _). rewrite B, F1. auto.
  - intro Hf. rewrite (I3 Hf). exact F1.
Qed.

End VillagerRoutineFacts.

(** A wandering villager just after nightfall, the player a hundred
    units away. *)
Lemma villagers_keep_curfew_witness :
  let e := Examples.frameAt Examples.nightfall 100 in
  let v := Examples.wanderer 5 in
  let v' := fst (Villager.advance (M := Host.fixed 0) e O v) in
  Villager.isDayTime e = false /\
  snd (Villager.advance (M := Host.fixed 0) e O v) = O /\
  (Villager.state v' = Villager.GOING_HOME
   \/ Villager.state v' = Villager.SLEEPING).
Proof.
  intros e v v'.
  assert (H : Villager.isDayTime e = false) by reflexivity.
  split; [exact H|].
  pose proof (villagers_keep_curfew (M := Host.fixed 0) e O v H) as K.
  cbv zeta in K. destruct K as (A & _ & C).
  split; [exact A|].
  apply C. intro N. vm_compute in N. discriminate.
Defined.

(** A sleeping villager at noon, the player a hundred units away, and a
    source that always draws 1/2: it wakes with a timer of 5.5 s. *)
Lemma sleeping_villager_wakes_by_day_witness :
  let e := Examples.frameAt Examples.noon 100 in
  let v := Examples.sleeper in
  let v' := fst (Villager.advance (M := Host.fixed (1 # 2)) e O v) in
  unitDraws (M := Host.fixed (1 # 2)) /\
  Villager.isDayTime e = true /\ Villager.state v = Villager.SLEEPING /\
  Villager.state v' = Villager.IDLE /\
  Villager.position v' = Villager.position v /\
  3 <= Villager.stateTimer v' /\ Villager.stateTimer v' < 8.
Proof.
  intros e v v'.
  assert (Hu : unitDraws (M := Host.fixed (1 # 2))).
  { intro n. split; [discriminate | reflexivity]. }
  assert (Hd : Villager.isDayTime e = true) by reflexivity.
  assert (Hs : Villager.state v = Villager.SLEEPING) by reflexivity.
  split; [exact Hu|]. split; [exact Hd|]. split; [exact Hs|].
  pose proof (sleeping_villager_wakes_by_day (M := Host.fixed (1 # 2))
                Hu e O v Hd Hs) as K.
  cbv zeta in K. destruct K as (_ & P & _ & T0 & T1 & _ & F).
  split; [|split; [exact P | split; [exact T0 | exact T1]]].
  apply F. intro N. vm_compute in N. discriminate.
Defined.

(** ** Grounding, and what a frame does to a sleeper instead *)

Section SleeperFacts.
Context {M : JSMath}.
Import Villager.

Ltac sleeper_fields :=
  cbn
    [setPosition setRoutine setPrevState setTimer setTarget setVertical
     position state prevState stateTimer chunkId targetPosition profession
     homePoint workPoint velocityY isOnGround fst snd
     negb andb orb Routine_eqb].

(** A sleeper by night: it turns to a player within reach and stays
    where it is; otherwise it sleeps on and is moved toward its home
    point. *)
Lemma sleeper_night_frame e g v :
  isDayTime e = false -> state v = SLEEPING ->
  (near e v ->
     state (fst (advance e g v)) = LOOKING_AT_PLAYER /\
     position (fst (advance e g v)) = position v) /\
  (~ near e v ->
     state (fst (advance e g v)) = SLEEPING /\
     position (fst (advance e g v))
     = V3.lerp (position v) (homePoint v) (delta e)).
Proof.
  intros Hn Hs. unfold near, advance, grounded. cbv zeta.
  set (v0 := setTimer (stateTimer v - delta e) v).
  assert (S0 : state v0 = SLEEPING) by exact Hs.
  rewrite (physics_sleeping e v0 S0).
  assert (T : timeGate e g v0 = (v0, g)).
  { unfold timeGate. rewrite Hn, S0. reflexivity. }
  rewrite T.
  assert (Hl : state v0 <> LOOKING_AT_PLAYER) by (rewrite S0; discriminate).
  destruct (interaction_settled
              (V3.distanceTo (position v0) (playerPosition e)) g v0 Hl)
    as (I1 & I2 & I3).
  destruct (interaction _ g v0) as [v3 g3].
  cbn [fst snd] in I1, I2, I3. subst g3.
  rewrite timerGate_night by exact Hn.
  split.
  - intro Hnear. destruct (I2 Hnear) as (A & _ & C & _).
    destruct (act_resting e g v3) as (_ & R & _); [auto|].
    rewrite R by auto. split; [exact A | exact C].
  - intro Hfar. rewrite (I3 Hfar).
    unfold act. rewrite S0. sleeper_fields. split; [exact Hs | reflexivity].
Qed.

(** A sleeper by day: it wakes where it is. *)
Lemma sleeper_day_frame e g v :
  unitDraws -> isDayTime e = true -> state v = SLEEPING ->
  position (fst (advance e g v)) = position v /\
  (state (fst (advance e g v)) = IDLE
   \/ state (fst (advance e g v)) = LOOKING_AT_PLAYER).
Proof.
  intros Hu Hd Hs. destruct (Hu g) as [R0 R1].
  unfold advance. cbv zeta.
  set (v0 := setTimer (stateTimer v - delta e) v).
  assert (S0 : state v0 = SLEEPING) by exact Hs.
  rewrite (physics_sleeping e v0 S0).
  unfold timeGate. rewrite Hd, S0. sleeper_fields. rewrite S0. sleeper_fields.
  unfold random. sleeper_fields.
  match goal with
  | |- context [interaction ?d _ ?x] => set (v2 := x); set (dist := d)
  end.
  assert (F1 : state v2 = IDLE) by reflexivity.
  assert (F2 : position v2 = position v) by reflexivity.
  assert (F3 : stateTimer v2 = Math_random g * 5 + 3) by reflexivity.
  assert (Hl : state v2 <> LOOKING_AT_PLAYER) by (rewrite F1; discriminate).
  destruct (interaction_settled dist (S g) v2 Hl) as (I1 & I2 & I3).
  destruct (interaction dist (S g) v2) as [v3 g3].
  cbn [fst snd] in I1, I2, I3. subst g3.
  assert (T3 : stateTimer v3 = Math_random g * 5 + 3 /\
               position v3 = position v /\
               (state v3 = LOOKING_AT_PLAYER \/ state v3 = IDLE)).
  { destruct (Qlt_le_dec dist VILLAGER_INTERACTION_RADIUS) as [Hn | Hf].
    - destruct (I2 Hn) as (A & B & C & D).
      split; [congruence|]. split; [congruence | auto].
    - rewrite I3 by lra. auto. }
  destruct T3 as (T3 & P3 & St3).
  rewrite timerGate_running by (rewrite T3; lra).
  destruct (act_resting e (S g) v3) as (_ & A2 & _); [tauto|].
  rewrite (A2 St3). split; [exact P3 | tauto].
Qed.

(** C6, as the code has it. In a frame, a villager that does not start the
    frame SLEEPING has gravity taken off its vertical velocity and its
    height integrated, and is then clamped from below to [getHeight] at its
    (x, z): below the ground it is put on it with velocity 0 and
    [isOnGround] set, otherwise it keeps the integrated height and velocity
    with [isOnGround] cleared; nothing later in the frame touches the
    velocity or the flag.  A villager that starts the frame SLEEPING is
    exempt: the grounding block is skipped, and velocity and flag are left
    as they were.  Its position is not clamped to the terrain either: on
    a night frame with the player out of reach it sleeps on and is moved
    the fraction [delta] of the way toward its home point; on a night
    frame with the player within reach it turns to the player and stays
    where it is; on a day frame it wakes and stays where it is. *)
Theorem villager_grounding_skips_sleepers :
  forall (e : Env) (g : RNG) (v : State),
    let p := position v in
    let groundY := getHeight (vx p) (vz p) in
    let vel := velocityY v - GRAVITY * delta e in
    let y := vy p + vel * delta e in
    let v1 := grounded e v in
    let v' := fst (advance e g v) in
    (state v <> SLEEPING ->
       groundY <= vy (position v1) /\
       vx (position v1) = vx p /\ vz (position v1) = vz p /\
       (y < groundY ->
          vy (position v1) = groundY /\ velocityY v' = 0 /\
          isOnGround v' = true) /\
       (groundY <= y ->
          vy (position v1) = y /\ velocityY v' = vel /\
          isOnGround v' = false)) /\
    (state v = SLEEPING ->
       position v1 = position v /\ velocityY v' = velocityY v /\
       isOnGround v' = isOnGround v /\
       (isDayTime e = false -> ~ near e v ->
          state v' = SLEEPING /\
          position v' = V3.lerp (position v) (homePoint v) (delta e)) /\
       (isDayTime e = false -> near e v ->
          state v' = LOOKING_AT_PLAYER /\ position v' = position v) /\
       (unitDraws -> isDayTime e = true ->
          state v' <> SLEEPING /\ position v' = position v)).
Proof.
  intros e g v p groundY vel y v1 v'.
  destruct (grounding_block e g v) as [Hawake Hasleep].
  split; [exact Hawake|].
  intro Hs. destruct (Hasleep Hs) as (A & B & C).
  split; [exact A|]. split; [exact B|]. split; [exact C|].
  split; [|split].
  - intros Hn Hfar.
    exact (proj2 (sleeper_night_frame e g v Hn Hs) Hfar).
  - intros Hn Hnear.
    exact (proj1 (sleeper_night_frame e g v Hn Hs) Hnear).
  - intros Hu Hd.
    destruct (sleeper_day_frame e g v Hu Hd Hs) as [P St].
    split; [|exact P].
    unfold v'. destruct St as [-> | ->]; discriminate.
Qed.

End SleeperFacts.

(** An idle villager in free fall one unit above the ground: gravity is
    integrated and, still above ground, it is not clamped.  A villager
    asleep half a unit above the ground, at nightfall with the player
    twenty units away: it is moved a tenth of the way to its home point,
    half a unit higher, and not put on the ground. *)
Lemma villager_grounding_skips_sleepers_witness :
  let v := Villager.setRoutine Villager.IDLE
             (Villager.setPosition (vec3 0 1 0) Examples.sleeper) in
  let e := Examples.frameAt Examples.noon 20 in
  let v' := fst (Villager.advance (M := Host.fixed 0) e O v) in
  let night := Examples.frameAt Examples.nightfall 20 in
  let s' := fst (Villager.advance (M := Host.fixed 0) night O
                   Examples.sleeper) in
  Villager.state v <> Villager.SLEEPING /\
  Villager.velocityY v' = 0 - GRAVITY * (1 # 10) /\
  Villager.isOnGround v' = false /\
  Villager.state Examples.sleeper = Villager.SLEEPING /\
  Villager.isDayTime night = false /\
  ~ Villager.near (M := Host.fixed 0) night Examples.sleeper /\
  Villager.state s' = Villager.SLEEPING /\
  Villager.position s'
  = V3.lerp (vec3 0 (1 # 2) 0) (vec3 0 1 0) (1 # 10).
Proof.
  intros v e v' night s'.
  assert (Hs : Villager.state v <> Villager.SLEEPING) by discriminate.
  split; [exact Hs|].
  destruct (villager_grounding_skips_sleepers (M := Host.fixed 0)
              e O v) as [Hawake _].
  destruct (Hawake Hs) as (_ & _ & _ & _ & Hair).
  assert (Hy : getHeight (M := Host.fixed 0) 0 0
               <= 1 + (0 - GRAVITY * (1 # 10)) * (1 # 10)).
  { vm_compute. discriminate. }
  destruct (Hair Hy) as (_ & Hv & Hg).
  split; [exact Hv|]. split; [exact Hg|].
  assert (Hz : Villager.state Examples.sleeper = Villager.SLEEPING)
    by reflexivity.
  assert (Hn : Villager.isDayTime night = false) by reflexivity.
  assert (Hfar : ~ Villager.near (M := Host.fixed 0) night Examples.sleeper).
  { intro N. vm_compute in N. discriminate. }
  split; [exact Hz|]. split; [exact Hn|]. split; [exact Hfar|].
  destruct (villager_grounding_skips_sleepers (M := Host.fixed 0)
              night O Examples.sleeper) as [_ Hasleep].
  destruct (Hasleep Hz) as (_ & _ & _ & Hsleep & _).
  exact (Hsleep Hn Hfar).
Defined.

(** ** Birds: landing and home *)

Section BirdFacts.
Context {M : JSMath}.
Import Bird.

Ltac bird_fields :=
  cbn [update setMode setTimer setPose setCircle setSwoop setLanding
       setVelocity setAudio
       position lookTarget state flightMode stateTimer chunkId homeTree
       homeTreeWorld hasNest landingSpot velocity circleAngle circleRadius
       circleAltitude swoopTarget swoopPhase audioPlaying fst snd].

Lemma homeKept_refl b : homeKept b b.
Proof. unfold homeKept. auto. Qed.

Lemma homeKept_trans a b c : homeKept a b -> homeKept b c -> homeKept a c.
Proof.
  unfold homeKept. intros (A1 & A2 & A3 & A4) (B1 & B2 & B3 & B4).
  repeat split; congruence.
Qed.

Lemma findNewLandingSpot_on t g s g' :
  findNewLandingSpot t g = (Some s, g') -> landingSpotOn t s.
Proof.
  unfold findNewLandingSpot, landingSpotOn.
  destruct (leafPositions t) as [|l ls].
  - intro H. injection H as <- _. reflexivity.
  - unfold random. cbv beta iota zeta.
    destruct (at_ (l :: ls) _) as [p|] eqn:E; [|discriminate].
    intro H. injection H as <- _. exists p. split; [|reflexivity].
    unfold at_ in E. destruct (_ <? 0)%Z; [discriminate|].
    eapply List.nth_error_In; eauto.
Qed.

(** What leaving for RETURNING may change. *)
Lemma startReturning_fields g b b' g' :
  startReturning g b = (Some b', g') ->
  state b' = state b /\ position b' = position b /\ homeKept b b' /\
  (landingSpot b' = landingSpot b \/
   (hasNest b = false /\ flightMode b' = RETURNING /\
    landingSpotOn (homeTree b) (landingSpot b'))).
Proof.
  unfold startReturning.
  destruct (stateTimer b <=? 0).
  - cbv zeta. destruct (hasNest b) eqn:En; cbn [negb].
    + intro H. injection H as <- _. bird_fields.
      unfold homeKept. bird_fields. auto 10.
    + destruct (findNewLandingSpot (homeTree b) g) as [[s|] g1] eqn:Ef;
        [|discriminate].
      intro H. injection H as <- _. bird_fields.
      unfold homeKept. bird_fields. rewrite En.
      apply findNewLandingSpot_on in Ef. auto 10.
  - intro H. injection H as <- _. split; [reflexivity|].
    split; [reflexivity|]. split; [apply homeKept_refl | auto].
Qed.

Lemma exploring_fields e others g b b' g' :
  exploring e others g b = (Some b', g') ->
  state b' = state b /\ homeKept b b' /\
  (landingSpot b' = landingSpot b \/
   (hasNest b = false /\ flightMode b' = RETURNING /\
    landingSpotOn (homeTree b) (landingSpot b'))).
Proof.
  unfold exploring. cbv zeta.
  match goal with
  | |- context [let '(_, _) := ?x in _] => destruct x as [vel1 g1]
  end.
  match goal with
  | |- context [let '(_, _) := ?x in _] => destruct x as [vel2 g2]
  end.
  intro H. apply startReturning_fields in H.
  destruct H as (A & _ & B & C). revert A B C.
  unfold homeKept. bird_fields. auto.
Qed.

Lemma sitting_fields g b :
  homeKept b (fst (sitting g b)) /\
  landingSpot (fst (sitting g b)) = landingSpot b.
Proof.
  unfold sitting, startCircling, random, homeKept. cbv zeta.
  repeat match goal with
  | |- context [if ?c then _ else _] => destruct c
  end; bird_fields; auto.
Qed.

(** One frame of a flying bird: it stays in the air unless it was
    RETURNING and is within 0.2 of its perch. *)
Lemma flying_fields e others g b b' g' :
  flying e others g b = (Some b', g') ->
  homeKept b b' /\
  (landingSpot b' = landingSpot b \/
   (hasNest b = false /\ flightMode b' = RETURNING /\
    landingSpotOn (homeTree b) (landingSpot b'))) /\
  (state b' = state b \/
   (flightMode b = RETURNING /\ state b' = SITTING /\
    V3.distanceTo (position b) (perch b) < 2 # 10 /\
    position b' = perch b /\ landingSpot b' = landingSpot b /\
    stateTimer b' = Math_random (S (S g)) * 10 + 5)).
Proof.
  unfold flying. destruct (flightMode b) eqn:Em.
  - intro H. injection H as <- _.
    split; [apply homeKept_refl | auto].
  - cbv zeta. intro H. apply startReturning_fields in H.
    destruct H as (A & _ & B & C). revert A B C.
    unfold homeKept. bird_fields. auto.
  - intro H. apply exploring_fields in H. tauto.
  - destruct (swoopPhase b); cbv zeta.
    + destruct (_ <? _); intro H; injection H as <- _;
        unfold homeKept; bird_fields; auto 10.
    + destruct (_ <? _).
      * unfold startCircling, random. cbv beta iota zeta.
        intro H. injection H as <- _.
        unfold homeKept; bird_fields; auto 10.
      * intro H; injection H as <- _;
          unfold homeKept; bird_fields; auto 10.
  - cbv zeta. unfold random.
    destruct (V3.distanceTo (position b) (perch b) <? 2 # 10) eqn:Ed.
    + apply NumFacts.ltb_true in Ed.
      destruct (_ >? _); cbv beta iota zeta;
        intro H; injection H as <- _;
        unfold homeKept; bird_fields;
        (split; [auto|]); (split; [auto|]); right; auto 10.
    + destruct (_ >? _); cbv beta iota zeta;
        intro H; injection H as <- _;
        unfold homeKept; bird_fields; auto 10.
Qed.

Lemma setTimer_perch t b : perch (setTimer t b) = perch b.
Proof. reflexivity. Qed.

(** X16. A flying bird lands only from RETURNING: if a bird that starts
    a frame FLYING ends it SITTING, its flight mode was RETURNING, it
    was within 0.2 of its perch, and the frame put it exactly on the
    perch (which is where a sitting bird is expected) with a timer
    between 5 and 15 seconds.  In every other flight mode, and farther
    from the perch, the bird stays FLYING. *)
Theorem birds_land_only_from_returning :
  forall (e : Env) (others : list State) (g : RNG) (b b' : State) (g' : RNG),
    advance e others g b = (Some b', g') ->
    state b = FLYING ->
    (state b' = FLYING \/ state b' = SITTING) /\
    (state b' = SITTING ->
     flightMode b = RETURNING /\
     V3.distanceTo (position b) (perch b) < 2 # 10 /\
     position b' = perch b /\ perch b' = perch b /\
     stateTimer b' = Math_random (S (S g)) * 10 + 5 /\
     (unitDraws -> 5 <= stateTimer b' /\ stateTimer b' < 15)).
Proof.
  intros e others g b b' g' H Hs. unfold advance in H. cbv zeta in H.
  set (b0 := setTimer (stateTimer b - delta e) b) in H.
  assert (S0 : state b0 = FLYING) by exact Hs.
  rewrite S0 in H.
  apply flying_fields in H. destruct H as (K & _ & [A | A]).
  - rewrite A, S0. split; [auto|]. intro C. discriminate.
  - destruct A as (A1 & A2 & A3 & A4 & A5 & A6).
    split; [auto|]. intros _.
    destruct K as (_ & K2 & K3 & K4).
    split; [exact A1|]. split; [exact A3|]. split; [exact A4|].
    split.
    + unfold perch. rewrite K3, A5, K4. reflexivity.
    + split; [exact A6|]. intro Hu. rewrite A6.
      destruct (Hu (S (S g))). split; lra.
Qed.

(** X17. A frame never changes the home of a bird (its chunk id, home
    tree, the tree's position, whether it has a nest), and it returns a
    bird for every bird.  The landing spot changes in one case only: a
    flying bird without a nest that turns to RETURNING takes a new spot,
    which is a leaf position of its home tree lowered by 0.8 (the tree top
    if the tree has no leaves).  A bird with a nest keeps its spot for
    ever. *)
Theorem bird_keeps_its_home :
  unitDraws ->
  forall (e : Env) (others : list State) (g : RNG) (b : State),
    exists b' g',
      advance e others g b = (Some b', g') /\
      homeKept b b' /\
      (landingSpot b' = landingSpot b \/
       (hasNest b = false /\ state b = FLYING /\ flightMode b' = RETURNING /\
        landingSpotOn (homeTree b) (landingSpot b'))) /\
      (hasNest b = true -> landingSpot b' = landingSpot b).
Proof.
  intros Hu e others g b.
  destruct (bird_advance_spec e others g b Hu) as (b' & g' & H & _).
  exists b', g'. split; [exact H|].
  unfold advance in H. cbv zeta in H.
  set (b0 := setTimer (stateTimer b - delta e) b) in H.
  assert (K0 : homeKept b b0 /\ landingSpot b0 = landingSpot b /\
               state b0 = state b /\ hasNest b0 = hasNest b).
  { unfold homeKept. auto 10. }
  destruct K0 as (K0 & L0 & S0 & N0).
  assert (Main : homeKept b0 b' /\
            (landingSpot b' = landingSpot b0 \/
             (hasNest b0 = false /\ state b0 = FLYING /\
              flightMode b' = RETURNING /\
              landingSpotOn (homeTree b0) (landingSpot b')))).
  { destruct (state b0) eqn:Es.
    - destruct (sitting_fields g b0) as [A B].
      destruct (sitting g b0) as [b1 g1]. cbn [fst] in A, B.
      injection H as <- _. auto.
    - apply flying_fields in H. destruct H as (A & B & _).
      split; [exact A|]. destruct B as [B | (B1 & B2 & B3)]; auto. }
  destruct Main as (A & B).
  split; [exact (homeKept_trans _ _ _ K0 A)|].
  destruct K0 as (_ & T0 & _).
  rewrite L0, N0, S0, T0 in B. split; [exact B|].
  intro Hn. destruct B as [B | (B1 & _)]; [exact B | congruence].
Qed.

End BirdFacts.

(** A bird on its way back, a tenth of a unit from its perch, with a
    source that always draws 1/4: it lands, exactly on the perch, with a
    timer of 7.5 s. *)
Lemma birds_land_only_from_returning_witness :
  let t := {| treePosition := vec3 0 0 0; height := 5; trunkWidth := 1;
              leafPositions := [vec3 0 4 0]; nest := None |} in
  let b :=
    {| Bird.position := vec3 (1 # 10) 4 0; Bird.lookTarget := vec3 0 4 0;
       Bird.state := Bird.FLYING; Bird.flightMode := Bird.RETURNING;
       Bird.stateTimer := 3; Bird.chunkId := "0,0";
       Bird.homeTree := t; Bird.homeTreeWorld := vec3 0 0 0;
       Bird.hasNest := false; Bird.landingSpot := vec3 0 4 0;
       Bird.velocity := vec3 (-4) 0 0; Bird.circleAngle := 0;
       Bird.circleRadius := 0; Bird.circleAltitude := 0;
       Bird.swoopTarget := V3.zero; Bird.swoopPhase := Bird.DIVE;
       Bird.audioPlaying := false |} in
  let e := {| Bird.delta := 2 # 100 |} in
  unitDraws (M := Host.fixed (1 # 4)) /\ Bird.state b = Bird.FLYING /\
  exists b' g',
    Bird.advance (M := Host.fixed (1 # 4)) e [] O b = (Some b', g') /\
    Bird.state b' = Bird.SITTING /\
    Bird.flightMode b = Bird.RETURNING /\
    V3.distanceTo (M := Host.fixed (1 # 4)) (Bird.position b) (Bird.perch b)
    < 2 # 10 /\
    Bird.position b' = Bird.perch b /\
    Bird.stateTimer b' = (1 # 4) * 10 + 5 /\
    5 <= Bird.stateTimer b' /\ Bird.stateTimer b' < 15.
Proof.
  intros t b e.
  assert (Hu : unitDraws (M := Host.fixed (1 # 4))).
  { intro n. split; [discriminate | reflexivity]. }
  assert (Hs : Bird.state b = Bird.FLYING) by reflexivity.
  split; [exact Hu|]. split; [exact Hs|].
  destruct (Bird.advance (M := Host.fixed (1 # 4)) e [] O b)
    as [[b'|] g'] eqn:Hadv; [|vm_compute in Hadv; discriminate].
  assert (Hsit : Bird.state b' = Bird.SITTING).
  { vm_compute in Hadv. injection Hadv as <- _. reflexivity. }
  exists b', g'. split; [reflexivity|]. split; [exact Hsit|].
  destruct (birds_land_only_from_returning (M := Host.fixed (1 # 4))
              e [] O b b' g' Hadv Hs) as [_ Hland].
  destruct (Hland Hsit) as (Hm & Hd & Hp & _ & Ht & Hr).
  split; [exact Hm|]. split; [exact Hd|]. split; [exact Hp|].
  split; [exact Ht|]. exact (Hr Hu).
Defined.

(** A circling bird without a nest. *)
Lemma bird_keeps_its_home_witness :
  let t := {| treePosition := vec3 0 0 0; height := 5; trunkWidth := 1;
              leafPositions := [vec3 0 4 0]; nest := None |} in
  let b :=
    {| Bird.position := vec3 6 9 0; Bird.lookTarget := vec3 6 9 1;
       Bird.state := Bird.FLYING; Bird.flightMode := Bird.CIRCLING;
       Bird.stateTimer := 1 # 100; Bird.chunkId := "0,0";
       Bird.homeTree := t; Bird.homeTreeWorld := vec3 0 0 0;
       Bird.hasNest := false; Bird.landingSpot := vec3 0 4 0;
       Bird.velocity := vec3 0 0 4; Bird.circleAngle := 0;
       Bird.circleRadius := 6; Bird.circleAltitude := 9;
       Bird.swoopTarget := V3.zero; Bird.swoopPhase := Bird.DIVE;
       Bird.audioPlaying := false |} in
  let e := {| Bird.delta := 2 # 100 |} in
  unitDraws (M := Host.fixed (1 # 4)) /\
  exists b' g',
    Bird.advance (M := Host.fixed (1 # 4)) e [] O b = (Some b', g') /\
    homeKept b b'.
Proof.
  intros t b e.
  assert (Hu : unitDraws (M := Host.fixed (1 # 4))).
  { intro n. split; [discriminate | reflexivity]. }
  split; [exact Hu|].
  destruct (bird_keeps_its_home (M := Host.fixed (1 # 4)) Hu e [] O b)
    as (b' & g' & Hadv & Hk & _).
  exists b', g'. split; [exact Hadv | exact Hk].
Defined.

(** ** The player at rest, the pointer, the weapons *)

Section InputFacts.
Context {M : JSMath}.

Lemma idle_move inp delta s :
  idleInput inp ->
  Player.position (Player.move inp delta s) = Player.position s /\
  Player.velocityY (Player.move inp delta s) = Player.velocityY s.
Proof.
  unfold idleInput, Player.move. destruct (Player.isMobile inp).
  - intros [Hy _]. cbv zeta.
    apply Qeq_bool_iff in Hy. rewrite Hy. cbn [Player.position Player.velocityY].
    auto.
  - intros (-> & -> & -> & -> & _). cbv zeta.
    cbn [Player.position Player.velocityY]. auto.
Qed.

Lemma idle_jump inp s :
  idleInput inp ->
  Player.jump inp s
  = {| Player.position := Player.position s;
       Player.rotationY := Player.rotationY s;
       Player.velocityY := Player.velocityY s;
       Player.isOnGround := Player.isOnGround s;
       Player.wasOnGround := Player.isOnGround s |}.
Proof.
  unfold idleInput, Player.jump. destruct (Player.isMobile inp).
  - intros [_ ->]. reflexivity.
  - intros (_ & _ & _ & _ & ->). reflexivity.
Qed.

Lemma idle_frame inp delta s :
  idleInput inp -> 0 <= delta ->
  Player.velocityY s <= 0 ->
  vy (Player.position s)
  == getHeight (vx (Player.position s)) (vz (Player.position s)) + 1 ->
  let s' := Player.advance inp delta s in
  Player.position s'
  = vec3 (vx (Player.position s))
         (getHeight (vx (Player.position s)) (vz (Player.position s)) + 1)
         (vz (Player.position s)) /\
  Player.velocityY s' = 0 /\
  Player.isOnGround s' = true /\ Player.wasOnGround s' = true.
Proof.
  intros Hi Hd Hv Hy. cbv zeta. unfold Player.advance.
  rewrite (idle_jump inp _ Hi).
  cbn [Player.position Player.velocityY Player.isOnGround Player.wasOnGround].
  destruct (idle_move inp delta s Hi) as [Hp Hvel].
  unfold Player.integrate. cbv zeta. rewrite Hp, Hvel.
  set (ground := getHeight _ _ + 1) in *.
  assert (E : (vy (Player.position s)
               + (Player.velocityY s - GRAVITY * delta) * delta
               <=? ground) = true).
  { apply NumFacts.leb_true. unfold GRAVITY. nra. }
  rewrite E.
  cbn [Player.position Player.velocityY Player.isOnGround Player.wasOnGround].
  auto.
Qed.

(** X18. A player who stands at rest height (one unit above the
    terrain) with no upward velocity and gives no movement or jump input
    stays where they are, frame after frame, whatever the frame times:
    after any number of such frames x and z are unchanged, y is the
    terrain height plus one, the vertical velocity is zero and the player
    is on the ground. *)
Theorem resting_player_stays_put :
  forall (frames : list (Player.Input * Q)) (s : Player.State),
    frames <> [] ->
    (forall inp delta, In (inp, delta) frames ->
                       idleInput inp /\ 0 <= delta) ->
    Player.velocityY s <= 0 ->
    vy (Player.position s)
    == getHeight (vx (Player.position s)) (vz (Player.position s)) + 1 ->
    let s' := Player.run frames s in
    Player.position s'
    = vec3 (vx (Player.position s))
           (getHeight (vx (Player.position s)) (vz (Player.position s)) + 1)
           (vz (Player.position s)) /\
    Player.velocityY s' = 0 /\
    Player.isOnGround s' = true /\ Player.wasOnGround s' = true.
Proof.
  induction frames as [|[inp delta] rest IH]; intros s Hne Hall Hv Hy;
    [congruence|].
  cbv zeta. cbn [Player.run].
  destruct (Hall inp delta (or_introl eq_refl)) as [Hi Hd].
  destruct (idle_frame inp delta s Hi Hd Hv Hy) as (P & V & G & W).
  destruct rest as [|f rest'].
  - cbn [Player.run]. auto.
  - set (s1 := Player.advance inp delta s) in *.
    assert (Hall' : forall i d, In (i, d) (f :: rest') ->
                                idleInput i /\ 0 <= d).
    { intros i d Hin. apply Hall. right. exact Hin. }
    assert (Hv1 : Player.velocityY s1 <= 0) by (rewrite V; lra).
    assert (Hy1 : vy (Player.position s1)
                  == getHeight (vx (Player.position s1))
                               (vz (Player.position s1)) + 1).
    { rewrite P. cbn [vx vy vz]. reflexivity. }
    destruct (IH s1 (fun K => ltac:(discriminate)) Hall' Hv1 Hy1)
      as (P' & V' & G' & W').
    rewrite P in P'. cbn [vx vy vz] in P'. auto.
Qed.

End InputFacts.

Section PointerFacts.
Context {M : JSMath}.
Import Pointer.

Lemma clamp_range (lim p : Q) :
  0 <= lim ->
  - lim <= Qmax (- lim) (Qmin lim p) /\ Qmax (- lim) (Qmin lim p) <= lim /\
  (- lim <= p -> p <= lim -> Qmax (- lim) (Qmin lim p) == p).
Proof.
  intro H.
  destruct (Q.max_spec (- lim) (Qmin lim p)) as [[A ->] | [A ->]];
    destruct (Q.min_spec lim p) as [[B E] | [B E]]; rewrite ?E in *;
    repeat split; try lra; intros; lra.
Qed.

(** X19. The mouse handler keeps the pitch of the view within
    [FIRST_PERSON_PITCH_LIMIT] (provided the limit, pi/2 - 0.1, is not
    negative): a move with the pointer locked turns the yaw by the
    horizontal movement times the sensitivity and leaves the pitch within
    the limit, unchanged by the clamp when it already is; a move without
    the lock changes nothing; so after any sequence of mouse events a
    pitch that was within the limit still is. *)
Theorem pitch_stays_within_the_limit :
  0 <= FIRST_PERSON_PITCH_LIMIT ->
  (forall ev l, locked ev = false -> handleMouseMove ev l = l) /\
  (forall ev l,
     locked ev = true ->
     let l' := handleMouseMove ev l in
     let target := pitch l - movementY ev * MOUSE_SENSITIVITY in
     yaw l' = yaw l - movementX ev * MOUSE_SENSITIVITY /\
     - FIRST_PERSON_PITCH_LIMIT <= pitch l' /\
     pitch l' <= FIRST_PERSON_PITCH_LIMIT /\
     (- FIRST_PERSON_PITCH_LIMIT <= target ->
      target <= FIRST_PERSON_PITCH_LIMIT -> pitch l' == target)) /\
  (forall evs l,
     - FIRST_PERSON_PITCH_LIMIT <= pitch l ->
     pitch l <= FIRST_PERSON_PITCH_LIMIT ->
     - FIRST_PERSON_PITCH_LIMIT <= pitch (looks evs l) /\
     pitch (looks evs l) <= FIRST_PERSON_PITCH_LIMIT).
Proof.
  intro Hlim.
  assert (Hone : forall ev l,
            locked ev = true ->
            yaw (handleMouseMove ev l)
            = yaw l - movementX ev * MOUSE_SENSITIVITY /\
            - FIRST_PERSON_PITCH_LIMIT <= pitch (handleMouseMove ev l) /\
            pitch (handleMouseMove ev l) <= FIRST_PERSON_PITCH_LIMIT /\
            (- FIRST_PERSON_PITCH_LIMIT
             <= pitch l - movementY ev * MOUSE_SENSITIVITY ->
             pitch l - movementY ev * MOUSE_SENSITIVITY
             <= FIRST_PERSON_PITCH_LIMIT ->
             pitch (handleMouseMove ev l)
             == pitch l - movementY ev * MOUSE_SENSITIVITY)).
  { intros ev l Hl. unfold handleMouseMove. rewrite Hl. cbn [negb].
    cbv zeta. cbn [yaw pitch]. split; [reflexivity|].
    apply clamp_range. exact Hlim. }
  split; [|split].
  - intros ev l Hl. unfold handleMouseMove. rewrite Hl. reflexivity.
  - intros ev l Hl. cbv zeta. apply Hone. exact Hl.
  - unfold looks. induction evs as [|ev rest IH]; intros l H1 H2.
    + cbn [List.fold_left]. auto.
    + cbn [List.fold_left]. apply IH.
      * destruct (locked ev) eqn:El.
        -- apply Hone. exact El.
        -- unfold handleMouseMove. rewrite El. exact H1.
      * destruct (locked ev) eqn:El.
        -- apply Hone. exact El.
        -- unfold handleMouseMove. rewrite El. exact H2.
Qed.

End PointerFacts.

Section WeaponFacts.
Context {M : JSMath}.
Import Weapons.

Lemma isWeaponKey_single (c : ascii) :
  isWeaponKey (String c EmptyString) = true ->
  exists d, digitOf c = Some d /\ (1 <= d <= 9)%Z.
Proof.
  destruct c as [b0 b1 b2 b3 b4 b5 b6 b7].
  destruct b0, b1, b2, b3, b4, b5, b6, b7;
    intro H; try (vm_compute in H; discriminate H);
    vm_compute; eexists; (split; [reflexivity|]); split; discriminate.
Qed.

Lemma gunLibrary_at (i : Z) :
  (0 <= i < 9)%Z ->
  exists gun, at_ gunLibrary i = Some gun /\
              List.nth_error gunNames (Z.to_nat i) = Some (gunName gun).
Proof.
  intro H.
  assert (K : (i = 0 \/ i = 1 \/ i = 2 \/ i = 3 \/ i = 4 \/ i = 5 \/ i = 6
               \/ i = 7 \/ i = 8)%Z) by lia.
  destruct K as [-> | [-> | [-> | [-> | [-> | [-> | [-> | [-> | ->]]]]]]]];
    eexists; split; reflexivity.
Qed.

(** X20. The weapon index always names a gun of the library.  A key of
    one character either is no weapon key or switches to the index
    [digit - 1], between 0 and 8, or to null when that weapon is already
    in hand; a click on a hotbar slot does the same for the slot's index;
    the library has a gun, with the name the hotbar shows, at every such
    index; and with such an index in hand [handleShoot] never reads
    [fireRate] of an undefined gun. *)
Theorem weapon_index_stays_in_library :
  (forall key current,
     String.length key = 1%nat ->
     match weaponKey key current with
     | NoSwitch => isWeaponKey key = false
     | SwitchTo None =>
       exists i, current = Some i /\ parseIntKey key = Some (i + 1)%Z /\
                 (0 <= i < 9)%Z
     | SwitchTo (Some i) =>
       (0 <= i < 9)%Z /\ current <> Some i /\
       parseIntKey key = Some (i + 1)%Z
     | SwitchNaN => False
     end) /\
  (forall slot current,
     In slot hotbarSlots ->
     (0 <= slot < 9)%Z /\
     match handleSlotClick slot current with
     | None => current = Some slot
     | Some i => i = slot /\ current <> Some slot
     end) /\
  (forall i,
     (0 <= i < 9)%Z ->
     exists gun,
       at_ gunLibrary i = Some gun /\
       List.nth_error gunNames (Z.to_nat i) = Some (gunName gun) /\
       forall now aim g a, handleShoot (Some i) now aim g a <> None).
Proof.
  split; [|split].
  - intros key current Hlen.
    destruct key as [|c [|c' rest]]; try discriminate Hlen.
    unfold weaponKey.
    destruct (isWeaponKey (String c EmptyString)) eqn:Ek; [|reflexivity].
    destruct (isWeaponKey_single c Ek) as (d & Hd & Hr).
    unfold parseIntKey. rewrite Hd. cbn [digitsFrom]. cbv zeta.
    destruct current as [cur|].
    + destruct (Z.eqb_spec cur (d - 1)) as [-> | Hne].
      * exists (d - 1)%Z. split; [reflexivity|].
        split; [f_equal; lia | lia].
      * split; [lia|]. split; [congruence | f_equal; lia].
    + split; [lia|]. split; [discriminate | f_equal; lia].
  - intros slot current Hin. unfold hotbarSlots in Hin.
    apply in_map_iff in Hin. destruct Hin as (k & <- & Hk).
    apply in_seq in Hk. cbn [gunNames List.length] in Hk.
    split; [lia|].
    unfold handleSlotClick. destruct current as [cur|].
    + destruct (Z.eqb_spec cur (Z.of_nat k)) as [-> | Hne]; [reflexivity|].
      split; [reflexivity | congruence].
    + split; [reflexivity | discriminate].
  - intros i Hi. destruct (gunLibrary_at i Hi) as (gun & Hg & Hn).
    exists gun. split; [exact Hg|]. split; [exact Hn|].
    intros now aim g a. unfold handleShoot. rewrite Hg.
    destruct (_ <? _); [discriminate|].
    destruct (firstHit aim); [destruct (ParticleSystem.emit _ _ _)|];
      discriminate.
Qed.

Lemma handleShoot_step i gun now aim g a :
  at_ gunLibrary i = Some gun ->
  exists a' g' fired,
    handleShoot (Some i) now aim g a = Some (a', g', fired) /\
    (fired = false -> a' = a /\ g' = g /\ now - lastShotTime a < fireRate gun) /\
    (fired = true ->
     fireRate gun <= now - lastShotTime a /\ lastShotTime a' = now /\
     exists t, activeTracers a' = activeTracers a ++ [t] /\
               tracerLife t = 5 # 100 /\
               tracerStart t = muzzlePosition aim /\
               tracerEnd t = match firstHit aim with
                             | Some point => point
                             | None => rayEnd aim
                             end).
Proof.
  intro Hg. unfold handleShoot. rewrite Hg.
  destruct (now - lastShotTime a <? fireRate gun) eqn:E.
  - apply NumFacts.ltb_true in E. exists a, g, false.
    split; [reflexivity|]. split; [auto | discriminate].
  - apply NumFacts.ltb_false in E.
    destruct (firstHit aim) as [point|].
    + destruct (ParticleSystem.emit _ g (sparks a)) as [sp g1].
      eexists _, _, true. split; [reflexivity|].
      split; [discriminate|]. intros _.
      cbn [lastShotTime activeTracers].
      split; [exact E|]. split; [reflexivity|].
      eexists. split; [reflexivity|]. cbn. auto.
    + eexists _, _, true. split; [reflexivity|].
      split; [discriminate|]. intros _.
      cbn [lastShotTime activeTracers].
      split; [exact E|]. split; [reflexivity|].
      eexists. split; [reflexivity|]. cbn. auto.
Qed.

Lemma last_cons {A : Type} (l : list A) :
  forall x d, List.last (x :: l) d = List.last l x.
Proof.
  induction l as [|y l IH]; intros x d; [reflexivity|].
  change (List.last (x :: y :: l) d) with (List.last (y :: l) d).
  rewrite !IH. reflexivity.
Qed.

(** X21. Shots respect the fire rate.  With a gun of the library in
    hand, any sequence of clicks is handled without an error; a click
    fires exactly when at least the gun's [fireRate] has passed on the
    clock since the last shot, so every shot fired comes at least
    [fireRate] after the one before it (the first after the recorded last
    shot time, which starts at 0); each shot adds one tracer and records
    its time; with no weapon in hand nothing happens. *)
Theorem shots_respect_the_fire_rate :
  (forall clicks g a, volley None clicks g a = Some (a, g, [])) /\
  forall (i : Z) (gun : Gun),
    at_ gunLibrary i = Some gun ->
    (forall now aim g a,
       exists a' g' fired,
         handleShoot (Some i) now aim g a = Some (a', g', fired) /\
         (fired = true <-> fireRate gun <= now - lastShotTime a) /\
         (fired = false -> a' = a /\ g' = g)) /\
    forall (clicks : list (Q * Aim)) (g : RNG) (a : Armory),
      exists aN gN times,
        volley (Some i) clicks g a = Some (aN, gN, times) /\
        spaced (fireRate gun) (lastShotTime a) times /\
        lastShotTime aN = List.last times (lastShotTime a) /\
        List.length (activeTracers aN)
        = (List.length (activeTracers a) + List.length times)%nat /\
        incl times (List.map fst clicks).
Proof.
  split.
  { induction clicks as [|[now aim] rest IH]; intros g a; [reflexivity|].
    cbn [volley handleShoot]. rewrite IH. reflexivity. }
  intros i gun Hg. split.
  - intros now aim g a.
    destruct (handleShoot_step i gun now aim g a Hg)
      as (a' & g' & fired & H & F & T).
    exists a', g', fired. split; [exact H|]. split.
    + split.
      * intro K. apply T in K. tauto.
      * intro K. destruct fired; [reflexivity|].
        destruct (F eq_refl) as (_ & _ & C). lra.
    + intro K. destruct (F K) as (A & B & _). auto.
  - induction clicks as [|[now aim] rest IH]; intros g a.
    + exists a, g, []. cbn [volley spaced List.last List.length List.map].
      split; [reflexivity|]. split; [exact I|]. split; [reflexivity|].
      split; [lia | apply incl_refl].
    + cbn [volley].
      destruct (handleShoot_step i gun now aim g a Hg)
        as (a' & g' & fired & -> & F & T).
      destruct (IH g' a') as (aN & gN & times & -> & Sp & La & Le & In').
      destruct fired.
      * destruct (T eq_refl) as (T1 & T2 & t & T3 & _).
        exists aN, gN, (now :: times). split; [reflexivity|].
        rewrite T2 in Sp, La. rewrite T3, List.length_app in Le.
        cbn [List.length] in Le.
        split; [cbn [spaced]; auto|].
        split.
        { rewrite La. symmetry. apply last_cons. }
        split; [cbn [List.length]; lia|].
        cbn [List.map fst]. intros x [<- | Hx]; [left; reflexivity|].
        right. apply In'. exact Hx.
      * destruct (F eq_refl) as (-> & -> & _).
        exists aN, gN, times. split; [reflexivity|].
        split; [exact Sp|]. split; [exact La|]. split; [exact Le|].
        cbn [List.map fst]. intros x Hx. right. apply In'. exact Hx.
Qed.

Lemma sweepFrom_beyond delta n :
  forall k ts, (List.length ts <= k)%nat -> sweepFrom n k delta ts = ts.
Proof.
  induction n as [|n IH]; intros k ts H; [reflexivity|].
  cbn [sweepFrom].
  assert (E : List.nth_error ts k = None)
    by (apply List.nth_error_None; exact H).
  rewrite E. apply IH. lia.
Qed.

Lemma nth_error_middle {A : Type} (pre : list A) (x : A) (post : list A) :
  List.nth_error (pre ++ x :: post) (List.length pre) = Some x.
Proof.
  rewrite List.nth_error_app2 by lia. rewrite Nat.sub_diag. reflexivity.
Qed.

Lemma removeAt_middle {A : Type} (pre : list A) (x : A) (post : list A) :
  removeAt (List.length pre) (pre ++ x :: post) = pre ++ post.
Proof.
  unfold removeAt.
  rewrite List.firstn_app, List.firstn_all, Nat.sub_diag.
  cbn [List.firstn]. rewrite app_nil_r.
  rewrite List.skipn_app.
  rewrite (List.skipn_all2 pre) by lia.
  replace (S (List.length pre) - List.length pre)%nat with 1%nat by lia.
  reflexivity.
Qed.

Lemma setAt_middle {A : Type} (pre : list A) (x y : A) (post : list A) :
  setAt (List.length pre) y (pre ++ x :: post) = pre ++ y :: post.
Proof.
  unfold setAt.
  rewrite List.firstn_app, List.firstn_all, Nat.sub_diag.
  cbn [List.firstn]. rewrite app_nil_r.
  rewrite List.skipn_app.
  rewrite (List.skipn_all2 pre) by lia.
  replace (S (List.length pre) - List.length pre)%nat with 1%nat by lia.
  reflexivity.
Qed.

(** The visits left of the index [length pre] see only what follows
    [pre]. *)
Lemma sweepFrom_shift delta n :
  forall pre ts,
    sweepFrom n (List.length pre) delta (pre ++ ts)
    = pre ++ sweepFrom n 0 delta ts.
Proof.
  induction n as [|n IH]; intros pre ts; [reflexivity|].
  cbn [sweepFrom].
  destruct ts as [|t rest].
  - rewrite app_nil_r.
    assert (E : List.nth_error pre (List.length pre) = None)
      by (apply List.nth_error_None; lia).
    rewrite E. cbn [List.nth_error].
    rewrite !sweepFrom_beyond by (cbn [List.length]; lia).
    rewrite app_nil_r. reflexivity.
  - rewrite nth_error_middle. cbn [List.nth_error]. cbv zeta.
    destruct (tracerLife (aged delta t) <=? 0).
    + rewrite removeAt_middle.
      change (removeAt 0 (t :: rest)) with rest.
      destruct rest as [|u rest'].
      * rewrite app_nil_r.
        rewrite !sweepFrom_beyond by (cbn [List.length]; lia).
        rewrite app_nil_r. reflexivity.
      * replace (pre ++ u :: rest') with ((pre ++ [u]) ++ rest')
          by (rewrite <- app_assoc; reflexivity).
        replace (S (List.length pre)) with (List.length (pre ++ [u]))
          by (rewrite List.length_app; cbn [List.length]; lia).
        rewrite IH.
        change (sweepFrom n 1 delta (u :: rest'))
          with (sweepFrom n (List.length [u]) delta ([u] ++ rest')).
        rewrite IH. rewrite <- app_assoc. reflexivity.
    + rewrite setAt_middle.
      change (setAt 0 (aged delta t) (t :: rest)) with (aged delta t :: rest).
      replace (pre ++ aged delta t :: rest)
        with ((pre ++ [aged delta t]) ++ rest)
        by (rewrite <- app_assoc; reflexivity).
      replace (S (List.length pre))
        with (List.length (pre ++ [aged delta t]))
        by (rewrite List.length_app; cbn [List.length]; lia).
      rewrite IH.
      change (sweepFrom n 1 delta (aged delta t :: rest))
        with (sweepFrom n (List.length [aged delta t]) delta
                ([aged delta t] ++ rest)).
      rewrite IH. rewrite <- app_assoc. reflexivity.
Qed.

(** One visit of the sweep, by what it finds at the front. *)
Lemma sweepFrom_front delta n t rest :
  sweepFrom (S n) 0 delta (t :: rest)
  = if tracerLife t - delta <=? 0 then
      match rest with
      | [] => []
      | u :: rest' => u :: sweepFrom n 0 delta rest'
      end
    else aged delta t :: sweepFrom n 0 delta rest.
Proof.
  cbn [sweepFrom List.nth_error]. cbv zeta.
  change (tracerLife (aged delta t)) with (tracerLife t - delta).
  destruct (tracerLife t - delta <=? 0).
  - change (removeAt 0 (t :: rest)) with rest.
    destruct rest as [|u rest'].
    + apply sweepFrom_beyond. cbn [List.length]. lia.
    + apply (sweepFrom_shift delta n [u] rest').
  - change (setAt 0 (aged delta t) (t :: rest)) with (aged delta t :: rest).
    apply (sweepFrom_shift delta n [aged delta t] rest).
Qed.

(** Visits beyond the length of the array find nothing. *)
Lemma sweepFrom_fuel delta (len : nat) :
  forall ts n m,
    (List.length ts <= len)%nat ->
    (List.length ts <= n)%nat -> (List.length ts <= m)%nat ->
    sweepFrom n 0 delta ts = sweepFrom m 0 delta ts.
Proof.
  induction len as [|len IH]; intros ts n m Hl Hn Hm.
  - destruct ts; [|cbn [List.length] in Hl; lia].
    rewrite !sweepFrom_beyond by (cbn [List.length]; lia). reflexivity.
  - destruct ts as [|t rest].
    + rewrite !sweepFrom_beyond by (cbn [List.length]; lia). reflexivity.
    + cbn [List.length] in Hl, Hn, Hm.
      destruct n as [|n]; [lia|]. destruct m as [|m]; [lia|].
      rewrite !sweepFrom_front.
      destruct (tracerLife t - delta <=? 0).
      * destruct rest as [|u rest']; [reflexivity|].
        cbn [List.length] in Hl, Hn, Hm.
        f_equal. apply IH; lia.
      * f_equal. apply IH; lia.
Qed.

(** X22. The tracer sweep of a frame, which splices the array it is
    iterating with [forEach]: a tracer with life left after the frame's
    delta stays, aged by delta, and the sweep goes on with the next one;
    a tracer whose life has run out is removed, and the tracer that
    followed it (which moves into its index) is skipped by the sweep: it
    is neither aged nor removed in this frame, and the sweep goes on with
    the one after.  The sweep never adds a tracer. *)
Theorem tracer_sweep_skips_after_a_removal :
  forall delta : Q,
    sweepTracers delta [] = [] /\
    (forall t rest,
       0 < tracerLife t - delta ->
       sweepTracers delta (t :: rest)
       = aged delta t :: sweepTracers delta rest) /\
    (forall t, tracerLife t - delta <= 0 -> sweepTracers delta [t] = []) /\
    (forall t u rest,
       tracerLife t - delta <= 0 ->
       sweepTracers delta (t :: u :: rest)
       = u :: sweepTracers delta rest) /\
    (forall ts,
       (List.length (sweepTracers delta ts) <= List.length ts)%nat).
Proof.
  intro delta. unfold sweepTracers.
  assert (Hfront : forall t rest,
            sweepFrom (List.length (t :: rest)) 0 delta (t :: rest)
            = if tracerLife t - delta <=? 0 then
                match rest with
                | [] => []
                | u :: rest' =>
                  u :: sweepFrom (List.length rest') 0 delta rest'
                end
              else aged delta t :: sweepFrom (List.length rest) 0 delta rest).
  { intros t rest. cbn [List.length]. rewrite sweepFrom_front.
    destruct (tracerLife t - delta <=? 0); [|reflexivity].
    destruct rest as [|u rest']; [reflexivity|].
    f_equal. apply (sweepFrom_fuel delta (List.length rest'));
      cbn [List.length]; lia. }
  split; [reflexivity|]. split; [|split; [|split]].
  - intros t rest H. rewrite Hfront.
    apply NumFacts.leb_false in H. rewrite H. reflexivity.
  - intros t H. rewrite Hfront.
    apply NumFacts.leb_true in H. rewrite H. reflexivity.
  - intros t u rest H. rewrite Hfront.
    apply NumFacts.leb_true in H. rewrite H. reflexivity.
  - intro ts.
    assert (G : forall len ts, (List.length ts <= len)%nat ->
              (List.length (sweepFrom (List.length ts) 0 delta ts)
               <= List.length ts)%nat).
    { induction len as [|len IH]; intros l Hl.
      - destruct l; [cbn; lia | cbn [List.length] in Hl; lia].
      - destruct l as [|t rest]; [cbn; lia|].
        rewrite Hfront. cbn [List.length] in Hl.
        destruct (tracerLife t - delta <=? 0).
        + destruct rest as [|u rest']; [cbn; lia|].
          cbn [List.length] in *.
          pose proof (IH rest' ltac:(lia)). lia.
        + cbn [List.length]. pose proof (IH rest ltac:(lia)). lia. }
    apply (G (List.length ts)). lia.
Qed.

End WeaponFacts.

(** A player standing on the ground at the origin for three frames with
    no key down. *)
Lemma resting_player_stays_put_witness :
  let still :=
    {| Player.isMobile := false; Player.moveX := 0; Player.moveY := 0;
       Player.keyForward := false; Player.keyBack := false;
       Player.keyLeft := false; Player.keyRight := false;
       Player.keyShift := true; Player.keySpace := false;
       Player.isJumping := false; Player.lookDelta := 1 # 10 |} in
  let frames := [(still, 1 # 60); (still, 1 # 30); (still, 0)] in
  let s :=
    {| Player.position := vec3 0 1 0; Player.rotationY := 0;
       Player.velocityY := 0; Player.isOnGround := true;
       Player.wasOnGround := true |} in
  let s' := Player.run (M := Host.fixed 0) frames s in
  frames <> [] /\
  (forall inp delta, In (inp, delta) frames -> idleInput inp /\ 0 <= delta) /\
  Player.velocityY s <= 0 /\
  vy (Player.position s)
  == getHeight (M := Host.fixed 0) (vx (Player.position s))
               (vz (Player.position s)) + 1 /\
  Player.velocityY s' = 0 /\ Player.isOnGround s' = true.
Proof.
  intros still frames s s'.
  assert (H1 : frames <> []) by discriminate.
  assert (H2 : forall inp delta,
             In (inp, delta) frames -> idleInput inp /\ 0 <= delta).
  { intros inp delta [E | [E | [E | []]]]; injection E as <- <-;
      (split; [repeat split | discriminate]). }
  assert (H3 : Player.velocityY s <= 0) by discriminate.
  assert (H4 : vy (Player.position s)
               == getHeight (M := Host.fixed 0) (vx (Player.position s))
                            (vz (Player.position s)) + 1) by reflexivity.
  split; [exact H1|]. split; [exact H2|]. split; [exact H3|].
  split; [exact H4|].
  pose proof (resting_player_stays_put (M := Host.fixed 0) frames s
                H1 H2 H3 H4) as K.
  cbv zeta in K. destruct K as (_ & V & G & _).
  split; [exact V | exact G].
Defined.

(** Two large downward drags of the mouse, starting level. *)
Lemma pitch_stays_within_the_limit_witness :
  let drag := {| Pointer.locked := true; Pointer.movementX := 40;
                 Pointer.movementY := 900 |} in
  let l := {| Pointer.yaw := 0; Pointer.pitch := 0 |} in
  let limit := Pointer.FIRST_PERSON_PITCH_LIMIT (M := Host.fixed 0) in
  0 <= limit /\
  - limit <= Pointer.pitch l /\ Pointer.pitch l <= limit /\
  - limit
  <= Pointer.pitch (Pointer.looks (M := Host.fixed 0) [drag; drag] l) /\
  Pointer.pitch (Pointer.looks (M := Host.fixed 0) [drag; drag] l) <= limit.
Proof.
  intros drag l limit.
  assert (H : 0 <= limit) by (vm_compute; discriminate).
  assert (A : - limit <= Pointer.pitch l) by (vm_compute; discriminate).
  assert (B : Pointer.pitch l <= limit) by (vm_compute; discriminate).
  split; [exact H|]. split; [exact A|]. split; [exact B|].
  destruct (pitch_stays_within_the_limit (M := Host.fixed 0) H)
    as (_ & _ & K).
  exact (K [drag; drag] l A B).
Defined.

(** The key 3 with no weapon in hand, and the third hotbar slot. *)
Lemma weapon_index_stays_in_library_witness :
  String.length "3" = 1%nat /\
  ((0 <= 2 < 9)%Z /\ None <> Some 2%Z /\
   Weapons.parseIntKey "3" = Some (2 + 1)%Z) /\
  In 2%Z Weapons.hotbarSlots /\
  exists gun,
    at_ Weapons.gunLibrary 2 = Some gun /\
    List.nth_error Weapons.gunNames (Z.to_nat 2) = Some (Weapons.gunName gun).
Proof.
  assert (H1 : String.length "3" = 1%nat) by reflexivity.
  assert (H2 : In 2%Z Weapons.hotbarSlots) by (vm_compute; tauto).
  assert (H3 : (0 <= 2 < 9)%Z) by lia.
  destruct (weapon_index_stays_in_library (M := Host.fixed 0))
    as (K & _ & L).
  split; [exact H1|].
  split; [exact (K "3"%string None H1)|].
  split; [exact H2|].
  destruct (L 2%Z H3) as (gun & G1 & G2 & _).
  exists gun. split; [exact G1 | exact G2].
Defined.

(** Three clicks with the pistol, 0.1 s apart: the second comes too
    soon. *)
Lemma shots_respect_the_fire_rate_witness :
  let pistol := {| Weapons.gunName := "Pistol"; Weapons.fireRate := 2 # 10 |} in
  let aim := {| Weapons.firstHit := None; Weapons.rayEnd := vec3 0 0 300;
                Weapons.muzzlePosition := vec3 0 1 0 |} in
  let a := {| Weapons.lastShotTime := 0; Weapons.activeTracers := [];
              Weapons.sparks := ParticleSystem.create 4 (98 # 10) |} in
  let clicks := [(1, aim); (11 # 10, aim); (12 # 10, aim)] in
  at_ Weapons.gunLibrary 0 = Some pistol /\
  exists aN gN times,
    Weapons.volley (M := Host.fixed 0) (Some 0%Z) clicks O a
    = Some (aN, gN, times) /\
    spaced (2 # 10) 0 times /\
    List.length (Weapons.activeTracers aN) = List.length times.
Proof.
  intros pistol aim a clicks.
  assert (H : at_ Weapons.gunLibrary 0 = Some pistol) by reflexivity.
  split; [exact H|].
  destruct (proj2 (shots_respect_the_fire_rate (M := Host.fixed 0))
              0%Z pistol H) as [_ K].
  destruct (K clicks O a) as (aN & gN & times & V & S & _ & T & _).
  exists aN, gN, times. split; [exact V|]. split; [exact S | exact T].
Defined.

(** A tracer that expires in this frame, followed by a fresh one: the
    fresh one is not aged. *)
Lemma tracer_sweep_skips_after_a_removal_witness :
  let t := {| Weapons.tracerStart := vec3 0 1 0;
              Weapons.tracerEnd := vec3 0 1 9;
              Weapons.tracerLife := 1 # 100 |} in
  let u := {| Weapons.tracerStart := vec3 0 1 0;
              Weapons.tracerEnd := vec3 3 1 9;
              Weapons.tracerLife := 5 # 100 |} in
  Weapons.tracerLife t - (2 # 100) <= 0 /\
  Weapons.sweepTracers (2 # 100) [t; u]
  = u :: Weapons.sweepTracers (2 # 100) [].
Proof.
  intros t u.
  assert (H : Weapons.tracerLife t - (2 # 100) <= 0)
    by (vm_compute; discriminate).
  split; [exact H|].
  destruct (tracer_sweep_skips_after_a_removal (2 # 100))
    as (_ & _ & _ & K & _).
  exact (K t u [] H).
Defined.

(** ** The streamed window *)

Section WindowFacts.
Context {M : JSMath}.
Import World.

Lemma span_In (c x : Z) :
  In x (List.map (fun k => (c - RENDER_DISTANCE_IN_CHUNKS + Z.of_nat k)%Z)
          (List.seq 0 (Z.to_nat (2 * RENDER_DISTANCE_IN_CHUNKS + 1))))
  <-> (Z.abs (x - c) <= RENDER_DISTANCE_IN_CHUNKS)%Z.
Proof.
  unfold RENDER_DISTANCE_IN_CHUNKS.
  change (Z.to_nat (2 * 5 + 1)) with 11%nat.
  rewrite in_map_iff. split.
  - intros (k & <- & Hk). apply in_seq in Hk. lia.
  - intro H. exists (Z.to_nat (x - c + 5)). split; [lia|].
    apply in_seq. lia.
Qed.

(** The generation loops visit the 11 x 11 coordinates around the
    current chunk. *)
Lemma window_In cx cz x z :
  In (x, z) (window cx cz)
  <-> (Z.abs (x - cx) <= RENDER_DISTANCE_IN_CHUNKS
       /\ Z.abs (z - cz) <= RENDER_DISTANCE_IN_CHUNKS)%Z.
Proof.
  unfold window. cbv zeta. rewrite In_flatMap. split.
  - intros (x' & Hx & Hz). apply in_map_iff in Hz.
    destruct Hz as (z' & E & Hz). injection E as -> ->.
    apply span_In in Hx. apply span_In in Hz. auto.
  - intros [Hx Hz]. exists x. split; [apply span_In; exact Hx|].
    apply in_map_iff. exists z. split; [reflexivity|].
    apply span_In. exact Hz.
Qed.

Lemma window_length cx cz : List.length (window cx cz) = 121%nat.
Proof.
  unfold window, flatMap, RENDER_DISTANCE_IN_CHUNKS. cbv zeta.
  change (Z.to_nat (2 * 5 + 1)) with 11%nat.
  cbn [List.seq List.map List.concat].
  rewrite !List.length_app. cbn [List.length]. reflexivity.
Qed.

Lemma has_entry {V : Type} (k : string) (m : list (string * V)) :
  has k m = true -> exists v, In (k, v) m.
Proof.
  intro H. apply has_In in H. unfold keys in H.
  apply in_map_iff in H. destruct H as ([k' v] & E & Hin).
  cbn [fst] in E. subst k'. eauto.
Qed.

Lemma entry_has {V : Type} (k : string) (v : V) (m : list (string * V)) :
  In (k, v) m -> has k m = true.
Proof.
  intro H. apply has_In. unfold keys. apply in_map_iff.
  exists (k, v). auto.
Qed.

(** After a reconciliation no active chunk is beyond the render
    distance and every coordinate of the window is active. *)
Lemma updateWorld_window px pz w :
  unitDraws -> invariant w ->
  let cx := fst (chunkOf px pz) in
  let cz := snd (chunkOf px pz) in
  exists w',
    updateWorld px pz w = Some w' /\ invariant w' /\
    (forall k, has k (activeChunks w') = true -> far cx cz k = false) /\
    (forall x z, In (x, z) (window cx cz) ->
                 has (chunkIdOf x z) (activeChunks w') = true).
Proof.
  intros Hu Hi cx cz.
  destruct (updateWorld_spec px pz w Hu Hi) as (w' & U & I' & _ & L).
  exists w'. split; [exact U|]. split; [exact I'|]. split.
  - intros k Hk. unfold updateWorld in U.
    destruct (chunkOf px pz) as [cx0 cz0] eqn:Ec. cbn [fst snd] in cx, cz.
    subst cx cz.
    destruct (generation_invariant (window cx0 cz0) Hu w Hi)
      as (w1 & F & I1 & _).
    rewrite F in U. injection U as <-.
    destruct (teardown_loop cx0 cz0 (activeChunks w1) w1 I1)
      as (_ & J2 & _ & _ & J5).
    cbv zeta in J2, J5.
    destruct (far cx0 cz0 k) eqn:Ef; [|reflexivity].
    destruct (has_entry k (activeChunks w1) (J2 k Hk)) as [c Hc].
    destruct (J5 k c Hc Ef) as [C _]. congruence.
  - intros x z Hin. eapply layoutAt_active. apply L. exact Hin.
Qed.

Lemma generation_skips coords :
  forall w,
    (forall x z, In (x, z) coords ->
                 has (chunkIdOf x z) (activeChunks w) = true) ->
    List.fold_left generateIfMissing coords (Some w) = Some w.
Proof.
  induction coords as [|[x z] rest IH]; intros w H; [reflexivity|].
  cbn [List.fold_left generateIfMissing fst snd].
  rewrite (H x z) by (left; reflexivity). cbn [negb].
  apply IH. intros x' z' Hin. apply H. right. exact Hin.
Qed.

Lemma teardown_skips cx cz entries :
  forall w,
    (forall k c, In (k, c) entries -> far cx cz k = false) ->
    List.fold_left (teardown cx cz) entries w = w.
Proof.
  induction entries as [|[k c] rest IH]; intros w H; [reflexivity|].
  cbn [List.fold_left].
  rewrite teardown_near by (apply (H k c); left; reflexivity).
  apply IH. intros k' c' Hin. apply (H k' c'). right. exact Hin.
Qed.

(** X23. The chunk ids [updateWorld] builds and parses are a round
    trip: parsing the id of the coordinate (x, z) gives back x and z,
    two coordinates with the same id are the same coordinate, and the
    teardown test on the id is the test on the coordinate: beyond the
    render distance on one axis. *)
Theorem chunk_id_round_trip :
  forall x z : Z,
    parseChunkId (chunkIdOf x z) = (Some x, Some z) /\
    (forall x' z', chunkIdOf x z = chunkIdOf x' z' -> x = x' /\ z = z') /\
    (forall cx cz,
       far cx cz (chunkIdOf x z) = true
       <-> (Z.abs (x - cx) > RENDER_DISTANCE_IN_CHUNKS
            \/ Z.abs (z - cz) > RENDER_DISTANCE_IN_CHUNKS)%Z).
Proof.
  intros x z. split; [apply parseChunkId_chunkIdOf|]. split.
  - intros x' z'. apply chunkIdOf_inj.
  - intros cx cz. apply far_chunkIdOf.
Qed.

(** X24. After a reconciliation the active coordinates are exactly
    the window: the chunk of a coordinate is active if and only if the
    coordinate is within the render distance of the player's chunk on
    both axes, which makes 121 coordinates; the player's chunk is the
    one whose 32-unit cell contains the player's x and z. *)
Theorem active_chunks_are_the_window :
  unitDraws ->
  forall (w : State) (px pz : Q),
    invariant w ->
    let cx := fst (chunkOf px pz) in
    let cz := snd (chunkOf px pz) in
    inject_Z (CHUNK_SIZE * cx) <= px /\ px < inject_Z (CHUNK_SIZE * (cx + 1)) /\
    inject_Z (CHUNK_SIZE * cz) <= pz /\ pz < inject_Z (CHUNK_SIZE * (cz + 1)) /\
    List.length (window cx cz) = 121%nat /\
    exists w',
      updateWorld px pz w = Some w' /\
      forall x z,
        has (chunkIdOf x z) (activeChunks w') = true
        <-> (Z.abs (x - cx) <= RENDER_DISTANCE_IN_CHUNKS
             /\ Z.abs (z - cz) <= RENDER_DISTANCE_IN_CHUNKS)%Z.
Proof.
  intros Hu w px pz Hi cx cz.
  assert (Hcell : forall p : Q,
            inject_Z (CHUNK_SIZE * Num.floor (p / inject_Z CHUNK_SIZE)) <= p /\
            p < inject_Z (CHUNK_SIZE * (Num.floor (p / inject_Z CHUNK_SIZE) + 1))).
  { intro p. unfold Num.floor, CHUNK_SIZE.
    pose proof (Qfloor_le (p / inject_Z 32)) as H1.
    pose proof (Qlt_floor (p / inject_Z 32)) as H2.
    rewrite !inject_Z_mult. rewrite inject_Z_plus in *.
    change (inject_Z 32) with 32 in *. change (inject_Z 1) with 1 in *.
    unfold Qdiv in *. change (/ 32) with (1 # 32) in *.
    split; lra. }
  destruct (Hcell px) as [X1 X2]. destruct (Hcell pz) as [Z1 Z2].
  split; [exact X1|]. split; [exact X2|]. split; [exact Z1|].
  split; [exact Z2|]. split; [apply window_length|].
  destruct (updateWorld_window px pz w Hu Hi) as (w' & U & _ & Hfar & Hwin).
  exists w'. split; [exact U|]. intros x z. split.
  - intro Ha. apply Hfar in Ha.
    destruct (Z_le_gt_dec (Z.abs (x - cx)) RENDER_DISTANCE_IN_CHUNKS)
      as [Hx | Hx];
      destruct (Z_le_gt_dec (Z.abs (z - cz)) RENDER_DISTANCE_IN_CHUNKS)
      as [Hz | Hz]; [auto | | | ];
      exfalso;
      assert (Ho : far (fst (chunkOf px pz)) (snd (chunkOf px pz))
                       (chunkIdOf x z) = true)
        by (apply far_chunkIdOf; unfold outside; auto);
      congruence.
  - intro Hin. apply Hwin. apply window_In. exact Hin.
Qed.

(** X25. Reconciliation is idempotent: calling [updateWorld] again
    with the player anywhere in the same chunk generates nothing, tears
    nothing down, draws no random number and leaves the world exactly as
    it is.  (So the reconciliation of the first frame after the mount
    costs a scan, not a generation.) *)
Theorem reconciliation_is_idempotent :
  unitDraws ->
  forall (w : State) (px pz : Q),
    invariant w ->
    exists w',
      updateWorld px pz w = Some w' /\
      forall px' pz',
        chunkOf px' pz' = chunkOf px pz ->
        updateWorld px' pz' w' = Some w'.
Proof.
  intros Hu w px pz Hi.
  destruct (updateWorld_window px pz w Hu Hi) as (w' & U & _ & Hfar & Hwin).
  exists w'. split; [exact U|].
  intros px' pz' Hc. unfold updateWorld. rewrite Hc.
  destruct (chunkOf px pz) as [cx cz]. cbn [fst snd] in Hfar, Hwin.
  rewrite (generation_skips (window cx cz) w' Hwin).
  rewrite teardown_skips; [reflexivity|].
  intros k c Hin. apply Hfar. eapply entry_has. exact Hin.
Qed.

(** X26. A chunk has at most one tree and at most one bush, each
    behind its seeded gate, and both stand inside the chunk (whose half
    side is 16): the tree within 12.8 and the bush within 14.4 of the
    chunk's centre on either axis. *)
Theorem flora_stands_inside_its_chunk :
  forall x z : Z,
    (List.length (localTrees x z) <= 1)%nat /\
    (localTrees x z <> [] <-> pseudoRandom (chunkSeed x z) < TREE_DENSITY) /\
    (forall t, In t (localTrees x z) ->
       Qabs (vx t) <= 128 # 10 /\ vy t = 0 /\ Qabs (vz t) <= 128 # 10) /\
    (List.length (placeBushes x z) <= 1)%nat /\
    (placeBushes x z <> []
     <-> pseudoRandom (chunkSeed x z * 5) < BUSH_DENSITY) /\
    (forall b, In b (placeBushes x z) ->
       Qabs (vx (bushPosition (bush b))) <= 144 # 10 /\
       Qabs (vz (bushPosition (bush b))) <= 144 # 10 /\
       bushY b
       = getHeight (inject_Z x * inject_Z CHUNK_SIZE
                    + vx (bushPosition (bush b)))
                   (inject_Z z * inject_Z CHUNK_SIZE
                    + vz (bushPosition (bush b))) + (1 # 2)).
Proof.
  intros x z. unfold localTrees, placeBushes. cbv zeta.
  set (seed := chunkSeed x z).
  destruct (pseudoRandom_range (seed * 2)) as [a0 a1].
  destruct (pseudoRandom_range (seed * 3)) as [b0 b1].
  destruct (pseudoRandom_range (seed * 7)) as [c0 c1].
  destruct (pseudoRandom_range (seed * 11)) as [d0 d1].
  split; [|split; [|split; [|split; [|split]]]].
  - destruct (_ <? _); cbn [List.length]; lia.
  - destruct (pseudoRandom seed <? TREE_DENSITY) eqn:E.
    + apply NumFacts.ltb_true in E. split; [auto | discriminate].
    + apply NumFacts.ltb_false in E. split; [congruence | intro; lra].
  - intros t Ht. destruct (_ <? _); [|contradiction].
    destruct Ht as [<- | []]. cbn [vx vy vz].
    unfold half, CHUNK_SIZE. change (inject_Z 32) with 32.
    split; [apply Qabs_Qle_condition; split; lra|].
    split; [reflexivity|]. apply Qabs_Qle_condition; split; lra.
  - destruct (_ <? _); cbn [List.length]; lia.
  - destruct (pseudoRandom (seed * 5) <? BUSH_DENSITY) eqn:E.
    + apply NumFacts.ltb_true in E. split; [auto | discriminate].
    + apply NumFacts.ltb_false in E. split; [congruence | intro; lra].
  - intros b Hb. destruct (_ <? _); [|contradiction].
    destruct Hb as [<- | []]. cbn [bush bushY].
    unfold createBush. cbv zeta. cbn [bushPosition vx vy vz].
    unfold half, CHUNK_SIZE. change (inject_Z 32) with 32.
    split; [apply Qabs_Qle_condition; split; lra|].
    split; [apply Qabs_Qle_condition; split; lra | reflexivity].
Qed.

End WindowFacts.

(** The first reconciliation of an empty world, the player at (0, 5):
    the chunk (3, -2) is inside the window, the chunk (6, 0) is not. *)
Lemma active_chunks_are_the_window_witness :
  unitDraws (M := Host.fixed 0) /\
  World.invariant (M := Host.fixed 0) (World.empty O) /\
  exists w',
    World.updateWorld (M := Host.fixed 0) 0 5 (World.empty O) = Some w' /\
    World.has (World.chunkIdOf 3 (-2)) (World.activeChunks w') = true /\
    World.has (World.chunkIdOf 6 0) (World.activeChunks w') <> true.
Proof.
  assert (Hu : unitDraws (M := Host.fixed 0)).
  { intro n. split; [discriminate | reflexivity]. }
  pose proof (invariant_empty (M := Host.fixed 0) O) as Hi.
  split; [exact Hu|]. split; [exact Hi|].
  pose proof (active_chunks_are_the_window (M := Host.fixed 0) Hu
                (World.empty O) 0 5 Hi) as K.
  cbv zeta in K. destruct K as (_ & _ & _ & _ & _ & w' & U & A).
  exists w'. split; [exact U|]. split.
  - apply (proj2 (A 3%Z (-2)%Z)). vm_compute. split; discriminate.
  - intro H. apply (proj1 (A 6%Z 0%Z)) in H. vm_compute in H.
    destruct H as [H _]. apply H. reflexivity.
Defined.

(** Reconciling again from another spot of the same chunk. *)
Lemma reconciliation_is_idempotent_witness :
  unitDraws (M := Host.fixed 0) /\
  World.invariant (M := Host.fixed 0) (World.empty O) /\
  World.chunkOf 3 7 = World.chunkOf 0 5 /\
  exists w',
    World.updateWorld (M := Host.fixed 0) 0 5 (World.empty O) = Some w' /\
    World.updateWorld (M := Host.fixed 0) 3 7 w' = Some w'.
Proof.
  assert (Hu : unitDraws (M := Host.fixed 0)).
  { intro n. split; [discriminate | reflexivity]. }
  pose proof (invariant_empty (M := Host.fixed 0) O) as Hi.
  assert (Hc : World.chunkOf 3 7 = World.chunkOf 0 5) by reflexivity.
  split; [exact Hu|]. split; [exact Hi|]. split; [exact Hc|].
  destruct (reconciliation_is_idempotent (M := Host.fixed 0) Hu
              (World.empty O) 0 5 Hi) as (w' & U & K).
  exists w'. split; [exact U | exact (K 3 7 Hc)].
Defined.

(** ** Who lives in a chunk *)

Section CensusFacts.
Context {M : JSMath}.
Import World.

Lemma floor_unit_third (r : Q) :
  0 <= r -> r < 1 -> (0 <= Num.floor (r * 3) <= 2)%Z.
Proof.
  intros H0 H1. split.
  - apply floor_nonneg. lra.
  - assert (H : (Num.floor (r * 3) < 3)%Z).
    { apply floor_below. change (inject_Z 3) with 3. lra. }
    lia.
Qed.

Lemma floor_unit (r : Q) : 0 <= r -> r < 1 -> Num.floor r = 0%Z.
Proof.
  intros H0 H1. apply Qfloor_unique.
  - exact H0.
  - exact H1.
Qed.

(** *** Birds *)

Lemma newBird_fields id seed i tw t g b g' :
  newBird id seed i tw t g = (Some b, g') ->
  Bird.state b = Bird.SITTING /\ Bird.flightMode b = Bird.NONE /\
  Bird.chunkId b = id /\ Bird.homeTree b = t /\ Bird.homeTreeWorld b = tw /\
  Bird.position b = Bird.perch b /\
  5 <= Bird.stateTimer b /\ Bird.stateTimer b < 15 /\
  match nest t with
  | Some n => Bird.hasNest b = true /\ Bird.landingSpot b = nestPosition n
  | None => Bird.hasNest b = false /\ landingSpotOn t (Bird.landingSpot b)
  end.
Proof.
  unfold newBird. cbv zeta.
  destruct (pseudoRandom_range
              (seed * 13 * (inject_Z (Z.of_nat i) + 1))) as [R0 R1].
  destruct (nest t) as [n|] eqn:En.
  - unfold random. cbv beta iota zeta.
    intro H. injection H as <- _.
    unfold Bird.perch.
    cbn [Bird.state Bird.flightMode Bird.chunkId Bird.homeTree
         Bird.homeTreeWorld Bird.position Bird.stateTimer Bird.hasNest
         Bird.landingSpot].
    repeat split; try reflexivity; lra.
  - destruct (findNewLandingSpot t g) as [[spot|] g1] eqn:Ef; [|discriminate].
    unfold random. cbv beta iota zeta.
    intro H. injection H as <- _.
    unfold Bird.perch.
    cbn [Bird.state Bird.flightMode Bird.chunkId Bird.homeTree
         Bird.homeTreeWorld Bird.position Bird.stateTimer Bird.hasNest
         Bird.landingSpot].
    apply findNewLandingSpot_on in Ef.
    repeat split; try reflexivity; try lra; exact Ef.
Qed.

Lemma spawnBirds_census id seed tw t n :
  forall i w w',
    spawnBirds id seed tw t i n w = Some w' ->
    exists bs,
      birds w' = birds w ++ bs /\ List.length bs = n /\
      villagers w' = villagers w /\
      forall u b, In (u, b) bs ->
        exists k g g', newBird id seed k tw t g = (Some b, g').
Proof.
  induction n as [|n IH]; intros i w w' H.
  - cbn [spawnBirds] in H. injection H as <-. exists [].
    rewrite app_nil_r. split; [reflexivity|]. split; [reflexivity|].
    split; [reflexivity | intros u b []].
  - cbn [spawnBirds] in H.
    destruct (newBird id seed i tw t (rng w)) as [[b|] g] eqn:Eb;
      [|discriminate].
    apply IH in H. destruct H as (bs & Hb & Hl & Hv & Hall).
    cbn [birds villagers] in Hb, Hv.
    exists ((nextUid w, b) :: bs). rewrite Hb, <- app_assoc.
    split; [reflexivity|]. split; [cbn [List.length]; lia|].
    split; [exact Hv|].
    intros u b0 [E | Hin]; [injection E as <- <-; eauto | eauto].
Qed.

(** X27. A tree gets birds only behind its seeded gate
    ([pseudoRandom(seed * 5) < BIRD_TREE_CHANCE]) and only if it has
    leaves, and then 1 to 3 of them; planting the tree never fails.  Each
    new bird is SITTING exactly on its perch, with a timer between 5 and
    15 seconds, the new tree as its home and the chunk's id; in a tree
    with a nest its landing spot is the nest, otherwise a leaf position of
    the tree lowered by 0.8. *)
Theorem tree_birds_census :
  unitDraws ->
  forall (x z : Z) (id : string) (treePos : Vector3) (w : State)
         (placed : list PlacedTree),
    let origin := vec3 (inject_Z x * inject_Z CHUNK_SIZE) 0
                       (inject_Z z * inject_Z CHUNK_SIZE) in
    let gate := pseudoRandom (chunkSeed x z * 5) <? BIRD_TREE_CHANCE in
    exists w' pt bs,
      plantTree x z id origin treePos (Some (w, placed))
      = Some (w', placed ++ [pt]) /\
      birds w' = birds w ++ bs /\ villagers w' = villagers w /\
      (List.length bs <= 3)%nat /\
      (gate = false \/ leafPositions (tree pt) = [] -> bs = []) /\
      (gate = true -> leafPositions (tree pt) <> [] ->
       (1 <= List.length bs)%nat) /\
      forall u b, In (u, b) bs ->
        Bird.state b = Bird.SITTING /\ Bird.position b = Bird.perch b /\
        5 <= Bird.stateTimer b /\ Bird.stateTimer b < 15 /\
        Bird.chunkId b = id /\ Bird.homeTree b = tree pt /\
        Bird.homeTreeWorld b
        = V3.add origin (vec3 (vx treePos) (treeY pt) (vz treePos)) /\
        match nest (tree pt) with
        | Some n =>
          Bird.hasNest b = true /\ Bird.landingSpot b = nestPosition n
        | None =>
          Bird.hasNest b = false /\
          landingSpotOn (tree pt) (Bird.landingSpot b)
        end.
Proof.
  intros Hu x z id treePos w placed origin gate.
  destruct (plantTree_spec x z id treePos w placed Hu)
    as (w' & pt & H & _). fold origin in H.
  exists w', pt. pose proof H as H0. unfold plantTree in H.
  destruct (createTree (vx treePos) (vz treePos) (chunkSeed x z) (rng w))
    as [[t|] g] eqn:Et; [|discriminate].
  cbv zeta in H. fold gate in H.
  destruct (pseudoRandom_range (chunkSeed x z * 7)) as [R0 R1].
  destruct (floor_unit_third _ R0 R1) as [F0 F2].
  set (y := getHeight (vx origin + vx treePos) (vz origin + vz treePos)) in *.
  assert (Hpt : forall w2 : State,
            Some (w2, placed ++ [{| tree := t; treeY := y |}])
            = Some (w', placed ++ [pt]) ->
            w2 = w' /\ tree pt = t /\ treeY pt = y).
  { intros w2 E. injection E as -> E. apply app_inj_tail in E.
    destruct E as [_ <-]. auto. }
  destruct gate eqn:Eg.
  - destruct (leafPositions t) as [|l ls] eqn:El.
    + cbn [option_map] in H. destruct (Hpt _ H) as (<- & Tt & Ty).
      exists []. rewrite app_nil_r. split; [exact H0|].
      cbn [withRng birds villagers List.length].
      split; [reflexivity|]. split; [reflexivity|]. split; [lia|].
      split; [auto|]. split; [rewrite Tt, El; congruence|].
      intros u b [].
    + destruct (spawnBirds id (chunkSeed x z) _ t O _ (withRng g w))
        as [w2|] eqn:Es; [|discriminate].
      cbn [option_map] in H. destruct (Hpt _ H) as (-> & Tt & Ty).
      destruct (spawnBirds_census _ _ _ _ _ _ _ _ Es)
        as (bs & Hb & Hl & Hv & Hall).
      cbn [withRng birds villagers] in Hb, Hv.
      exists bs. split; [exact H0|]. split; [exact Hb|].
      split; [exact Hv|]. split; [lia|].
      split; [intros [C | C]; [discriminate | rewrite Tt, El in C;
                                               discriminate]|].
      split; [intros _ _; lia|].
      intros u b Hin. destruct (Hall u b Hin) as (k & g0 & g1 & Hnb).
      apply newBird_fields in Hnb.
      destruct Hnb as (B1 & _ & B3 & B4 & B5 & B6 & B7 & B8 & B9).
      rewrite Tt, Ty. auto 10.
  - cbn [option_map] in H. destruct (Hpt _ H) as (<- & Tt & Ty).
    exists []. rewrite app_nil_r. split; [exact H0|].
    cbn [withRng birds villagers List.length].
    split; [reflexivity|]. split; [reflexivity|]. split; [lia|].
    split; [auto|]. split; [discriminate|].
    intros u b [].
Qed.

(** *** Villagers *)

Lemma newVillager_fields id seed origin hs fm farmPos i g v g' :
  newVillager id seed origin hs fm farmPos i g = (Some v, g') ->
  g' = S g /\
  Villager.state v = Villager.IDLE /\ Villager.prevState v = None /\
  Villager.targetPosition v = None /\ Villager.chunkId v = id /\
  3 <= Villager.stateTimer v /\ Villager.stateTimer v < 8 /\
  Villager.velocityY v = 0 /\ Villager.isOnGround v = true /\
  vy (Villager.position v)
  = getHeight (vx (Villager.position v)) (vz (Villager.position v)) /\
  vy (Villager.homePoint v)
  = getHeight (vx (Villager.homePoint v)) (vz (Villager.homePoint v)) + 1 /\
  In (Villager.profession v) professions /\
  (Villager.workPoint v <> None ->
   Villager.profession v = Villager.farmer /\ workPoints fm <> []).
Proof.
  unfold newVillager. cbv zeta. unfold random. cbv beta iota zeta.
  destruct (pseudoRandom_range
              (seed * 23 * inject_Z (Z.of_nat i))) as [R0 R1].
  destruct (at_ professions _) as [p|] eqn:Ep; [|discriminate].
  destruct (List.nth_error hs _) as [h|]; [|discriminate].
  intro H. injection H as <- <-.
  cbn [Villager.state Villager.prevState Villager.targetPosition
       Villager.chunkId Villager.stateTimer Villager.velocityY
       Villager.isOnGround Villager.position Villager.homePoint
       Villager.profession Villager.workPoint vx vy vz].
  split; [reflexivity|]. split; [reflexivity|]. split; [reflexivity|].
  split; [reflexivity|]. split; [reflexivity|]. split; [lra|].
  split; [lra|]. split; [reflexivity|]. split; [reflexivity|].
  split; [reflexivity|]. split; [reflexivity|]. split.
  - unfold at_ in Ep. destruct (_ <? 0)%Z; [discriminate|].
    eapply List.nth_error_In; eauto.
  - destruct p; cbn [Villager.isFarmer andb]; try congruence.
    destruct (0 <? List.length (workPoints fm))%nat eqn:El; [|congruence].
    intros _. split; [reflexivity|].
    apply Nat.ltb_lt in El. destruct (workPoints fm);
      [cbn in El; lia | discriminate].
Qed.

Lemma spawnVillagers_census id seed origin hs fm farmPos n :
  forall i w w',
    spawnVillagers id seed origin hs fm farmPos i n w = Some w' ->
    exists vs,
      villagers w' = villagers w ++ vs /\ List.length vs = n /\
      birds w' = birds w /\ rng w' = (rng w + n)%nat /\
      forall u v, In (u, v) vs ->
        exists k g g',
          newVillager id seed origin hs fm farmPos k g = (Some v, g').
Proof.
  induction n as [|n IH]; intros i w w' H.
  - cbn [spawnVillagers] in H. injection H as <-. exists [].
    rewrite app_nil_r. split; [reflexivity|]. split; [reflexivity|].
    split; [reflexivity|]. split; [lia | intros u v []].
  - cbn [spawnVillagers] in H.
    destruct (newVillager id seed origin hs fm farmPos i (rng w))
      as [[v|] g] eqn:Ev; [|discriminate].
    apply IH in H. destruct H as (vs & Hv & Hl & Hb & Hr & Hall).
    cbn [birds villagers rng] in Hv, Hb, Hr.
    apply newVillager_fields in Ev as Hf. destruct Hf as (-> & _).
    exists ((nextUid w, v) :: vs). rewrite Hv, <- app_assoc.
    split; [reflexivity|]. split; [cbn [List.length]; lia|].
    split; [exact Hb|]. split; [lia|].
    intros u v0 [E | Hin]; [injection E as <- <-; eauto | eauto].
Qed.

(** X28. A village has 2 or 3 houses and exactly one villager per
    house (the term [Math.floor(pseudoRandom(villageSeed + 17))] added to
    the number of houses is always 0).  When the village gate of a chunk
    passes and the chunk has no village yet, building the village never
    fails, draws one random number per villager, enters the village under
    the chunk's id and adds the villagers: each IDLE on the terrain with a
    timer between 3 and 8 seconds, the chunk's id, a home point one unit
    above the terrain, and a work point only if it is a farmer.  When the
    gate fails or the chunk already has a village, nothing is built. *)
Theorem village_census :
  forall (x z : Z),
    let plan := villagePlan x z in
    (List.length (planHouses plan) = 2%nat
     \/ List.length (planHouses plan) = 3%nat) /\
    planVillagers plan = Z.of_nat (List.length (planHouses plan)) /\
    (forall id w,
       villageGate x z = false \/ has id (activeVillages w) = true ->
       buildVillage x z id w = Some w) /\
    (forall id w,
       villageGate x z = true -> has id (activeVillages w) = false ->
       exists w' vs village,
         buildVillage x z id w = Some w' /\
         villagers w' = villagers w ++ vs /\
         List.length vs = List.length (planHouses plan) /\
         rng w' = (rng w + List.length vs)%nat /\
         birds w' = birds w /\
         get id (activeVillages w') = Some village /\
         houses village = planHouses plan /\
         villageChunkId village = id /\
         forall u v, In (u, v) vs ->
           Villager.state v = Villager.IDLE /\ Villager.chunkId v = id /\
           3 <= Villager.stateTimer v /\ Villager.stateTimer v < 8 /\
           Villager.isOnGround v = true /\
           vy (Villager.position v)
           = getHeight (vx (Villager.position v))
                       (vz (Villager.position v)) /\
           vy (Villager.homePoint v)
           = getHeight (vx (Villager.homePoint v))
                       (vz (Villager.homePoint v)) + 1 /\
           (Villager.workPoint v <> None ->
            Villager.profession v = Villager.farmer)).
Proof.
  intros x z plan.
  set (s := chunkSeed x z * 17).
  destruct (pseudoRandom_range s) as [R0 R1].
  destruct (pseudoRandom_range (s + 17)) as [T0 T1].
  assert (Hn : (Num.floor (pseudoRandom s * 2) = 0
                \/ Num.floor (pseudoRandom s * 2) = 1)%Z).
  { assert (A : (0 <= Num.floor (pseudoRandom s * 2))%Z)
      by (apply floor_nonneg; lra).
    assert (B : (Num.floor (pseudoRandom s * 2) < 2)%Z)
      by (apply floor_below; change (inject_Z 2) with 2; lra).
    lia. }
  assert (Hlen : List.length (planHouses plan)
                 = Z.to_nat (2 + Num.floor (pseudoRandom s * 2))).
  { unfold plan, villagePlan. cbv zeta. cbn [planHouses].
    rewrite List.length_map, List.length_seq. reflexivity. }
  assert (Hvil : planVillagers plan
                 = (2 + Num.floor (pseudoRandom s * 2))%Z).
  { unfold plan, villagePlan. cbv zeta. cbn [planVillagers].
    fold s. rewrite (floor_unit _ T0 T1). lia. }
  split; [rewrite Hlen; destruct Hn as [-> | ->]; auto|].
  split; [rewrite Hlen, Hvil; lia|]. split.
  - intros id w Hc. unfold buildVillage.
    destruct Hc as [-> | ->]; [reflexivity|].
    rewrite andb_false_r. reflexivity.
  - intros id w Hg Hh. unfold buildVillage. rewrite Hg, Hh.
    cbn [negb andb]. cbv zeta. fold plan.
    match goal with
    | |- context [spawnVillagers id ?sd ?o ?hs ?fm ?fp O ?n ?w1] =>
        destruct (spawnVillagers_spec id sd o hs fm fp n
                    (planHouses_nonempty x z) O w1) as (w2 & Es & _ & Hav);
        pose proof (spawnVillagers_census _ _ _ _ _ _ _ _ _ _ Es) as Hc
    end.
    rewrite Es.
    destruct Hc as (vs & Hv & Hl & Hb & Hr & Hall).
    cbn [villagers birds rng activeVillages] in Hv, Hb, Hr, Hav.
    eexists _, vs, _. split; [reflexivity|].
    cbn [villagers birds rng activeVillages houses villageChunkId].
    split; [exact Hv|].
    split; [rewrite Hl, Hlen, Hvil; reflexivity|].
    split; [rewrite Hr, Hl; reflexivity|].
    split; [exact Hb|].
    split; [apply get_set_eq; rewrite Hav; exact Hh|].
    split; [reflexivity|]. split; [reflexivity|].
    intros u v Hin. destruct (Hall u v Hin) as (k & g0 & g1 & Hnv).
    apply newVillager_fields in Hnv.
    destruct Hnv as (_ & A & _ & _ & B & C & D & _ & E & F & G & _ & K).
    split; [exact A|]. split; [exact B|]. split; [exact C|].
    split; [exact D|]. split; [exact E|]. split; [exact F|].
    split; [exact G|]. intro Hw. apply K in Hw. tauto.
Qed.

End CensusFacts.

(** The tree of the chunk (0, 0) planted in an empty world. *)
Lemma tree_birds_census_witness :
  let origin := vec3 (inject_Z 0 * inject_Z CHUNK_SIZE) 0
                     (inject_Z 0 * inject_Z CHUNK_SIZE) in
  unitDraws (M := Host.fixed (1 # 2)) /\
  exists w' pt bs,
    World.plantTree (M := Host.fixed (1 # 2)) 0 0 "0,0" origin (vec3 1 0 1)
                    (Some (World.empty O, []))
    = Some (w', [pt]) /\
    World.birds w' = bs /\ (List.length bs <= 3)%nat.
Proof.
  intro origin.
  assert (Hu : unitDraws (M := Host.fixed (1 # 2))).
  { intro n. split; [discriminate | reflexivity]. }
  split; [exact Hu|].
  pose proof (tree_birds_census (M := Host.fixed (1 # 2)) Hu 0%Z 0%Z
                "0,0"%string (vec3 1 0 1) (World.empty O) []) as K.
  cbv zeta in K. destruct K as (w' & pt & bs & P & B & _ & L & _).
  exists w', pt, bs. split; [exact P|]. split; [exact B | exact L].
Defined.

(** The chunk (0, 0) passes the village gate of a host whose sine is 0
    at 0; its village is built in an empty world. *)
Lemma village_census_witness :
  let plan := World.villagePlan (M := Host.fixed 0) 0 0 in
  World.villageGate (M := Host.fixed 0) 0 0 = true /\
  World.has "0,0" (World.activeVillages (World.empty O)) = false /\
  exists w' vs village,
    World.buildVillage (M := Host.fixed 0) 0 0 "0,0" (World.empty O)
    = Some w' /\
    World.villagers w' = vs /\
    List.length vs = List.length (World.planHouses plan) /\
    World.get "0,0" (World.activeVillages w') = Some village /\
    World.houses village = World.planHouses plan.
Proof.
  intro plan.
  assert (Hg : World.villageGate (M := Host.fixed 0) 0 0 = true)
    by reflexivity.
  assert (Hn : World.has "0,0" (World.activeVillages (World.empty O)) = false)
    by reflexivity.
  split; [exact Hg|]. split; [exact Hn|].
  pose proof (village_census (M := Host.fixed 0) 0%Z 0%Z) as K.
  cbv zeta in K. destruct K as (_ & _ & _ & B).
  destruct (B "0,0"%string (World.empty O) Hg Hn)
    as (w' & vs & village & U & V & L & _ & _ & G & H & _).
  exists w', vs, village.
  split; [exact U|]. split; [exact V|]. split; [exact L|].
  split; [exact G | exact H].
Defined.

(** ** The decoration pass, counted *)

Section DecorFacts.
Context {M : JSMath}.

Lemma layer_app l a b : layer l (a ++ b) = layer l a ++ layer l b.
Proof. unfold layer. rewrite List.filter_app, List.map_app. reflexivity. Qed.

Lemma census_app n t n' t' a b :
  decorationCensus n t a -> decorationCensus n' t' b ->
  decorationCensus (n + n') (t + t') (a ++ b).
Proof.
  unfold decorationCensus. cbv zeta.
  rewrite !layer_app, !List.length_app. lia.
Qed.

Lemma census_nil : decorationCensus 0 0 [].
Proof. unfold decorationCensus. cbn. lia. Qed.

(** The blades of a tuft: [numBlades] pushes to the blade array. *)
Lemma blades_pushes_spec p a b c (n : nat) :
  forall s, exists extra,
    snd (List.fold_left (blade p a b c) (List.seq 0 n) s) = snd s ++ extra /\
    List.length extra = n /\
    forall e, In e extra -> fst e = grassBladesMatrices.
Proof.
  induction n as [|n IH]; intro s.
  - exists []. rewrite app_nil_r. split; [reflexivity|].
    split; [reflexivity | intros e []].
  - rewrite List.seq_S, List.fold_left_app. cbn [List.fold_left].
    destruct (IH s) as (extra & E & L & F).
    unfold blade at 1. cbv zeta. unfold rotate, push. cbn [fst snd].
    rewrite E. eexists (extra ++ [_]). rewrite <- app_assoc.
    split; [reflexivity|]. split.
    + rewrite List.length_app. cbn [List.length]. lia.
    + intros e He. apply in_app_or in He. destruct He as [He | [<- | []]];
        [apply F; exact He | reflexivity].
Qed.

Lemma layer_blades_only extra l :
  (forall e, In e extra -> fst e = grassBladesMatrices) ->
  List.length (layer l extra)
  = if Layer_eqb grassBladesMatrices l then List.length extra else O.
Proof.
  intro H. unfold layer. rewrite List.length_map.
  induction extra as [|e rest IH]; [destruct (Layer_eqb _ _); reflexivity|].
  cbn [List.filter]. rewrite (H e) by (left; reflexivity).
  assert (IH' := IH (fun e' He' => H e' (or_intror He'))).
  destruct l; cbn [Layer_eqb] in *; cbn [List.length]; lia.
Qed.

Lemma blades_census p a b c (numBlades : Z) s :
  (2 <= numBlades <= 4)%Z ->
  exists extra,
    snd (blades p a b c numBlades s) = snd s ++ extra /\
    (forall l, List.length (layer l extra)
               = if Layer_eqb grassBladesMatrices l
                 then Z.to_nat numBlades else O).
Proof.
  intro Hn. unfold blades.
  destruct (blades_pushes_spec p a b c (Z.to_nat numBlades) s)
    as (extra & E & L & F).
  exists extra. split; [exact E|]. intro l.
  rewrite (layer_blades_only extra l F), L. reflexivity.
Qed.

Lemma numBlades_range r :
  0 <= r -> r < 1 -> (2 <= 2 + Num.floor (r * 3) <= 4)%Z.
Proof.
  intros H0 H1.
  assert (A : (0 <= Num.floor (r * 3))%Z) by (apply floor_nonneg; lra).
  assert (B : (Num.floor (r * 3) < 3)%Z)
    by (apply floor_below; change (inject_Z 3) with 3; lra).
  lia.
Qed.

Lemma snd_push l s : snd (push l s) = snd s ++ [(l, matrix (fst s))].
Proof. reflexivity. Qed.

Lemma snd_place p s : snd (place p s) = snd s.
Proof. reflexivity. Qed.

Lemma snd_rotate r s : snd (rotate r s) = snd s.
Proof. reflexivity. Qed.

Lemma snd_pair {A B : Type} (a : A) (b : B) : snd (a, b) = b.
Proof. reflexivity. Qed.

(** Walk down to the pushes a state was built from. *)
Ltac pushes_step :=
  first
    [ rewrite snd_push
    | rewrite snd_place
    | rewrite snd_rotate
    | rewrite snd_pair
    | match goal with
      | |- context [snd (if ?c then _ else _)] => destruct c
      end ].

Lemma layer_single l l' m :
  List.length (layer l' [(l, m)]) = if Layer_eqb l l' then 1%nat else 0%nat.
Proof. unfold layer. cbn [List.filter fst]. destruct (Layer_eqb l l'); reflexivity. Qed.

Ltac census_of_pushes :=
  unfold decorationCensus; cbv zeta;
  rewrite ?layer_app, ?List.length_app, ?layer_single;
  cbn [Layer_eqb]; lia.

(** One cell: what it appends to the pushes. *)
Lemma cell_census noise x z s ij :
  exists extra,
    snd (cell noise x z s ij) = snd s ++ extra /\
    decorationCensus 1 0 extra.
Proof.
  destruct ij as [i j]. unfold cell, cellGround. cbv zeta.
  match goal with
  | |- context [pseudoRandom ?sd <=? DIRT_PATCH_DENSITY] =>
      destruct (pseudoRandom sd <=? DIRT_PATCH_DENSITY)
  end; cbn [negb andb].
  - (* a dirt patch: dirt top, perhaps a mushroom *)
    repeat pushes_step; rewrite <- ?app_assoc;
      eexists; (split; [reflexivity|]); census_of_pushes.
  - (* grass: perhaps a flower, perhaps a tuft *)
    match goal with
    | |- context [(2 + Num.floor (pseudoRandom ?sd * 3))%Z] =>
        destruct (pseudoRandom_range sd) as [R0 R1];
        pose proof (numBlades_range _ R0 R1) as Hn
    end.
    match goal with
    | |- context [snd (if ?c then _ else _)] => destruct c
    end.
    + match goal with
      | |- context [blades ?p ?a ?b ?d ?n ?st] =>
          destruct (blades_census p a b d n st Hn) as (bl & -> & Hbl)
      end.
      repeat pushes_step; rewrite <- ?app_assoc;
        eexists; (split; [reflexivity|]);
        unfold decorationCensus; cbv zeta;
        rewrite ?layer_app, ?List.length_app, ?layer_single, ?Hbl;
        cbn [Layer_eqb]; lia.
    + repeat pushes_step; rewrite <- ?app_assoc;
        eexists; (split; [reflexivity|]); census_of_pushes.
Qed.

Lemma cells_census noise x z cells :
  forall s, exists extra,
    snd (List.fold_left (cell noise x z) cells s) = snd s ++ extra /\
    decorationCensus (List.length cells) 0 extra.
Proof.
  induction cells as [|ij rest IH]; intro s.
  - exists []. rewrite app_nil_r. split; [reflexivity | apply census_nil].
  - cbn [List.fold_left].
    destruct (cell_census noise x z s ij) as (e1 & E1 & C1).
    destruct (IH (cell noise x z s ij)) as (e2 & E2 & C2).
    exists (e1 ++ e2). rewrite E2, E1, <- app_assoc.
    split; [reflexivity|].
    change (List.length (ij :: rest)) with (1 + List.length rest)%nat.
    change O with (0 + 0)%nat.
    apply census_app; assumption.
Qed.

Lemma tuft_census x z t s k :
  exists extra,
    snd (tuft x z t s k) = snd s ++ extra /\ decorationCensus 0 1 extra.
Proof.
  unfold tuft. cbv zeta.
  match goal with
  | |- context [blades ?p ?a ?b ?d (2 + Num.floor (pseudoRandom ?sd * 3)) ?st] =>
      destruct (pseudoRandom_range sd) as [R0 R1];
      pose proof (numBlades_range _ R0 R1) as Hn;
      destruct (blades_census p a b d _ st Hn) as (bl & -> & Hbl)
  end.
  exists bl. split; [reflexivity|].
  unfold decorationCensus. cbv zeta. rewrite !Hbl. cbn [Layer_eqb]. lia.
Qed.

Lemma tufts_census x z t ks :
  forall s, exists extra,
    snd (List.fold_left (tuft x z t) ks s) = snd s ++ extra /\
    decorationCensus 0 (List.length ks) extra.
Proof.
  induction ks as [|k rest IH]; intro s.
  - exists []. rewrite app_nil_r. split; [reflexivity | apply census_nil].
  - cbn [List.fold_left].
    destruct (tuft_census x z t s k) as (e1 & E1 & C1).
    destruct (IH (tuft x z t s k)) as (e2 & E2 & C2).
    exists (e1 ++ e2). rewrite E2, E1, <- app_assoc.
    split; [reflexivity|].
    change (List.length (k :: rest)) with (1 + List.length rest)%nat.
    change O with (0 + 0)%nat at 1.
    apply census_app; assumption.
Qed.

Lemma trees_census x z ts :
  forall s, exists extra,
    snd (List.fold_left (fun st t => treeGrass x z t st) ts s)
    = snd s ++ extra /\
    decorationCensus 0 (15 * List.length ts) extra.
Proof.
  induction ts as [|t rest IH]; intro s.
  - exists []. rewrite app_nil_r. split; [reflexivity | apply census_nil].
  - cbn [List.fold_left]. unfold treeGrass at 2.
    destruct (tufts_census x z t (List.seq 0 15) s) as (e1 & E1 & C1).
    rewrite List.length_seq in C1.
    destruct (IH (List.fold_left (tuft x z t) (List.seq 0 15) s))
      as (e2 & E2 & C2).
    exists (e1 ++ e2). rewrite E2, E1, <- app_assoc.
    split; [reflexivity|].
    replace (15 * List.length (t :: rest))%nat
      with (15 + 15 * List.length rest)%nat by (cbn [List.length]; lia).
    change O with (0 + 0)%nat at 1.
    apply census_app; assumption.
Qed.

(** X29. The decoration pass of a chunk, whatever the coordinate and
    the noise: 256 ground cells, each with one dirt base and either a
    grass top or a dirt top; every flower stem has exactly one head (red,
    yellow or blue) and stands on a grass cell; every mushroom stalk has
    exactly one cap (red or brown) and stands on a dirt patch; each tree
    of the chunk gets 15 tufts of 2 to 4 grass blades, and a grass cell
    at most 4 blades. *)
Theorem chunk_decoration_census :
  forall (x z : Z) (dummy : Object3D),
    let out := snd (decorate x z (dummy, [])) in
    let c (l : Layer) := List.length (layer l out) in
    let trees := List.length (localTrees x z) in
    c dirtBaseMatrices = 256%nat /\
    (c grassMatrices + c dirtTopMatrices)%nat = 256%nat /\
    c flowerStemMatrices
    = (c redFlowerHeadMatrices + c yellowFlowerHeadMatrices
       + c blueFlowerHeadMatrices)%nat /\
    (c flowerStemMatrices <= c grassMatrices)%nat /\
    c mushroomStalkMatrices
    = (c redMushroomCapMatrices + c brownMushroomCapMatrices)%nat /\
    (c mushroomStalkMatrices <= c dirtTopMatrices)%nat /\
    (30 * trees <= c grassBladesMatrices)%nat /\
    (c grassBladesMatrices <= 4 * c grassMatrices + 60 * trees)%nat.
Proof.
  intros x z dummy. cbv zeta. unfold decorate. cbv zeta.
  destruct (cells_census floraNoise x z cellIndices (dummy, []))
    as (e1 & E1 & C1).
  destruct (trees_census x z (localTrees x z)
              (List.fold_left (cell floraNoise x z) cellIndices (dummy, [])))
    as (e2 & E2 & C2).
  rewrite E2, E1. cbn [snd]. rewrite List.app_nil_l.
  assert (Hcells : List.length cellIndices = 256%nat).
  { unfold cellIndices, flatMap. cbv zeta.
    change (Z.to_nat (CHUNK_SIZE / 2)) with 16%nat.
    cbn [List.seq List.map List.concat].
    rewrite !List.length_app. reflexivity. }
  rewrite Hcells in C1.
  pose proof (census_app _ _ _ _ _ _ C1 C2) as C.
  unfold decorationCensus in C. cbv zeta in C.
  lia.
Qed.

End DecorFacts.

(** ** The farm plot of a village *)

Section FarmFacts.
Context {M : JSMath}.

Lemma flatMap_length_const {A B : Type} (f : A -> list B) (n : nat) xs :
  (forall a, In a xs -> List.length (f a) = n) ->
  List.length (flatMap f xs) = (List.length xs * n)%nat.
Proof.
  unfold flatMap. induction xs as [|a rest IH]; intro H; [reflexivity|].
  cbn [List.map List.concat List.length]. rewrite List.length_app.
  rewrite (H a) by (left; reflexivity).
  rewrite IH by (intros a' Ha'; apply H; right; exact Ha'). lia.
Qed.

Lemma flatMap_length_le {A B : Type} (f : A -> list B) xs :
  (forall a, (List.length (f a) <= 1)%nat) ->
  (List.length (flatMap f xs) <= List.length xs)%nat.
Proof.
  intro H. unfold flatMap. induction xs as [|a rest IH]; [apply Nat.le_refl|].
  cbn [List.map List.concat List.length]. rewrite List.length_app.
  specialize (H a). lia.
Qed.

(** An interior loop of the farm: [for (v = -n/2 + 1; v < n/2 - 1; v++)]
    runs [n - 2] times. *)
Lemma interior_length (q : Q) (n : Z) :
  q == inject_Z n ->
  List.length (forLt (- q / 2 + 1) (q / 2 - 1)) = Z.to_nat (n - 2).
Proof.
  intro E. rewrite forLt_length.
  assert (K : q / 2 - 1 - (- q / 2 + 1) == inject_Z (n - 2)).
  { unfold Z.sub. rewrite inject_Z_plus.
    change (inject_Z (- (2))) with (- (2)). lra_halves. }
  rewrite K, Qceiling_Z. reflexivity.
Qed.

(** X30. A farm plot of [createFarmPlot] is 4 to 6 wide and 6 to 9 deep,
    both whole numbers.  Its ground loops run from one inside the low
    fence lines to strictly below one inside the high ones, so it has
    (width - 2) * (depth - 2) ground blocks; the work points of the
    villagers, at height one half, are among them and so lie inside the
    fence; every fence post, at height 0.75, stands on one of the four
    border lines. *)
Theorem farm_plot_shape :
  forall seed : Q,
    let f := createFarmPlot seed in
    exists w d : Z,
      (4 <= w <= 6)%Z /\ (6 <= d <= 9)%Z /\
      farmWidth f == inject_Z w /\ farmDepth f == inject_Z d /\
      List.length (blocks f) = Z.to_nat ((w - 2) * (d - 2)) /\
      (List.length (workPoints f) <= List.length (blocks f))%nat /\
      (forall p, In p (workPoints f) ->
         vy p == 1 # 2 /\
         - farmWidth f / 2 + 1 <= vx p /\ vx p < farmWidth f / 2 - 1 /\
         - farmDepth f / 2 + 1 <= vz p /\ vz p < farmDepth f / 2 - 1) /\
      (forall p, In p (posts f) ->
         vy p == 75 # 100 /\
         (vx p == - farmWidth f / 2 \/ vx p == farmWidth f / 2 \/
          vz p == - farmDepth f / 2 \/ vz p == farmDepth f / 2)).
Proof.
  intro seed. cbv zeta.
  destruct (pseudoRandom_range seed) as [S0 S1].
  destruct (pseudoRandom_range (seed + 1)) as [T0 T1].
  pose proof (floor_unit_third _ S0 S1) as Hw.
  assert (Hd : (0 <= Num.floor (pseudoRandom (seed + 1) * 4) <= 3)%Z).
  { split; [apply floor_nonneg; lra|].
    assert (H : (Num.floor (pseudoRandom (seed + 1) * 4) < 4)%Z)
      by (apply floor_below; change (inject_Z 4) with 4; lra).
    lia. }
  exists (4 + Num.floor (pseudoRandom seed * 3))%Z,
         (6 + Num.floor (pseudoRandom (seed + 1) * 4))%Z.
  unfold createFarmPlot. cbv zeta.
  cbn [farmWidth farmDepth posts blocks workPoints].
  set (w := 4 + inject_Z (Num.floor (pseudoRandom seed * 3))) in *.
  set (d := 6 + inject_Z (Num.floor (pseudoRandom (seed + 1) * 4))) in *.
  assert (Ew : w == inject_Z (4 + Num.floor (pseudoRandom seed * 3)))
    by (unfold w; rewrite inject_Z_plus; reflexivity).
  assert (Ed : d == inject_Z (6 + Num.floor (pseudoRandom (seed + 1) * 4)))
    by (unfold d; rewrite inject_Z_plus; reflexivity).
  split; [lia|]. split; [lia|]. split; [exact Ew|]. split; [exact Ed|].
  split.
  { rewrite (flatMap_length_const _
               (Z.to_nat (6 + Num.floor (pseudoRandom (seed + 1) * 4) - 2))).
    - rewrite (interior_length w _ Ew). rewrite <- Z2Nat.inj_mul by lia.
      reflexivity.
    - intros a _. rewrite List.length_map. apply (interior_length d _ Ed). }
  split.
  { apply flatMap_length_le. intros [x z | x z h]; cbn [List.length]; lia. }
  split.
  - intros p Hp. apply In_flatMap in Hp. destruct Hp as (b & Hb & Hp).
    apply In_flatMap in Hb. destruct Hb as (x & Hx & Hb).
    apply in_map_iff in Hb. destruct Hb as (z & Hb & Hz).
    apply forLt_In in Hx. destruct Hx as (X0 & X1 & _).
    apply forLt_In in Hz. destruct Hz as (Z0 & Z1 & _).
    destruct (pseudoRandom (seed + 2 + x * 17 + z * 31) <? 2 # 10);
      subst b; [contradiction|].
    destruct Hp as [<- | []]. cbn [vx vy vz].
    split; [reflexivity|]. repeat split; assumption.
  - intros p Hp. apply In_flatMap in Hp. destruct Hp as (x & Hx & Hp).
    apply In_flatMap in Hp. destruct Hp as (z & Hz & Hp).
    destruct (Qeq_bool x (- w / 2)) eqn:A;
      [apply Qeq_bool_iff in A; destruct Hp as [<- | []]; cbn [vx vy vz];
       split; [reflexivity | left; exact A]|].
    destruct (Qeq_bool x (w / 2)) eqn:B;
      [apply Qeq_bool_iff in B; destruct Hp as [<- | []]; cbn [vx vy vz];
       split; [reflexivity | right; left; exact B]|].
    destruct (Qeq_bool z (- d / 2)) eqn:C;
      [apply Qeq_bool_iff in C; destruct Hp as [<- | []]; cbn [vx vy vz];
       split; [reflexivity | right; right; left; exact C]|].
    destruct (Qeq_bool z (d / 2)) eqn:D;
      [apply Qeq_bool_iff in D; destruct Hp as [<- | []]; cbn [vx vy vz];
       split; [reflexivity | right; right; right; exact D]|].
    contradiction.
Qed.

End FarmFacts.
